(** * torch_bfn.networks: a shallow embedding of the Bayesian-flow networks

    The development follows [src/torch_bfn/networks.py].  Tensors are modelled
    by their shape together with an uninterpreted numerical content; every
    torch kernel is an uninterpreted function of its arguments (class
    [Torch]), so that all statements hold for every numerical semantics of the
    kernels.  Shapes, exceptions, the random generator, the trace of executed
    sub-modules and the skip stack are modelled concretely.

    Python floats that steer control flow (dropout probabilities, guidance
    scale, rescale factor) are rationals; the comparisons the code performs on
    them ([== 1.0], [== 0.0], [> 0.0], [< 1 - p]) are exact at the literals
    the statements below use. *)

From Stdlib Require Import String Ascii DecimalString.
From Stdlib Require Import List Arith ZArith QArith Bool Lia.
Import ListNotations.
Close Scope Q_scope.
Open Scope string_scope.
Open Scope list_scope.
Open Scope nat_scope.

Set Implicit Arguments.

(** ** Exceptions and results *)

Inductive Exn : Type :=
| ValueError (msg : string)
| AssertionError (msg : string)
| IndexError (msg : string)
| ZeroDivisionError (msg : string)
| RuntimeError (msg : string)
| EinopsError (msg : string)
| AttributeError (msg : string)
| NotImplementedError (msg : string).

Inductive Result (A : Type) : Type :=
| Ok (a : A)
| Raise (e : Exn).
Arguments Raise {A} e.

Definition rbind {A B : Type} (r : Result A) (k : A -> Result B) : Result B :=
  match r with
  | Ok a => k a
  | Raise e => Raise e
  end.

Notation "'let?' x ':=' r 'in' k" := (rbind r (fun x => k))
  (at level 10, x pattern, r at level 100, k at level 200).

(** ** The torch interface *)

(** An argument of a kernel: an integer or float attribute, a shape, or a
    tensor (shape and content). *)
Inductive Arg (V : Type) : Type :=
| AInt (n : Z)
| AFloat (q : Q)
| AShape (s : list nat)
| ATensor (s : list nat) (v : V).
Arguments AInt {V} n.
Arguments AFloat {V} q.
Arguments AShape {V} s.

(** [AttentionConfig] (namedtuple, line 480). *)
Record AttentionConfig : Type := mkAttentionConfig {
  enable_flash : bool;
  enable_math : bool;
  enable_mem_efficient : bool
}.

(** What the code asks of the machine it runs on: [t.__version__],
    [t.cuda.is_available()], [t.cuda.get_device_properties], the device of
    the tensors of a call ([q.is_cuda]) and whether
    [F.scaled_dot_product_attention] finds a kernel among those a
    configuration enables. *)
Record Platform : Type := mkPlatform {
  torch_version : string;
  cuda_is_available : bool;
  device_major : nat;
  device_minor : nat;
  is_cuda : bool;
  sdp_kernel_found : AttentionConfig -> bool
}.

Class Torch : Type := {
  (** numerical content of a floating-point tensor *)
  V : Type;
  (** a deterministic kernel, by its torch name, applied to its arguments *)
  kernel : string -> list (Arg V) -> V;
  (** state of the default random generator *)
  RNG : Type;
  (** one raw draw of the generator *)
  rng_next : RNG -> N * RNG;
  (** a random kernel ([randn], an initialiser, a dropout mask) *)
  rng_kernel : string -> list (Arg V) -> RNG -> V * RNG;
  (** [packaging.version] *)
  Version : Type;
  version_parse : string -> Version;
  version_lt : Version -> Version -> bool;
  platform : Platform
}.

(** ** Python helpers *)

Definition string_of_nat (n : nat) : string := NilEmpty.string_of_uint (Nat.to_uint n).

Fixpoint join (sep : string) (l : list string) : string :=
  match l with
  | [] => ""
  | [a] => a
  | a :: l' => a ++ sep ++ join sep l'
  end.

(** [str(t.shape)], e.g. ["torch.Size([4, 2])"]. *)
Definition string_of_size (s : list nat) : string :=
  "torch.Size([" ++ join ", " (map string_of_nat s) ++ "])".

Definition list_prod (l : list nat) : nat := fold_right Nat.mul 1 l.

Fixpoint shape_eqb (a b : list nat) : bool :=
  match a, b with
  | [], [] => true
  | x :: a', y :: b' => (x =? y) && shape_eqb a' b'
  | _, _ => false
  end.

Definition Qltb (a b : Q) : bool := negb (Qle_bool b a).

(** Modelled from the spec: [torch_bfn.utils.exists] and
    [torch_bfn.utils.default] are not among the sources.  Spec 4.2:
    "Effective dropout probability is the caller-supplied override if given,
    else the network's configured default"; absence is [None]. *)
Definition exists_ {A : Type} (v : option A) : bool :=
  match v with
  | Some _ => true
  | None => false
  end.

Definition default {A : Type} (v : option A) (d : A) : A :=
  match v with
  | Some a => a
  | None => d
  end.

(** A Python index or dimension that may be negative, wrapped against [n]. *)
Definition wrap_dim (d : Z) (n : nat) : Result nat :=
  if (0 <=? d)%Z && (d <? Z.of_nat n)%Z then Ok (Z.to_nat d)
  else if (d <? 0)%Z && (- Z.of_nat n <=? d)%Z then Ok (Z.to_nat (Z.of_nat n + d))
  else Raise (IndexError "Dimension out of range").

(** ** Shapes *)

Definition bdim (x y : nat) : Result nat :=
  if x =? y then Ok x
  else if x =? 1 then Ok y
  else if y =? 1 then Ok x
  else Raise (RuntimeError "The size of tensor a must match the size of tensor b").

Fixpoint broadcast_rev (a b : list nat) : Result (list nat) :=
  match a, b with
  | [], _ => Ok b
  | _, [] => Ok a
  | x :: a', y :: b' =>
      let? d := bdim x y in
      let? r := broadcast_rev a' b' in
      Ok (d :: r)
  end.

(** Broadcasting aligns shapes at their last dimension. *)
Definition broadcast_shapes (a b : list nat) : Result (list nat) :=
  let? r := broadcast_rev (rev a) (rev b) in Ok (rev r).

Fixpoint set_nth (i : nat) (v : nat) (s : list nat) : list nat :=
  match s, i with
  | [], _ => []
  | _ :: s', 0 => v :: s'
  | x :: s', S i' => x :: set_nth i' v s'
  end.

(** [torch.cat] of two shapes along [dim]. *)
Fixpoint cat2 (dim : nat) (a b : list nat) {struct a} : Result (list nat) :=
  match a, b with
  | [], [] => Raise (IndexError "Dimension out of range")
  | x :: a', y :: b' =>
      match dim with
      | 0 =>
          if shape_eqb a' b' then Ok ((x + y) :: a')
          else Raise (RuntimeError "Sizes of tensors must match except in dimension")
      | S d =>
          if x =? y then let? r := cat2 d a' b' in Ok (x :: r)
          else Raise (RuntimeError "Sizes of tensors must match except in dimension")
      end
  | _, _ => Raise (RuntimeError "Tensors must have same number of dimensions")
  end.

(** The chunk sizes of [torch.chunk(chunks)] over a dimension of [size]
    (ATen, [chunk] and [split]). *)
Definition chunk_sizes (size chunks : nat) : list nat :=
  let split_size := (size + chunks - 1) / chunks in
  if split_size =? 0 then repeat 0 chunks
  else
    let num := Nat.max ((size + split_size - 1) / split_size) 1 in
    repeat split_size (num - 1) ++ [split_size - (split_size * num - size)].

(** [keepdim=True] reduction over [dims]; an empty [dims] reduces every
    dimension. *)
Fixpoint reduce_keepdim_from (i : nat) (dims s : list nat) : list nat :=
  match s with
  | [] => []
  | d :: s' =>
      (if existsb (Nat.eqb i) dims then 1 else d) :: reduce_keepdim_from (S i) dims s'
  end.

Definition reduce_keepdim (dims s : list nat) : list nat :=
  match dims with
  | [] => map (fun _ => 1) s
  | _ => reduce_keepdim_from 0 dims s
  end.

(** A constructor argument that is one value or a tuple of values. *)
Inductive TupleOr (A : Type) : Type :=
| Scalar (a : A)
| Tuple (l : list A).

(** Modelled from the spec: [torch_bfn.utils.cast_tuple] is not among the
    sources.  Spec 6: "attention head count and head dimension (scalar or
    per-stage list)": a tuple is kept as it is, a single value is repeated
    once per stage. *)
Definition cast_tuple {A : Type} (t : TupleOr A) (length : nat) : list A :=
  match t with
  | Tuple l => l
  | Scalar a => repeat a length
  end.

(** [zip] of four sequences stops at the shortest. *)
Fixpoint zip4 {A B C D : Type} (la : list A) (lb : list B) (lc : list C) (ld : list D)
  : list (A * B * C * D) :=
  match la, lb, lc, ld with
  | a :: la', b :: lb', c :: lc', d :: ld' => (a, b, c, d) :: zip4 la' lb' lc' ld'
  | _, _, _, _ => []
  end.

(** A tensor of integer labels. *)
Record LongTensor : Type := mkLong {
  lshape : list nat;
  ldata : list Z
}.

(** Trace of what a call executes: every sub-module entered (by class
    name), every [h.append] and [h.pop] on the skip stack, and what
    [print_once] printed. *)
Inductive Event : Type :=
| EvModule (cls : string)
| EvAppend
| EvPop
| EvPrint (msg : string).

Section Model.
Context {T : Torch}.

(** ** Tensors *)

Record Tensor : Type := mkTensor {
  shape : list nat;
  val : V
}.

Definition ndim (t : Tensor) : nat := length (shape t).

Definition targ (t : Tensor) : Arg V := ATensor (shape t) (val t).

(** The tensor of shape [s] that kernel [f] computes from [args]. *)
Definition apply (s : list nat) (f : string) (args : list (Arg V)) : Tensor :=
  mkTensor s (kernel f args).

Definition pointwise (f : string) (x : Tensor) : Tensor :=
  apply (shape x) f [targ x].

Definition scalar_op (f : string) (x : Tensor) (q : Q) : Tensor :=
  apply (shape x) f [targ x; AFloat q].

Definition binary (f : string) (x y : Tensor) : Result Tensor :=
  let? s := broadcast_shapes (shape x) (shape y) in
  Ok (apply s f [targ x; targ y]).

Definition clone (x : Tensor) : Tensor := pointwise "clone" x.

(** [x.shape[0]] *)
Definition shape0 (x : Tensor) : Result nat :=
  match shape x with
  | b :: _ => Ok b
  | [] => Raise (IndexError "tuple index out of range")
  end.

(** [x[:, None]] *)
Definition unsqueeze1 (x : Tensor) : Result Tensor :=
  match shape x with
  | n :: s => Ok (apply (n :: 1 :: s) "unsqueeze" [targ x; AInt 1])
  | [] => Raise (IndexError "too many indices for tensor of dimension 0")
  end.

(** [x[None, :]] *)
Definition unsqueeze0 (x : Tensor) : Result Tensor :=
  match shape x with
  | _ :: _ => Ok (apply (1 :: shape x) "unsqueeze" [targ x; AInt 0])
  | [] => Raise (IndexError "too many indices for tensor of dimension 0")
  end.

(** [x[..., None, None]] *)
Definition unsqueeze_last2 (x : Tensor) : Tensor :=
  apply (shape x ++ [1; 1]) "unsqueeze_last2" [targ x].

(** [time.expand(batch)] for a tensor of shape (1,). *)
Definition expand1 (x : Tensor) (batch : nat) : Tensor :=
  apply [batch] "expand" [targ x; AShape [batch]].

Definition is_legacy_empty (s : list nat) : bool :=
  match s with
  | [0] => true
  | _ => false
  end.

Fixpoint cat_shapes (dim : nat) (acc : list nat) (ss : list (list nat)) : Result (list nat) :=
  match ss with
  | [] => Ok acc
  | s :: ss' => let? acc' := cat2 dim acc s in cat_shapes dim acc' ss'
  end.

(** [t.cat(ts, dim)]: one-dimensional empty tensors are skipped, the rest
    must agree outside [dim]. *)
Definition cat (ts : list Tensor) (dim : Z) : Result Tensor :=
  match filter (fun t => negb (is_legacy_empty (shape t))) ts with
  | [] =>
      match ts with
      | [] => Raise (RuntimeError "torch.cat(): expected a non-empty list of Tensors")
      | _ => Ok (apply [0] "cat" (AInt dim :: map targ ts))
      end
  | t0 :: rest =>
      let? d := wrap_dim dim (ndim t0) in
      let? s := cat_shapes d (shape t0) (map shape rest) in
      Ok (apply s "cat" (AInt dim :: map targ ts))
  end.

Fixpoint chunks_from (x : Tensor) (chunks : nat) (dim : nat) (i : nat) (sizes : list nat)
  : list Tensor :=
  match sizes with
  | [] => []
  | n :: sizes' =>
      apply (set_nth dim n (shape x)) "chunk"
        [targ x; AInt (Z.of_nat chunks); AInt (Z.of_nat dim); AInt (Z.of_nat i)]
      :: chunks_from x chunks dim (S i) sizes'
  end.

(** [x.chunk(chunks, dim)] *)
Definition chunk (x : Tensor) (chunks : nat) (dim : Z) : Result (list Tensor) :=
  match shape x with
  | [] => Raise (RuntimeError "chunk expects at least a 1-dimensional tensor")
  | _ =>
      let? d := wrap_dim dim (ndim x) in
      Ok (chunks_from x chunks d 0 (chunk_sizes (nth d (shape x) 0) chunks))
  end.

(** [a, b = ts] *)
Definition unpack2 {A : Type} (ts : list A) : Result (A * A) :=
  match ts with
  | [a; b] => Ok (a, b)
  | [] | [_] => Raise (ValueError "not enough values to unpack (expected 2)")
  | _ => Raise (ValueError "too many values to unpack (expected 2)")
  end.

(** [a, b, c = ts] *)
Definition unpack3 {A : Type} (ts : list A) : Result (A * A * A) :=
  match ts with
  | [a; b; c] => Ok (a, b, c)
  | [] | [_] | [_; _] => Raise (ValueError "not enough values to unpack (expected 3)")
  | _ => Raise (ValueError "too many values to unpack (expected 3)")
  end.

(** [t.std(x, dim=dims, keepdim=True)] *)
Definition std_keepdim (x : Tensor) (dims : list nat) : Result Tensor :=
  if forallb (fun d => d <? ndim x) dims
  then Ok (apply (reduce_keepdim dims (shape x)) "std" [targ x; AShape dims])
  else Raise (IndexError "Dimension out of range").

(** ** Class embeddings, row by row

    The result of an embedding lookup keeps its rows apart: row [i] is the
    embedding of label [i].  [t.where(keep_mask[:, None], ...)] selects whole
    rows, so a row is atomic. *)

Record Rows : Type := mkRows {
  rshape : list nat;      (* shape of the label tensor *)
  rwidth : nat;           (* embedding dimension *)
  rrows : list V
}.

Definition tensor_of_rows (r : Rows) : Tensor :=
  apply (rshape r ++ [rwidth r]) "stack" (map (ATensor [rwidth r]) (rrows r)).

Fixpoint map2 {A B C : Type} (f : A -> B -> C) (l : list A) (l' : list B) : list C :=
  match l, l' with
  | a :: l1, b :: l1' => f a b :: map2 f l1 l1'
  | _, _ => []
  end.

(** One slice of [t.where(keep_mask[:, None], a, null.expand(batch, -1))]
    along the batch axis: [keep_mask] has [batch] entries, [a] has [n] rows;
    the two sizes broadcast. *)
Definition where1 (keep_mask : list bool) (a : list V) (null : V) : Result (list V) :=
  let batch := length keep_mask in
  let n := length a in
  if n =? batch then Ok (map2 (fun (m : bool) r => if m then r else null) keep_mask a)
  else if n =? 1 then Ok (map (fun m : bool => if m then hd null a else null) keep_mask)
  else if batch =? 1 then Ok (map (fun r => if hd false keep_mask then r else null) a)
  else Raise (RuntimeError "The size of tensor a must match the size of tensor b at non-singleton dimension 0").

Fixpoint where_slices (keep_mask : list bool) (n : nat) (a : list V) (null : V) (slices : nat)
  : Result (list V) :=
  match slices with
  | 0 => Ok []
  | S k =>
      let? r1 := where1 keep_mask (firstn n a) null in
      let? r2 := where_slices keep_mask n (skipn n a) null k in
      Ok (r1 ++ r2)
  end.

(** [t.where(keep_mask[:, None], cond_emb, null_classes_emb)] with
    [null_classes_emb = self.null_classes_emb.expand(batch, -1)]. *)
Definition where_rows (keep_mask : list bool) (cond_emb : Rows) (null : V) : Result Rows :=
  let batch := length keep_mask in
  match rev (rshape cond_emb) with
  | [] =>
      let? rs := where1 keep_mask (rrows cond_emb) null in
      Ok (mkRows [batch] (rwidth cond_emb) rs)
  | n :: outer =>
      let? rs := where_slices keep_mask n (rrows cond_emb) null (list_prod outer) in
      Ok (mkRows (rev ((if batch =? 1 then n else batch) :: outer)) (rwidth cond_emb) rs)
  end.

(** ** State of a call and the monad of module code

    [net] is the module object the call runs on (its parameters and
    buffers), [training] its mode flag, [rng] the default generator and
    [trace] what the call did so far.  The state survives an exception. *)

Record State (Net : Type) : Type := mkState {
  net : Net;
  training : bool;
  rng : RNG;
  trace : list Event
}.

Definition M (Net A : Type) : Type := State Net -> Result A * State Net.

Definition ret {Net A : Type} (a : A) : M Net A := fun st => (Ok a, st).

Definition bind {Net A B : Type} (m : M Net A) (k : A -> M Net B) : M Net B :=
  fun st =>
    match m st with
    | (Ok a, st') => k a st'
    | (Raise e, st') => (Raise e, st')
    end.

Definition raise {Net A : Type} (e : Exn) : M Net A := fun st => (Raise e, st).

Definition lift {Net A : Type} (r : Result A) : M Net A := fun st => (r, st).

Definition log {Net : Type} (ev : Event) : M Net unit :=
  fun st => (Ok tt, mkState (net st) (training st) (rng st) (trace st ++ [ev])).

Definition get_self {Net : Type} : M Net Net := fun st => (Ok (net st), st).

Definition is_training {Net : Type} : M Net bool := fun st => (Ok (training st), st).

Definition draw {Net : Type} : M Net N :=
  fun st =>
    let (n, g) := rng_next (rng st) in
    (Ok n, mkState (net st) (training st) g (trace st)).

Definition random {Net : Type} (f : string) (args : list (Arg V)) : M Net V :=
  fun st =>
    let (v, g) := rng_kernel f args (rng st) in
    (Ok v, mkState (net st) (training st) g (trace st)).

End Model.

Notation "x <- m ;; k" := (bind m (fun x => k))
  (at level 61, m at next level, right associativity).
Notation "' p <- m ;; k" := (bind m (fun p => k))
  (at level 61, p pattern, m at next level, right associativity).
Notation "m ;; k" := (bind m (fun _ => k))
  (at level 61, right associativity).

Section Layers.
Context {T : Torch} {Net : Type}.

(** Entering a sub-module ([nn.Module.__call__]). *)
Definition enter (cls : string) : M Net unit := log (EvModule cls).

Fixpoint repeatM {A : Type} (n : nat) (m : M Net A) : M Net (list A) :=
  match n with
  | 0 => ret []
  | S k => a <- m;; l <- repeatM k m;; ret (a :: l)
  end.

(** A parameter filled by a random initialiser, and one filled with a
    constant. *)
Definition new_param (init : string) (s : list nat) : M Net Tensor :=
  v <- random init [AShape s];; ret (mkTensor s v).

Definition const_param (f : string) (s : list nat) : Tensor := apply s f [AShape s].

Definition opt_targ (b : option Tensor) : list (Arg V) :=
  match b with
  | Some t => [targ t]
  | None => []
  end.

(** [t.rand((batch,))]: uniform on [0, 1), 24 random bits per entry. *)
Definition unit_interval (n : N) : Q := Qmake (Z.of_N (n mod 16777216)) 16777216.

Definition t_rand (batch : nat) : M Net (list Q) :=
  ds <- repeatM batch draw;; ret (map unit_interval ds).

(** [t.randint(0, high, (batch,))] *)
Definition t_randint (high : nat) (batch : nat) : M Net LongTensor :=
  if high =? 0 then raise (RuntimeError "random_ expects 'from' to be less than 'to'")
  else
    ds <- repeatM batch draw;;
    ret (mkLong [batch] (map (fun d => Z.of_N (d mod N.of_nat high)) ds)).

(** *** nn.Linear *)

Record Linear : Type := mkLinear {
  in_features : nat;
  out_features : nat;
  weight : Tensor;
  bias : option Tensor
}.

Definition Linear_init (i o : nat) : M Net Linear :=
  w <- new_param "kaiming_uniform_" [o; i];;
  b <- new_param "uniform_" [o];;
  ret (mkLinear i o w (Some b)).

Definition Linear_forward (self : Linear) (x : Tensor) : M Net Tensor :=
  enter "Linear";;
  match rev (shape x) with
  | [] => raise (RuntimeError "both arguments to matmul need to be at least 1D")
  | d :: r =>
      if d =? in_features self
      then ret (apply (rev (out_features self :: r)) "linear"
                  (targ x :: targ (weight self) :: opt_targ (bias self)))
      else raise (RuntimeError "mat1 and mat2 shapes cannot be multiplied")
  end.

(** *** nn.LayerNorm *)

Record LayerNorm : Type := mkLayerNorm {
  normalized_shape : nat;
  ln_weight : Tensor;
  ln_bias : Tensor
}.

Definition LayerNorm_init (n : nat) : M Net LayerNorm :=
  ret (mkLayerNorm n (const_param "ones" [n]) (const_param "zeros" [n])).

Definition LayerNorm_forward (self : LayerNorm) (x : Tensor) : M Net Tensor :=
  enter "LayerNorm";;
  match rev (shape x) with
  | [] => raise (RuntimeError "Given normalized_shape, expected input with matching shape")
  | d :: _ =>
      if d =? normalized_shape self
      then ret (apply (shape x) "layer_norm" [targ x; targ (ln_weight self); targ (ln_bias self)])
      else raise (RuntimeError "Given normalized_shape, expected input with matching shape")
  end.

(** *** Activations and nn.Identity *)

Definition SiLU_forward (x : Tensor) : M Net Tensor :=
  enter "SiLU";; ret (pointwise "silu" x).

Definition GELU_forward (x : Tensor) : M Net Tensor :=
  enter "GELU";; ret (pointwise "gelu" x).

Definition Identity_forward (x : Tensor) : M Net Tensor :=
  enter "Identity";; ret x.

(** *** nn.Dropout *)

Record Dropout : Type := mkDropout {
  p_drop : Q
}.

Definition bad_probability (q : Q) : bool := Qltb q 0 || Qltb 1 q.

Definition Dropout_init (q : Q) : M Net Dropout :=
  if bad_probability q
  then raise (ValueError "dropout probability has to be between 0 and 1")
  else ret (mkDropout q).

(** [F.dropout]: the identity unless training with [p > 0] on a non-empty
    tensor; zeros when [p = 1]; otherwise a Bernoulli mask from the
    generator. *)
Definition Dropout_forward (self : Dropout) (x : Tensor) : M Net Tensor :=
  enter "Dropout";;
  if bad_probability (p_drop self)
  then raise (ValueError "dropout probability has to be between 0 and 1")
  else
    tr <- is_training;;
    if tr && Qltb 0 (p_drop self) && negb (list_prod (shape x) =? 0)
    then
      if Qeq_bool (p_drop self) 1 then ret (scalar_op "mul" x 0)
      else v <- random "dropout" [targ x; AFloat (p_drop self)];; ret (mkTensor (shape x) v)
    else ret x.

(** *** nn.Embedding *)

Record Embedding : Type := mkEmbedding {
  embedding_dim : nat;
  emb_rows : list V      (* one row per class: [num_embeddings] rows *)
}.

Definition num_embeddings (e : Embedding) : nat := length (emb_rows e).

Definition Embedding_init (num dim : nat) : M Net Embedding :=
  rows <- repeatM num (random "normal_" [AShape [dim]]);;
  ret (mkEmbedding dim rows).

Definition lookup (rows : list V) (l : Z) : Result V :=
  if (l <? 0)%Z then Raise (IndexError "index out of range in self")
  else
    match nth_error rows (Z.to_nat l) with
    | Some r => Ok r
    | None => Raise (IndexError "index out of range in self")
    end.

Fixpoint lookup_all (rows : list V) (ls : list Z) : Result (list V) :=
  match ls with
  | [] => Ok []
  | l :: ls' =>
      let? r := lookup rows l in
      let? rs := lookup_all rows ls' in
      Ok (r :: rs)
  end.

Definition Embedding_forward (self : Embedding) (idx : LongTensor) : M Net Rows :=
  enter "Embedding";;
  rs <- lift (lookup_all (emb_rows self) (ldata idx));;
  ret (mkRows (lshape idx) (embedding_dim self) rs).

(** *** SinusoidalPosEmb (line 124) *)

Definition SinusoidalPosEmb_forward (dim : nat) (x : Tensor) : M Net Tensor :=
  enter "SinusoidalPosEmb";;
  let half_dim := dim / 2 in
  (* emb = math.log(10000) / (half_dim - 1) *)
  (if half_dim =? 1 then raise (ZeroDivisionError "float division by zero") else ret tt);;
  let emb := apply [half_dim] "exp_arange_scaled" [AInt (Z.of_nat half_dim)] in
  a <- lift (unsqueeze1 x);;
  b <- lift (unsqueeze0 emb);;
  emb <- lift (binary "mul" a b);;
  lift (cat [pointwise "sin" emb; pointwise "cos" emb] (-1)).

(** *** RandomOrLearnedSinusoidalPosEmb (line 138) *)

Record RandomOrLearnedSinusoidalPosEmb : Type := mkRandomOrLearnedSinusoidalPosEmb {
  weights : Tensor;
  requires_grad : bool
}.

Definition RandomOrLearnedSinusoidalPosEmb_init (dim : nat) (is_random : bool)
  : M Net RandomOrLearnedSinusoidalPosEmb :=
  if dim mod 2 =? 0 then
    let half_dim := dim / 2 in
    w <- new_param "randn" [half_dim];;
    ret (mkRandomOrLearnedSinusoidalPosEmb w (negb is_random))
  else raise (AssertionError "Sinusoidal positional embedding dim must be even").

Definition RandomOrLearnedSinusoidalPosEmb_forward
  (self : RandomOrLearnedSinusoidalPosEmb) (x : Tensor) : M Net Tensor :=
  enter "RandomOrLearnedSinusoidalPosEmb";;
  w <- lift (unsqueeze0 (weights self));;
  freqs <- lift (binary "mul" x w);;
  let freqs := pointwise "mul_math_pi" (scalar_op "mul" freqs 2) in
  fouriered <- lift (cat [pointwise "sin" freqs; pointwise "cos" freqs] (-1));;
  lift (cat [x; fouriered] (-1)).

(** *** nn.Conv2d (stride 1) *)

Record Conv2d : Type := mkConv2d {
  in_channels : nat;
  out_channels : nat;
  kernel_size : nat;
  padding : nat;
  conv_weight : Tensor;
  conv_bias : option Tensor
}.

Definition Conv2d_init (i o k pad : nat) (with_bias : bool) : M Net Conv2d :=
  w <- new_param "kaiming_uniform_" [o; i; k; k];;
  if with_bias
  then b <- new_param "uniform_" [o];; ret (mkConv2d i o k pad w (Some b))
  else ret (mkConv2d i o k pad w None).

Definition conv_out (h k pad : nat) : Result nat :=
  if k <=? h + 2 * pad then Ok (h + 2 * pad - k + 1)
  else Raise (RuntimeError "Kernel size can't be greater than actual input size").

Definition Conv2d_forward (self : Conv2d) (x : Tensor) : M Net Tensor :=
  enter "Conv2d";;
  let run (lead : list nat) (c h w : nat) : M Net Tensor :=
    if c =? in_channels self then
      h' <- lift (conv_out h (kernel_size self) (padding self));;
      w' <- lift (conv_out w (kernel_size self) (padding self));;
      ret (apply (lead ++ [out_channels self; h'; w']) "conv2d"
             (targ x :: targ (conv_weight self) :: opt_targ (conv_bias self)))
    else raise (RuntimeError "expected input to have in_channels channels") in
  match shape x with
  | [n; c; h; w] => run [n] c h w
  | [c; h; w] => run [] c h w
  | _ => raise (RuntimeError "Expected 3D (unbatched) or 4D (batched) input to conv2d")
  end.

(** *** nn.GroupNorm *)

(** What CPython (3.11 and later) says when the right operand of [%] is
    zero; earlier versions say "integer division or modulo by zero". *)
Definition modulo_message : string := "integer modulo by zero".

(** [str(size)] of a Python list of integers, e.g. ["[1, 8, 1, 1]"]. *)
Definition string_of_list (l : list nat) : string :=
  "[" ++ join ", " (map string_of_nat l) ++ "]".

(** The message of [_verify_batch_size], which [F.group_norm] calls on
    [[N * C // num_groups, num_groups, *spatial]]. *)
Definition one_value_message (size : list nat) : string :=
  "Expected more than 1 value per channel when training, got input size "
  ++ string_of_list size.

Record GroupNorm : Type := mkGroupNorm {
  num_groups : nat;
  num_channels : nat;
  gn_weight : Tensor;
  gn_bias : Tensor
}.

Definition GroupNorm_init (groups channels : nat) : M Net GroupNorm :=
  (* if num_channels % num_groups != 0: raise ValueError *)
  if groups =? 0 then raise (ZeroDivisionError modulo_message)
  else if channels mod groups =? 0
  then ret (mkGroupNorm groups channels (const_param "ones" [channels])
              (const_param "zeros" [channels]))
  else raise (ValueError "num_channels must be divisible by num_groups").

(** [F.group_norm]: at least two dimensions; [_verify_batch_size] refuses
    an input with a single value per group; the channel count is that of
    the weight and a multiple of the group count. *)
Definition GroupNorm_forward (self : GroupNorm) (x : Tensor) : M Net Tensor :=
  enter "GroupNorm";;
  match shape x with
  | n :: c :: spatial =>
      if num_groups self =? 0
      then raise (ZeroDivisionError "integer division or modulo by zero")
      else if (n * c / num_groups self) * list_prod spatial =? 1
      then raise (ValueError
                    (one_value_message (n * c / num_groups self :: num_groups self :: spatial)))
      else if negb (c mod num_groups self =? 0)
      then raise (RuntimeError "Expected number of channels in input to be divisible by num_groups")
      else if negb (c =? num_channels self)
      then raise (RuntimeError "Expected weight to be a vector of size equal to the number of channels in input")
      else ret (apply (shape x) "group_norm"
                  [targ x; AInt (Z.of_nat (num_groups self)); targ (gn_weight self);
                   targ (gn_bias self)])
  | _ => raise (RuntimeError "Expected at least 2 dimensions for input tensor")
  end.

(** *** nn.Upsample(scale_factor=2, mode="nearest") *)

Definition Upsample_forward (x : Tensor) : M Net Tensor :=
  enter "Upsample";;
  match shape x with
  | n :: c :: spatial =>
      if (1 <=? length spatial) && (length spatial <=? 3)
      then ret (apply (n :: c :: map (Nat.mul 2) spatial) "upsample_nearest" [targ x])
      else raise (NotImplementedError "Input Error: Only 3D, 4D and 5D input Tensors supported")
  | _ => raise (NotImplementedError "Input Error: Only 3D, 4D and 5D input Tensors supported")
  end.

(** *** Rearrange("b c (h p1) (w p2) -> b (c p1 p2) h w", p1=2, p2=2) *)

Definition Rearrange_forward (x : Tensor) : M Net Tensor :=
  enter "Rearrange";;
  match shape x with
  | [b; c; h; w] =>
      if (h mod 2 =? 0) && (w mod 2 =? 0)
      then ret (apply [b; c * 2 * 2; h / 2; w / 2] "rearrange_space_to_depth" [targ x])
      else raise (EinopsError "Shape mismatch, can't divide axis of length by 2")
  | _ => raise (EinopsError "Wrong shape: expected 4 dims")
  end.

(** *** RMSNorm (line 471) *)

Record RMSNorm : Type := mkRMSNorm {
  g : Tensor
}.

Definition RMSNorm_init (dim : nat) : M Net RMSNorm :=
  ret (mkRMSNorm (const_param "ones" [1; dim; 1; 1])).

Definition RMSNorm_forward (self : RMSNorm) (x : Tensor) : M Net Tensor :=
  enter "RMSNorm";;
  match shape x with
  | _ :: c :: _ =>
      let n := apply (shape x) "normalize" [targ x; AInt 1] in
      y <- lift (binary "mul" n (g self));;
      ret (apply (shape y) "mul_sqrt" [targ y; AInt (Z.of_nat c)])
  | _ => raise (IndexError "Dimension out of range")
  end.

(** *** nn.Sequential over the modules the networks put in one *)

Inductive Module : Type :=
| MLinear (m : Linear)
| MGELU
| MSiLU
| MSinusoidalPosEmb (dim : nat)
| MRandomOrLearnedSinusoidalPosEmb (m : RandomOrLearnedSinusoidalPosEmb)
| MConv2d (m : Conv2d)
| MUpsample
| MRearrange
| MRMSNorm (m : RMSNorm).

Definition Module_forward (m : Module) (x : Tensor) : M Net Tensor :=
  match m with
  | MLinear l => Linear_forward l x
  | MGELU => GELU_forward x
  | MSiLU => SiLU_forward x
  | MSinusoidalPosEmb dim => SinusoidalPosEmb_forward dim x
  | MRandomOrLearnedSinusoidalPosEmb e => RandomOrLearnedSinusoidalPosEmb_forward e x
  | MConv2d c => Conv2d_forward c x
  | MUpsample => Upsample_forward x
  | MRearrange => Rearrange_forward x
  | MRMSNorm n => RMSNorm_forward n x
  end.

Definition Sequential : Type := list Module.

Fixpoint Sequential_run (ms : Sequential) (x : Tensor) : M Net Tensor :=
  match ms with
  | [] => ret x
  | m :: ms' => y <- Module_forward m x;; Sequential_run ms' y
  end.

Definition Sequential_forward (ms : Sequential) (x : Tensor) : M Net Tensor :=
  enter "Sequential";; Sequential_run ms x.

(** *** LinearBlock (line 158) *)

Record LinearBlock : Type := mkLinearBlock {
  lb_proj : Linear;
  lb_norm : LayerNorm;
  lb_dropout : Dropout
}.

Definition LinearBlock_init (in_dim out_dim : nat) (dropout_p : Q) : M Net LinearBlock :=
  proj <- Linear_init in_dim out_dim;;
  norm <- LayerNorm_init out_dim;;
  dropout <- Dropout_init dropout_p;;
  ret (mkLinearBlock proj norm dropout).

(** [x * (scale + 1) + shift] with [scale, shift = scale_shift]. *)
Definition modulate (x : Tensor) (scale_shift : option (list Tensor)) : M Net Tensor :=
  match scale_shift with
  | Some ss =>
      '(scale, shift) <- lift (unpack2 ss);;
      y <- lift (binary "mul" x (scalar_op "add" scale 1));;
      lift (binary "add" y shift)
  | None => ret x
  end.

Definition LinearBlock_forward (self : LinearBlock) (x : Tensor)
  (scale_shift : option (list Tensor)) : M Net Tensor :=
  enter "LinearBlock";;
  x <- Linear_forward (lb_proj self) x;;
  x <- LayerNorm_forward (lb_norm self) x;;
  x <- modulate x scale_shift;;
  x <- SiLU_forward x;;
  Dropout_forward (lb_dropout self) x.

(** *** LinearResnetBlock (line 179) *)

Record LinearResnetBlock : Type := mkLinearResnetBlock {
  lrb_mlp : Sequential;
  lrb_block1 : LinearBlock;
  lrb_block2 : LinearBlock;
  lrb_res_proj : option Linear      (* [None] is [nn.Identity()] *)
}.

Definition LinearResnetBlock_init (in_dim out_dim time_emb_dim : nat)
  (cond_emb_dim : option nat) (dropout_p : Q) : M Net LinearResnetBlock :=
  let mlp_dim := time_emb_dim + default cond_emb_dim 0 in
  l <- Linear_init mlp_dim (out_dim * 2);;
  block1 <- LinearBlock_init in_dim out_dim dropout_p;;
  block2 <- LinearBlock_init out_dim out_dim dropout_p;;
  res_proj <- (if negb (in_dim =? out_dim)
               then r <- Linear_init in_dim out_dim;; ret (Some r)
               else ret None);;
  ret (mkLinearResnetBlock [MSiLU; MLinear l] block1 block2 res_proj).

(** [tuple(filter(exists, embs))] *)
Fixpoint filter_exists (embs : list (option Tensor)) : list Tensor :=
  match embs with
  | [] => []
  | Some e :: embs' => e :: filter_exists embs'
  | None :: embs' => filter_exists embs'
  end.

Definition LinearResnetBlock_forward (self : LinearResnetBlock) (x : Tensor)
  (time_emb cond_emb : option Tensor) : M Net Tensor :=
  enter "LinearResnetBlock";;
  scale_shift <-
    (if exists_ time_emb || exists_ cond_emb
     then
       emb <- lift (cat (filter_exists [time_emb; cond_emb]) (-1));;
       emb <- Sequential_forward (lrb_mlp self) emb;;
       ss <- lift (chunk emb 2 (-1));;
       ret (Some ss)
     else ret None);;
  h <- LinearBlock_forward (lrb_block1 self) x scale_shift;;
  h <- LinearBlock_forward (lrb_block2 self) h None;;
  r <- match lrb_res_proj self with
       | Some l => Linear_forward l x
       | None => Identity_forward x
       end;;
  lift (binary "add" h r).

(** *** Class conditioning

    The conditioning blocks of [LinearNetwork.forward] (lines 293-320) and
    of [Unet.forward] (lines 792-821) are the same code up to the attribute
    names ([cond_emb], [cond_mlp] there, [class_emb], [classes_mlp] here);
    they are embedded once.  [Conditioning] holds what [__init__] creates
    when [is_conditional_model] holds. *)

Record Conditioning : Type := mkConditioning {
  cond_dim : nat;
  cond_emb : Embedding;
  null_classes_emb : V;       (* a vector of [embedding_dim cond_emb] entries *)
  cond_mlp : Sequential
}.

Definition Conditioning_init (num_classes dim : nat) : M Net Conditioning :=
  emb <- Embedding_init num_classes dim;;
  null <- random "randn" [AShape [dim]];;
  let cond_embed_dim := dim * 4 in
  l1 <- Linear_init dim cond_embed_dim;;
  l2 <- Linear_init cond_embed_dim cond_embed_dim;;
  ret (mkConditioning num_classes emb null [MLinear l1; MGELU; MLinear l2]).

Definition class_shape_message (batch : nat) (s : list nat) : string :=
  "Class shape should be (" ++ string_of_nat batch ++ ",), not " ++ string_of_size s.

Definition class_conditioning (cm : Conditioning) (self_cond_drop_prob : Q) (batch : nat)
  (cond : option LongTensor) (cond_drop_prob : option Q) : M Net Tensor :=
  '(cond, cond_drop_prob) <-
    match cond with
    | None => c <- t_randint (cond_dim cm) batch;; ret (c, Some 1%Q)
    | Some c => ret (c, cond_drop_prob)
    end;;
  (* Recover from cond of shape [B, 1] instead of [B] *)
  cond <-
    (if 1 <? length (lshape cond)
     then
       if (length (lshape cond) =? 2) && (last (lshape cond) 0 =? 1)
       then ret (mkLong (removelast (lshape cond)) (ldata cond))
       else raise (ValueError (class_shape_message batch (lshape cond)))
     else ret cond);;
  let cond_drop_prob := default cond_drop_prob self_cond_drop_prob in
  cond_emb <- Embedding_forward (cond_emb cm) cond;;
  cond_emb <-
    (if Qltb 0 cond_drop_prob
     then
       us <- t_rand batch;;
       let keep_mask := map (fun u => Qltb u (1 - cond_drop_prob)%Q) us in
       lift (where_rows keep_mask cond_emb (null_classes_emb cm))
     else ret cond_emb);;
  Sequential_forward (cond_mlp cm) (tensor_of_rows cond_emb).

(** *** Block (line 404) *)

Record Block : Type := mkBlock {
  b_proj : Conv2d;
  b_norm : GroupNorm
}.

(** [groups = 1 if out_dim % groups != 0 else groups] *)
Definition Block_groups (out_dim groups : nat) : Result nat :=
  if groups =? 0 then Raise (ZeroDivisionError modulo_message)
  else Ok (if negb (out_dim mod groups =? 0) then 1 else groups).

Definition Block_init (in_dim out_dim groups : nat) : M Net Block :=
  groups <- lift (Block_groups out_dim groups);;
  proj <- Conv2d_init in_dim out_dim 3 1 true;;
  norm <- GroupNorm_init groups out_dim;;
  ret (mkBlock proj norm).

Definition Block_forward (self : Block) (x : Tensor) (scale_shift : option (list Tensor))
  : M Net Tensor :=
  enter "Block";;
  x <- Conv2d_forward (b_proj self) x;;
  x <- GroupNorm_forward (b_norm self) x;;
  x <- modulate x scale_shift;;
  SiLU_forward x.

(** *** ResnetBlock (line 429) *)

Record ResnetBlock : Type := mkResnetBlock {
  rb_mlp : option Sequential;
  rb_block1 : Block;
  rb_block2 : Block;
  rb_res_conv : option Conv2d      (* [None] is [nn.Identity()] *)
}.

Definition ResnetBlock_init (in_dim out_dim : nat) (time_emb_dim class_emb_dim : option nat)
  (groups : nat) : M Net ResnetBlock :=
  let mlp_dim := default time_emb_dim 0 + default class_emb_dim 0 in
  mlp <- (if exists_ time_emb_dim || exists_ class_emb_dim
          then l <- Linear_init mlp_dim (out_dim * 2);; ret (Some [MSiLU; MLinear l])
          else ret None);;
  block1 <- Block_init in_dim out_dim groups;;
  block2 <- Block_init out_dim out_dim groups;;
  res_conv <- (if negb (in_dim =? out_dim)
               then c <- Conv2d_init in_dim out_dim 1 0 true;; ret (Some c)
               else ret None);;
  ret (mkResnetBlock mlp block1 block2 res_conv).

Definition ResnetBlock_forward (self : ResnetBlock) (x : Tensor)
  (time_emb class_emb : option Tensor) : M Net Tensor :=
  enter "ResnetBlock";;
  scale_shift <-
    match rb_mlp self with
    | Some mlp =>
        if exists_ time_emb || exists_ class_emb
        then
          emb <- lift (cat (filter_exists [time_emb; class_emb]) (-1));;
          emb <- Sequential_forward mlp emb;;
          let emb := unsqueeze_last2 emb in
          ss <- lift (chunk emb 2 1);;
          ret (Some ss)
        else ret None
    | None => ret None
    end;;
  h <- Block_forward (rb_block1 self) x scale_shift;;
  h <- Block_forward (rb_block2 self) h None;;
  r <- match rb_res_conv self with
       | Some c => Conv2d_forward c x
       | None => Identity_forward x
       end;;
  lift (binary "add" h r).

(** *** Attend (line 485) *)

Record Attend : Type := mkAttend {
  at_dropout : Q;
  at_attn_dropout : Dropout;
  at_flash : bool;
  at_cpu_config : AttentionConfig;
  at_cuda_config : option AttentionConfig
}.

Definition is_print (msg : string) (ev : Event) : bool :=
  match ev with
  | EvPrint m => String.eqb m msg
  | _ => false
  end.

(** Modelled from the spec: [torch_bfn.utils.print_once] is not among the
    sources.  Spec 9 calls what it prints "a diagnostic notice"; a message
    is printed unless the trace already holds it. *)
Definition print_once (msg : string) : M Net unit :=
  fun st => if existsb (is_print msg) (trace st) then (Ok tt, st) else log (EvPrint msg) st.

Definition flash_message : string := "Flash Attention requires torch>=2.0".

Definition Attend_init (dropout : Q) (flash : bool) : M Net Attend :=
  attn_dropout <- Dropout_init dropout;;
  (if flash && version_lt (version_parse (torch_version platform)) (version_parse "2.0.0")
   then raise (AssertionError flash_message)
   else ret tt);;
  let cpu_config := mkAttentionConfig true true true in
  if negb (cuda_is_available platform) || negb flash
  then ret (mkAttend dropout attn_dropout flash cpu_config None)
  else if (device_major platform =? 8) && (device_minor platform =? 0)
  then
    print_once "A100 detected; using flash attention if input is on CUDA";;
    ret (mkAttend dropout attn_dropout flash cpu_config
           (Some (mkAttentionConfig true false false)))
  else
    print_once "No A100 GPU detected; using math / mem efficient attention if input on CUDA";;
    ret (mkAttend dropout attn_dropout flash cpu_config
           (Some (mkAttentionConfig false true true))).

(** The einsum patterns of the attention modules. *)
Inductive Einsum : Type :=
| bhid_bhjd_bhij
| bhij_bhjd_bhid
| bhdn_bhen_bhde
| bhde_bhdn_bhen.

Definition einsum_name (e : Einsum) : string :=
  match e with
  | bhid_bhjd_bhij => "b h i d, b h j d -> b h i j"
  | bhij_bhjd_bhid => "b h i j, b h j d -> b h i d"
  | bhdn_bhen_bhde => "b h d n, b h e n -> b h d e"
  | bhde_bhdn_bhen => "b h d e, b h d n -> b h e n"
  end.

(** [einsum]: both operands have four dimensions; sizes under one letter
    agree or broadcast. *)
Definition einsum (e : Einsum) (x y : Tensor) : Result Tensor :=
  match shape x, shape y with
  | [b1; h1; x3; x4], [b2; h2; y3; y4] =>
      let? b := bdim b1 b2 in
      let? h := bdim h1 h2 in
      let? s :=
        match e with
        | bhid_bhjd_bhij => let? _ := bdim x4 y4 in Ok [b; h; x3; y3]
        | bhij_bhjd_bhid => let? _ := bdim x4 y3 in Ok [b; h; x3; y4]
        | bhdn_bhen_bhde => let? _ := bdim x4 y4 in Ok [b; h; x3; y3]
        | bhde_bhdn_bhen => let? _ := bdim x3 y3 in Ok [b; h; x4; y4]
        end in
      Ok (apply s (String.append "einsum " (einsum_name e)) [targ x; targ y])
  | _, _ => Raise (RuntimeError "einsum(): the number of subscripts in the equation does not match the number of dimensions")
  end.

Definition softmax (x : Tensor) (dim : Z) : Tensor :=
  apply (shape x) "softmax" [targ x; AInt dim].

(** [F.scaled_dot_product_attention] under the [sdp_kernel] context of a
    configuration, on the four-dimensional tensors [Attention.forward]
    passes. *)
Definition scaled_dot_product_attention (config : AttentionConfig) (dropout_p : Q)
  (q k v : Tensor) : M Net Tensor :=
  match shape q, shape k, shape v with
  | [b1; h1; i; d1], [b2; h2; j2; d2], [b3; h3; j3; e] =>
      if negb (sdp_kernel_found platform config)
      then raise (RuntimeError "No available kernel.")
      else if negb ((d1 =? d2) && (j2 =? j3))
      then raise (RuntimeError "scaled_dot_product_attention: shapes of query, key and value do not match")
      else
        b <- lift (let? b := bdim b1 b2 in bdim b b3);;
        h <- lift (let? h := bdim h1 h2 in bdim h h3);;
        if Qltb 0 dropout_p
        then
          o <- random "scaled_dot_product_attention" [targ q; targ k; targ v; AFloat dropout_p];;
          ret (mkTensor [b; h; i; e] o)
        else ret (apply [b; h; i; e] "scaled_dot_product_attention" [targ q; targ k; targ v])
  | _, _, _ => raise (RuntimeError "scaled_dot_product_attention: expected four-dimensional query, key and value")
  end.

Definition Attend_flash_attn (self : Attend) (q k v : Tensor) : M Net Tensor :=
  (* Check if there is a compatible device for flash attention *)
  config <-
    (if is_cuda platform
     then match at_cuda_config self with
          | Some c => ret c
          | None => raise (AttributeError "'NoneType' object has no attribute '_asdict'")
          end
     else ret (at_cpu_config self));;
  tr <- is_training;;
  scaled_dot_product_attention config (if tr then at_dropout self else 0%Q) q k v.

Definition Attend_forward (self : Attend) (q k v : Tensor) : M Net Tensor :=
  enter "Attend";;
  if at_flash self then Attend_flash_attn self q k v
  else
    (* scale = q.shape[-1] ** -0.5 *)
    d <- match rev (shape q) with
         | d :: _ => ret d
         | [] => raise (IndexError "tuple index out of range")
         end;;
    (if d =? 0 then raise (ZeroDivisionError "0.0 cannot be raised to a negative power")
     else ret tt);;
    (* Similarity *)
    sim <- lift (einsum bhid_bhjd_bhij q k);;
    let sim := apply (shape sim) "mul_rsqrt" [targ sim; AInt (Z.of_nat d)] in
    (* Attention *)
    let attn := softmax sim (-1) in
    attn <- Dropout_forward (at_attn_dropout self) attn;;
    (* Aggregate values *)
    lift (einsum bhij_bhjd_bhid attn v).

(** [b, c, h, w = x.shape] *)
Definition unpack_shape4 (x : Tensor) : Result (nat * nat * nat * nat) :=
  match shape x with
  | [b; c; h; w] => Ok (b, c, h, w)
  | [] | [_] | [_; _] | [_; _; _] => Raise (ValueError "not enough values to unpack (expected 4)")
  | _ => Raise (ValueError "too many values to unpack (expected 4)")
  end.

(** [rearrange(t, "b (h c) x y -> b h c (x y)", h=heads)] when
    [sequence_last], and ["b (h c) x y -> b h (x y) c"] otherwise. *)
Definition rearrange_split_heads (sequence_last : bool) (heads : nat) (t : Tensor)
  : Result Tensor :=
  match shape t with
  | [b; hc; x; y] =>
      if (heads =? 0) || negb (hc mod heads =? 0)
      then Raise (EinopsError "Shape mismatch, can't divide axis of length in chunks")
      else
        let c := hc / heads in
        Ok (apply (if sequence_last then [b; heads; c; x * y] else [b; heads; x * y; c])
              "rearrange_split_heads" [targ t; AInt (Z.of_nat heads)])
  | _ => Raise (EinopsError "Wrong shape: expected 4 dims")
  end.

Fixpoint rmap {A B : Type} (f : A -> Result B) (l : list A) : Result (list B) :=
  match l with
  | [] => Ok []
  | a :: l' =>
      let? b := f a in
      let? bs := rmap f l' in
      Ok (b :: bs)
  end.

(** *** LinearAttention (line 551) *)

Record LinearAttention : Type := mkLinearAttention {
  la_dim_head : nat;       (* [self.scale = dim_head ** -0.5] *)
  la_heads : nat;
  la_norm : RMSNorm;
  la_to_qkv : Conv2d;
  la_to_out : Sequential
}.

Definition LinearAttention_init (dim heads dim_head : nat) : M Net LinearAttention :=
  (if dim_head =? 0 then raise (ZeroDivisionError "0.0 cannot be raised to a negative power")
   else ret tt);;
  let hidden_dim := dim_head * heads in
  norm <- RMSNorm_init dim;;
  to_qkv <- Conv2d_init dim (hidden_dim * 3) 1 0 false;;
  c <- Conv2d_init hidden_dim dim 1 0 true;;
  n <- RMSNorm_init dim;;
  ret (mkLinearAttention dim_head heads norm to_qkv [MConv2d c; MRMSNorm n]).

Definition LinearAttention_forward (self : LinearAttention) (x : Tensor) : M Net Tensor :=
  enter "LinearAttention";;
  '(b, c, h, w) <- lift (unpack_shape4 x);;
  x <- RMSNorm_forward (la_norm self) x;;
  qkv <- Conv2d_forward (la_to_qkv self) x;;
  qkv <- lift (chunk qkv 3 1);;
  qkv <- lift (rmap (rearrange_split_heads true (la_heads self)) qkv);;
  '(q, k, v) <- lift (unpack3 qkv);;
  let q := softmax q (-2) in
  let k := softmax k (-1) in
  let q := apply (shape q) "mul_rsqrt" [targ q; AInt (Z.of_nat (la_dim_head self))] in
  context <- lift (einsum bhdn_bhen_bhde k v);;
  out <- lift (einsum bhde_bhdn_bhen context q);;
  (* rearrange(out, "b h c (x y) -> b (h c) x y", h=self.heads, x=h, y=w) *)
  out <- lift (match shape out with
               | [b'; h'; c'; n] =>
                   if (h' =? la_heads self) && (n =? h * w)
                   then Ok (apply [b'; h' * c'; h; w] "rearrange_merge_heads" [targ out])
                   else Raise (EinopsError "Shape mismatch")
               | _ => Raise (EinopsError "Wrong shape: expected 4 dims")
               end);;
  Sequential_forward (la_to_out self) out.

(** *** Attention (line 588) *)

Record Attention : Type := mkAttention {
  a_heads : nat;
  a_norm : RMSNorm;
  a_attend : Attend;
  a_to_qkv : Conv2d;
  a_to_out : Conv2d
}.

Definition Attention_init (dim heads dim_head : nat) (flash : bool) : M Net Attention :=
  let hidden_dim := dim_head * heads in
  norm <- RMSNorm_init dim;;
  attend <- Attend_init 0 flash;;
  to_qkv <- Conv2d_init dim (hidden_dim * 3) 1 0 false;;
  to_out <- Conv2d_init hidden_dim dim 1 0 true;;
  ret (mkAttention heads norm attend to_qkv to_out).

Definition Attention_forward (self : Attention) (x : Tensor) : M Net Tensor :=
  enter "Attention";;
  '(b, c, h, w) <- lift (unpack_shape4 x);;
  x <- RMSNorm_forward (a_norm self) x;;
  qkv <- Conv2d_forward (a_to_qkv self) x;;
  qkv <- lift (chunk qkv 3 1);;
  qkv <- lift (rmap (rearrange_split_heads false (a_heads self)) qkv);;
  '(q, k, v) <- lift (unpack3 qkv);;
  out <- Attend_forward (a_attend self) q k v;;
  (* rearrange(out, "b h (x y) d -> b (h d) x y", x=h, y=w) *)
  out <- lift (match shape out with
               | [b'; h'; n; d] =>
                   if n =? h * w
                   then Ok (apply [b'; h' * d; h; w] "rearrange_merge_heads" [targ out])
                   else Raise (EinopsError "Shape mismatch")
               | _ => Raise (EinopsError "Wrong shape: expected 4 dims")
               end);;
  Conv2d_forward (a_to_out self) out.

(** *** One resolution stage of the U-Net: the four modules of an entry of
    [self.downs] or [self.ups]. *)

Inductive AttnModule : Type :=
| FullAttention (a : Attention)
| LinAttention (a : LinearAttention).

Inductive Resample : Type :=
| ResampleSeq (s : Sequential)       (* [downsample(..)] or [upsample(..)] *)
| ResampleConv (c : Conv2d).         (* the last stage's [nn.Conv2d] *)

Record Stage : Type := mkStage {
  st_block1 : ResnetBlock;
  st_block2 : ResnetBlock;
  st_attn : AttnModule;
  st_resample : Resample
}.

Definition AttnModule_forward (a : AttnModule) (x : Tensor) : M Net Tensor :=
  match a with
  | FullAttention m => Attention_forward m x
  | LinAttention m => LinearAttention_forward m x
  end.

Definition Resample_forward (r : Resample) (x : Tensor) : M Net Tensor :=
  match r with
  | ResampleSeq s => Sequential_forward s x
  | ResampleConv c => Conv2d_forward c x
  end.

(** [upsample] (line 390) and [downsample] (line 397) *)
Definition upsample (dim : nat) (out_dim : option nat) : M Net Sequential :=
  c <- Conv2d_init dim (default out_dim dim) 3 1 true;;
  ret [MUpsample; MConv2d c].

Definition downsample (dim : nat) (out_dim : option nat) : M Net Sequential :=
  c <- Conv2d_init (dim * 4) (default out_dim dim) 1 0 true;;
  ret [MRearrange; MConv2d c].

(** The skip stack [h], newest entry first. *)
Definition h_append (h : list Tensor) (x : Tensor) : M Net (list Tensor) :=
  log EvAppend;; ret (x :: h).

Definition pop_message : string := "pop from empty list".

Definition h_pop (h : list Tensor) : M Net (Tensor * list Tensor) :=
  match h with
  | x :: h' => log EvPop;; ret (x, h')
  | [] => raise (IndexError pop_message)
  end.

End Layers.

Section Networks.
Context {T : Torch}.

(** ** BFNetwork (line 43) *)

Class BFNetwork (Net : Type) : Type := {
  cond_dim_of : Net -> option nat;
  forward : Tensor -> Tensor -> option LongTensor -> option Q -> M Net Tensor
}.

Definition is_conditional_model {Net : Type} `{BFNetwork Net} (n : Net) : bool :=
  exists_ (cond_dim_of n).

(** [forward_with_cond_scale] (line 77); its positional arguments are
    those of [forward]. *)
Definition forward_with_cond_scale {Net : Type} `{BFNetwork Net}
  (x time : Tensor) (cond : option LongTensor) (cond_scale rescaled_phi : Q)
  : M Net Tensor :=
  logits <- forward x time cond (Some 0%Q);;
  if Qeq_bool cond_scale 1 then ret logits
  else
    null_logits <- forward x time cond (Some 1%Q);;
    d <- lift (binary "sub" logits null_logits);;
    scaled_logits <- lift (binary "add" null_logits (scalar_op "mul" d cond_scale));;
    if Qeq_bool rescaled_phi 0 then ret scaled_logits
    else
      let std_fn := fun t => std_keepdim t (seq 1 (ndim scaled_logits - 1)) in
      std_logits <- lift (std_fn logits);;
      std_scaled <- lift (std_fn scaled_logits);;
      ratio <- lift (binary "div" std_logits std_scaled);;
      rescaled_logits <- lift (binary "mul" scaled_logits ratio);;
      lift (binary "add" (scalar_op "mul" rescaled_logits rescaled_phi)
              (scalar_op "mul" scaled_logits (1 - rescaled_phi)%Q)).

(** *** The guidance combination in the words of the specification

    Spec 4.6, steps 1 and 3 to 6: the conditional pass, the unconditional
    pass, the linear extrapolation, and the blend of the rescaled and the
    unscaled extrapolation.  The standard deviations are taken per sample,
    over the non-batch axes of the tensor they are taken of. *)

Definition non_batch_axes (t : Tensor) : list nat := seq 1 (ndim t - 1).

Definition per_sample_std (t : Tensor) : Result Tensor := std_keepdim t (non_batch_axes t).

Definition extrapolate (logits_cond logits_uncond : Tensor) (guidance_scale : Q)
  : Result Tensor :=
  let? difference := binary "sub" logits_cond logits_uncond in
  binary "add" logits_uncond (scalar_op "mul" difference guidance_scale).

Definition rescale_and_blend (scaled logits_cond : Tensor) (rescaled_phi : Q)
  : Result Tensor :=
  let? std_cond := per_sample_std logits_cond in
  let? std_scaled := per_sample_std scaled in
  let? ratio := binary "div" std_cond std_scaled in
  let? rescaled := binary "mul" scaled ratio in
  binary "add" (scalar_op "mul" rescaled rescaled_phi)
    (scalar_op "mul" scaled (1 - rescaled_phi)%Q).

Definition guidance_spec {Net : Type} `{BFNetwork Net}
  (x time : Tensor) (cond : option LongTensor) (guidance_scale rescaled_phi : Q)
  : M Net Tensor :=
  fun st =>
    match forward x time cond (Some 0%Q) st with
    | (Raise e, st1) => (Raise e, st1)
    | (Ok logits_cond, st1) =>
        match forward x time cond (Some 1%Q) st1 with
        | (Raise e, st2) => (Raise e, st2)
        | (Ok logits_uncond, st2) =>
            (let? scaled := extrapolate logits_cond logits_uncond guidance_scale in
             if Qeq_bool rescaled_phi 0 then Ok scaled
             else rescale_and_blend scaled logits_cond rescaled_phi,
             st2)
        end
    end.

(** ** LinearNetwork (line 216) *)

Record LinearNetwork : Type := mkLinearNetwork {
  ln_conditioning : option Conditioning;
  ln_cond_drop_prob : Q;
  ln_time_mlp : Sequential;
  ln_blocks : list LinearResnetBlock;
  ln_final_proj : Linear
}.

Record LinearNetworkConfig : Type := mkLinearNetworkConfig {
  lc_dim : nat;
  lc_hidden_dims : list nat;
  lc_cond_dim : option nat;
  lc_cond_drop_prob : Q;
  lc_sin_dim : nat;
  lc_time_dim : nat;
  lc_random_time_emb : bool;
  lc_dropout_p : Q
}.

Fixpoint LinearResnetBlocks_init {Net : Type} (js_ks : list (nat * nat)) (time_dim : nat)
  (cond_embed_dim : option nat) (dropout_p : Q) : M Net (list LinearResnetBlock) :=
  match js_ks with
  | [] => ret []
  | (j, k) :: rest =>
      b <- LinearResnetBlock_init j k time_dim cond_embed_dim dropout_p;;
      bs <- LinearResnetBlocks_init rest time_dim cond_embed_dim dropout_p;;
      ret (b :: bs)
  end.

Definition LinearNetwork_init {Net : Type} (cfg : LinearNetworkConfig) : M Net LinearNetwork :=
  let dim := lc_dim cfg in
  let time_dim := lc_time_dim cfg in
  (* Time embeddings *)
  pe <- RandomOrLearnedSinusoidalPosEmb_init (lc_sin_dim cfg) (lc_random_time_emb cfg);;
  l1 <- Linear_init (lc_sin_dim cfg + 1) time_dim;;
  l2 <- Linear_init time_dim time_dim;;
  let time_mlp := [MRandomOrLearnedSinusoidalPosEmb pe; MLinear l1; MGELU; MLinear l2] in
  (* Class embeddings *)
  '(conditioning, cond_embed_dim, cond_drop_prob) <-
    match lc_cond_dim cfg with
    | Some n =>
        cm <- Conditioning_init n dim;;
        ret (Some cm, Some (dim * 4), lc_cond_drop_prob cfg)
    | None => ret (None, None, 1%Q)
    end;;
  let hs := dim :: lc_hidden_dims cfg in
  blocks <- LinearResnetBlocks_init (combine (removelast hs) (tl hs)) time_dim
              cond_embed_dim (lc_dropout_p cfg);;
  final_proj <- Linear_init (last hs dim) dim;;
  ret (mkLinearNetwork conditioning cond_drop_prob time_mlp blocks final_proj).

Fixpoint LinearNetwork_blocks (blocks : list LinearResnetBlock) (x time : Tensor)
  (c : option Tensor) : M LinearNetwork Tensor :=
  match blocks with
  | [] => ret x
  | block :: rest =>
      x <- LinearResnetBlock_forward block x (Some time) c;;
      LinearNetwork_blocks rest x time c
  end.

Definition LinearNetwork_forward (x time : Tensor) (cond : option LongTensor)
  (cond_drop_prob : option Q) : M LinearNetwork Tensor :=
  self <- get_self;;
  batch <- lift (shape0 x);;
  let time := if shape_eqb (shape time) [1] then expand1 time batch else time in
  time <- lift (unsqueeze1 time);;
  time <- Sequential_forward (ln_time_mlp self) time;;
  (* Handle conditioning information *)
  c <- match ln_conditioning self with
       | Some cm =>
           c <- class_conditioning cm (ln_cond_drop_prob self) batch cond cond_drop_prob;;
           ret (Some c)
       | None => ret None
       end;;
  let x_res := clone x in
  x <- LinearNetwork_blocks (ln_blocks self) x time c;;
  x <- Linear_forward (ln_final_proj self) x;;
  lift (binary "add" x x_res).

#[export] Instance LinearNetwork_BFNetwork : BFNetwork LinearNetwork := {
  cond_dim_of := fun n => option_map cond_dim (ln_conditioning n);
  forward := LinearNetwork_forward
}.

(** ** Unet (line 618) *)

Record UnetConfig : Type := mkUnetConfig {
  uc_dim : nat;
  uc_dim_mults : list nat;
  uc_channels : nat;
  uc_init_dim : option nat;
  uc_out_dim : option nat;
  uc_num_classes : option nat;
  uc_cond_drop_prob : Q;
  uc_resnet_block_groups : nat;
  uc_learned_sinusoidal_cond : bool;
  uc_learned_sinusoidal_dim : nat;
  uc_random_fourier_features : bool;
  uc_full_attn : TupleOr bool;
  uc_attn_heads : TupleOr nat;
  uc_attn_dim_head : TupleOr nat;
  uc_flash_attn : bool
}.

Record Unet : Type := mkUnet {
  u_channels : nat;
  u_init_dim : nat;
  u_out_dim : nat;
  u_init_conv : Conv2d;
  u_random_or_learned_sinusoidal_cond : bool;
  u_time_mlp : Sequential;
  u_conditioning : option Conditioning;
  u_cond_drop_prob : Q;
  u_downs : list Stage;
  u_ups : list Stage;
  u_mid_block1 : ResnetBlock;
  u_mid_attn : Attention;
  u_mid_block2 : ResnetBlock;
  u_final_res_block : ResnetBlock;
  u_final_conv : Conv2d
}.

(** [block_class = partial(ResnetBlock, groups=resnet_block_groups,
    time_emb_dim=time_dim, class_emb_dim=classes_dim)] *)
Definition block_class {Net : Type} (cfg : UnetConfig) (classes_dim : option nat)
  (in_dim out_dim : nat) : M Net ResnetBlock :=
  ResnetBlock_init in_dim out_dim (Some (uc_dim cfg * 4)) classes_dim
    (uc_resnet_block_groups cfg).

(** [attn_class = FullAttention if full_attn_i else LinearAttention], with
    [FullAttention = partial(Attention, flash=flash_attn)]. *)
Definition attn_class {Net : Type} (cfg : UnetConfig) (full_attn_i : bool)
  (dim dim_head heads : nat) : M Net AttnModule :=
  if full_attn_i
  then a <- Attention_init dim heads dim_head (uc_flash_attn cfg);; ret (FullAttention a)
  else a <- LinearAttention_init dim heads dim_head;; ret (LinAttention a).

Definition StageSpec : Type := (nat * nat * bool * nat * nat)%type.

(** The first loop of [__init__] (line 711), from index [i] on. *)
Fixpoint Unet_init_downs {Net : Type} (cfg : UnetConfig) (classes_dim : option nat)
  (num_resolutions i : nat) (zipped : list StageSpec) : M Net (list Stage) :=
  match zipped with
  | [] => ret []
  | (in_dim, out_dim, full_attn_i, attn_heads_i, attn_dim_head_i) :: rest =>
      let is_last := num_resolutions - 1 <=? i in
      b1 <- block_class cfg classes_dim in_dim in_dim;;
      b2 <- block_class cfg classes_dim in_dim in_dim;;
      a <- attn_class cfg full_attn_i in_dim attn_dim_head_i attn_heads_i;;
      r <- (if negb is_last
            then s <- downsample in_dim (Some out_dim);; ret (ResampleSeq s)
            else c <- Conv2d_init in_dim out_dim 3 1 true;; ret (ResampleConv c));;
      stages <- Unet_init_downs cfg classes_dim num_resolutions (S i) rest;;
      ret (mkStage b1 b2 a r :: stages)
  end.

(** The second loop of [__init__] (line 745), from index [i] on. *)
Fixpoint Unet_init_ups {Net : Type} (cfg : UnetConfig) (classes_dim : option nat)
  (len_in_out i : nat) (zipped : list StageSpec) : M Net (list Stage) :=
  match zipped with
  | [] => ret []
  | (in_dim, out_dim, full_attn_i, attn_heads_i, attn_dim_head_i) :: rest =>
      let is_last := i =? len_in_out - 1 in
      b1 <- block_class cfg classes_dim (out_dim + in_dim) out_dim;;
      b2 <- block_class cfg classes_dim (out_dim + in_dim) out_dim;;
      a <- attn_class cfg full_attn_i out_dim attn_dim_head_i attn_heads_i;;
      r <- (if negb is_last
            then s <- upsample out_dim (Some in_dim);; ret (ResampleSeq s)
            else c <- Conv2d_init out_dim in_dim 3 1 true;; ret (ResampleConv c));;
      stages <- Unet_init_ups cfg classes_dim len_in_out (S i) rest;;
      ret (mkStage b1 b2 a r :: stages)
  end.

Definition zip_specs (in_out : list (nat * nat)) (full_attn : list bool)
  (attn_heads attn_dim_head : list nat) : list StageSpec :=
  map (fun '(io, f, hd, dh) => (fst io, snd io, f, hd, dh))
      (zip4 in_out full_attn attn_heads attn_dim_head).

(** [l[-1]] of a tuple *)
Definition last_item {Net A : Type} (l : list A) : M Net A :=
  match rev l with
  | a :: _ => ret a
  | [] => raise (IndexError "tuple index out of range")
  end.

Definition Unet_init {Net : Type} (cfg : UnetConfig) : M Net Unet :=
  let dim := uc_dim cfg in
  (* Set up dimensions *)
  let channels := uc_channels cfg in
  let init_dim := default (uc_init_dim cfg) dim in
  let out_dim := default (uc_out_dim cfg) channels in
  init_conv <- Conv2d_init channels init_dim 7 3 true;;
  let dims := init_dim :: map (fun m => dim * m) (uc_dim_mults cfg) in
  let in_out := combine (removelast dims) (tl dims) in
  (* time embeddings *)
  let time_dim := dim * 4 in
  let random_or_learned_sinusoidal_cond :=
    uc_learned_sinusoidal_cond cfg || uc_random_fourier_features cfg in
  '(sinu_pos_emb, fourier_dim) <-
    (if random_or_learned_sinusoidal_cond
     then
       e <- RandomOrLearnedSinusoidalPosEmb_init (uc_learned_sinusoidal_dim cfg)
              (uc_random_fourier_features cfg);;
       ret (MRandomOrLearnedSinusoidalPosEmb e, uc_learned_sinusoidal_dim cfg + 1)
     else ret (MSinusoidalPosEmb dim, dim));;
  l1 <- Linear_init fourier_dim time_dim;;
  l2 <- Linear_init time_dim time_dim;;
  let time_mlp := [sinu_pos_emb; MLinear l1; MGELU; MLinear l2] in
  (* Class embeddings *)
  '(conditioning, classes_dim, cond_drop_prob) <-
    match uc_num_classes cfg with
    | Some n =>
        cm <- Conditioning_init n dim;;
        ret (Some cm, Some (dim * 4), uc_cond_drop_prob cfg)
    | None => ret (None, None, 1%Q)
    end;;
  (* Attention *)
  let num_stages := length (uc_dim_mults cfg) in
  let full_attn := cast_tuple (uc_full_attn cfg) num_stages in
  let attn_heads := cast_tuple (uc_attn_heads cfg) num_stages in
  let attn_dim_head := cast_tuple (uc_attn_dim_head cfg) num_stages in
  (if length full_attn =? length (uc_dim_mults cfg) then ret tt
   else raise (AssertionError ""));;
  (* Layers *)
  let num_resolutions := length in_out in
  downs <- Unet_init_downs cfg classes_dim num_resolutions 0
             (zip_specs in_out full_attn attn_heads attn_dim_head);;
  let mid_dim := last dims init_dim in
  mid_block1 <- block_class cfg classes_dim mid_dim mid_dim;;
  mid_heads <- last_item attn_heads;;
  mid_dim_head <- last_item attn_dim_head;;
  mid_attn <- Attention_init mid_dim mid_heads mid_dim_head (uc_flash_attn cfg);;
  mid_block2 <- block_class cfg classes_dim mid_dim mid_dim;;
  ups <- Unet_init_ups cfg classes_dim (length in_out) 0
           (zip_specs (rev in_out) (rev full_attn) (rev attn_heads) (rev attn_dim_head));;
  final_res_block <- block_class cfg classes_dim (dim * 2) dim;;
  final_conv <- Conv2d_init dim out_dim 1 0 true;;
  ret (mkUnet channels init_dim out_dim init_conv random_or_learned_sinusoidal_cond
         time_mlp conditioning cond_drop_prob downs ups mid_block1 mid_attn mid_block2
         final_res_block final_conv).

(** [downsample_factor = 2 ** (len(self.downs) - 1)] (line 777) enters
    [forward] only through [d % self.downsample_factor == 0] and the
    message of the assertion.  With no stage the factor is [2 ** -1 = 0.5]
    and [d % 0.5 == 0] holds for every integer [d]. *)
Definition divisible_by_factor (num_downs d : nat) : bool :=
  match num_downs with
  | 0 => true
  | S k => d mod 2 ^ k =? 0
  end.

Definition downsample_factor_string (num_downs : nat) : string :=
  match num_downs with
  | 0 => "0.5"
  | S k => string_of_nat (2 ^ k)
  end.

(** [x.shape[-2:]] *)
Definition last2 (s : list nat) : list nat := skipn (length s - 2) s.

Definition dimension_message (s : list nat) (num_downs : nat) : string :=
  "input dim " ++ string_of_size (last2 s) ++ " must be divisible by "
  ++ downsample_factor_string num_downs ++ " for Unet".

(** The encoder loop (line 838). *)
Fixpoint Unet_downs (downs : list Stage) (x time : Tensor) (c : option Tensor)
  (h : list Tensor) : M Unet (Tensor * list Tensor) :=
  match downs with
  | [] => ret (x, h)
  | stage :: rest =>
      x <- ResnetBlock_forward (st_block1 stage) x (Some time) c;;
      h <- h_append h x;;
      x <- ResnetBlock_forward (st_block2 stage) x (Some time) c;;
      a <- AttnModule_forward (st_attn stage) x;;
      x <- lift (binary "add" a x);;
      h <- h_append h x;;
      x <- Resample_forward (st_resample stage) x;;
      Unet_downs rest x time c h
  end.

(** The decoder loop (line 852). *)
Fixpoint Unet_ups (ups : list Stage) (x time : Tensor) (c : option Tensor)
  (h : list Tensor) : M Unet (Tensor * list Tensor) :=
  match ups with
  | [] => ret (x, h)
  | stage :: rest =>
      '(s, h) <- h_pop h;;
      x <- lift (cat [x; s] 1);;
      x <- ResnetBlock_forward (st_block1 stage) x (Some time) c;;
      '(s, h) <- h_pop h;;
      x <- lift (cat [x; s] 1);;
      x <- ResnetBlock_forward (st_block2 stage) x (Some time) c;;
      a <- AttnModule_forward (st_attn stage) x;;
      x <- lift (binary "add" a x);;
      x <- Resample_forward (st_resample stage) x;;
      Unet_ups rest x time c h
  end.

(** [Unet.forward] from the comment [# main unet] on (line 823); the
    result comes with the skip stack as the call leaves it. *)
Definition Unet_main (self : Unet) (batch : nat) (x time : Tensor) (c : option Tensor)
  : M Unet (Tensor * list Tensor) :=
  (if forallb (divisible_by_factor (length (u_downs self))) (last2 (shape x)) then ret tt
   else raise (AssertionError (dimension_message (shape x) (length (u_downs self)))));;
  x <- Conv2d_forward (u_init_conv self) x;;
  let r := clone x in
  let time := if shape_eqb (shape time) [1] then expand1 time batch else time in
  time <- Sequential_forward (u_time_mlp self) time;;
  let h := [] in
  '(x, h) <- Unet_downs (u_downs self) x time c h;;
  x <- ResnetBlock_forward (u_mid_block1 self) x (Some time) c;;
  a <- Attention_forward (u_mid_attn self) x;;
  x <- lift (binary "add" a x);;
  x <- ResnetBlock_forward (u_mid_block2 self) x (Some time) c;;
  '(x, h) <- Unet_ups (u_ups self) x time c h;;
  x <- lift (cat [x; r] 1);;
  x <- ResnetBlock_forward (u_final_res_block self) x (Some time) c;;
  x <- Conv2d_forward (u_final_conv self) x;;
  ret (x, h).

(** [Unet.forward] up to [# main unet]: the conditioning information. *)
Definition Unet_conditioning (self : Unet) (batch : nat) (classes : option LongTensor)
  (cond_drop_prob : option Q) : M Unet (option Tensor) :=
  match u_conditioning self with
  | Some cm =>
      c <- class_conditioning cm (u_cond_drop_prob self) batch classes cond_drop_prob;;
      ret (Some c)
  | None => ret None
  end.

(** [Unet.forward] with the skip stack it ends with. *)
Definition Unet_forward_stack (x time : Tensor) (classes : option LongTensor)
  (cond_drop_prob : option Q) : M Unet (Tensor * list Tensor) :=
  self <- get_self;;
  batch <- lift (shape0 x);;
  (* Handle conditoning information *)
  c <- Unet_conditioning self batch classes cond_drop_prob;;
  (* main unet *)
  Unet_main self batch x time c.

Definition Unet_forward (x time : Tensor) (classes : option LongTensor)
  (cond_drop_prob : option Q) : M Unet Tensor :=
  '(x, _) <- Unet_forward_stack x time classes cond_drop_prob;;
  ret x.

#[export] Instance Unet_BFNetwork : BFNetwork Unet := {
  cond_dim_of := fun n => option_map cond_dim (u_conditioning n);
  forward := Unet_forward
}.

End Networks.

(** ** A symbolic torch

    An instance of [Torch] in which the content of a tensor is the term that
    computed it: kernels build terms, the generator is a linear congruential
    one, and a version is its release numbers with a pre-release flag. *)

#[warnings="-register-all"]
Inductive Term : Type :=
| TApp (f : string) (args : list (Arg Term))
| TRandom (f : string) (args : list (Arg Term)) (seed : N).

Definition digit_of (c : ascii) : option nat :=
  let n := nat_of_ascii c in
  if (48 <=? n) && (n <=? 57) then Some (n - 48) else None.

(** The release numbers a version string starts with, and what follows
    them: ["2.1.0"] gives [[2; 1; 0]] and nothing, ["1.13.1+cu117"] gives
    [[1; 13; 1]] and ["+cu117"], ["2.0.0rc1"] gives [[2; 0; 0]] and
    ["rc1"], ["2.1.0.dev20230601"] gives [[2; 1; 0]] and ["dev20230601"]. *)
Fixpoint parse_release (s : string) (cur : option nat) : list nat * string :=
  match s with
  | EmptyString => (match cur with Some n => [n] | None => [] end, EmptyString)
  | String c s' =>
      match digit_of c with
      | Some d => parse_release s' (Some (10 * default cur 0 + d))
      | None =>
          match cur with
          | Some n =>
              if Ascii.eqb c "."
              then let (r, rest) := parse_release s' None in (n :: r, rest)
              else ([n], s)
          | None => ([], s)
          end
      end
  end.

Definition strip_separator (s : string) : string :=
  match s with
  | String c s' =>
      if Ascii.eqb c "." || Ascii.eqb c "-" || Ascii.eqb c "_" then s' else s
  | EmptyString => s
  end.

(** A pre-release or development tag after the release numbers (a, alpha,
    b, beta, c, rc, pre, preview, dev, in lower case as torch writes them):
    [packaging.version] orders such a version before the release itself.
    A post-release tag or a local label ([+cu117]) does not. *)
Definition has_pre_tag (rest : string) : bool :=
  existsb (fun tag => String.prefix tag (strip_separator rest))
    ["a"; "b"; "c"; "rc"; "pre"; "dev"].

Fixpoint release_lt (a b : list nat) : bool :=
  match a, b with
  | [], [] => false
  | [], y :: b' => (0 <? y) || ((0 =? y) && release_lt [] b')
  | x :: a', [] => false
  | x :: a', y :: b' => (x <? y) || ((x =? y) && release_lt a' b')
  end.

(** A version: its release numbers, and whether it is a pre-release. *)
Definition Release : Type := (list nat * bool)%type.

Definition parse_version (s : string) : Release :=
  let (r, rest) := parse_release s None in (r, has_pre_tag rest).

(** The order of [packaging.version] where the code uses it: against a
    final release.  An older release is less, and so is a pre-release of
    the same release. *)
Definition version_before (a b : Release) : bool :=
  release_lt (fst a) (fst b)
  || (negb (release_lt (fst b) (fst a)) && snd a && negb (snd b)).

Definition lcg (s : N) : N := ((s * 1103515245 + 12345) mod 2147483648)%N.

Definition SymbolicTorch (pf : Platform) : Torch := {|
  V := Term;
  kernel := TApp;
  RNG := N;
  rng_next := fun s => (lcg s, lcg s);
  rng_kernel := fun f args s => (TRandom f args s, lcg s);
  Version := Release;
  version_parse := parse_version;
  version_lt := version_before;
  platform := pf
|}.

(** A CPU-only machine with torch 2.1.0, one with torch 1.13.1, and one
    with a release candidate of torch 2.0.0. *)
Definition cpu_torch_2_1 : Platform :=
  mkPlatform "2.1.0" false 0 0 false (fun _ => true).

Definition cpu_torch_1_13 : Platform :=
  mkPlatform "1.13.1+cu117" false 0 0 false (fun _ => true).

Definition cpu_torch_2_0_rc : Platform :=
  mkPlatform "2.0.0rc1" false 0 0 false (fun _ => true).

(** ** Vocabulary of the statements *)

(** The exceptions module code raises on bad shapes, indices and
    configurations: every exception but an [AssertionError] and the
    [IndexError] of a pop from an empty skip stack. *)
Definition layer_exn (e : Exn) : Prop :=
  match e with
  | AssertionError _ => False
  | IndexError m => m <> pop_message
  | _ => True
  end.

(** A pure operation raises nothing but [layer_exn] exceptions. *)
Definition rlax {A : Type} (r : Result A) : Prop :=
  forall e, r = Raise e -> layer_exn e.

Section Vocabulary.
Context {T : Torch}.

(** [spec E n0 m P]: run on the module object [n0], the computation [m]
    leaves the module object and its mode as they are, and either returns a
    value that satisfies [P] or raises an exception that satisfies [E]. *)
Definition spec {Net A : Type} (E : Exn -> Prop) (n0 : Net) (m : M Net A) (P : A -> Prop)
  : Prop :=
  forall st, net st = n0 ->
    match m st with
    | (Ok a, st') => net st' = n0 /\ training st' = training st /\ P a
    | (Raise e, st') => net st' = n0 /\ training st' = training st /\ E e
    end.

(** [total n0 m P]: [m] returns, with a value that satisfies [P]. *)
Definition total {Net A : Type} (n0 : Net) (m : M Net A) (P : A -> Prop) : Prop :=
  spec (fun _ => False) n0 m P.

End Vocabulary.

(** A batch of class labels for a batch of [batch] samples: of shape
    [(batch,)] or [(batch, 1)], every label in [[0, num_classes)]
    (spec 3, "Class Label"). *)
Definition valid_labels (num_classes batch : nat) (l : LongTensor) : Prop :=
  (lshape l = [batch] \/ lshape l = [batch; 1])
  /\ length (ldata l) = batch
  /\ Forall (fun v => (0 <= v < Z.of_nat num_classes)%Z) (ldata l).

(** A label tensor of a rank above one that is not a column. *)
Definition bad_label_rank (l : LongTensor) : Prop :=
  1 < length (lshape l) /\ ~ (length (lshape l) = 2 /\ last (lshape l) 0 = 1).

Section Vocabulary2.
Context {T : Torch}.

(** What the conditioning block does at dropout probability one, whatever
    the labels are: the embedding layer is entered, the keep mask is drawn,
    and the conditioning MLP runs on a batch of null embeddings. *)
Definition dropped_conditioning {Net : Type} (cm : Conditioning) (batch : nat) : M Net Tensor :=
  enter "Embedding";;
  _ <- t_rand batch;;
  Sequential_forward (cond_mlp cm)
    (tensor_of_rows (mkRows [batch] (embedding_dim (cond_emb cm))
                       (repeat (null_classes_emb cm) batch))).

(** [post m P]: whenever [m] returns, its value satisfies [P]. *)
Definition post {Net A : Type} (m : M Net A) (P : A -> Prop) : Prop :=
  forall st a st', m st = (Ok a, st') -> P a.

(** [fails_with m e]: [m] raises [e], whatever the state. *)
Definition fails_with {Net A : Type} (m : M Net A) (e : Exn) : Prop :=
  forall st, exists st', m st = (Raise e, st').

(** The configuration [cfg] with [flash_attn] set to [b]. *)
Definition with_flash_attn (cfg : UnetConfig) (b : bool) : UnetConfig :=
  mkUnetConfig (uc_dim cfg) (uc_dim_mults cfg) (uc_channels cfg) (uc_init_dim cfg)
    (uc_out_dim cfg) (uc_num_classes cfg) (uc_cond_drop_prob cfg)
    (uc_resnet_block_groups cfg) (uc_learned_sinusoidal_cond cfg)
    (uc_learned_sinusoidal_dim cfg) (uc_random_fourier_features cfg) (uc_full_attn cfg)
    (uc_attn_heads cfg) (uc_attn_dim_head cfg) b.

(** Torch older than 2.0.0, as [Attend.__init__] tests it. *)
Definition torch_older_than_2 : bool :=
  version_lt (version_parse (torch_version platform)) (version_parse "2.0.0").

End Vocabulary2.

(** ** Concrete networks and inputs, for examples *)

Definition demo_torch : Torch := SymbolicTorch cpu_torch_2_1.

Definition old_torch : Torch := SymbolicTorch cpu_torch_1_13.

Definition rc_torch : Torch := SymbolicTorch cpu_torch_2_0_rc.

Definition demo_state {T : Torch} {Net : Type} (seed : RNG) (n : Net) : State Net :=
  mkState n false seed [].

Definition demo_input (s : list nat) : @Tensor demo_torch :=
  @mkTensor demo_torch s (TApp "input" []).

Definition demo_time (s : list nat) : @Tensor demo_torch :=
  @mkTensor demo_torch s (TApp "time" []).

(** A conditional vector network: data dimension 2, one hidden stage of
    width 8, 10 classes. *)
Definition demo_linear_config : LinearNetworkConfig :=
  mkLinearNetworkConfig 2 [8] (Some 10) (1 # 2) 16 16 false 0.

(** A conditional image network: three stages, the defaults of [Unet]
    otherwise. *)
Definition demo_unet_config : UnetConfig :=
  mkUnetConfig 8 [1; 2; 2] 3 None None (Some 10) (1 # 2) 8 false 16 false
    (Tuple [false; false; true]) (Scalar 4) (Scalar 32) false.

(** The network a constructor builds from seed 42, if it builds one. *)
Definition built {T : Torch} {A : Type} (seed : RNG) (m : M unit A) : option A :=
  match m (demo_state seed tt) with
  | (Ok a, _) => Some a
  | (Raise _, _) => None
  end.

(** ** What the constructors establish

    The dimensions a module is built with, read off the module object.
    Each predicate below is what the [__init__] of its class guarantees of
    the object it returns. *)

(** [yields r P]: the operation returns, with a value that satisfies [P]. *)
Definition yields {A : Type} (r : Result A) (P : A -> Prop) : Prop :=
  match r with
  | Ok a => P a
  | Raise _ => False
  end.

Section WellFormed.
Context {T : Torch}.

Definition Linear_dims (l : Linear) (i o : nat) : Prop :=
  in_features l = i /\ out_features l = o.

Definition Conv2d_dims (c : Conv2d) (i o k pad : nat) : Prop :=
  in_channels c = i /\ out_channels c = o /\ kernel_size c = k /\ padding c = pad.

(** [nn.Sequential(nn.SiLU(), nn.Linear(i, o))] *)
Definition wf_mlp (ms : Sequential) (i o : nat) : Prop :=
  match ms with
  | [MSiLU; MLinear l] => Linear_dims l i o
  | _ => False
  end.

(** [nn.Sequential(nn.Linear(i, o), nn.GELU(), nn.Linear(o, o))] *)
Definition wf_gelu_mlp (ms : Sequential) (i o : nat) : Prop :=
  match ms with
  | [MLinear l1; MGELU; MLinear l2] => Linear_dims l1 i o /\ Linear_dims l2 o o
  | _ => False
  end.

Definition wf_LinearBlock (b : LinearBlock) (i o : nat) : Prop :=
  Linear_dims (lb_proj b) i o
  /\ normalized_shape (lb_norm b) = o
  /\ bad_probability (p_drop (lb_dropout b)) = false.

Definition wf_LinearResnetBlock (b : LinearResnetBlock) (i o mlp_dim : nat) : Prop :=
  wf_mlp (lrb_mlp b) mlp_dim (o * 2)
  /\ wf_LinearBlock (lrb_block1 b) i o
  /\ wf_LinearBlock (lrb_block2 b) o o
  /\ match lrb_res_proj b with
     | Some l => Linear_dims l i o
     | None => i = o
     end.

(** The blocks of [self.blocks], from width [i] through [hidden]. *)
Fixpoint wf_LinearResnetBlocks (bs : list LinearResnetBlock) (i : nat) (hidden : list nat)
  (mlp_dim : nat) : Prop :=
  match bs, hidden with
  | [], [] => True
  | b :: bs', o :: hidden' =>
      wf_LinearResnetBlock b i o mlp_dim /\ wf_LinearResnetBlocks bs' o hidden' mlp_dim
  | _, _ => False
  end.

Definition wf_Conditioning (cm : Conditioning) (num_classes dim : nat) : Prop :=
  cond_dim cm = num_classes
  /\ length (emb_rows (cond_emb cm)) = num_classes
  /\ embedding_dim (cond_emb cm) = dim
  /\ wf_gelu_mlp (cond_mlp cm) dim (dim * 4).

Definition wf_optional_Conditioning (c : option Conditioning) (num_classes : option nat)
  (dim : nat) : Prop :=
  match c, num_classes with
  | Some cm, Some k => wf_Conditioning cm k dim
  | None, None => True
  | _, _ => False
  end.

(** The width of the conditioning embedding a residual block receives. *)
Definition cond_embed_dim (num_classes : option nat) (dim : nat) : nat :=
  match num_classes with
  | Some _ => dim * 4
  | None => 0
  end.

Definition wf_LinearNetwork (n : LinearNetwork) (cfg : LinearNetworkConfig) : Prop :=
  match ln_time_mlp n with
  | [MRandomOrLearnedSinusoidalPosEmb pe; MLinear l1; MGELU; MLinear l2] =>
      shape (weights pe) = [lc_sin_dim cfg / 2]
      /\ lc_sin_dim cfg mod 2 = 0
      /\ Linear_dims l1 (lc_sin_dim cfg + 1) (lc_time_dim cfg)
      /\ Linear_dims l2 (lc_time_dim cfg) (lc_time_dim cfg)
  | _ => False
  end
  /\ wf_optional_Conditioning (ln_conditioning n) (lc_cond_dim cfg) (lc_dim cfg)
  /\ wf_LinearResnetBlocks (ln_blocks n) (lc_dim cfg) (lc_hidden_dims cfg)
       (lc_time_dim cfg + cond_embed_dim (lc_cond_dim cfg) (lc_dim cfg))
  /\ Linear_dims (ln_final_proj n) (last (lc_hidden_dims cfg) (lc_dim cfg)) (lc_dim cfg).

Definition wf_Block (b : Block) (i o : nat) : Prop :=
  Conv2d_dims (b_proj b) i o 3 1
  /\ num_channels (b_norm b) = o
  /\ num_groups (b_norm b) <> 0
  /\ o mod num_groups (b_norm b) = 0.

Definition wf_ResnetBlock (r : ResnetBlock) (i o mlp_dim : nat) : Prop :=
  match rb_mlp r with
  | Some ms => wf_mlp ms mlp_dim (o * 2)
  | None => False
  end
  /\ wf_Block (rb_block1 r) i o
  /\ wf_Block (rb_block2 r) o o
  /\ match rb_res_conv r with
     | Some c => Conv2d_dims c i o 1 0
     | None => i = o
     end.

Definition wf_RMSNorm (n : RMSNorm) (dim : nat) : Prop := shape (g n) = [1; dim; 1; 1].

(** The configuration [Attend.flash_attn] takes for the tensors of a call:
    [cuda_config] when they are on a CUDA device, [cpu_config] otherwise. *)
Definition config_of_call (a : Attend) : option AttentionConfig :=
  if is_cuda platform then at_cuda_config a else Some (at_cpu_config a).

(** [Attend(flash=...)] as [Attention.__init__] builds it, without
    dropout.  With [flash] set, the module holds a configuration for the
    device of the tensors, for which [F.scaled_dot_product_attention] has a
    kernel. *)
Definition wf_Attend (a : Attend) : Prop :=
  at_dropout a = 0%Q
  /\ p_drop (at_attn_dropout a) = 0%Q
  /\ (at_flash a = true ->
      exists c, config_of_call a = Some c /\ sdp_kernel_found platform c = true).

(** [Attention(dim, heads, dim_head, flash)] *)
Definition wf_Attention (a : Attention) (dim heads dim_head : nat) : Prop :=
  a_heads a = heads
  /\ wf_RMSNorm (a_norm a) dim
  /\ Conv2d_dims (a_to_qkv a) dim (dim_head * heads * 3) 1 0
  /\ Conv2d_dims (a_to_out a) (dim_head * heads) dim 1 0
  /\ wf_Attend (a_attend a).

Definition wf_LinearAttention (a : LinearAttention) (dim heads dim_head : nat) : Prop :=
  la_heads a = heads
  /\ wf_RMSNorm (la_norm a) dim
  /\ Conv2d_dims (la_to_qkv a) dim (dim_head * heads * 3) 1 0
  /\ match la_to_out a with
     | [MConv2d c; MRMSNorm n] => Conv2d_dims c (dim_head * heads) dim 1 0 /\ wf_RMSNorm n dim
     | _ => False
     end.

Definition wf_AttnModule (a : AttnModule) (full_attn : bool) (dim heads dim_head : nat)
  : Prop :=
  match a, full_attn with
  | FullAttention m, true => wf_Attention m dim heads dim_head
  | LinAttention m, false => wf_LinearAttention m dim heads dim_head
  | _, _ => False
  end.

(** The fourth module of an encoder stage: [downsample(in_dim, out_dim)],
    or a convolution in the last stage. *)
Definition wf_down_resample (r : Resample) (is_last : bool) (i o : nat) : Prop :=
  match r, is_last with
  | ResampleSeq [MRearrange; MConv2d c], false => Conv2d_dims c (i * 4) o 1 0
  | ResampleConv c, true => Conv2d_dims c i o 3 1
  | _, _ => False
  end.

(** The fourth module of a decoder stage: [upsample(out_dim, in_dim)], or
    a convolution in the last stage. *)
Definition wf_up_resample (r : Resample) (is_last : bool) (i o : nat) : Prop :=
  match r, is_last with
  | ResampleSeq [MUpsample; MConv2d c], false => Conv2d_dims c o i 3 1
  | ResampleConv c, true => Conv2d_dims c o i 3 1
  | _, _ => False
  end.

Definition is_nil {A : Type} (l : list A) : bool :=
  match l with
  | [] => true
  | _ => false
  end.

(** The encoder stages built from [specs]; a stage is the last one when no
    stage follows it. *)
Fixpoint wf_downs (stages : list Stage) (specs : list StageSpec) (mlp_dim : nat) : Prop :=
  match stages, specs with
  | [], [] => True
  | s :: stages', (i, o, fa, hd, dh) :: specs' =>
      wf_ResnetBlock (st_block1 s) i i mlp_dim
      /\ wf_ResnetBlock (st_block2 s) i i mlp_dim
      /\ wf_AttnModule (st_attn s) fa i hd dh
      /\ wf_down_resample (st_resample s) (is_nil specs') i o
      /\ wf_downs stages' specs' mlp_dim
  | _, _ => False
  end.

(** The decoder stages built from the reversed [specs]. *)
Fixpoint wf_ups (stages : list Stage) (specs : list StageSpec) (mlp_dim : nat) : Prop :=
  match stages, specs with
  | [], [] => True
  | s :: stages', (i, o, fa, hd, dh) :: specs' =>
      wf_ResnetBlock (st_block1 s) (o + i) o mlp_dim
      /\ wf_ResnetBlock (st_block2 s) (o + i) o mlp_dim
      /\ wf_AttnModule (st_attn s) fa o hd dh
      /\ wf_up_resample (st_resample s) (is_nil specs') i o
      /\ wf_ups stages' specs' mlp_dim
  | _, _ => False
  end.

(** The channel widths of consecutive encoder stages fit: each stage
    receives what the stage before it produces, from [i] to [o_final]. *)
Fixpoint chained (i : nat) (specs : list StageSpec) (o_final : nat) : Prop :=
  match specs with
  | [] => i = o_final
  | (i', o, _, _, _) :: rest => i' = i /\ chained o rest o_final
  end.

(** The same of the decoder stages, which run from [o] down to [i_final]. *)
Fixpoint rchained (o : nat) (specs : list StageSpec) (i_final : nat) : Prop :=
  match specs with
  | [] => o = i_final
  | (i, o', _, _, _) :: rest => o' = o /\ rchained i rest i_final
  end.

(** Every stage has at least one attention head of at least one dimension. *)
Definition heads_ok (specs : list StageSpec) : Prop :=
  Forall (fun '(_, _, _, hd, dh) => 1 <= hd /\ 1 <= dh) specs.

(** No stage has a head dimension of zero. *)
Definition dim_heads_ok (specs : list StageSpec) : Prop :=
  Forall (fun '(_, _, _, _, dh) => dh <> 0) specs.

(** The shapes on the skip stack, newest first, when the decoder is about
    to run the stages of [specs] (reversed encoder order) at resolution
    [h] by [w]: two feature maps per stage, at twice the resolution for
    each stage further. *)
Fixpoint stack_shapes (b h w : nat) (specs : list StageSpec) : list (list nat) :=
  match specs with
  | [] => []
  | (i, _, _, _, _) :: rest =>
      [b; i; h; w] :: [b; i; h; w] :: stack_shapes b (2 * h) (2 * w) rest
  end.

(** The stage list of a configuration: [zip(in_out, full_attn, attn_heads,
    attn_dim_head)] of [Unet.__init__]. *)
Definition Unet_dims (cfg : UnetConfig) : list nat :=
  default (uc_init_dim cfg) (uc_dim cfg)
  :: map (fun m => uc_dim cfg * m) (uc_dim_mults cfg).

Definition Unet_specs (cfg : UnetConfig) : list StageSpec :=
  let dims := Unet_dims cfg in
  let num_stages := length (uc_dim_mults cfg) in
  zip_specs (combine (removelast dims) (tl dims))
    (cast_tuple (uc_full_attn cfg) num_stages)
    (cast_tuple (uc_attn_heads cfg) num_stages)
    (cast_tuple (uc_attn_dim_head cfg) num_stages).

Definition wf_Unet (n : Unet) (cfg : UnetConfig) : Prop :=
  let dim := uc_dim cfg in
  let init_dim := default (uc_init_dim cfg) dim in
  let mid_dim := last (Unet_dims cfg) init_dim in
  let mlp_dim := dim * 4 + cond_embed_dim (uc_num_classes cfg) dim in
  Conv2d_dims (u_init_conv n) (uc_channels cfg) init_dim 7 3
  /\ match u_time_mlp n with
     | [MSinusoidalPosEmb d; MLinear l1; MGELU; MLinear l2] =>
         d = dim /\ Linear_dims l1 dim (dim * 4) /\ Linear_dims l2 (dim * 4) (dim * 4)
     | _ => False
     end
  /\ wf_optional_Conditioning (u_conditioning n) (uc_num_classes cfg) dim
  /\ wf_downs (u_downs n) (Unet_specs cfg) mlp_dim
  /\ wf_ResnetBlock (u_mid_block1 n) mid_dim mid_dim mlp_dim
  /\ (exists heads dim_head,
         In heads (cast_tuple (uc_attn_heads cfg) (length (uc_dim_mults cfg)))
         /\ In dim_head (cast_tuple (uc_attn_dim_head cfg) (length (uc_dim_mults cfg)))
         /\ wf_Attention (u_mid_attn n) mid_dim heads dim_head)
  /\ wf_ResnetBlock (u_mid_block2 n) mid_dim mid_dim mlp_dim
  /\ wf_ups (u_ups n) (rev (Unet_specs cfg)) mlp_dim
  /\ wf_ResnetBlock (u_final_res_block n) (dim * 2) dim mlp_dim
  /\ Conv2d_dims (u_final_conv n) dim (default (uc_out_dim cfg) (uc_channels cfg)) 1 0.

End WellFormed.

(** ** Valid configurations and inputs *)

(** What [Attend.__init__] stores in [cuda_config] (lines 499 to 513): a
    configuration for CUDA tensors when flash attention is asked for and
    CUDA is available, by the compute capability of the device. *)
Definition stored_cuda_config {T : Torch} (flash : bool) (c : option AttentionConfig)
  : Prop :=
  (flash = false \/ cuda_is_available platform = false -> c = None)
  /\ (flash = true -> cuda_is_available platform = true ->
      device_major platform = 8 /\ device_minor platform = 0 ->
      c = Some (mkAttentionConfig true false false))
  /\ (flash = true -> cuda_is_available platform = true ->
      ~ (device_major platform = 8 /\ device_minor platform = 0) ->
      c = Some (mkAttentionConfig false true true)).

(** The attention an [Attend] module was built to use: the flag as given,
    every kernel allowed on the CPU, and the CUDA configuration of the
    device. *)
Definition attention_selected {T : Torch} (a : Attend) (flash : bool) : Prop :=
  at_flash a = flash
  /\ at_cpu_config a = mkAttentionConfig true true true
  /\ stored_cuda_config flash (at_cuda_config a).

(** The platform can run [Attend.flash_attn]: for the device of the
    tensors, [Attend.__init__] stores a configuration, and
    [F.scaled_dot_product_attention] has a kernel among those it enables. *)
Definition flash_runs {T : Torch} : Prop :=
  forall c : option AttentionConfig,
    stored_cuda_config true c ->
    exists cfg,
      (if is_cuda platform then c else Some (mkAttentionConfig true true true)) = Some cfg
      /\ sdp_kernel_found platform cfg = true.

(** A configuration of the image network for which [forward] is defined on
    every valid input: the default sinusoidal time embedding of an even
    width of at least four, the initial width left at [dim], at least one
    input and one output channel, positive multipliers, one attention
    setting per stage with at least one head of at least one dimension,
    and, with [flash_attn], a platform that can run it. *)
Definition valid_unet_config {T : Torch} (cfg : UnetConfig) : Prop :=
  let num_stages := length (uc_dim_mults cfg) in
  uc_learned_sinusoidal_cond cfg = false
  /\ uc_random_fourier_features cfg = false
  /\ (uc_flash_attn cfg = true -> flash_runs)
  /\ uc_dim cfg mod 2 = 0
  /\ 4 <= uc_dim cfg
  /\ default (uc_init_dim cfg) (uc_dim cfg) = uc_dim cfg
  /\ 0 < uc_channels cfg
  /\ 0 < default (uc_out_dim cfg) (uc_channels cfg)
  /\ Forall (fun m => 0 < m) (uc_dim_mults cfg)
  /\ length (cast_tuple (uc_attn_heads cfg) num_stages) = num_stages
  /\ length (cast_tuple (uc_attn_dim_head cfg) num_stages) = num_stages
  /\ Forall (fun hd => 1 <= hd) (cast_tuple (uc_attn_heads cfg) num_stages)
  /\ Forall (fun dh => 1 <= dh) (cast_tuple (uc_attn_dim_head cfg) num_stages).

(** A configuration of positive sizes that [Unet.__init__] accepts, the
    capability for flash attention apart: at least one stage, an even
    [learned_sinusoidal_dim] when that embedding is used, a group count
    other than zero, and one [full_attn], [attn_heads] and [attn_dim_head]
    setting per stage. *)
Definition constructible_unet_config (cfg : UnetConfig) : Prop :=
  let num_stages := length (uc_dim_mults cfg) in
  0 < uc_dim cfg
  /\ 0 < uc_channels cfg
  /\ 0 < default (uc_init_dim cfg) (uc_dim cfg)
  /\ 0 < default (uc_out_dim cfg) (uc_channels cfg)
  /\ 0 < default (uc_num_classes cfg) 1
  /\ uc_dim_mults cfg <> []
  /\ Forall (fun m => 0 < m) (uc_dim_mults cfg)
  /\ (uc_learned_sinusoidal_cond cfg || uc_random_fourier_features cfg = true ->
      0 < uc_learned_sinusoidal_dim cfg /\ uc_learned_sinusoidal_dim cfg mod 2 = 0)
  /\ uc_resnet_block_groups cfg <> 0
  /\ length (cast_tuple (uc_full_attn cfg) num_stages) = num_stages
  /\ length (cast_tuple (uc_attn_heads cfg) num_stages) = num_stages
  /\ length (cast_tuple (uc_attn_dim_head cfg) num_stages) = num_stages
  /\ Forall (fun hd => 1 <= hd) (cast_tuple (uc_attn_heads cfg) num_stages)
  /\ Forall (fun dh => 1 <= dh) (cast_tuple (uc_attn_dim_head cfg) num_stages).

(** The attention modules of a stage that are full attention use the
    attention selected for [flash]. *)
Definition stage_attention_selected {T : Torch} (flash : bool) (s : Stage) : Prop :=
  match st_attn s with
  | FullAttention a => attention_selected (a_attend a) flash
  | LinAttention _ => True
  end.

(** A time tensor for a batch of [batch] samples: one time per sample, or
    a single time for all (spec 3, "Time"). *)
Definition valid_time {T : Torch} (batch : nat) (time : Tensor) : Prop :=
  shape time = [batch] \/ shape time = [1].

(** The conditioning argument of a network built for [num_classes]: valid
    labels, or none at all; a network without class conditioning ignores
    the argument. *)
Definition valid_cond (num_classes : option nat) (batch : nat) (cond : option LongTensor)
  : Prop :=
  match num_classes, cond with
  | None, _ => True
  | Some k, Some l => valid_labels k batch l
  | Some k, None => 0 < k
  end.

(** ** More concrete inputs *)

Definition demo_labels : LongTensor := mkLong [2] [3%Z; 7%Z].

Definition demo_labels' : LongTensor := mkLong [2] [0%Z; 9%Z].

Definition demo_column_labels : LongTensor := mkLong [2; 1] [3%Z; 7%Z].

Definition demo_matrix_labels : LongTensor := mkLong [2; 2] [3%Z; 7%Z; 1%Z; 2%Z].

(** The image network with five output channels for three input channels. *)
Definition demo_unet_config_out5 : UnetConfig :=
  mkUnetConfig 8 [1; 2; 2] 3 None (Some 5) (Some 10) (1 # 2) 8 false 16 false
    (Tuple [false; false; true]) (Scalar 4) (Scalar 32) false.

(** The image network of [demo_unet_config] with flash attention. *)
Definition demo_unet_config_flash : UnetConfig := with_flash_attn demo_unet_config true.

(** The conditioning embedding a residual block receives: a matrix of
    [cd] columns, or nothing, in which case [cd] is zero. *)
Definition has_cond_shape {T : Torch} (c : option Tensor) (b cd : nat) : Prop :=
  match c with
  | Some t => shape t = [b; cd]
  | None => cd = 0
  end.

(** The content of an option that holds one. *)
Definition the {A : Type} (o : option A) : match o with Some _ => A | None => unit end :=
  match o with
  | Some a => a
  | None => tt
  end.

(** The networks the constructors build from the demo configurations. *)
Definition demo_linear_net : @LinearNetwork demo_torch :=
  Eval vm_compute in the (@built demo_torch _ 42%N (LinearNetwork_init demo_linear_config)).

Definition demo_unet : @Unet demo_torch :=
  Eval vm_compute in the (@built demo_torch _ 42%N (Unet_init demo_unet_config)).

Definition demo_unet_out5 : @Unet demo_torch :=
  Eval vm_compute in the (@built demo_torch _ 42%N (Unet_init demo_unet_config_out5)).

Definition demo_unet_flash : @Unet demo_torch :=
  Eval vm_compute in the (@built demo_torch _ 42%N (Unet_init demo_unet_config_flash)).

(** The conditioning block of [demo_linear_net] and of [demo_unet]. *)
Definition demo_linear_conditioning : @Conditioning demo_torch :=
  Eval vm_compute in the (ln_conditioning demo_linear_net).

Definition demo_unet_conditioning : @Conditioning demo_torch :=
  Eval vm_compute in the (u_conditioning demo_unet).

(** What a call ended with: the shape of the tensor it returned, or the
    exception it raised. *)
Definition outcome {T : Torch} {Net : Type} (r : Result Tensor * State Net)
  : Result (list nat) :=
  match fst r with
  | Ok y => Ok (shape y)
  | Raise e => Raise e
  end.

(** Inputs for the demo networks: a batch of two vectors, a batch of two
    eight by eight images, a batch of two six by eight images, one time per
    sample, and the states the examples run from. *)
Definition demo_vector : @Tensor demo_torch := demo_input [2; 2].

Definition demo_image : @Tensor demo_torch := demo_input [2; 3; 8; 8].

Definition demo_bad_image : @Tensor demo_torch := demo_input [2; 3; 6; 8].

Definition demo_times : @Tensor demo_torch := demo_time [2].

Definition fresh_state : @State demo_torch unit := @demo_state demo_torch unit 42%N tt.

Definition demo_linear_state : @State demo_torch LinearNetwork :=
  @demo_state demo_torch _ 7%N demo_linear_net.

Definition demo_unet_state : @State demo_torch Unet :=
  @demo_state demo_torch _ 7%N demo_unet.

Definition demo_unet_out5_state : @State demo_torch Unet :=
  @demo_state demo_torch _ 7%N demo_unet_out5.

Definition demo_unet_flash_state : @State demo_torch Unet :=
  @demo_state demo_torch _ 7%N demo_unet_flash.

(** The states the constructors end in when run from [fresh_state]. *)
Definition demo_linear_built_state : @State demo_torch unit :=
  Eval vm_compute in snd (@LinearNetwork_init demo_torch unit demo_linear_config fresh_state).

Definition demo_unet_built_state : @State demo_torch unit :=
  Eval vm_compute in snd (@Unet_init demo_torch unit demo_unet_config fresh_state).

Definition demo_unet_out5_built_state : @State demo_torch unit :=
  Eval vm_compute in snd (@Unet_init demo_torch unit demo_unet_config_out5 fresh_state).

Definition demo_unet_flash_built_state : @State demo_torch unit :=
  Eval vm_compute in snd (@Unet_init demo_torch unit demo_unet_config_flash fresh_state).

(** ** DiscreteLinearNet (line 329) *)

Section Discrete.
Context {T : Torch}.

(** [x.flatten(1)]: the dimensions from the second on become one; a tensor
    of two dimensions is returned as it is, and one of fewer dimensions has
    no dimension 1. *)
Definition flatten1 (x : Tensor) : Result Tensor :=
  match shape x with
  | [] | [_] =>
      Raise (IndexError
               "Dimension out of range (expected to be in range of [-1, 0], but got 1)")
  | [_; _] => Ok x
  | b :: rest => Ok (apply [b; list_prod rest] "flatten" [targ x; AInt 1])
  end.

Definition view_message (s : list nat) (numel : nat) : string :=
  "shape '[" ++ join ", " (map string_of_nat s) ++ "]' is invalid for input of size "
  ++ string_of_nat numel.

(** [y.view(s)] of a contiguous tensor, as the sum [forward] returns is. *)
Definition view (y : Tensor) (s : list nat) : Result Tensor :=
  if list_prod (shape y) =? list_prod s
  then Ok (apply s "view" [targ y; AShape s])
  else Raise (RuntimeError (view_message s (list_prod (shape y)))).

(** The arguments [DiscreteLinearNet.__init__] passes on: the data width is
    [dim * K]. *)
Definition discrete_config (K : nat) (cfg : LinearNetworkConfig) : LinearNetworkConfig :=
  mkLinearNetworkConfig (lc_dim cfg * K) (lc_hidden_dims cfg) (lc_cond_dim cfg)
    (lc_cond_drop_prob cfg) (lc_sin_dim cfg) (lc_time_dim cfg) (lc_random_time_emb cfg)
    (lc_dropout_p cfg).

Definition DiscreteLinearNet_init {Net : Type} (K : nat) (cfg : LinearNetworkConfig)
  : M Net LinearNetwork :=
  LinearNetwork_init (discrete_config K cfg).

Definition DiscreteLinearNet_forward (x time : Tensor) (cond : option LongTensor)
  (cond_drop_prob : option Q) : M LinearNetwork Tensor :=
  flat <- lift (flatten1 x);;
  y <- LinearNetwork_forward flat time cond cond_drop_prob;;
  lift (view y (shape x)).

End Discrete.

(** ** More vocabulary *)

(** The configuration [cfg] with [init_dim] set to [d]. *)
Definition with_init_dim (cfg : UnetConfig) (d : option nat) : UnetConfig :=
  mkUnetConfig (uc_dim cfg) (uc_dim_mults cfg) (uc_channels cfg) d (uc_out_dim cfg)
    (uc_num_classes cfg) (uc_cond_drop_prob cfg) (uc_resnet_block_groups cfg)
    (uc_learned_sinusoidal_cond cfg) (uc_learned_sinusoidal_dim cfg)
    (uc_random_fourier_features cfg) (uc_full_attn cfg) (uc_attn_heads cfg)
    (uc_attn_dim_head cfg) (uc_flash_attn cfg).

(** A configuration that is valid but for its [init_dim], and that
    [Unet.__init__] accepts: at least one stage, one [full_attn] setting per
    stage, a group count other than zero, an initial width and a number of
    classes of at least one, and torch 2.0 when flash attention is asked
    for. *)
Definition buildable_unet_config {T : Torch} (cfg : UnetConfig) : Prop :=
  valid_unet_config (with_init_dim cfg None)
  /\ uc_dim_mults cfg <> []
  /\ uc_resnet_block_groups cfg <> 0
  /\ length (cast_tuple (uc_full_attn cfg) (length (uc_dim_mults cfg)))
     = length (uc_dim_mults cfg)
  /\ uc_flash_attn cfg && torch_older_than_2 = false
  /\ 0 < default (uc_init_dim cfg) (uc_dim cfg)
  /\ 0 < default (uc_num_classes cfg) 1.

Section Vocabulary3.
Context {T : Torch}.

(** [raises n0 m e]: run on the module object [n0], the computation [m]
    raises [e] and leaves the module object and its mode as they are. *)
Definition raises {Net A : Type} (n0 : Net) (m : M Net A) (e : Exn) : Prop :=
  spec (fun e' => e' = e) n0 m (fun _ => False).

(** [keeps_generator m]: in evaluation mode [m] draws nothing from the
    random generator and stays in evaluation mode. *)
Definition keeps_generator {Net A : Type} (m : M Net A) : Prop :=
  forall st, training st = false ->
    rng (snd (m st)) = rng st /\ training (snd (m st)) = false.

(** The [scale_shift] argument of [Block.forward]: nothing, or one scale
    and one shift per sample and channel, as [ResnetBlock.forward] passes
    them. *)
Definition valid_scale_shift (scale_shift : option (list Tensor)) (b o : nat) : Prop :=
  match scale_shift with
  | Some ss =>
      exists s1 s2, ss = [s1; s2] /\ shape s1 = [b; o; 1; 1] /\ shape s2 = [b; o; 1; 1]
  | None => True
  end.

(** Labels of an admissible shape of which one is no class index. *)
Definition label_out_of_range (num_classes batch : nat) (l : LongTensor) : Prop :=
  (lshape l = [batch] \/ lshape l = [batch; 1])
  /\ Exists (fun v => (v < 0 \/ Z.of_nat num_classes <= v)%Z) (ldata l).


End Vocabulary3.

(** ** More concrete objects *)

(** A block of one output channel built with the default eight groups, and
    a batch of one image of one pixel. *)
Definition demo_fallback_block : @Block demo_torch :=
  Eval vm_compute in the (@built demo_torch _ 42%N (Block_init 3 1 8)).

Definition demo_pixel : @Tensor demo_torch := demo_input [1; 3; 1; 1].

(** A batch of labels of which one is not below the number of classes of
    the demo networks, and data of three columns for the vector network of
    two. *)
Definition demo_bad_labels : LongTensor := mkLong [2] [3%Z; 10%Z].

Definition demo_wide_vector : @Tensor demo_torch := demo_input [2; 3].

(** The image network of [demo_unet_config] with an initial width of 16,
    with the learned time embedding, and with two head counts for its
    three stages. *)
Definition demo_unet_config_init16 : UnetConfig := with_init_dim demo_unet_config (Some 16).

Definition demo_unet_config_learned : UnetConfig :=
  mkUnetConfig 8 [1; 2; 2] 3 None None (Some 10) (1 # 2) 8 true 16 false
    (Tuple [false; false; true]) (Scalar 4) (Scalar 32) false.

Definition demo_unet_config_two_heads : UnetConfig :=
  mkUnetConfig 8 [1; 2; 2] 3 None None (Some 10) (1 # 2) 8 false 16 false
    (Tuple [false; false; true]) (Tuple [4; 4]) (Scalar 32) false.

Definition demo_unet_init16 : @Unet demo_torch :=
  Eval vm_compute in the (@built demo_torch _ 42%N (Unet_init demo_unet_config_init16)).

Definition demo_unet_learned : @Unet demo_torch :=
  Eval vm_compute in the (@built demo_torch _ 42%N (Unet_init demo_unet_config_learned)).

Definition demo_unet_two_heads : @Unet demo_torch :=
  Eval vm_compute in the (@built demo_torch _ 42%N (Unet_init demo_unet_config_two_heads)).

Definition demo_unet_init16_state : @State demo_torch Unet :=
  @demo_state demo_torch _ 7%N demo_unet_init16.

Definition demo_unet_learned_state : @State demo_torch Unet :=
  @demo_state demo_torch _ 7%N demo_unet_learned.

Definition demo_unet_two_heads_state : @State demo_torch Unet :=
  @demo_state demo_torch _ 7%N demo_unet_two_heads.

Definition demo_unet_init16_built_state : @State demo_torch unit :=
  Eval vm_compute in snd (@Unet_init demo_torch unit demo_unet_config_init16 fresh_state).

Unset Implicit Arguments.

(** * Proofs *)

(** ** The monad *)

Section MonadFacts.
Context {T : Torch} {Net : Type}.

Lemma bind_Ok {A B : Type} {m : M Net A} (k : A -> M Net B) {st a st'} :
  m st = (Ok a, st') -> bind m k st = k a st'.
Proof. intros H. unfold bind. rewrite H. reflexivity. Qed.

Lemma bind_Raise {A B : Type} {m : M Net A} (k : A -> M Net B) {st e st'} :
  m st = (Raise e, st') -> bind m k st = (Raise e, st').
Proof. intros H. unfold bind. rewrite H. reflexivity. Qed.

Lemma bind_ret {A B : Type} (a : A) (k : A -> M Net B) st :
  bind (ret a) k st = k a st.
Proof. reflexivity. Qed.

Lemma bind_lift_Ok {A B : Type} (a : A) (k : A -> M Net B) st :
  bind (lift (Ok a)) k st = k a st.
Proof. reflexivity. Qed.

Lemma bind_lift_Raise {A B : Type} e (k : A -> M Net B) st :
  bind (lift (Raise e)) k st = (Raise e, st).
Proof. reflexivity. Qed.

(** Two computations that agree on every state agree under any
    continuation. *)
Lemma bind_ext_l {A B : Type} (m m' : M Net A) (k : A -> M Net B) st :
  m st = m' st -> bind m k st = bind m' k st.
Proof. intros H. unfold bind. rewrite H. reflexivity. Qed.

Lemma bind_ext_r {A B : Type} (m : M Net A) (k k' : A -> M Net B) st :
  (forall a st', k a st' = k' a st') -> bind m k st = bind m k' st.
Proof.
  intros H. unfold bind. destruct (m st) as [[a | e] st']; [apply H | reflexivity].
Qed.

End MonadFacts.

(** ** Shapes *)

Lemma broadcast_rev_length (a b r : list nat) :
  broadcast_rev a b = Ok r -> length r = Nat.max (length a) (length b).
Proof.
  revert b r. induction a as [| x a IH]; intros b r H.
  - simpl in H. injection H as <-. reflexivity.
  - destruct b as [| y b].
    + simpl in H. injection H as <-. reflexivity.
    + simpl in H. destruct (bdim x y); simpl in H; [| discriminate].
      destruct (broadcast_rev a b) as [r' |] eqn:E; simpl in H; [| discriminate].
      injection H as <-. simpl. f_equal. apply IH. exact E.
Qed.

Lemma broadcast_shapes_length (a b s : list nat) :
  broadcast_shapes a b = Ok s -> length s = Nat.max (length a) (length b).
Proof.
  unfold broadcast_shapes. intros H.
  destruct (broadcast_rev (rev a) (rev b)) as [r |] eqn:E; simpl in H; [| discriminate].
  injection H as <-. rewrite length_rev. apply broadcast_rev_length in E.
  rewrite !length_rev in E. exact E.
Qed.

Section Guidance.
Context {T : Torch}.

Lemma binary_ndim (f : string) (x y z : Tensor) :
  binary f x y = Ok z -> ndim z = Nat.max (ndim x) (ndim y).
Proof.
  unfold binary, ndim. intros H.
  destruct (broadcast_shapes (shape x) (shape y)) as [s |] eqn:E; simpl in H; [| discriminate].
  injection H as <-. simpl. apply broadcast_shapes_length. exact E.
Qed.

(** C2. With [cond_scale] equal to 1.0, [forward_with_cond_scale] is the
    conditional pass [forward(.., cond_drop_prob=0.0)] and nothing more, for
    every network, every input and every [rescaled_phi]: the result and the
    whole final state (generator, trace of executed modules) are those of
    that single pass, so no second pass has run. *)
Theorem guidance_scale_one_is_conditional_forward :
  forall (Net : Type) (B : BFNetwork Net) (x time : Tensor) (cond : option LongTensor)
         (rescaled_phi : Q) (st : State Net),
    forward_with_cond_scale x time cond 1 rescaled_phi st
    = forward x time cond (Some 0%Q) st.
Proof.
  intros. unfold forward_with_cond_scale, bind.
  destruct (forward x time cond (Some 0%Q) st) as [[logits | e] st']; reflexivity.
Qed.

(** C3. With [cond_scale] different from 1.0, [forward_with_cond_scale]
    runs the conditional pass (dropout 0), then the unconditional pass
    (dropout 1), extrapolates, returns the extrapolation when
    [rescaled_phi] is 0 and otherwise the blend of the rescaled and the
    unscaled extrapolation, as [guidance_spec] words it.  The two passes
    are assumed to return tensors with as many dimensions as each other
    (the contract of [forward] is to return the shape of its input). *)
Theorem guidance_scale_not_one_matches_spec :
  forall (Net : Type) (B : BFNetwork Net) (x time : Tensor) (cond : option LongTensor)
         (cond_scale rescaled_phi : Q) (st : State Net),
    Qeq_bool cond_scale 1 = false ->
    (forall lc st1 lu st2,
        forward x time cond (Some 0%Q) st = (Ok lc, st1) ->
        forward x time cond (Some 1%Q) st1 = (Ok lu, st2) ->
        ndim lc = ndim lu) ->
    forward_with_cond_scale x time cond cond_scale rescaled_phi st
    = guidance_spec x time cond cond_scale rescaled_phi st.
Proof.
  intros Net B x time cond cond_scale rescaled_phi st Hscale Hdims.
  unfold forward_with_cond_scale, guidance_spec, bind. rewrite Hscale.
  destruct (forward x time cond (Some 0%Q) st) as [[lc | e] st1] eqn:E1; [| reflexivity].
  destruct (forward x time cond (Some 1%Q) st1) as [[lu | e] st2] eqn:E2; [| reflexivity].
  specialize (Hdims lc st1 lu st2 eq_refl E2).
  unfold lift, extrapolate.
  destruct (binary "sub" lc lu) as [d |] eqn:Ed; simpl; [| reflexivity].
  destruct (binary "add" lu (scalar_op "mul" d cond_scale)) as [scaled |] eqn:Es;
    simpl; [| reflexivity].
  destruct (Qeq_bool rescaled_phi 0); [reflexivity |].
  assert (Hn : ndim scaled = ndim lc).
  { apply binary_ndim in Es. apply binary_ndim in Ed.
    unfold scalar_op, ndim in *. simpl in Es. lia. }
  unfold rescale_and_blend, per_sample_std, non_batch_axes. rewrite Hn.
  destruct (std_keepdim lc (seq 1 (ndim lc - 1))) as [s1 |]; simpl; [| reflexivity].
  destruct (std_keepdim scaled (seq 1 (ndim lc - 1))) as [s2 |]; simpl; [| reflexivity].
  destruct (binary "div" s1 s2) as [ratio |]; simpl; [| reflexivity].
  destruct (binary "mul" scaled ratio) as [rescaled |]; simpl; [| reflexivity].
  destruct (binary "add" _ _); reflexivity.
Qed.

End Guidance.

(** ** The program logic *)

Section SpecRules.
Context {T : Torch} {Net : Type}.
Variable E : Exn -> Prop.
Variable n0 : Net.

Lemma spec_ret {A : Type} (a : A) (P : A -> Prop) : P a -> spec E n0 (ret a) P.
Proof. intros H st Hst. simpl. auto. Qed.

Lemma spec_raise {A : Type} (e : Exn) (P : A -> Prop) : E e -> spec E n0 (raise e) P.
Proof. intros H st Hst. simpl. auto. Qed.

Lemma spec_lift {A : Type} (r : Result A) (P : A -> Prop) :
  match r with Ok a => P a | Raise e => E e end -> spec E n0 (lift r) P.
Proof. intros H st Hst. unfold lift. destruct r; auto. Qed.

Lemma spec_bind {A B : Type} (m : M Net A) (k : A -> M Net B) (P : A -> Prop)
  (Q : B -> Prop) :
  spec E n0 m P -> (forall a, P a -> spec E n0 (k a) Q) -> spec E n0 (bind m k) Q.
Proof.
  intros Hm Hk st Hst. unfold bind. specialize (Hm st Hst).
  destruct (m st) as [[a | e] st1].
  - destruct Hm as (Hn & Ht & Ha). specialize (Hk a Ha st1 Hn).
    destruct (k a st1) as [[b | e] st2]; rewrite <- Ht; exact Hk.
  - exact Hm.
Qed.

Lemma spec_weaken {A : Type} (m : M Net A) (P Q : A -> Prop) :
  spec E n0 m P -> (forall a, P a -> Q a) -> spec E n0 m Q.
Proof.
  intros Hm HPQ st Hst. specialize (Hm st Hst).
  destruct (m st) as [[a | e] st1]; [| exact Hm].
  destruct Hm as (? & ? & ?). auto.
Qed.

Lemma spec_log (ev : Event) (P : unit -> Prop) : P tt -> spec E n0 (log ev) P.
Proof. intros H st Hst. simpl. auto. Qed.

Lemma spec_enter (cls : string) (P : unit -> Prop) : P tt -> spec E n0 (enter cls) P.
Proof. apply spec_log. Qed.

Lemma spec_get_self : spec E n0 get_self (fun s => s = n0).
Proof. intros st Hst. simpl. auto. Qed.

Lemma spec_is_training (P : bool -> Prop) :
  (forall b, P b) -> spec E n0 is_training P.
Proof. intros H st Hst. simpl. auto. Qed.

Lemma spec_draw (P : N -> Prop) : (forall n, P n) -> spec E n0 draw P.
Proof. intros H st Hst. unfold draw. destruct (rng_next (rng st)). simpl. auto. Qed.

Lemma spec_random (f : string) (args : list (Arg V)) (P : V -> Prop) :
  (forall v, P v) -> spec E n0 (random f args) P.
Proof.
  intros H st Hst. unfold random. destruct (rng_kernel f args (rng st)). simpl. auto.
Qed.

Lemma spec_repeatM {A : Type} (n : nat) (m : M Net A) (P : A -> Prop) :
  spec E n0 m P -> spec E n0 (repeatM n m) (fun l => length l = n /\ Forall P l).
Proof.
  intros Hm. induction n as [| n IH]; simpl.
  - apply spec_ret. auto.
  - eapply spec_bind; [exact Hm |]. intros a Ha.
    eapply spec_bind; [exact IH |]. intros l [Hl HP].
    apply spec_ret. simpl. auto.
Qed.

Lemma spec_print_once (msg : string) (P : unit -> Prop) :
  P tt -> spec E n0 (print_once msg) P.
Proof.
  intros H st Hst. unfold print_once.
  destruct (existsb (is_print msg) (trace st)); simpl; auto.
Qed.

End SpecRules.

(** What a run tells, read off a [spec]. *)
Lemma spec_Ok {T : Torch} {Net A : Type} (E : Exn -> Prop) (m : M Net A) (P : A -> Prop)
  (st st' : State Net) (a : A) :
  spec E (net st) m P -> m st = (Ok a, st') -> P a.
Proof. intros H Hr. specialize (H st eq_refl). rewrite Hr in H. tauto. Qed.

Lemma spec_Raise {T : Torch} {Net A : Type} (E : Exn -> Prop) (m : M Net A) (P : A -> Prop)
  (st st' : State Net) (e : Exn) :
  spec E (net st) m P -> m st = (Raise e, st') -> E e.
Proof. intros H Hr. specialize (H st eq_refl). rewrite Hr in H. tauto. Qed.

Lemma spec_frame {T : Torch} {Net A : Type} (E : Exn -> Prop) (m : M Net A) (P : A -> Prop)
  (st : State Net) :
  spec E (net st) m P ->
  net (snd (m st)) = net st /\ training (snd (m st)) = training st.
Proof.
  intros H. specialize (H st eq_refl). destruct (m st) as [[a | e] st']; simpl; tauto.
Qed.

Lemma total_returns {T : Torch} {Net A : Type} (m : M Net A) (P : A -> Prop)
  (st : State Net) :
  total (net st) m P -> exists a st', m st = (Ok a, st') /\ P a.
Proof.
  intros H. specialize (H st eq_refl). destruct (m st) as [[a | e] st'].
  - exists a, st'. tauto.
  - tauto.
Qed.

(** ** Pure operations raise only shape, index and value errors *)

Lemma rlax_Ok {A : Type} (a : A) : rlax (Ok a).
Proof. intros e H. discriminate. Qed.

Lemma rlax_Raise {A : Type} (e : Exn) : layer_exn e -> rlax (@Raise A e).
Proof. intros H e' H'. injection H' as <-. exact H. Qed.

Lemma rlax_rbind {A B : Type} (r : Result A) (k : A -> Result B) :
  rlax r -> (forall a, rlax (k a)) -> rlax (rbind r k).
Proof.
  intros Hr Hk e H. destruct r as [a | e']; simpl in H.
  - exact (Hk a e H).
  - injection H as <-. apply Hr. reflexivity.
Qed.

Ltac exn_ok := simpl; first [exact I | discriminate].

Ltac rlax_step :=
  lazymatch goal with
  | |- rlax (rbind _ _) => apply rlax_rbind; [| intros]
  | |- rlax (Ok _) => apply rlax_Ok
  | |- rlax (Raise _) => apply rlax_Raise; exn_ok
  | |- rlax (match ?x with _ => _ end) => destruct x
  | |- rlax (let (_, _) := ?x in _) => destruct x
  end.

Ltac rlax_auto := repeat first [rlax_step | solve [auto with rlax]].

Create HintDb rlax.

Lemma rlax_bdim (x y : nat) : rlax (bdim x y).
Proof. unfold bdim. rlax_auto. Qed.
#[local] Hint Resolve rlax_bdim : rlax.

Lemma rlax_broadcast_rev (a b : list nat) : rlax (broadcast_rev a b).
Proof.
  revert b. induction a as [| x a IH]; intros b; simpl; [apply rlax_Ok |].
  destruct b; [apply rlax_Ok |]. rlax_auto.
Qed.
#[local] Hint Resolve rlax_broadcast_rev : rlax.

Lemma rlax_broadcast_shapes (a b : list nat) : rlax (broadcast_shapes a b).
Proof. unfold broadcast_shapes. rlax_auto. Qed.
#[local] Hint Resolve rlax_broadcast_shapes : rlax.

Lemma rlax_wrap_dim (d : Z) (n : nat) : rlax (wrap_dim d n).
Proof. unfold wrap_dim. rlax_auto. Qed.
#[local] Hint Resolve rlax_wrap_dim : rlax.

Lemma rlax_cat2 (dim : nat) (a b : list nat) : rlax (cat2 dim a b).
Proof.
  revert dim b. induction a as [| x a IH]; intros dim b; destruct b; simpl; rlax_auto.
Qed.
#[local] Hint Resolve rlax_cat2 : rlax.

Lemma rlax_conv_out (h k pad : nat) : rlax (conv_out h k pad).
Proof. unfold conv_out. rlax_auto. Qed.
#[local] Hint Resolve rlax_conv_out : rlax.

Lemma rlax_Block_groups (out_dim groups : nat) : rlax (Block_groups out_dim groups).
Proof. unfold Block_groups. rlax_auto. Qed.
#[local] Hint Resolve rlax_Block_groups : rlax.

Lemma rlax_unpack2 {A : Type} (l : list A) : rlax (unpack2 l).
Proof. unfold unpack2. rlax_auto. Qed.
#[local] Hint Resolve rlax_unpack2 : rlax.

Lemma rlax_unpack3 {A : Type} (l : list A) : rlax (unpack3 l).
Proof. unfold unpack3. rlax_auto. Qed.
#[local] Hint Resolve rlax_unpack3 : rlax.

Lemma rlax_rmap {A B : Type} (f : A -> Result B) (l : list A) :
  (forall a, rlax (f a)) -> rlax (rmap f l).
Proof. intros Hf. induction l as [| a l IH]; simpl; rlax_auto. Qed.

Section PureLax.
Context {T : Torch}.

Lemma rlax_cat_shapes (dim : nat) (acc : list nat) (ss : list (list nat)) :
  rlax (cat_shapes dim acc ss).
Proof. revert acc. induction ss as [| s ss IH]; intros acc; simpl; rlax_auto. Qed.
Hint Resolve rlax_cat_shapes : rlax.

Lemma rlax_binary (f : string) (x y : Tensor) : rlax (binary f x y).
Proof. unfold binary. rlax_auto. Qed.

Lemma rlax_shape0 (x : Tensor) : rlax (shape0 x).
Proof. unfold shape0. rlax_auto. Qed.

Lemma rlax_unsqueeze0 (x : Tensor) : rlax (unsqueeze0 x).
Proof. unfold unsqueeze0. rlax_auto. Qed.

Lemma rlax_unsqueeze1 (x : Tensor) : rlax (unsqueeze1 x).
Proof. unfold unsqueeze1. rlax_auto. Qed.

Lemma rlax_cat (ts : list Tensor) (dim : Z) : rlax (cat ts dim).
Proof. unfold cat. rlax_auto. Qed.

Lemma rlax_chunk (x : Tensor) (chunks : nat) (dim : Z) : rlax (chunk x chunks dim).
Proof. unfold chunk. rlax_auto. Qed.

Lemma rlax_std_keepdim (x : Tensor) (dims : list nat) : rlax (std_keepdim x dims).
Proof. unfold std_keepdim. rlax_auto. Qed.

Lemma rlax_where1 (mask : list bool) (a : list V) (null : V) : rlax (where1 mask a null).
Proof. unfold where1. rlax_auto. Qed.
Hint Resolve rlax_where1 : rlax.

Lemma rlax_where_slices (mask : list bool) (n : nat) (a : list V) (null : V) (k : nat) :
  rlax (where_slices mask n a null k).
Proof. revert a. induction k as [| k IH]; intros a; simpl; rlax_auto. Qed.
Hint Resolve rlax_where_slices : rlax.

Lemma rlax_where_rows (mask : list bool) (r : Rows) (null : V) :
  rlax (where_rows mask r null).
Proof. unfold where_rows. rlax_auto. Qed.

Lemma rlax_lookup (rows : list V) (l : Z) : rlax (lookup rows l).
Proof. unfold lookup. rlax_auto. Qed.
Hint Resolve rlax_lookup : rlax.

Lemma rlax_lookup_all (rows : list V) (ls : list Z) : rlax (lookup_all rows ls).
Proof. induction ls as [| l ls IH]; simpl; rlax_auto. Qed.

Lemma rlax_einsum (e : Einsum) (x y : Tensor) : rlax (einsum e x y).
Proof.
  unfold einsum.
  destruct (shape x) as [| ? [| ? [| ? [| ? [| ? ?]]]]]; try (apply rlax_Raise; exn_ok);
  destruct (shape y) as [| ? [| ? [| ? [| ? [| ? ?]]]]]; try (apply rlax_Raise; exn_ok).
  rlax_auto.
Qed.

Lemma rlax_rearrange_split_heads (b : bool) (heads : nat) (t : Tensor) :
  rlax (rearrange_split_heads b heads t).
Proof. unfold rearrange_split_heads. rlax_auto. Qed.

Lemma rlax_unpack_shape4 (x : Tensor) : rlax (unpack_shape4 x).
Proof. unfold unpack_shape4. rlax_auto. Qed.

End PureLax.

#[export] Hint Resolve rlax_bdim rlax_broadcast_rev rlax_broadcast_shapes rlax_wrap_dim
  rlax_cat2 rlax_conv_out rlax_Block_groups rlax_unpack2 rlax_unpack3 rlax_cat_shapes
  rlax_binary rlax_shape0 rlax_unsqueeze0 rlax_unsqueeze1 rlax_cat rlax_chunk
  rlax_std_keepdim rlax_where1 rlax_where_slices rlax_where_rows rlax_lookup
  rlax_lookup_all rlax_einsum rlax_rearrange_split_heads rlax_unpack_shape4 : rlax.

(** ** Module code leaves the module object alone and raises only what its
    layers raise *)

Lemma spec_lift_lax {T : Torch} {Net A : Type} (E : Exn -> Prop) (n0 : Net) (r : Result A) :
  (forall e, layer_exn e -> E e) -> rlax r -> spec E n0 (lift r) (fun _ => True).
Proof.
  intros HE Hr. apply spec_lift. destruct r as [a | e]; [exact I |].
  apply HE, Hr. reflexivity.
Qed.

Ltac lax_step HE :=
  lazymatch goal with
  | |- spec _ _ (bind _ _) _ => eapply spec_bind with (P := fun _ => True); [| intros ? _]
  | |- spec _ _ (ret _) _ => apply spec_ret; exact I
  | |- spec _ _ (raise _) _ => apply spec_raise; apply HE; exn_ok
  | |- spec _ _ (lift _) _ => apply spec_lift_lax; [exact HE | rlax_auto]
  | |- spec _ _ (enter _) _ => apply spec_enter; exact I
  | |- spec _ _ (log _) _ => apply spec_log; exact I
  | |- spec _ _ is_training _ => apply spec_is_training; intros; exact I
  | |- spec _ _ (random _ _) _ => apply spec_random; intros; exact I
  | |- spec _ _ draw _ => apply spec_draw; intros; exact I
  | |- spec _ _ (print_once _) _ => apply spec_print_once; exact I
  | |- spec _ _ (match ?x with _ => _ end) _ => destruct x
  end.

Ltac lax HE := repeat first [lax_step HE | solve [eauto with lax]].

Create HintDb lax.

Section LaxLayers.
Context {T : Torch} {Net : Type}.
Variable E : Exn -> Prop.
Variable n0 : Net.
Hypothesis E_layer : forall e, layer_exn e -> E e.

Notation "'lax_spec' m" := (spec E n0 m (fun _ => True)) (at level 10, m at level 9).

Lemma lax_repeatM {A : Type} (n : nat) (m : M Net A) :
  lax_spec m -> lax_spec (repeatM n m).
Proof.
  intros H. eapply spec_weaken; [apply spec_repeatM; exact H | auto].
Qed.

Lemma lax_t_rand (batch : nat) : lax_spec (t_rand batch).
Proof. unfold t_rand. lax E_layer. apply lax_repeatM. lax E_layer. Qed.

Lemma lax_t_randint (high batch : nat) : lax_spec (t_randint high batch).
Proof. unfold t_randint. lax E_layer. apply lax_repeatM. lax E_layer. Qed.

Lemma lax_Linear_forward (l : Linear) (x : Tensor) : lax_spec (Linear_forward l x).
Proof. unfold Linear_forward. lax E_layer. Qed.

Lemma lax_LayerNorm_forward (l : LayerNorm) (x : Tensor) : lax_spec (LayerNorm_forward l x).
Proof. unfold LayerNorm_forward. lax E_layer. Qed.

Lemma lax_SiLU_forward (x : Tensor) : lax_spec (SiLU_forward x).
Proof. unfold SiLU_forward. lax E_layer. Qed.

Lemma lax_GELU_forward (x : Tensor) : lax_spec (GELU_forward x).
Proof. unfold GELU_forward. lax E_layer. Qed.

Lemma lax_Identity_forward (x : Tensor) : lax_spec (Identity_forward x).
Proof. unfold Identity_forward. lax E_layer. Qed.

Lemma lax_Dropout_forward (d : Dropout) (x : Tensor) : lax_spec (Dropout_forward d x).
Proof. unfold Dropout_forward. lax E_layer. Qed.

Lemma lax_Embedding_forward (e : Embedding) (idx : LongTensor) :
  lax_spec (Embedding_forward e idx).
Proof. unfold Embedding_forward. lax E_layer. Qed.

Lemma lax_SinusoidalPosEmb_forward (dim : nat) (x : Tensor) :
  lax_spec (SinusoidalPosEmb_forward dim x).
Proof. unfold SinusoidalPosEmb_forward. lax E_layer. Qed.

Lemma lax_RandomOrLearnedSinusoidalPosEmb_forward
  (e : RandomOrLearnedSinusoidalPosEmb) (x : Tensor) :
  lax_spec (RandomOrLearnedSinusoidalPosEmb_forward e x).
Proof. unfold RandomOrLearnedSinusoidalPosEmb_forward. lax E_layer. Qed.

Lemma lax_Conv2d_forward (c : Conv2d) (x : Tensor) : lax_spec (Conv2d_forward c x).
Proof. unfold Conv2d_forward. lax E_layer. Qed.

Lemma lax_GroupNorm_forward (g : GroupNorm) (x : Tensor) : lax_spec (GroupNorm_forward g x).
Proof. unfold GroupNorm_forward. lax E_layer. Qed.

Lemma lax_Upsample_forward (x : Tensor) : lax_spec (Upsample_forward x).
Proof. unfold Upsample_forward. lax E_layer. Qed.

Lemma lax_Rearrange_forward (x : Tensor) : lax_spec (Rearrange_forward x).
Proof. unfold Rearrange_forward. lax E_layer. Qed.

Lemma lax_RMSNorm_forward (n : RMSNorm) (x : Tensor) : lax_spec (RMSNorm_forward n x).
Proof. unfold RMSNorm_forward. lax E_layer. Qed.

Hint Resolve lax_t_rand lax_t_randint lax_Linear_forward lax_LayerNorm_forward
  lax_SiLU_forward lax_GELU_forward lax_Identity_forward lax_Dropout_forward
  lax_Embedding_forward lax_SinusoidalPosEmb_forward
  lax_RandomOrLearnedSinusoidalPosEmb_forward lax_Conv2d_forward lax_GroupNorm_forward
  lax_Upsample_forward lax_Rearrange_forward lax_RMSNorm_forward : lax.

Lemma lax_Module_forward (m : Module) (x : Tensor) : lax_spec (Module_forward m x).
Proof. unfold Module_forward. lax E_layer. Qed.
Hint Resolve lax_Module_forward : lax.

Lemma lax_Sequential_run (ms : Sequential) (x : Tensor) : lax_spec (Sequential_run ms x).
Proof. revert x. induction ms as [| m ms IH]; intros x; simpl; lax E_layer. Qed.
Hint Resolve lax_Sequential_run : lax.

Lemma lax_Sequential_forward (ms : Sequential) (x : Tensor) :
  lax_spec (Sequential_forward ms x).
Proof. unfold Sequential_forward. lax E_layer. Qed.
Hint Resolve lax_Sequential_forward : lax.

Lemma lax_modulate (x : Tensor) (ss : option (list Tensor)) : lax_spec (modulate x ss).
Proof. unfold modulate. lax E_layer. Qed.
Hint Resolve lax_modulate : lax.

Lemma lax_LinearBlock_forward (b : LinearBlock) (x : Tensor) (ss : option (list Tensor)) :
  lax_spec (LinearBlock_forward b x ss).
Proof. unfold LinearBlock_forward. lax E_layer. Qed.
Hint Resolve lax_LinearBlock_forward : lax.

Lemma lax_LinearResnetBlock_forward (b : LinearResnetBlock) (x : Tensor)
  (time_emb cond_emb : option Tensor) :
  lax_spec (LinearResnetBlock_forward b x time_emb cond_emb).
Proof. unfold LinearResnetBlock_forward. lax E_layer. Qed.
Hint Resolve lax_LinearResnetBlock_forward : lax.

Lemma lax_class_conditioning (cm : Conditioning) (d : Q) (batch : nat)
  (cond : option LongTensor) (p : option Q) :
  lax_spec (class_conditioning cm d batch cond p).
Proof. unfold class_conditioning. lax E_layer. Qed.
Hint Resolve lax_class_conditioning : lax.

Lemma lax_Block_forward (b : Block) (x : Tensor) (ss : option (list Tensor)) :
  lax_spec (Block_forward b x ss).
Proof. unfold Block_forward. lax E_layer. Qed.
Hint Resolve lax_Block_forward : lax.

Lemma lax_ResnetBlock_forward (b : ResnetBlock) (x : Tensor)
  (time_emb class_emb : option Tensor) :
  lax_spec (ResnetBlock_forward b x time_emb class_emb).
Proof. unfold ResnetBlock_forward. lax E_layer. Qed.
Hint Resolve lax_ResnetBlock_forward : lax.

Lemma lax_scaled_dot_product_attention (cfg : AttentionConfig) (p : Q) (q k v : Tensor) :
  lax_spec (scaled_dot_product_attention cfg p q k v).
Proof.
  unfold scaled_dot_product_attention. lax E_layer.
Qed.
Hint Resolve lax_scaled_dot_product_attention : lax.

Lemma lax_Attend_flash_attn (a : Attend) (q k v : Tensor) :
  lax_spec (Attend_flash_attn a q k v).
Proof. unfold Attend_flash_attn. lax E_layer. Qed.
Hint Resolve lax_Attend_flash_attn : lax.

Lemma lax_Attend_forward (a : Attend) (q k v : Tensor) : lax_spec (Attend_forward a q k v).
Proof. unfold Attend_forward. lax E_layer. Qed.
Hint Resolve lax_Attend_forward : lax.

Lemma lax_rmap_split_heads (b : bool) (heads : nat) (l : list Tensor) :
  rlax (rmap (rearrange_split_heads b heads) l).
Proof. apply rlax_rmap. auto with rlax. Qed.
Hint Resolve lax_rmap_split_heads : rlax.

Lemma lax_LinearAttention_forward (a : LinearAttention) (x : Tensor) :
  lax_spec (LinearAttention_forward a x).
Proof.
  unfold LinearAttention_forward. lax E_layer.
Qed.
Hint Resolve lax_LinearAttention_forward : lax.

Lemma lax_Attention_forward (a : Attention) (x : Tensor) : lax_spec (Attention_forward a x).
Proof.
  unfold Attention_forward. lax E_layer.
Qed.
Hint Resolve lax_Attention_forward : lax.

Lemma lax_AttnModule_forward (a : AttnModule) (x : Tensor) :
  lax_spec (AttnModule_forward a x).
Proof. unfold AttnModule_forward. lax E_layer. Qed.

Lemma lax_Resample_forward (r : Resample) (x : Tensor) : lax_spec (Resample_forward r x).
Proof. unfold Resample_forward. lax E_layer. Qed.

End LaxLayers.

#[export] Hint Resolve lax_t_rand lax_t_randint lax_Linear_forward lax_LayerNorm_forward
  lax_SiLU_forward lax_GELU_forward lax_Identity_forward lax_Dropout_forward
  lax_Embedding_forward lax_SinusoidalPosEmb_forward
  lax_RandomOrLearnedSinusoidalPosEmb_forward lax_Conv2d_forward lax_GroupNorm_forward
  lax_Upsample_forward lax_Rearrange_forward lax_RMSNorm_forward lax_Module_forward
  lax_Sequential_run lax_Sequential_forward lax_modulate lax_LinearBlock_forward
  lax_LinearResnetBlock_forward lax_class_conditioning lax_Block_forward
  lax_ResnetBlock_forward lax_scaled_dot_product_attention lax_Attend_flash_attn
  lax_Attend_forward lax_LinearAttention_forward lax_Attention_forward
  lax_AttnModule_forward lax_Resample_forward : lax.

(** ** The two networks *)

Section LaxNetworks.
Context {T : Torch}.
Variable E : Exn -> Prop.
Hypothesis E_layer : forall e, layer_exn e -> E e.

Lemma lax_LinearNetwork_blocks (n0 : LinearNetwork) (blocks : list LinearResnetBlock)
  (x time : Tensor) (c : option Tensor) :
  spec E n0 (LinearNetwork_blocks blocks x time c) (fun _ => True).
Proof. revert x. induction blocks as [| b bs IH]; intros x; simpl; lax E_layer. Qed.

Lemma lax_LinearNetwork_forward (n0 : LinearNetwork) (x time : Tensor)
  (cond : option LongTensor) (p : option Q) :
  spec E n0 (LinearNetwork_forward x time cond p) (fun _ => True).
Proof.
  unfold LinearNetwork_forward.
  eapply spec_bind; [apply spec_get_self |]. intros self ->.
  pose proof lax_LinearNetwork_blocks. lax E_layer.
Qed.

Lemma lax_h_append (n0 : Unet) (h : list Tensor) (x : Tensor) :
  spec E n0 (h_append h x) (fun h' => length h' = S (length h)).
Proof.
  unfold h_append. eapply spec_bind with (P := fun _ => True); [lax E_layer |].
  intros _ _. apply spec_ret. reflexivity.
Qed.

(** The encoder loop pushes two entries per stage. *)
Lemma lax_Unet_downs (n0 : Unet) (downs : list Stage) (x time : Tensor) (c : option Tensor)
  (h : list Tensor) :
  spec E n0 (Unet_downs downs x time c h)
    (fun r => length (snd r) = 2 * length downs + length h).
Proof.
  revert x h. induction downs as [| stage rest IH]; intros x h; simpl Unet_downs.
  - apply spec_ret. reflexivity.
  - eapply spec_bind with (P := fun _ => True); [lax E_layer |]. intros x1 _.
    eapply spec_bind; [apply lax_h_append |]. intros h1 Hh1.
    eapply spec_bind with (P := fun _ => True); [lax E_layer |]. intros x2 _.
    eapply spec_bind with (P := fun _ => True); [lax E_layer |]. intros a _.
    eapply spec_bind with (P := fun _ => True); [lax E_layer |]. intros x3 _.
    eapply spec_bind; [apply lax_h_append |]. intros h2 Hh2.
    eapply spec_bind with (P := fun _ => True); [lax E_layer |]. intros x4 _.
    eapply spec_weaken; [apply IH |]. intros r Hr. cbv beta in *. simpl length in *. lia.
Qed.

Lemma lax_h_pop (n0 : Unet) (h : list Tensor) :
  E (IndexError pop_message) \/ 1 <= length h ->
  spec E n0 (h_pop h) (fun r => length h = S (length (snd r))).
Proof.
  intros H. unfold h_pop. destruct h as [| x h].
  - apply spec_raise. destruct H as [H | H]; [exact H | simpl in H; lia].
  - eapply spec_bind with (P := fun _ => True); [lax E_layer |].
    intros _ _. apply spec_ret. reflexivity.
Qed.

(** The decoder loop pops two entries per stage, and pops from an empty
    stack only when fewer than two per stage are there. *)
Lemma lax_Unet_ups (n0 : Unet) (ups : list Stage) (x time : Tensor) (c : option Tensor)
  (h : list Tensor) :
  E (IndexError pop_message) \/ 2 * length ups <= length h ->
  spec E n0 (Unet_ups ups x time c h)
    (fun r => length (snd r) + 2 * length ups = length h).
Proof.
  revert x h. induction ups as [| stage rest IH]; intros x h H; simpl Unet_ups.
  - apply spec_ret. simpl. lia.
  - eapply spec_bind.
    { apply lax_h_pop. destruct H as [H | H]; [left; exact H | right; simpl in H; lia]. }
    intros [s1 h1] Hh1. simpl in Hh1.
    eapply spec_bind with (P := fun _ => True); [lax E_layer |]. intros x1 _.
    eapply spec_bind with (P := fun _ => True); [lax E_layer |]. intros x2 _.
    eapply spec_bind.
    { apply lax_h_pop. destruct H as [H | H]; [left; exact H | right; simpl in H; lia]. }
    intros [s2 h2] Hh2. simpl in Hh2.
    eapply spec_bind with (P := fun _ => True); [lax E_layer |]. intros x3 _.
    eapply spec_bind with (P := fun _ => True); [lax E_layer |]. intros x4 _.
    eapply spec_bind with (P := fun _ => True).
    { apply lax_AttnModule_forward. exact E_layer. }
    intros a _.
    eapply spec_bind with (P := fun _ => True); [lax E_layer |]. intros x5 _.
    eapply spec_bind with (P := fun _ => True).
    { apply lax_Resample_forward. exact E_layer. }
    intros x6 _.
    eapply spec_weaken.
    { apply IH. destruct H as [H | H]; [left; exact H | right; simpl in H; lia]. }
    intros r Hr. cbv beta in *. simpl length in *. lia.
Qed.

Lemma lax_Unet_main (n0 self : Unet) (batch : nat) (x time : Tensor) (c : option Tensor) :
  E (AssertionError (dimension_message (shape x) (length (u_downs self))))
  \/ forallb (divisible_by_factor (length (u_downs self))) (last2 (shape x)) = true ->
  E (IndexError pop_message) \/ length (u_ups self) = length (u_downs self) ->
  spec E n0 (Unet_main self batch x time c)
    (fun r => length (snd r) + 2 * length (u_ups self) = 2 * length (u_downs self)).
Proof.
  intros Hdiv Hlen. unfold Unet_main.
  eapply spec_bind with (P := fun _ => True).
  { destruct (forallb _ _).
    - apply spec_ret. exact I.
    - apply spec_raise. destruct Hdiv as [H | H]; [exact H | discriminate]. }
  intros _ _.
  eapply spec_bind with (P := fun _ => True); [lax E_layer |]. intros x1 _.
  eapply spec_bind with (P := fun _ => True); [lax E_layer |]. intros time1 _.
  eapply spec_bind; [apply lax_Unet_downs |]. intros [x2 h2] Hh2. simpl in Hh2.
  eapply spec_bind with (P := fun _ => True); [lax E_layer |]. intros x3 _.
  eapply spec_bind with (P := fun _ => True); [lax E_layer |]. intros a _.
  eapply spec_bind with (P := fun _ => True); [lax E_layer |]. intros x4 _.
  eapply spec_bind with (P := fun _ => True); [lax E_layer |]. intros x5 _.
  eapply spec_bind.
  { apply lax_Unet_ups. destruct Hlen as [H | H]; [left; exact H | right; lia]. }
  intros [x6 h6] Hh6. simpl in Hh6.
  eapply spec_bind with (P := fun _ => True); [lax E_layer |]. intros x7 _.
  eapply spec_bind with (P := fun _ => True); [lax E_layer |]. intros x8 _.
  eapply spec_bind with (P := fun _ => True); [lax E_layer |]. intros x9 _.
  apply spec_ret. cbv beta in *. simpl in *. lia.
Qed.

Lemma lax_Unet_conditioning (n0 self : Unet) (batch : nat) (classes : option LongTensor)
  (p : option Q) :
  spec E n0 (Unet_conditioning self batch classes p) (fun _ => True).
Proof. unfold Unet_conditioning. lax E_layer. Qed.

Lemma lax_Unet_forward_stack (n0 : Unet) (x time : Tensor) (classes : option LongTensor)
  (p : option Q) :
  E (AssertionError (dimension_message (shape x) (length (u_downs n0))))
  \/ forallb (divisible_by_factor (length (u_downs n0))) (last2 (shape x)) = true ->
  E (IndexError pop_message) \/ length (u_ups n0) = length (u_downs n0) ->
  spec E n0 (Unet_forward_stack x time classes p)
    (fun r => length (snd r) + 2 * length (u_ups n0) = 2 * length (u_downs n0)).
Proof.
  intros Hdiv Hlen. unfold Unet_forward_stack.
  eapply spec_bind; [apply spec_get_self |]. intros self ->.
  eapply spec_bind with (P := fun _ => True); [lax E_layer |]. intros batch _.
  eapply spec_bind with (P := fun _ => True); [apply lax_Unet_conditioning |]. intros c _.
  apply lax_Unet_main; assumption.
Qed.

Lemma lax_Unet_forward (n0 : Unet) (x time : Tensor) (classes : option LongTensor)
  (p : option Q) :
  E (AssertionError (dimension_message (shape x) (length (u_downs n0))))
  \/ forallb (divisible_by_factor (length (u_downs n0))) (last2 (shape x)) = true ->
  E (IndexError pop_message) \/ length (u_ups n0) = length (u_downs n0) ->
  spec E n0 (Unet_forward x time classes p) (fun _ => True).
Proof.
  intros Hdiv Hlen. unfold Unet_forward.
  eapply spec_bind; [apply lax_Unet_forward_stack; assumption |].
  intros [y h] _. apply spec_ret. exact I.
Qed.

End LaxNetworks.

(** C9. A forward evaluation leaves the module object, that is every
    learned parameter (embedding, normalisation, convolution, linear and
    attention weights), exactly as it found it, for both networks, for
    every input and conditioning, whether the call returns or raises.  The
    generator and the trace are the only parts of the state a call
    changes. *)
Theorem forward_leaves_parameters_unchanged :
  forall (T : Torch) (x time : Tensor) (cond : option LongTensor) (p : option Q),
    (forall st : State LinearNetwork,
        net (snd (LinearNetwork_forward x time cond p st)) = net st
        /\ training (snd (LinearNetwork_forward x time cond p st)) = training st)
    /\ (forall st : State Unet,
        net (snd (Unet_forward x time cond p st)) = net st
        /\ training (snd (Unet_forward x time cond p st)) = training st).
Proof.
  intros T x time cond p. split; intros st.
  - eapply spec_frame with (E := fun _ => True).
    apply lax_LinearNetwork_forward. auto.
  - eapply spec_frame with (E := fun _ => True).
    apply lax_Unet_forward; auto.
Qed.

(** ** Class conditioning *)

Section ConditioningFacts.
Context {T : Torch} {Net : Type}.

Lemma bind_get_self {B : Type} (k : Net -> M Net B) (st : State Net) :
  bind get_self k st = k (net st) st.
Proof. reflexivity. Qed.

Lemma lookup_all_valid (rows : list V) (ls : list Z) :
  Forall (fun v => (0 <= v < Z.of_nat (length rows))%Z) ls ->
  exists rs, lookup_all rows ls = Ok rs /\ length rs = length ls.
Proof.
  induction 1 as [| l ls Hl _ IH]; simpl.
  - exists []. auto.
  - destruct IH as (rs & -> & Hlen). unfold lookup.
    destruct (l <? 0)%Z eqn:Hneg; [apply Z.ltb_lt in Hneg; lia |].
    destruct (nth_error rows (Z.to_nat l)) as [r |] eqn:Hnth.
    + exists (r :: rs). simpl. auto.
    + apply nth_error_None in Hnth. lia.
Qed.

Lemma repeatM_draw (n : nat) (st : State Net) :
  exists ds st', repeatM n draw st = (Ok ds, st') /\ length ds = n.
Proof.
  revert st. induction n as [| n IH]; intros st; simpl.
  - exists [], st. auto.
  - unfold bind at 1. unfold draw at 1. destruct (rng_next (rng st)) as [d g].
    destruct (IH (mkState (net st) (training st) g (trace st))) as (ds & st' & Hr & Hl).
    unfold bind. rewrite Hr. exists (d :: ds), st'. simpl. auto.
Qed.

Lemma t_rand_run (batch : nat) (st : State Net) :
  exists ds st', t_rand batch st = (Ok (map unit_interval ds), st') /\ length ds = batch.
Proof.
  destruct (repeatM_draw batch st) as (ds & st' & Hr & Hl).
  exists ds, st'. split; [| exact Hl]. unfold t_rand. rewrite (bind_Ok _ Hr). reflexivity.
Qed.

Lemma bind_assoc {A B C : Type} (m : M Net A) (f : A -> M Net B) (g : B -> M Net C) st :
  bind (bind m f) g st = bind m (fun a => bind (f a) g) st.
Proof. unfold bind. destruct (m st) as [[a | e] st']; reflexivity. Qed.

(** A draw of [t.rand] is never below zero: with dropout probability one
    no row is kept. *)
Lemma keep_mask_all_false (ds : list N) :
  map (fun u => Qltb u (1 - 1)%Q) (map unit_interval ds) = repeat false (length ds).
Proof.
  induction ds as [| d ds IH]; simpl; [reflexivity |]. rewrite IH. f_equal.
  unfold Qltb, Qle_bool, unit_interval. cbn [Qnum Qden Qminus Qplus Qopp].
  apply negb_false_iff, Z.leb_le.
  pose proof (N2Z.is_nonneg (d mod 16777216)). lia.
Qed.

Lemma map2_none_kept (rows : list V) (null : V) :
  map2 (fun (m : bool) r => if m then r else null) (repeat false (length rows)) rows
  = repeat null (length rows).
Proof. induction rows as [| r rows IH]; simpl; [reflexivity | now rewrite IH]. Qed.

Lemma where_rows_none_kept (batch w : nat) (rows : list V) (null : V) :
  length rows = batch ->
  where_rows (repeat false batch) (mkRows [batch] w rows) null
  = Ok (mkRows [batch] w (repeat null batch)).
Proof.
  intros <-. unfold where_rows. cbn [rshape rrows rwidth rev app list_prod fold_right].
  rewrite repeat_length. cbn [Nat.mul Nat.add where_slices].
  rewrite firstn_all. unfold where1 at 1.
  rewrite repeat_length, Nat.eqb_refl. cbn [rbind].
  rewrite map2_none_kept, app_nil_r.
  destruct (length rows =? 1); reflexivity.
Qed.

Lemma class_conditioning_dropped (cm : Conditioning) (d : Q) (batch : nat)
  (l : LongTensor) (st : State Net) :
  valid_labels (num_embeddings (cond_emb cm)) batch l ->
  class_conditioning cm d batch (Some l) (Some 1%Q) st = dropped_conditioning cm batch st.
Proof.
  intros (Hshape & Hlen & Hrange).
  unfold class_conditioning, dropped_conditioning. rewrite bind_ret.
  assert (Hsq : (if 1 <? length (lshape l)
                 then if (length (lshape l) =? 2) && (last (lshape l) 0 =? 1)
                      then ret (mkLong (removelast (lshape l)) (ldata l))
                      else raise (ValueError (class_shape_message batch (lshape l)))
                 else ret l)
                = (ret (mkLong [batch] (ldata l)) : M Net LongTensor)).
  { destruct l as [s data]. simpl in *. destruct Hshape as [-> | ->]; reflexivity. }
  rewrite Hsq. clear Hsq. rewrite bind_ret. cbn [default].
  unfold num_embeddings in Hrange.
  destruct (lookup_all_valid _ _ Hrange) as (rs & Hrs & Hrl).
  unfold Embedding_forward. cbn [ldata lshape]. rewrite Hrs.
  rewrite bind_assoc. apply bind_ext_r. intros [] st1.
  rewrite bind_assoc, bind_lift_Ok, bind_ret.
  change (Qltb 0 1) with true. cbv iota. rewrite bind_assoc.
  destruct (t_rand_run batch st1) as (ds & st2 & Hds & Hdl).
  rewrite (bind_Ok _ Hds), (bind_Ok _ Hds).
  rewrite keep_mask_all_false, Hdl, where_rows_none_kept by congruence.
  reflexivity.
Qed.

(** A column of labels is squeezed: it conditions as the vector of the same
    labels does. *)
Lemma class_conditioning_squeeze (cm : Conditioning) (d : Q) (batch n : nat)
  (data : list Z) (p : option Q) (st : State Net) :
  class_conditioning cm d batch (Some (mkLong [n; 1] data)) p st
  = class_conditioning cm d batch (Some (mkLong [n] data)) p st.
Proof. reflexivity. Qed.

Lemma class_conditioning_bad_rank (cm : Conditioning) (d : Q) (batch : nat)
  (l : LongTensor) (p : option Q) (st : State Net) :
  bad_label_rank l ->
  class_conditioning cm d batch (Some l) p st
  = (Raise (ValueError (class_shape_message batch (lshape l))), st).
Proof.
  intros [Hrank Hcol]. unfold class_conditioning. rewrite bind_ret.
  apply Nat.ltb_lt in Hrank. rewrite Hrank.
  destruct ((length (lshape l) =? 2) && (last (lshape l) 0 =? 1)) eqn:Hc.
  - exfalso. apply Hcol. apply andb_true_iff in Hc.
    destruct Hc as [H1 H2]. apply Nat.eqb_eq in H1, H2. auto.
  - reflexivity.
Qed.

End ConditioningFacts.

(** ** Full dropout *)

Section Dropout.
Context {T : Torch}.

Lemma LinearNetwork_forward_dropped (x time : Tensor) (l1 l2 : LongTensor)
  (batch : nat) (rest : list nat) (st : State LinearNetwork) (cm : Conditioning) :
  shape x = batch :: rest ->
  ln_conditioning (net st) = Some cm ->
  valid_labels (num_embeddings (cond_emb cm)) batch l1 ->
  valid_labels (num_embeddings (cond_emb cm)) batch l2 ->
  LinearNetwork_forward x time (Some l1) (Some 1%Q) st
  = LinearNetwork_forward x time (Some l2) (Some 1%Q) st.
Proof.
  intros Hx Hcm Hl1 Hl2. unfold LinearNetwork_forward.
  rewrite !bind_get_self. unfold shape0. rewrite Hx, !bind_lift_Ok.
  apply bind_ext_r. intros time1 st1. apply bind_ext_r. intros time2 st2.
  rewrite Hcm. apply bind_ext_l. apply bind_ext_l.
  rewrite !class_conditioning_dropped by assumption. reflexivity.
Qed.

Lemma Unet_forward_dropped (x time : Tensor) (l1 l2 : LongTensor)
  (batch : nat) (rest : list nat) (st : State Unet) (cm : Conditioning) :
  shape x = batch :: rest ->
  u_conditioning (net st) = Some cm ->
  valid_labels (num_embeddings (cond_emb cm)) batch l1 ->
  valid_labels (num_embeddings (cond_emb cm)) batch l2 ->
  Unet_forward x time (Some l1) (Some 1%Q) st
  = Unet_forward x time (Some l2) (Some 1%Q) st.
Proof.
  intros Hx Hcm Hl1 Hl2. unfold Unet_forward. apply bind_ext_l.
  unfold Unet_forward_stack. rewrite !bind_get_self.
  unfold shape0. rewrite Hx, !bind_lift_Ok.
  apply bind_ext_l. unfold Unet_conditioning. rewrite Hcm. apply bind_ext_l.
  rewrite !class_conditioning_dropped by assumption. reflexivity.
Qed.

End Dropout.

(** C5. For a conditional network, [forward] with [cond_drop_prob] equal
    to 1.0 does not depend on the labels: for two batches of class labels
    (of shape (batch,) or (batch, 1), labels below the number of classes),
    the same data, time and state of the generator, both calls end with the
    same result and the same state.  With dropout probability one the keep
    mask is false everywhere, so every row of the class embedding is
    replaced by the null embedding.  The statement covers the vector and
    the image network. *)
Theorem full_dropout_ignores_labels :
  forall (T : Torch) (x time : Tensor) (l1 l2 : LongTensor) (batch : nat)
         (rest : list nat) (cm : Conditioning),
    shape x = batch :: rest ->
    valid_labels (num_embeddings (cond_emb cm)) batch l1 ->
    valid_labels (num_embeddings (cond_emb cm)) batch l2 ->
    (forall st : State LinearNetwork,
        ln_conditioning (net st) = Some cm ->
        LinearNetwork_forward x time (Some l1) (Some 1%Q) st
        = LinearNetwork_forward x time (Some l2) (Some 1%Q) st)
    /\ (forall st : State Unet,
        u_conditioning (net st) = Some cm ->
        Unet_forward x time (Some l1) (Some 1%Q) st
        = Unet_forward x time (Some l2) (Some 1%Q) st).
Proof.
  intros T x time l1 l2 batch rest cm Hx Hl1 Hl2. split; intros st Hcm.
  - eapply LinearNetwork_forward_dropped; eassumption.
  - eapply Unet_forward_dropped; eassumption.
Qed.

(** ** Construction *)

Section PostRules.
Context {T : Torch} {Net : Type}.

Lemma post_ret {A : Type} (a : A) (P : A -> Prop) : P a -> post (ret (Net := Net) a) P.
Proof. intros H st a' st' E. injection E as <- _. exact H. Qed.

Lemma post_raise {A : Type} (e : Exn) (P : A -> Prop) : post (raise (Net := Net) e) P.
Proof. intros st a st' E. discriminate. Qed.

Lemma post_bind {A B : Type} (m : M Net A) (k : A -> M Net B) (P : A -> Prop)
  (Q : B -> Prop) :
  post m P -> (forall a, P a -> post (k a) Q) -> post (bind m k) Q.
Proof.
  intros Hm Hk st b st' E. unfold bind in E.
  destruct (m st) as [[a | e] st1] eqn:Em; [| discriminate].
  exact (Hk a (Hm _ _ _ Em) _ _ _ E).
Qed.

Lemma post_any {A : Type} (m : M Net A) : post m (fun _ => True).
Proof. intros st a st' E. exact I. Qed.

Lemma post_weaken {A : Type} (m : M Net A) (P Q : A -> Prop) :
  post m P -> (forall a, P a -> Q a) -> post m Q.
Proof. intros Hm HPQ st a st' E. exact (HPQ a (Hm _ _ _ E)). Qed.

Lemma post_lift {A : Type} (r : Result A) (P : A -> Prop) :
  (forall a, r = Ok a -> P a) -> post (lift (Net := Net) r) P.
Proof. intros H st a st' E. unfold lift in E. injection E as E _. exact (H a E). Qed.

(** A computation whose first step raises [e] raises [e]; one whose first
    step returns without touching the state goes on with the rest. *)
Lemma fails_with_bind {A B : Type} (m : M Net A) (k : A -> M Net B) (e : Exn) :
  fails_with m e -> fails_with (bind m k) e.
Proof.
  intros H st. destruct (H st) as (st' & E). exists st'. unfold bind. rewrite E. reflexivity.
Qed.

Lemma fails_with_never_Ok {A : Type} (m : M Net A) (e : Exn) :
  fails_with m e -> post m (fun _ => False).
Proof. intros H st a st' E. destruct (H st) as (st1 & E1). congruence. Qed.

Lemma post_False_bind_l {A B : Type} (m : M Net A) (k : A -> M Net B) :
  post m (fun _ => False) -> post (bind m k) (fun _ => False).
Proof. intros H. eapply post_bind; [exact H | intros a []]. Qed.

Lemma post_False_bind_r {A B : Type} (m : M Net A) (k : A -> M Net B) :
  (forall a, post (k a) (fun _ => False)) -> post (bind m k) (fun _ => False).
Proof. intros H. eapply post_bind; [apply post_any | intros a _; apply H]. Qed.

End PostRules.

(** *** Group normalisation of a block *)

Section Groups.
Context {T : Torch} {Net : Type}.

Lemma Conv2d_init_run (i o k pad : nat) (with_bias : bool) (st : State Net) :
  exists c st', Conv2d_init i o k pad with_bias st = (Ok c, st')
    /\ in_channels c = i /\ out_channels c = o /\ kernel_size c = k /\ padding c = pad
    /\ net st' = net st /\ training st' = training st.
Proof.
  unfold Conv2d_init, new_param, bind, random, ret.
  destruct (rng_kernel "kaiming_uniform_" [AShape [o; i; k; k]] (rng st)) as [w g1].
  destruct with_bias.
  - cbn [rng net training trace]. destruct (rng_kernel "uniform_" [AShape [o]] g1) as [b g2].
    eexists _, _. repeat split; reflexivity.
  - eexists _, _. repeat split; reflexivity.
Qed.

Lemma Linear_init_run (i o : nat) (st : State Net) :
  exists l st', Linear_init i o st = (Ok l, st')
    /\ in_features l = i /\ out_features l = o
    /\ net st' = net st /\ training st' = training st.
Proof.
  unfold Linear_init, new_param, bind, random, ret.
  destruct (rng_kernel "kaiming_uniform_" [AShape [o; i]] (rng st)) as [w g1].
  cbn [rng net training trace]. destruct (rng_kernel "uniform_" [AShape [o]] g1) as [b g2].
  eexists _, _. repeat split; reflexivity.
Qed.

Lemma Block_init_run (in_dim out_dim groups : nat) (st : State Net) :
  groups <> 0 ->
  exists b st', Block_init in_dim out_dim groups st = (Ok b, st')
    /\ num_groups (b_norm b) = (if out_dim mod groups =? 0 then groups else 1)
    /\ num_channels (b_norm b) = out_dim
    /\ in_channels (b_proj b) = in_dim /\ out_channels (b_proj b) = out_dim
    /\ kernel_size (b_proj b) = 3 /\ padding (b_proj b) = 1
    /\ net st' = net st /\ training st' = training st.
Proof.
  intros Hg. unfold Block_init, Block_groups.
  apply Nat.eqb_neq in Hg. rewrite Hg. rewrite bind_lift_Ok.
  destruct (Conv2d_init_run in_dim out_dim 3 1 true st)
    as (c & st1 & Ec & Hi & Ho & Hk & Hp & Hn & Ht).
  rewrite (bind_Ok _ Ec). unfold GroupNorm_init.
  apply Nat.eqb_neq in Hg.
  destruct (out_dim mod groups =? 0) eqn:Hdiv; cbn [negb].
  - apply Nat.eqb_neq in Hg. rewrite Hg, Hdiv.
    eexists _, _. split; [reflexivity |]. cbn. repeat split; assumption.
  - cbn [Nat.eqb]. rewrite Nat.mod_1_r. cbn [Nat.eqb].
    eexists _, _. split; [reflexivity |]. cbn. repeat split; assumption.
Qed.

End Groups.

(** *** Flash attention *)

Section Flash.
Context {T : Torch} {Net : Type}.

Lemma Dropout_init_run (q : Q) (st : State Net) :
  bad_probability q = false -> Dropout_init q st = (Ok (mkDropout q), st).
Proof. intros H. unfold Dropout_init. rewrite H. reflexivity. Qed.

Lemma Attend_init_old_torch (dropout : Q) (st : State Net) :
  torch_older_than_2 = true ->
  bad_probability dropout = false ->
  Attend_init dropout true st = (Raise (AssertionError flash_message), st).
Proof.
  intros Hold Hp. unfold Attend_init.
  rewrite (bind_Ok _ (Dropout_init_run _ st Hp)).
  unfold torch_older_than_2 in Hold. rewrite Hold. reflexivity.
Qed.

Lemma Attention_init_old_torch (dim heads dim_head : nat) (st : State Net) :
  torch_older_than_2 = true ->
  Attention_init dim heads dim_head true st = (Raise (AssertionError flash_message), st).
Proof.
  intros Hold. unfold Attention_init, RMSNorm_init. rewrite bind_ret.
  rewrite (bind_Raise _ (Attend_init_old_torch 0%Q st Hold eq_refl)). reflexivity.
Qed.

Lemma Attention_init_fails (dim heads dim_head : nat) :
  torch_older_than_2 = true ->
  fails_with (Attention_init (Net := Net) dim heads dim_head true)
    (AssertionError flash_message).
Proof. intros Hold st. exists st. apply Attention_init_old_torch. exact Hold. Qed.

(** With the capability, or without the flag, [Attend.__init__] returns,
    and the module it returns records the flag as given. *)
Lemma Attend_init_returns (dropout : Q) (flash : bool) (st : State Net) :
  flash && torch_older_than_2 = false ->
  bad_probability dropout = false ->
  exists a st', Attend_init dropout flash st = (Ok a, st')
    /\ at_flash a = flash /\ at_dropout a = dropout
    /\ p_drop (at_attn_dropout a) = dropout
    /\ at_cpu_config a = mkAttentionConfig true true true
    /\ net st' = net st /\ training st' = training st.
Proof.
  intros Hcap Hp. unfold Attend_init.
  rewrite (bind_Ok _ (Dropout_init_run _ st Hp)).
  unfold torch_older_than_2 in Hcap. rewrite Hcap, bind_ret.
  destruct (negb (cuda_is_available platform) || negb flash).
  - eexists _, _. split; [reflexivity |]. cbn. repeat split.
  - destruct ((device_major platform =? 8) && (device_minor platform =? 0));
      unfold bind, print_once;
      destruct (existsb _ (trace st)); cbn;
      eexists _, _; (split; [reflexivity |]); cbn; repeat split.
Qed.

Lemma Unet_init_never_returns (cfg : UnetConfig) :
  torch_older_than_2 = true ->
  uc_flash_attn cfg = true ->
  post (Unet_init (Net := Net) cfg) (fun _ => False).
Proof.
  intros Hold Hflash. unfold Unet_init.
  apply post_False_bind_r. intros init_conv.
  apply post_False_bind_r. intros [sinu fourier_dim].
  apply post_False_bind_r. intros l1.
  apply post_False_bind_r. intros l2.
  apply post_False_bind_r. intros [[conditioning classes_dim] cond_drop_prob].
  apply post_False_bind_r. intros _.
  apply post_False_bind_r. intros downs.
  apply post_False_bind_r. intros mid_block1.
  apply post_False_bind_r. intros mid_heads.
  apply post_False_bind_r. intros mid_dim_head.
  apply post_False_bind_l. rewrite Hflash.
  eapply fails_with_never_Ok. apply Attention_init_fails. exact Hold.
Qed.

End Flash.

(** ** The image network: the divisibility assertion and the skip stack *)

Section UnetChecks.
Context {T : Torch}.

Lemma Unet_forward_indivisible (x time : Tensor) (classes : option LongTensor)
  (p : option Q) (st : State Unet) (b : nat) (rest : list nat) :
  shape x = b :: rest ->
  forallb (divisible_by_factor (length (u_downs (net st)))) (last2 (shape x)) = false ->
  Unet_forward x time classes p st
  = match Unet_conditioning (net st) b classes p st with
    | (Ok _, st') =>
        (Raise (AssertionError (dimension_message (shape x) (length (u_downs (net st))))),
         st')
    | (Raise e, st') => (Raise e, st')
    end.
Proof.
  intros Hx Hdiv. unfold Unet_forward, Unet_forward_stack.
  rewrite bind_assoc, bind_get_self. unfold shape0. rewrite Hx.
  rewrite bind_assoc, bind_lift_Ok, bind_assoc.
  unfold bind at 1. destruct (Unet_conditioning (net st) b classes p st) as [[c | e] st'];
    [| reflexivity].
  unfold Unet_main. rewrite Hdiv. rewrite <- Hx. reflexivity.
Qed.

Lemma Unet_forward_unconditional_indivisible (x time : Tensor)
  (classes : option LongTensor) (p : option Q) (st : State Unet) (b : nat)
  (rest : list nat) :
  shape x = b :: rest ->
  forallb (divisible_by_factor (length (u_downs (net st)))) (last2 (shape x)) = false ->
  u_conditioning (net st) = None ->
  Unet_forward x time classes p st
  = (Raise (AssertionError (dimension_message (shape x) (length (u_downs (net st))))), st).
Proof.
  intros Hx Hdiv Hnone. rewrite (Unet_forward_indivisible _ _ _ _ _ _ _ Hx Hdiv).
  unfold Unet_conditioning. rewrite Hnone. reflexivity.
Qed.

Lemma Unet_forward_divisible (x time : Tensor) (classes : option LongTensor)
  (p : option Q) (st : State Unet) :
  forallb (divisible_by_factor (length (u_downs (net st)))) (last2 (shape x)) = true ->
  forall msg st', Unet_forward x time classes p st <> (Raise (AssertionError msg), st').
Proof.
  intros Hdiv msg st' Hr.
  assert (Hs : spec (fun e => forall m, e <> AssertionError m) (net st)
                 (Unet_forward x time classes p) (fun _ => True)).
  { apply lax_Unet_forward.
    - intros e He m ->. exact He.
    - right. exact Hdiv.
    - left. intros m. discriminate. }
  exact (spec_Raise _ _ _ _ _ _ Hs Hr msg eq_refl).
Qed.

Lemma zip4_length {A B C D : Type} (la : list A) (lb : list B) (lc : list C) (ld : list D) :
  length (zip4 la lb lc ld)
  = Nat.min (length la) (Nat.min (length lb) (Nat.min (length lc) (length ld))).
Proof.
  revert lb lc ld. induction la as [| a la IH]; intros lb lc ld; [reflexivity |].
  destruct lb as [| b lb]; [reflexivity |].
  destruct lc as [| c lc]; [simpl; lia |].
  destruct ld as [| d ld]; [simpl; lia |].
  simpl. rewrite IH. reflexivity.
Qed.

Lemma zip_specs_length (in_out : list (nat * nat)) (fa : list bool) (hs dh : list nat) :
  length (zip_specs in_out fa hs dh)
  = Nat.min (length in_out) (Nat.min (length fa) (Nat.min (length hs) (length dh))).
Proof. unfold zip_specs. rewrite length_map. apply zip4_length. Qed.

Lemma Unet_init_downs_length {Net : Type} (cfg : UnetConfig) (cd : option nat) (n i : nat)
  (zipped : list StageSpec) :
  post (Unet_init_downs (Net := Net) cfg cd n i zipped)
    (fun stages => length stages = length zipped).
Proof.
  revert i. induction zipped as [| [[[[in_dim out_dim] fa] hd] dh] rest IH]; intros i.
  - apply post_ret. reflexivity.
  - simpl Unet_init_downs.
    eapply post_bind; [apply post_any |]. intros b1 _.
    eapply post_bind; [apply post_any |]. intros b2 _.
    eapply post_bind; [apply post_any |]. intros a _.
    eapply post_bind; [apply post_any |]. intros r _.
    eapply post_bind; [apply IH |]. intros stages Hs.
    apply post_ret. simpl. congruence.
Qed.

Lemma Unet_init_ups_length {Net : Type} (cfg : UnetConfig) (cd : option nat) (n i : nat)
  (zipped : list StageSpec) :
  post (Unet_init_ups (Net := Net) cfg cd n i zipped)
    (fun stages => length stages = length zipped).
Proof.
  revert i. induction zipped as [| [[[[in_dim out_dim] fa] hd] dh] rest IH]; intros i.
  - apply post_ret. reflexivity.
  - simpl Unet_init_ups.
    eapply post_bind; [apply post_any |]. intros b1 _.
    eapply post_bind; [apply post_any |]. intros b2 _.
    eapply post_bind; [apply post_any |]. intros a _.
    eapply post_bind; [apply post_any |]. intros r _.
    eapply post_bind; [apply IH |]. intros stages Hs.
    apply post_ret. simpl. congruence.
Qed.

(** Both loops of [__init__] zip the same four sequences, one in reverse:
    they build as many decoder stages as encoder stages. *)
Lemma Unet_init_lengths {Net : Type} (cfg : UnetConfig) :
  post (Unet_init (Net := Net) cfg)
    (fun n => length (u_ups n) = length (u_downs n)).
Proof.
  unfold Unet_init.
  eapply post_bind; [apply post_any |]. intros init_conv _.
  eapply post_bind; [apply post_any |]. intros [sinu fourier_dim] _.
  eapply post_bind; [apply post_any |]. intros l1 _.
  eapply post_bind; [apply post_any |]. intros l2 _.
  eapply post_bind; [apply post_any |]. intros [[conditioning classes_dim] cdp] _.
  eapply post_bind; [apply post_any |]. intros _ _.
  eapply post_bind; [apply Unet_init_downs_length |]. intros downs Hd.
  eapply post_bind; [apply post_any |]. intros mid_block1 _.
  eapply post_bind; [apply post_any |]. intros mid_heads _.
  eapply post_bind; [apply post_any |]. intros mid_dim_head _.
  eapply post_bind; [apply post_any |]. intros mid_attn _.
  eapply post_bind; [apply post_any |]. intros mid_block2 _.
  eapply post_bind; [apply Unet_init_ups_length |]. intros ups Hu.
  eapply post_bind; [apply post_any |]. intros final_res_block _.
  eapply post_bind; [apply post_any |]. intros final_conv _.
  apply post_ret. cbn [u_ups u_downs]. rewrite Hu, Hd.
  rewrite !zip_specs_length, !length_rev. reflexivity.
Qed.

Lemma Unet_forward_stack_balanced (x time : Tensor) (classes : option LongTensor)
  (p : option Q) (st : State Unet) :
  length (u_ups (net st)) = length (u_downs (net st)) ->
  (forall st', Unet_forward_stack x time classes p st <> (Raise (IndexError pop_message), st'))
  /\ (forall y h st', Unet_forward_stack x time classes p st = (Ok (y, h), st') -> h = []).
Proof.
  intros Hlen.
  assert (Hs : spec (fun e => e <> IndexError pop_message) (net st)
                 (Unet_forward_stack x time classes p)
                 (fun r => length (snd r) + 2 * length (u_ups (net st))
                           = 2 * length (u_downs (net st)))).
  { apply lax_Unet_forward_stack.
    - intros e He ->. apply He. reflexivity.
    - left. discriminate.
    - right. exact Hlen. }
  split.
  - intros st' Hr. exact (spec_Raise _ _ _ _ _ _ Hs Hr eq_refl).
  - intros y h st' Hr. pose proof (spec_Ok _ _ _ _ _ _ Hs Hr) as H. cbn [snd] in H.
    destruct h; [reflexivity | simpl in H; lia].
Qed.

End UnetChecks.

(** ** The divisibility assertion *)

(** C4, as amended.  For an image-network input [(B, C, H, W)] whose height
    or width is not divisible by [2 ^ (number of stages - 1)],
    [Unet.forward] runs the conditioning block (the class embedding and the
    conditioning MLP of a conditional network; nothing for an unconditional
    one) and then fails with the [AssertionError] that names the spatial
    size and the factor, before the initial convolution, the time MLP or
    any stage executes; an unconditional network fails with the state it
    started from.  An input whose height and width are divisible never
    fails with an [AssertionError]. *)
Theorem Unet_divisibility_check_follows_conditioning :
  forall (T : Torch) (x time : Tensor) (classes : option LongTensor) (p : option Q)
         (st : State Unet) (B C H W k : nat),
    shape x = [B; C; H; W] ->
    length (u_downs (net st)) = S k ->
    ((H mod 2 ^ k <> 0 \/ W mod 2 ^ k <> 0) ->
       Unet_forward x time classes p st
       = match Unet_conditioning (net st) B classes p st with
         | (Ok _, st') => (Raise (AssertionError (dimension_message [B; C; H; W] (S k))), st')
         | (Raise e, st') => (Raise e, st')
         end
       /\ (u_conditioning (net st) = None ->
           Unet_forward x time classes p st
           = (Raise (AssertionError (dimension_message [B; C; H; W] (S k))), st)))
    /\ (H mod 2 ^ k = 0 -> W mod 2 ^ k = 0 ->
        forall msg st', Unet_forward x time classes p st <> (Raise (AssertionError msg), st')).
Proof.
  intros T x time classes p st B C H W k Hx Hk.
  assert (Hl : last2 (shape x) = [H; W]) by (rewrite Hx; reflexivity).
  split.
  - intros Hnd.
    assert (Hdiv : forallb (divisible_by_factor (length (u_downs (net st))))
                     (last2 (shape x)) = false).
    { rewrite Hl, Hk. cbn [forallb divisible_by_factor].
      destruct Hnd as [Hnd | Hnd]; apply Nat.eqb_neq in Hnd; rewrite Hnd;
        [reflexivity | apply andb_false_r]. }
    split.
    + rewrite (Unet_forward_indivisible x time classes p st B [C; H; W] Hx Hdiv).
      rewrite Hx, Hk. reflexivity.
    + intros Hnone.
      rewrite (Unet_forward_unconditional_indivisible x time classes p st B [C; H; W]
                 Hx Hdiv Hnone).
      rewrite Hx, Hk. reflexivity.
  - intros HH HW. apply Unet_forward_divisible.
    rewrite Hl, Hk. cbn [forallb divisible_by_factor].
    apply Nat.eqb_eq in HH, HW. rewrite HH, HW. reflexivity.
Qed.

(** ** Shapes of the tensor operations *)

Lemma yields_Ok {A : Type} (r : Result A) (P : A -> Prop) :
  yields r P -> exists a, r = Ok a /\ P a.
Proof. destruct r as [a | e]; simpl; [eauto | tauto]. Qed.

Lemma yields_weaken {A : Type} (r : Result A) (P Q : A -> Prop) :
  yields r P -> (forall a, P a -> Q a) -> yields r Q.
Proof. destruct r; simpl; auto. Qed.

Lemma bdim_same (x : nat) : bdim x x = Ok x.
Proof. unfold bdim. now rewrite Nat.eqb_refl. Qed.

Lemma bdim_one_r (x : nat) : bdim x 1 = Ok x.
Proof.
  unfold bdim. destruct (x =? 1) eqn:H; [| reflexivity].
  apply Nat.eqb_eq in H. now subst.
Qed.

Lemma bdim_one_l (x : nat) : bdim 1 x = Ok x.
Proof.
  unfold bdim. destruct (1 =? x) eqn:H; [| reflexivity].
  apply Nat.eqb_eq in H. now subst.
Qed.

Lemma shape_eqb_refl (s : list nat) : shape_eqb s s = true.
Proof.
  unfold shape_eqb. induction s as [| x s IH]; simpl; [reflexivity |].
  now rewrite Nat.eqb_refl, IH.
Qed.

Lemma broadcast_rev_same (a : list nat) : broadcast_rev a a = Ok a.
Proof.
  induction a as [| x a IH]; simpl; [reflexivity |].
  now rewrite bdim_same, IH.
Qed.

Lemma broadcast_shapes_same (s : list nat) : broadcast_shapes s s = Ok s.
Proof.
  unfold broadcast_shapes. rewrite broadcast_rev_same. cbn [rbind].
  now rewrite rev_involutive.
Qed.

Lemma is_legacy_empty_cons2 (x y : nat) (s : list nat) :
  is_legacy_empty (x :: y :: s) = false.
Proof. destruct x; reflexivity. Qed.

Ltac shape_simp :=
  repeat first
    [ rewrite is_legacy_empty_cons2
    | progress cbn [rev app broadcast_rev rbind fst snd length map filter negb
                    cat_shapes cat2 list_prod fold_right]
    | rewrite bdim_same | rewrite bdim_one_r | rewrite bdim_one_l
    | rewrite Nat.eqb_refl | rewrite shape_eqb_refl ].

Lemma chunk_sizes_2 (n : nat) : chunk_sizes (n * 2) 2 = [n; n].
Proof.
  unfold chunk_sizes.
  assert (H : (n * 2 + 2 - 1) / 2 = n).
  { symmetry. apply (Nat.div_unique _ 2 n 1); lia. }
  rewrite H. destruct n as [| n]; [reflexivity |].
  cbn [Nat.eqb].
  assert (H2 : (S n * 2 + S n - 1) / S n = 2).
  { symmetry. apply (Nat.div_unique _ (S n) 2 n); lia. }
  rewrite H2. change (Nat.max 2 1 - 1) with 1. change (Nat.max 2 1) with 2.
  cbn [repeat app]. f_equal. f_equal. lia.
Qed.

Lemma chunk_sizes_3 (n : nat) : chunk_sizes (n * 3) 3 = [n; n; n].
Proof.
  unfold chunk_sizes.
  assert (H : (n * 3 + 3 - 1) / 3 = n).
  { symmetry. apply (Nat.div_unique _ 3 n 2); lia. }
  rewrite H. destruct n as [| n]; [reflexivity |].
  cbn [Nat.eqb].
  assert (H2 : (S n * 3 + S n - 1) / S n = 3).
  { symmetry. apply (Nat.div_unique _ (S n) 3 n); lia. }
  rewrite H2. change (Nat.max 3 1 - 1) with 2. change (Nat.max 3 1) with 3.
  cbn [repeat app]. f_equal. f_equal. f_equal. lia.
Qed.

Lemma conv_out_same (h pad : nat) : 1 <= h -> conv_out h (2 * pad + 1) pad = Ok h.
Proof.
  intros H. unfold conv_out.
  destruct (2 * pad + 1 <=? h + 2 * pad) eqn:Hk.
  - f_equal. lia.
  - apply Nat.leb_gt in Hk. lia.
Qed.

Section ShapeFacts.
Context {T : Torch}.

Lemma yields_binary_same (f : string) (x y : Tensor) :
  shape y = shape x -> yields (binary f x y) (fun t => shape t = shape x).
Proof. intros H. unfold binary. rewrite H, broadcast_shapes_same. reflexivity. Qed.

(** A per-channel scale or shift [(b, c, 1, 1)] against a feature map. *)
Lemma yields_binary_channelwise (f : string) (x y : Tensor) (b c h w : nat) :
  shape x = [b; c; h; w] -> shape y = [b; c; 1; 1] ->
  yields (binary f x y) (fun t => shape t = [b; c; h; w]).
Proof.
  intros Hx Hy. unfold binary, broadcast_shapes. rewrite Hx, Hy. shape_simp. reflexivity.
Qed.

(** The gain [(1, c, 1, 1)] of an [RMSNorm] against a feature map. *)
Lemma yields_binary_gain (f : string) (x y : Tensor) (b c h w : nat) :
  shape x = [b; c; h; w] -> shape y = [1; c; 1; 1] ->
  yields (binary f x y) (fun t => shape t = [b; c; h; w]).
Proof.
  intros Hx Hy. unfold binary, broadcast_shapes. rewrite Hx, Hy. shape_simp. reflexivity.
Qed.

(** A column [(b, 1)] against a row [(1, n)]. *)
Lemma yields_binary_outer (f : string) (x y : Tensor) (b n : nat) :
  shape x = [b; 1] -> shape y = [1; n] ->
  yields (binary f x y) (fun t => shape t = [b; n]).
Proof.
  intros Hx Hy. unfold binary, broadcast_shapes. rewrite Hx, Hy. shape_simp. reflexivity.
Qed.

Lemma wrap_dim_last (n : nat) : wrap_dim (-1) (S n) = Ok n.
Proof.
  unfold wrap_dim.
  destruct ((0 <=? -1)%Z && (-1 <? Z.of_nat (S n))%Z) eqn:H1.
  { apply andb_true_iff in H1. destruct H1 as [H1 _]. apply Z.leb_le in H1. lia. }
  destruct ((-1 <? 0)%Z && (- Z.of_nat (S n) <=? -1)%Z) eqn:H2.
  - f_equal. lia.
  - apply andb_false_iff in H2. destruct H2 as [H2 | H2].
    + apply Z.ltb_ge in H2. lia.
    + apply Z.leb_gt in H2. lia.
Qed.

Lemma wrap_dim_1 (n : nat) : wrap_dim 1 (S (S n)) = Ok 1.
Proof.
  unfold wrap_dim.
  destruct ((0 <=? 1)%Z && (1 <? Z.of_nat (S (S n)))%Z) eqn:H1; [reflexivity |].
  apply andb_false_iff in H1. destruct H1 as [H1 | H1].
  - apply Z.leb_gt in H1. lia.
  - apply Z.ltb_ge in H1. lia.
Qed.

(** [t.cat((a, c), -1)] of two matrices with the same number of rows. *)
Lemma yields_cat_last (a c : Tensor) (b m n : nat) :
  shape a = [b; m] -> shape c = [b; n] ->
  yields (cat [a; c] (-1)) (fun t => shape t = [b; m + n]).
Proof.
  intros Ha Hc. unfold cat. cbn [filter]. rewrite Ha, Hc. shape_simp.
  unfold ndim. rewrite Ha. cbn [length]. rewrite wrap_dim_last. shape_simp.
  rewrite Hc. shape_simp. reflexivity.
Qed.

(** [t.cat((a,), -1)] of one matrix. *)
Lemma yields_cat_single (a : Tensor) (b m : nat) :
  shape a = [b; m] ->
  yields (cat [a] (-1)) (fun t => shape t = [b; m]).
Proof.
  intros Ha. unfold cat. cbn [filter]. rewrite Ha. shape_simp.
  unfold ndim. rewrite Ha. cbn [length]. rewrite wrap_dim_last. shape_simp. reflexivity.
Qed.

(** [t.cat((a, c), 1)] of two feature maps of one resolution. *)
Lemma yields_cat_channels (a c : Tensor) (b m n h w : nat) :
  shape a = [b; m; h; w] -> shape c = [b; n; h; w] ->
  yields (cat [a; c] 1) (fun t => shape t = [b; m + n; h; w]).
Proof.
  intros Ha Hc. unfold cat. cbn [filter]. rewrite Ha, Hc. shape_simp.
  unfold ndim. rewrite Ha. cbn [length]. rewrite wrap_dim_1. shape_simp.
  rewrite Hc. shape_simp. reflexivity.
Qed.

(** [emb.chunk(2, dim=-1)] of a matrix with an even number of columns. *)
Lemma yields_chunk2_last (x : Tensor) (b n : nat) :
  shape x = [b; n * 2] ->
  yields (chunk x 2 (-1))
    (fun ts => exists s1 s2, ts = [s1; s2] /\ shape s1 = [b; n] /\ shape s2 = [b; n]).
Proof.
  intros Hx. unfold chunk, ndim. rewrite Hx. cbn [length]. rewrite wrap_dim_last.
  cbn [rbind nth]. rewrite chunk_sizes_2. cbn [chunks_from yields].
  eexists _, _. split; [reflexivity |]. rewrite Hx. split; reflexivity.
Qed.

(** [emb.chunk(2, dim=1)] of [(b, 2n, 1, 1)]. *)
Lemma yields_chunk2_channels (x : Tensor) (b n h w : nat) :
  shape x = [b; n * 2; h; w] ->
  yields (chunk x 2 1)
    (fun ts => exists s1 s2,
         ts = [s1; s2] /\ shape s1 = [b; n; h; w] /\ shape s2 = [b; n; h; w]).
Proof.
  intros Hx. unfold chunk, ndim. rewrite Hx. cbn [length]. rewrite wrap_dim_1.
  cbn [rbind nth]. rewrite chunk_sizes_2. cbn [chunks_from yields].
  eexists _, _. split; [reflexivity |]. rewrite Hx. split; reflexivity.
Qed.

(** [qkv.chunk(3, dim=1)] *)
Lemma yields_chunk3_channels (x : Tensor) (b n h w : nat) :
  shape x = [b; n * 3; h; w] ->
  yields (chunk x 3 1)
    (fun ts => exists s1 s2 s3,
         ts = [s1; s2; s3] /\ shape s1 = [b; n; h; w] /\ shape s2 = [b; n; h; w]
         /\ shape s3 = [b; n; h; w]).
Proof.
  intros Hx. unfold chunk, ndim. rewrite Hx. cbn [length]. rewrite wrap_dim_1.
  cbn [rbind nth]. rewrite chunk_sizes_3. cbn [chunks_from yields].
  eexists _, _, _. split; [reflexivity |]. rewrite Hx. repeat split; reflexivity.
Qed.

Lemma yields_rearrange_split_heads (sequence_last : bool) (heads dim_head : nat)
  (t : Tensor) (b x y : nat) :
  1 <= heads -> shape t = [b; dim_head * heads; x; y] ->
  yields (rearrange_split_heads sequence_last heads t)
    (fun r => shape r = if sequence_last then [b; heads; dim_head; x * y]
                        else [b; heads; x * y; dim_head]).
Proof.
  intros Hh Ht. unfold rearrange_split_heads. rewrite Ht.
  destruct (heads =? 0) eqn:H0; [apply Nat.eqb_eq in H0; lia |].
  rewrite Nat.Div0.mod_mul. cbn [Nat.eqb negb orb yields shape apply].
  rewrite Nat.div_mul by lia. reflexivity.
Qed.

End ShapeFacts.

(** ** Total correctness of the layers of the vector network *)

Section TotalLinear.
Context {T : Torch} {Net : Type}.
Variable n0 : Net.

Lemma total_lift {A : Type} (r : Result A) (P : A -> Prop) :
  yields r P -> total n0 (lift r) P.
Proof. intros H. apply spec_lift. destruct r; exact H. Qed.

Lemma total_enter (cls : string) : total n0 (enter cls) (fun _ => True).
Proof. apply spec_enter. exact I. Qed.

Lemma total_Linear_forward (l : Linear) (x : Tensor) (b i o : nat) :
  Linear_dims l i o -> shape x = [b; i] ->
  total n0 (Linear_forward l x) (fun y => shape y = [b; o]).
Proof.
  intros [Hi Ho] Hx. unfold Linear_forward.
  eapply spec_bind; [apply total_enter | intros _ _].
  rewrite Hx. cbn [rev app]. rewrite Hi, Nat.eqb_refl, Ho.
  apply spec_ret. reflexivity.
Qed.

Lemma total_LayerNorm_forward (l : LayerNorm) (x : Tensor) (b o : nat) :
  normalized_shape l = o -> shape x = [b; o] ->
  total n0 (LayerNorm_forward l x) (fun y => shape y = [b; o]).
Proof.
  intros Hn Hx. unfold LayerNorm_forward.
  eapply spec_bind; [apply total_enter | intros _ _].
  rewrite Hx. cbn [rev app]. rewrite Hn, Nat.eqb_refl.
  apply spec_ret. reflexivity.
Qed.

Lemma total_SiLU_forward (x : Tensor) :
  total n0 (SiLU_forward x) (fun y => shape y = shape x).
Proof.
  unfold SiLU_forward. eapply spec_bind; [apply total_enter | intros _ _].
  apply spec_ret. reflexivity.
Qed.

Lemma total_GELU_forward (x : Tensor) :
  total n0 (GELU_forward x) (fun y => shape y = shape x).
Proof.
  unfold GELU_forward. eapply spec_bind; [apply total_enter | intros _ _].
  apply spec_ret. reflexivity.
Qed.

Lemma total_Identity_forward (x : Tensor) :
  total n0 (Identity_forward x) (fun y => shape y = shape x).
Proof.
  unfold Identity_forward. eapply spec_bind; [apply total_enter | intros _ _].
  apply spec_ret. reflexivity.
Qed.

Lemma total_Dropout_forward (d : Dropout) (x : Tensor) :
  bad_probability (p_drop d) = false ->
  total n0 (Dropout_forward d x) (fun y => shape y = shape x).
Proof.
  intros Hp. unfold Dropout_forward.
  eapply spec_bind; [apply total_enter | intros _ _]. rewrite Hp.
  eapply spec_bind; [apply spec_is_training; intros; exact I |]. intros tr _.
  destruct (tr && Qltb 0 (p_drop d) && negb (list_prod (shape x) =? 0)).
  - destruct (Qeq_bool (p_drop d) 1).
    + apply spec_ret. reflexivity.
    + eapply spec_bind; [apply spec_random; intros; exact I |]. intros v _.
      apply spec_ret. reflexivity.
  - apply spec_ret. reflexivity.
Qed.

(** [nn.Sequential(nn.SiLU(), nn.Linear(i, o))] *)
Lemma total_mlp (ms : Sequential) (x : Tensor) (b i o : nat) :
  wf_mlp ms i o -> shape x = [b; i] ->
  total n0 (Sequential_forward ms x) (fun y => shape y = [b; o]).
Proof.
  intros Hwf Hx. unfold wf_mlp in Hwf.
  destruct ms as [| [] [| [l | | | | | | | |] [| ]]]; try contradiction.
  unfold Sequential_forward. eapply spec_bind; [apply total_enter | intros _ _].
  cbn [Sequential_run Module_forward].
  eapply spec_bind; [apply total_SiLU_forward |]. intros y Hy.
  eapply spec_bind; [apply (total_Linear_forward l y b i o Hwf); congruence |].
  intros z Hz. apply spec_ret. exact Hz.
Qed.

(** [nn.Sequential(nn.Linear(i, o), nn.GELU(), nn.Linear(o, o))] *)
Lemma total_gelu_mlp (ms : Sequential) (x : Tensor) (b i o : nat) :
  wf_gelu_mlp ms i o -> shape x = [b; i] ->
  total n0 (Sequential_forward ms x) (fun y => shape y = [b; o]).
Proof.
  intros Hwf Hx. unfold wf_gelu_mlp in Hwf.
  destruct ms as [| [l1 | | | | | | | |] [| [] [| [l2 | | | | | | | |] [|]]]];
    try contradiction.
  destruct Hwf as [H1 H2].
  unfold Sequential_forward. eapply spec_bind; [apply total_enter | intros _ _].
  cbn [Sequential_run Module_forward].
  eapply spec_bind; [apply (total_Linear_forward l1 x b i o H1 Hx) |]. intros y Hy.
  eapply spec_bind; [apply total_GELU_forward |]. intros z Hz.
  eapply spec_bind; [apply (total_Linear_forward l2 z b o o H2); congruence |].
  intros u Hu. apply spec_ret. exact Hu.
Qed.

Lemma total_modulate_none (x : Tensor) :
  total n0 (modulate x None) (fun y => shape y = shape x).
Proof. apply spec_ret. reflexivity. Qed.

(** [x * (scale + 1) + shift] when the three have one shape. *)
Lemma total_modulate_same (x s1 s2 : Tensor) :
  shape s1 = shape x -> shape s2 = shape x ->
  total n0 (modulate x (Some [s1; s2])) (fun y => shape y = shape x).
Proof.
  intros H1 H2. unfold modulate. cbn [unpack2].
  eapply spec_bind with (P := fun p => p = (s1, s2)); [apply total_lift; reflexivity |].
  intros [scale shift] [= -> ->].
  eapply spec_bind.
  { apply total_lift. apply yields_binary_same. exact H1. }
  intros y Hy. apply total_lift.
  eapply yields_weaken; [apply yields_binary_same; congruence |].
  intros a Ha. congruence.
Qed.

Lemma total_LinearBlock_forward (self : LinearBlock) (x : Tensor)
  (scale_shift : option (list Tensor)) (b i o : nat) :
  wf_LinearBlock self i o -> shape x = [b; i] ->
  match scale_shift with
  | Some ss => exists s1 s2, ss = [s1; s2] /\ shape s1 = [b; o] /\ shape s2 = [b; o]
  | None => True
  end ->
  total n0 (LinearBlock_forward self x scale_shift) (fun y => shape y = [b; o]).
Proof.
  intros (Hp & Hn & Hd) Hx Hss. unfold LinearBlock_forward.
  eapply spec_bind; [apply total_enter | intros _ _].
  eapply spec_bind; [apply (total_Linear_forward _ x b i o Hp Hx) |]. intros y Hy.
  eapply spec_bind; [apply (total_LayerNorm_forward _ y b o Hn Hy) |]. intros z Hz.
  eapply spec_bind with (P := fun u => shape u = [b; o]).
  { destruct scale_shift as [ss |].
    - destruct Hss as (s1 & s2 & -> & Hs1 & Hs2).
      eapply spec_weaken; [apply total_modulate_same; congruence |].
      intros u Hu. congruence.
    - eapply spec_weaken; [apply total_modulate_none |]. intros u Hu. congruence. }
  intros u Hu.
  eapply spec_bind; [apply total_SiLU_forward |]. intros v Hv.
  eapply spec_weaken; [apply (total_Dropout_forward _ v Hd) |].
  intros a Ha. congruence.
Qed.

(** The embedding a residual block modulates with: the time embedding, and
    the conditioning embedding when there is one. *)
Lemma yields_cat_embeddings (time : Tensor) (c : option Tensor) (b td cd : nat) :
  shape time = [b; td] -> has_cond_shape c b cd ->
  yields (cat (filter_exists [Some time; c]) (-1)) (fun e => shape e = [b; td + cd]).
Proof.
  intros Ht Hc. destruct c as [ct |]; cbn [filter_exists has_cond_shape] in *.
  - apply yields_cat_last; assumption.
  - subst cd. rewrite Nat.add_0_r. apply yields_cat_single. exact Ht.
Qed.

Lemma total_LinearResnetBlock_forward (self : LinearResnetBlock) (x time : Tensor)
  (c : option Tensor) (b i o td cd : nat) :
  wf_LinearResnetBlock self i o (td + cd) ->
  shape x = [b; i] -> shape time = [b; td] -> has_cond_shape c b cd ->
  total n0 (LinearResnetBlock_forward self x (Some time) c) (fun y => shape y = [b; o]).
Proof.
  intros (Hmlp & Hb1 & Hb2 & Hres) Hx Ht Hc. unfold LinearResnetBlock_forward.
  eapply spec_bind; [apply total_enter | intros _ _].
  cbn [exists_ orb].
  eapply spec_bind with
    (P := fun ss => exists s1 s2, ss = Some [s1; s2] /\ shape s1 = [b; o] /\ shape s2 = [b; o]).
  { eapply spec_bind; [apply total_lift, (yields_cat_embeddings time c b td cd Ht Hc) |].
    intros e He.
    eapply spec_bind; [apply (total_mlp _ e b _ _ Hmlp He) |]. intros e2 He2.
    eapply spec_bind; [apply total_lift, (yields_chunk2_last e2 b o He2) |].
    intros ss (s1 & s2 & -> & Hs1 & Hs2). apply spec_ret. eauto. }
  intros ss (s1 & s2 & -> & Hs1 & Hs2).
  eapply spec_bind.
  { apply (total_LinearBlock_forward _ x (Some [s1; s2]) b i o Hb1 Hx). eauto. }
  intros h Hh.
  eapply spec_bind; [apply (total_LinearBlock_forward _ h None b o o Hb2 Hh I) |].
  intros h2 Hh2.
  eapply spec_bind with (P := fun r => shape r = [b; o]).
  { destruct (lrb_res_proj self) as [l |].
    - apply (total_Linear_forward l x b i o Hres Hx).
    - subst o. eapply spec_weaken; [apply total_Identity_forward |].
      intros a Ha. congruence. }
  intros r Hr. apply total_lift.
  eapply yields_weaken; [apply yields_binary_same; congruence |].
  intros a Ha. congruence.
Qed.

(** [t.randint(0, high, (batch,))] draws valid labels. *)
Lemma total_t_randint (high batch : nat) :
  0 < high ->
  total n0 (t_randint high batch) (fun l => valid_labels high batch l /\ lshape l = [batch]).
Proof.
  intros Hh. unfold t_randint.
  destruct (high =? 0) eqn:H0; [apply Nat.eqb_eq in H0; lia |].
  eapply spec_bind.
  { apply spec_repeatM with (P := fun _ => True). apply spec_draw. intros; exact I. }
  intros ds [Hl _]. apply spec_ret. unfold valid_labels. cbn [lshape ldata].
  rewrite length_map. repeat split; auto.
  apply Forall_forall. intros v Hv. apply in_map_iff in Hv. destruct Hv as (d & <- & _).
  pose proof (N.mod_lt d (N.of_nat high)) as Hm.
  assert (H : N.of_nat high <> 0%N) by lia. specialize (Hm H).
  generalize dependent (d mod N.of_nat high)%N. intros m Hm. lia.
Qed.

Lemma total_t_rand (batch : nat) :
  total n0 (t_rand batch) (fun us => length us = batch).
Proof.
  unfold t_rand. eapply spec_bind.
  { apply spec_repeatM with (P := fun _ => True). apply spec_draw. intros; exact I. }
  intros ds [Hl _]. apply spec_ret. now rewrite length_map.
Qed.

Lemma map2_length {A B C : Type} (f : A -> B -> C) (l : list A) (l' : list B) :
  length l = length l' -> length (map2 f l l') = length l.
Proof.
  revert l'. induction l as [| a l IH]; intros [| b l'] H; simpl in *; try lia.
  f_equal. apply IH. lia.
Qed.

(** [t.where(keep_mask[:, None], cond_emb, null_classes_emb)] on one
    embedding row per sample. *)
Lemma yields_where_rows (keep_mask : list bool) (rows : list V) (null : V) (batch w : nat) :
  length keep_mask = batch -> length rows = batch ->
  yields (where_rows keep_mask (mkRows [batch] w rows) null)
    (fun r => rshape r = [batch] /\ rwidth r = w).
Proof.
  intros Hk Hr. unfold where_rows. cbn [rshape rrows rwidth rev app list_prod fold_right].
  cbn [where_slices Nat.mul Nat.add].
  rewrite <- Hr, firstn_all. unfold where1. rewrite Hk, Hr, Nat.eqb_refl. cbn [rbind].
  cbn [yields rshape rwidth rev app]. split; [| reflexivity].
  destruct (batch =? 1); reflexivity.
Qed.

(** The conditioning block of both networks (lines 293-320 and 792-821),
    on valid labels or none: a matrix of [4 * dim] columns. *)
Lemma total_class_conditioning (cm : Conditioning) (d : Q) (batch num_classes dim : nat)
  (cond : option LongTensor) (p : option Q) :
  wf_Conditioning cm num_classes dim ->
  valid_cond (Some num_classes) batch cond ->
  total n0 (class_conditioning cm d batch cond p) (fun c => shape c = [batch; dim * 4]).
Proof.
  intros (Hcd & Hrows & Hed & Hmlp) Hvalid. unfold class_conditioning.
  eapply spec_bind with (P := fun cp => valid_labels num_classes batch (fst cp)).
  { destruct cond as [l |]; cbn [valid_cond] in Hvalid.
    - apply spec_ret. exact Hvalid.
    - rewrite Hcd. eapply spec_bind; [apply (total_t_randint num_classes batch Hvalid) |].
      intros l [Hl _]. apply spec_ret. exact Hl. }
  intros [l q] Hl. cbn [fst] in Hl. destruct Hl as (Hshape & Hlen & Hrange).
  eapply spec_bind with
    (P := fun l' => lshape l' = [batch] /\ ldata l' = ldata l).
  { destruct l as [s data]. cbn [lshape ldata] in *.
    destruct Hshape as [-> | ->]; apply spec_ret; split; reflexivity. }
  intros l' [Hs' Hd'].
  eapply spec_bind with
    (P := fun r => rshape r = [batch] /\ rwidth r = dim /\ length (rrows r) = batch).
  { unfold Embedding_forward. eapply spec_bind; [apply total_enter | intros _ _].
    rewrite <- Hrows in Hrange. rewrite Hd'.
    destruct (lookup_all_valid _ _ Hrange) as (rs & Hrs & Hrl). rewrite Hrs.
    eapply spec_bind with (P := fun r => r = rs); [apply total_lift; reflexivity |].
    intros ? ->. apply spec_ret. cbn [rshape rwidth rrows]. repeat split; congruence. }
  intros r (Hrs & Hrw & Hrl).
  eapply spec_bind with (P := fun r' => rshape r' = [batch] /\ rwidth r' = dim).
  { destruct (Qltb 0 (default q d)).
    - eapply spec_bind; [apply total_t_rand |]. intros us Hus.
      apply total_lift. destruct r as [rsh rw rr]. cbn [rshape rwidth rrows] in *. subst rsh rw.
      apply yields_where_rows; [now rewrite length_map | exact Hrl].
    - apply spec_ret. auto. }
  intros r' [Hrs' Hrw'].
  apply (total_gelu_mlp _ (tensor_of_rows r') batch dim (dim * 4) Hmlp).
  unfold tensor_of_rows. cbn [shape apply]. rewrite Hrs', Hrw'. reflexivity.
Qed.

End TotalLinear.

(** ** What the constructors of the vector network establish *)

Section PostLinear.
Context {T : Torch} {Net : Type}.

Lemma post_new_param (init : string) (s : list nat) :
  post (new_param (Net := Net) init s) (fun t => shape t = s).
Proof.
  unfold new_param. eapply post_bind; [apply post_any |]. intros v _.
  apply post_ret. reflexivity.
Qed.

Lemma post_repeatM_length {A : Type} (n : nat) (m : M Net A) :
  post (repeatM n m) (fun l => length l = n).
Proof.
  induction n as [| n IH]; simpl.
  - apply post_ret. reflexivity.
  - eapply post_bind; [apply post_any |]. intros a _.
    eapply post_bind; [exact IH |]. intros l Hl.
    apply post_ret. simpl. congruence.
Qed.

Lemma post_Linear_init (i o : nat) :
  post (Linear_init (Net := Net) i o) (fun l => Linear_dims l i o).
Proof.
  unfold Linear_init. eapply post_bind; [apply post_any |]. intros w _.
  eapply post_bind; [apply post_any |]. intros b _.
  apply post_ret. split; reflexivity.
Qed.

Lemma post_Dropout_init (q : Q) :
  post (Dropout_init (Net := Net) q) (fun d => p_drop d = q /\ bad_probability q = false).
Proof.
  unfold Dropout_init. destruct (bad_probability q) eqn:Hq.
  - apply post_raise.
  - apply post_ret. split; reflexivity.
Qed.

Lemma post_LinearBlock_init (i o : nat) (q : Q) :
  post (LinearBlock_init (Net := Net) i o q) (fun b => wf_LinearBlock b i o).
Proof.
  unfold LinearBlock_init.
  eapply post_bind; [apply post_Linear_init |]. intros proj Hp.
  eapply post_bind with (P := fun n => normalized_shape n = o);
    [unfold LayerNorm_init; apply post_ret; reflexivity |]. intros n Hn.
  eapply post_bind; [apply post_Dropout_init |]. intros d [Hd Hq].
  apply post_ret. unfold wf_LinearBlock. cbn. rewrite Hd. auto.
Qed.

Lemma post_LinearResnetBlock_init (i o td : nat) (ced : option nat) (q : Q) :
  post (LinearResnetBlock_init (Net := Net) i o td ced q)
    (fun b => wf_LinearResnetBlock b i o (td + default ced 0)).
Proof.
  unfold LinearResnetBlock_init.
  eapply post_bind; [apply post_Linear_init |]. intros l Hl.
  eapply post_bind; [apply post_LinearBlock_init |]. intros b1 Hb1.
  eapply post_bind; [apply post_LinearBlock_init |]. intros b2 Hb2.
  eapply post_bind with
    (P := fun r => match r with Some l => Linear_dims l i o | None => i = o end).
  { destruct (i =? o) eqn:Hio; cbn [negb].
    - apply post_ret. now apply Nat.eqb_eq.
    - eapply post_bind; [apply post_Linear_init |]. intros r Hr. apply post_ret. exact Hr. }
  intros r Hr. apply post_ret. unfold wf_LinearResnetBlock. cbn. auto.
Qed.

Lemma post_LinearResnetBlocks_init (hidden : list nat) (i td : nat) (ced : option nat)
  (q : Q) :
  post (LinearResnetBlocks_init (Net := Net) (combine (removelast (i :: hidden)) hidden)
          td ced q)
    (fun bs => wf_LinearResnetBlocks bs i hidden (td + default ced 0)).
Proof.
  revert i. induction hidden as [| o hidden IH]; intros i.
  - apply post_ret. exact I.
  - change (removelast (i :: o :: hidden)) with (i :: removelast (o :: hidden)).
    cbn [combine LinearResnetBlocks_init].
    eapply post_bind; [apply post_LinearResnetBlock_init |]. intros b Hb.
    eapply post_bind; [apply IH |]. intros bs Hbs.
    apply post_ret. cbn. auto.
Qed.

Lemma post_Conditioning_init (num_classes dim : nat) :
  post (Conditioning_init (Net := Net) num_classes dim)
    (fun cm => wf_Conditioning cm num_classes dim).
Proof.
  unfold Conditioning_init, Embedding_init.
  eapply post_bind with
    (P := fun e => length (emb_rows e) = num_classes /\ embedding_dim e = dim).
  { eapply post_bind; [apply post_repeatM_length |]. intros rows Hr.
    apply post_ret. auto. }
  intros e [He1 He2].
  eapply post_bind; [apply post_any |]. intros null _.
  eapply post_bind; [apply post_Linear_init |]. intros l1 H1.
  eapply post_bind; [apply post_Linear_init |]. intros l2 H2.
  apply post_ret. unfold wf_Conditioning. cbn. auto.
Qed.

Lemma post_RandomOrLearnedSinusoidalPosEmb_init (dim : nat) (is_random : bool) :
  post (RandomOrLearnedSinusoidalPosEmb_init (Net := Net) dim is_random)
    (fun pe => shape (weights pe) = [dim / 2] /\ dim mod 2 = 0).
Proof.
  unfold RandomOrLearnedSinusoidalPosEmb_init.
  destruct (dim mod 2 =? 0) eqn:Hd; [| apply post_raise].
  eapply post_bind; [apply post_new_param |]. intros w Hw.
  apply post_ret. cbn. split; [exact Hw | now apply Nat.eqb_eq].
Qed.

Lemma last_cons {A : Type} (l : list A) (a d : A) : last (a :: l) d = last l a.
Proof.
  revert a d. induction l as [| x l IH]; intros a d; [reflexivity |].
  change (last (a :: x :: l) d) with (last (x :: l) d). now rewrite !IH.
Qed.

Lemma post_LinearNetwork_init (cfg : LinearNetworkConfig) :
  post (LinearNetwork_init (Net := Net) cfg) (fun n => wf_LinearNetwork n cfg).
Proof.
  unfold LinearNetwork_init.
  eapply post_bind; [apply post_RandomOrLearnedSinusoidalPosEmb_init |]. intros pe [Hpe Hev].
  eapply post_bind; [apply post_Linear_init |]. intros l1 H1.
  eapply post_bind; [apply post_Linear_init |]. intros l2 H2.
  eapply post_bind with
    (P := fun r => wf_optional_Conditioning (fst (fst r)) (lc_cond_dim cfg) (lc_dim cfg)
                   /\ snd (fst r) = option_map (fun _ => lc_dim cfg * 4) (lc_cond_dim cfg)).
  { destruct (lc_cond_dim cfg) as [k |].
    - eapply post_bind; [apply post_Conditioning_init |]. intros cm Hcm.
      apply post_ret. cbn. auto.
    - apply post_ret. cbn. auto. }
  intros [[conditioning ced] cdp] [Hc Hced]. cbn [fst snd] in Hc, Hced.
  eapply post_bind; [apply post_LinearResnetBlocks_init |]. intros bs Hbs.
  eapply post_bind; [apply post_Linear_init |]. intros fp Hfp.
  apply post_ret. unfold wf_LinearNetwork. cbn.
  rewrite last_cons in Hfp.
  repeat split; try assumption; try apply H1; try apply H2; try apply Hfp.
  subst ced. unfold cond_embed_dim. destruct (lc_cond_dim cfg); exact Hbs.
Qed.

End PostLinear.

(** ** Total correctness of the vector network *)

Section TotalLinearNetwork.
Context {T : Torch}.
Variable n0 : LinearNetwork.

Lemma yields_unsqueeze1 (x : Tensor) (b : nat) :
  shape x = [b] -> yields (unsqueeze1 x) (fun y => shape y = [b; 1]).
Proof. intros H. unfold unsqueeze1. rewrite H. reflexivity. Qed.

Lemma yields_unsqueeze0 (x : Tensor) (n : nat) :
  shape x = [n] -> yields (unsqueeze0 x) (fun y => shape y = [1; n]).
Proof. intros H. unfold unsqueeze0. rewrite H. reflexivity. Qed.

(** [time.expand(batch)] when [time.shape == (1,)]: one time per sample. *)
Lemma expanded_time_shape (time : Tensor) (b : nat) :
  valid_time b time ->
  shape (if shape_eqb (shape time) [1] then expand1 time b else time) = [b].
Proof.
  intros [H | H]; rewrite H.
  - destruct (shape_eqb [b] [1]) eqn:E; [reflexivity | exact H].
  - reflexivity.
Qed.

Lemma total_RandomOrLearnedSinusoidalPosEmb_forward {Net : Type} (m0 : Net)
  (pe : RandomOrLearnedSinusoidalPosEmb) (x : Tensor) (b dim : nat) :
  shape (weights pe) = [dim / 2] -> dim mod 2 = 0 -> shape x = [b; 1] ->
  total m0 (RandomOrLearnedSinusoidalPosEmb_forward pe x) (fun y => shape y = [b; dim + 1]).
Proof.
  intros Hw Hev Hx. unfold RandomOrLearnedSinusoidalPosEmb_forward.
  eapply spec_bind; [apply total_enter | intros _ _].
  eapply spec_bind; [apply total_lift, (yields_unsqueeze0 _ _ Hw) |]. intros w Hw'.
  eapply spec_bind; [apply total_lift, (yields_binary_outer "mul" x w b _ Hx Hw') |].
  intros freqs Hf.
  eapply spec_bind.
  { apply total_lift. apply (yields_cat_last _ _ b (dim / 2) (dim / 2)); exact Hf. }
  intros fouriered Hfo. apply total_lift.
  eapply yields_weaken; [apply (yields_cat_last x fouriered b 1 _ Hx Hfo) |].
  intros y Hy. rewrite Hy. f_equal. f_equal.
  pose proof (Nat.div_mod_eq dim 2). lia.
Qed.

Lemma total_LinearNetwork_blocks (blocks : list LinearResnetBlock) (hidden : list nat)
  (x time : Tensor) (c : option Tensor) (b i td cd : nat) :
  wf_LinearResnetBlocks blocks i hidden (td + cd) ->
  shape x = [b; i] -> shape time = [b; td] -> has_cond_shape c b cd ->
  total n0 (LinearNetwork_blocks blocks x time c) (fun y => shape y = [b; last hidden i]).
Proof.
  intros Hwf Hx Ht Hc. revert hidden i x Hwf Hx.
  induction blocks as [| blk blocks IH]; intros [| o hidden] i x Hwf Hx;
    cbn [wf_LinearResnetBlocks] in Hwf; try contradiction.
  - apply spec_ret. exact Hx.
  - destruct Hwf as [Hblk Hrest]. cbn [LinearNetwork_blocks].
    eapply spec_bind.
    { apply (total_LinearResnetBlock_forward n0 blk x time c b i o td cd Hblk Hx Ht Hc). }
    intros y Hy.
    eapply spec_weaken; [apply (IH hidden o y Hrest Hy) |].
    intros a Ha. rewrite Ha, last_cons. reflexivity.
Qed.

(** The time MLP of [LinearNetwork.forward] (line 288), on [time[:, None]]. *)
Lemma total_LinearNetwork_time (cfg : LinearNetworkConfig) (t1 : Tensor) (b : nat) :
  wf_LinearNetwork n0 cfg -> shape t1 = [b; 1] ->
  total n0 (Sequential_forward (ln_time_mlp n0) t1)
    (fun t => shape t = [b; lc_time_dim cfg]).
Proof.
  intros (Htime & _) Ht1.
  destruct (ln_time_mlp n0)
    as [| [| | | | pe | | | |] [| [l1 | | | | | | | |] [| [] [| [l2 | | | | | | | |] [|]]]]];
    try contradiction.
  destruct Htime as (Hw & Hev & H1 & H2).
  unfold Sequential_forward.
  eapply spec_bind; [apply total_enter | intros _ _].
  cbn [Sequential_run Module_forward].
  eapply spec_bind.
  { apply (total_RandomOrLearnedSinusoidalPosEmb_forward n0 pe t1 b _ Hw Hev Ht1). }
  intros t2 Ht2.
  eapply spec_bind; [apply (total_Linear_forward n0 l1 t2 b _ _ H1 Ht2) |]. intros t3 Ht3.
  eapply spec_bind; [apply total_GELU_forward |]. intros t4 Ht4.
  eapply spec_bind; [apply (total_Linear_forward n0 l2 t4 b _ _ H2); congruence |].
  intros t5 Ht5. apply spec_ret. exact Ht5.
Qed.

Lemma total_LinearNetwork_forward (cfg : LinearNetworkConfig) (x time : Tensor)
  (cond : option LongTensor) (p : option Q) (b : nat) :
  wf_LinearNetwork n0 cfg ->
  shape x = [b; lc_dim cfg] -> valid_time b time -> valid_cond (lc_cond_dim cfg) b cond ->
  total n0 (LinearNetwork_forward x time cond p) (fun y => shape y = [b; lc_dim cfg]).
Proof.
  intros Hwf Hx Hvt Hvc. pose proof Hwf as (_ & Hcond & Hblocks & Hfinal).
  unfold LinearNetwork_forward.
  eapply spec_bind; [apply spec_get_self |]. intros self ->.
  unfold shape0. rewrite Hx.
  eapply spec_bind with (P := fun n => n = b); [apply total_lift; reflexivity |].
  intros ? ->.
  eapply spec_bind.
  { apply total_lift, (yields_unsqueeze1 _ b), expanded_time_shape, Hvt. }
  intros t1 Ht1.
  eapply spec_bind; [apply (total_LinearNetwork_time cfg t1 b Hwf Ht1) |].
  intros t Ht. cbv beta in Ht.
  eapply spec_bind with
    (P := fun c => has_cond_shape c b (cond_embed_dim (lc_cond_dim cfg) (lc_dim cfg))).
  { unfold wf_optional_Conditioning in Hcond.
    destruct (ln_conditioning n0) as [cm |], (lc_cond_dim cfg) as [k |];
      try contradiction.
    - eapply spec_bind.
      { apply (total_class_conditioning n0 cm _ b k (lc_dim cfg) cond p Hcond Hvc). }
      intros c Hc. apply spec_ret. exact Hc.
    - apply spec_ret. reflexivity. }
  intros c Hc.
  eapply spec_bind.
  { apply (total_LinearNetwork_blocks _ _ x t c b _ _ _ Hblocks Hx Ht Hc). }
  intros y Hy.
  eapply spec_bind; [apply (total_Linear_forward n0 _ y b _ _ Hfinal Hy) |].
  intros z Hz. apply total_lift.
  eapply yields_weaken; [apply yields_binary_same; cbn; congruence |].
  intros a Ha. congruence.
Qed.

End TotalLinearNetwork.

(** ** Total correctness of the layers of the image network *)

Lemma groupnorm_nondegenerate (n c g hw : nat) :
  g <> 0 -> c mod g = 0 -> 1 < n * hw -> n * c / g * hw <> 1.
Proof.
  intros Hg Hc Hn.
  destruct c as [| c'].
  - rewrite Nat.mul_0_r, Nat.Div0.div_0_l. lia.
  - assert (Hle : g <= S c').
    { apply Nat.Div0.mod_divides in Hc. destruct Hc as [q Hq].
      destruct q as [| q]; [lia | nia]. }
    assert (Hd : n <= n * S c' / g).
    { apply Nat.div_le_lower_bound; [exact Hg | nia]. }
    nia.
Qed.

Section TotalImage.
Context {T : Torch} {Net : Type}.
Variable n0 : Net.

Lemma total_Conv2d_forward (self : Conv2d) (x : Tensor) (b i o pad h w : nat) :
  Conv2d_dims self i o (2 * pad + 1) pad ->
  shape x = [b; i; h; w] -> 1 <= h -> 1 <= w ->
  total n0 (Conv2d_forward self x) (fun y => shape y = [b; o; h; w]).
Proof.
  intros (Hi & Ho & Hk & Hp) Hx Hh Hw. unfold Conv2d_forward.
  eapply spec_bind; [apply total_enter | intros _ _].
  rewrite Hx, Hi, Nat.eqb_refl, Hk, Hp, !conv_out_same by assumption.
  eapply spec_bind with (P := fun a => a = h); [apply total_lift; reflexivity |].
  intros ? ->.
  eapply spec_bind with (P := fun a => a = w); [apply total_lift; reflexivity |].
  intros ? ->.
  apply spec_ret. cbn. now rewrite Ho.
Qed.

Lemma total_GroupNorm_forward (self : GroupNorm) (x : Tensor) (b c h w : nat) :
  num_channels self = c -> num_groups self <> 0 -> c mod num_groups self = 0 ->
  shape x = [b; c; h; w] -> 1 < b * (h * w) ->
  total n0 (GroupNorm_forward self x) (fun y => shape y = [b; c; h; w]).
Proof.
  intros Hc Hg Hdiv Hx Hn. unfold GroupNorm_forward.
  eapply spec_bind; [apply total_enter | intros _ _].
  rewrite Hx.
  destruct (num_groups self =? 0) eqn:H0; [apply Nat.eqb_eq in H0; contradiction |].
  destruct (b * c / num_groups self * list_prod [h; w] =? 1) eqn:H1.
  { apply Nat.eqb_eq in H1. exfalso.
    apply (groupnorm_nondegenerate b c (num_groups self) (list_prod [h; w]) Hg Hdiv);
      [cbn; lia | exact H1]. }
  apply Nat.eqb_eq in Hdiv. rewrite Hdiv, Hc, Nat.eqb_refl. cbn [negb].
  apply spec_ret. reflexivity.
Qed.

(** [x * (scale + 1) + shift] with one scale and one shift per channel. *)
Lemma total_modulate_channelwise (x s1 s2 : Tensor) (b c h w : nat) :
  shape x = [b; c; h; w] -> shape s1 = [b; c; 1; 1] -> shape s2 = [b; c; 1; 1] ->
  total n0 (modulate x (Some [s1; s2])) (fun y => shape y = [b; c; h; w]).
Proof.
  intros Hx H1 H2. unfold modulate. cbn [unpack2].
  eapply spec_bind with (P := fun p => p = (s1, s2)); [apply total_lift; reflexivity |].
  intros [scale shift] [= -> ->].
  eapply spec_bind.
  { apply total_lift. apply (yields_binary_channelwise "mul" x _ b c h w Hx). exact H1. }
  intros y Hy. apply total_lift.
  apply (yields_binary_channelwise "add" y s2 b c h w Hy H2).
Qed.

Lemma total_Block_forward (self : Block) (x : Tensor) (scale_shift : option (list Tensor))
  (b i o h w : nat) :
  wf_Block self i o ->
  shape x = [b; i; h; w] -> 1 <= h -> 1 <= w -> 1 < b * (h * w) ->
  match scale_shift with
  | Some ss =>
      exists s1 s2, ss = [s1; s2] /\ shape s1 = [b; o; 1; 1] /\ shape s2 = [b; o; 1; 1]
  | None => True
  end ->
  total n0 (Block_forward self x scale_shift) (fun y => shape y = [b; o; h; w]).
Proof.
  intros (Hproj & Hnc & Hng & Hdiv) Hx Hh Hw Hn Hss. unfold Block_forward.
  eapply spec_bind; [apply total_enter | intros _ _].
  eapply spec_bind; [apply (total_Conv2d_forward _ x b i o 1 h w Hproj Hx Hh Hw) |].
  intros y Hy.
  eapply spec_bind; [apply (total_GroupNorm_forward _ y b o h w Hnc Hng Hdiv Hy Hn) |].
  intros z Hz.
  eapply spec_bind with (P := fun u => shape u = [b; o; h; w]).
  { destruct scale_shift as [ss |].
    - destruct Hss as (s1 & s2 & -> & Hs1 & Hs2).
      apply (total_modulate_channelwise z s1 s2 b o h w Hz Hs1 Hs2).
    - apply spec_ret. exact Hz. }
  intros u Hu. eapply spec_weaken; [apply total_SiLU_forward |].
  intros a Ha. congruence.
Qed.

Lemma total_ResnetBlock_forward (self : ResnetBlock) (x time : Tensor) (c : option Tensor)
  (b i o td cd h w : nat) :
  wf_ResnetBlock self i o (td + cd) ->
  shape x = [b; i; h; w] -> 1 <= h -> 1 <= w -> 1 < b * (h * w) ->
  shape time = [b; td] -> has_cond_shape c b cd ->
  total n0 (ResnetBlock_forward self x (Some time) c) (fun y => shape y = [b; o; h; w]).
Proof.
  intros (Hmlp & Hb1 & Hb2 & Hres) Hx Hh Hw Hn Ht Hc. unfold ResnetBlock_forward.
  eapply spec_bind; [apply total_enter | intros _ _].
  destruct (rb_mlp self) as [mlp |]; [| contradiction].
  cbn [exists_ orb].
  eapply spec_bind with
    (P := fun ss => exists s1 s2,
              ss = Some [s1; s2] /\ shape s1 = [b; o; 1; 1] /\ shape s2 = [b; o; 1; 1]).
  { eapply spec_bind; [apply total_lift, (yields_cat_embeddings time c b td cd Ht Hc) |].
    intros e He.
    eapply spec_bind; [apply (total_mlp n0 mlp e b _ _ Hmlp He) |]. intros e2 He2.
    eapply spec_bind.
    { apply total_lift. apply (yields_chunk2_channels (unsqueeze_last2 e2) b o 1 1).
      unfold unsqueeze_last2. cbn [shape apply]. rewrite He2. reflexivity. }
    intros ss (s1 & s2 & -> & Hs1 & Hs2). apply spec_ret. eauto. }
  intros ss (s1 & s2 & -> & Hs1 & Hs2).
  eapply spec_bind.
  { apply (total_Block_forward _ x (Some [s1; s2]) b i o h w Hb1 Hx Hh Hw Hn). eauto. }
  intros y Hy.
  eapply spec_bind; [apply (total_Block_forward _ y None b o o h w Hb2 Hy Hh Hw Hn I) |].
  intros y2 Hy2.
  eapply spec_bind with (P := fun r => shape r = [b; o; h; w]).
  { destruct (rb_res_conv self) as [cv |].
    - apply (total_Conv2d_forward cv x b i o 0 h w Hres Hx Hh Hw).
    - subst o. eapply spec_weaken; [apply total_Identity_forward |].
      intros a Ha. congruence. }
  intros r Hr. apply total_lift.
  eapply yields_weaken; [apply yields_binary_same; congruence |].
  intros a Ha. congruence.
Qed.

Lemma total_RMSNorm_forward (self : RMSNorm) (x : Tensor) (b c h w : nat) :
  wf_RMSNorm self c -> shape x = [b; c; h; w] ->
  total n0 (RMSNorm_forward self x) (fun y => shape y = [b; c; h; w]).
Proof.
  intros Hg Hx. unfold RMSNorm_forward.
  eapply spec_bind; [apply total_enter | intros _ _].
  rewrite Hx.
  eapply spec_bind.
  { apply total_lift. apply (yields_binary_gain "mul" _ (g self) b c h w); [reflexivity |].
    exact Hg. }
  intros y Hy. apply spec_ret. exact Hy.
Qed.

(** [Attend.forward], on either path: the attention written out in
    [forward], or [F.scaled_dot_product_attention] under the configuration
    for the device. *)
Lemma total_Attend_forward (self : Attend) (q k v : Tensor) (b heads n d : nat) :
  wf_Attend self -> 1 <= d ->
  shape q = [b; heads; n; d] -> shape k = [b; heads; n; d] -> shape v = [b; heads; n; d] ->
  total n0 (Attend_forward self q k v) (fun y => shape y = [b; heads; n; d]).
Proof.
  intros (Hdrop0 & Hdrop & Hrun) Hd Hq Hk Hv. unfold Attend_forward.
  eapply spec_bind; [apply total_enter | intros _ _].
  destruct (at_flash self) eqn:Hflash.
  - destruct (Hrun eq_refl) as (c & Hc & Hfound).
    unfold Attend_flash_attn. unfold config_of_call in Hc.
    eapply spec_bind with (P := fun c' => c' = c).
    { destruct (is_cuda platform).
      - rewrite Hc. apply spec_ret. reflexivity.
      - injection Hc as <-. apply spec_ret. reflexivity. }
    intros ? ->.
    eapply spec_bind with (P := fun _ => True); [apply spec_is_training; auto |].
    intros tr _. rewrite Hdrop0.
    replace (if tr then 0%Q else 0%Q) with 0%Q by (destruct tr; reflexivity).
    unfold scaled_dot_product_attention.
    rewrite Hq, Hk, Hv, Hfound, !Nat.eqb_refl. cbn [negb andb].
    rewrite !bdim_same. cbn [rbind]. rewrite !bdim_same.
    eapply spec_bind with (P := fun x => x = b); [apply total_lift; reflexivity |].
    intros ? ->.
    eapply spec_bind with (P := fun x => x = heads); [apply total_lift; reflexivity |].
    intros ? ->.
    change (Qltb 0 0) with false. apply spec_ret. reflexivity.
  - rewrite Hq. cbn [rev app].
    eapply spec_bind with (P := fun a => a = d); [apply spec_ret; reflexivity |].
    intros ? ->.
    destruct (d =? 0) eqn:H0; [apply Nat.eqb_eq in H0; lia |].
    eapply spec_bind with (P := fun _ => True); [apply spec_ret; exact I |]. intros _ _.
    eapply spec_bind with (P := fun s => shape s = [b; heads; n; n]).
    { apply total_lift. unfold einsum. rewrite Hq, Hk, !bdim_same. reflexivity. }
    intros sim Hsim.
    eapply spec_bind.
    { apply total_Dropout_forward. rewrite Hdrop. reflexivity. }
    intros attn Hattn. cbn [softmax shape apply] in Hattn.
    apply total_lift. unfold einsum. rewrite Hattn, Hsim, Hv, !bdim_same. reflexivity.
Qed.

Lemma total_Attention_forward (self : Attention) (x : Tensor) (b dim heads dim_head h w : nat) :
  wf_Attention self dim heads dim_head -> 1 <= heads -> 1 <= dim_head ->
  shape x = [b; dim; h; w] -> 1 <= h -> 1 <= w ->
  total n0 (Attention_forward self x) (fun y => shape y = [b; dim; h; w]).
Proof.
  intros (Hheads & Hnorm & Hqkv & Hout & Hattend) Hh1 Hd1 Hx Hh Hw.
  unfold Attention_forward.
  eapply spec_bind; [apply total_enter | intros _ _].
  unfold unpack_shape4. rewrite Hx.
  eapply spec_bind with (P := fun r => r = (b, dim, h, w)); [apply total_lift; reflexivity |].
  intros [[[? ?] ?] ?] [= -> -> -> ->].
  eapply spec_bind; [apply (total_RMSNorm_forward _ x b dim h w Hnorm Hx) |]. intros y Hy.
  rewrite Hheads.
  eapply spec_bind with
    (P := fun qkv => shape qkv = [b; dim_head * heads * 3; h; w]).
  { apply (total_Conv2d_forward _ y b dim _ 0 h w Hqkv Hy Hh Hw). }
  intros qkv Hq.
  eapply spec_bind; [apply total_lift, (yields_chunk3_channels qkv b _ h w Hq) |].
  intros ts (t1 & t2 & t3 & -> & H1 & H2 & H3).
  eapply spec_bind with
    (P := fun l => exists q k v,
              l = [q; k; v] /\ shape q = [b; heads; h * w; dim_head]
              /\ shape k = [b; heads; h * w; dim_head]
              /\ shape v = [b; heads; h * w; dim_head]).
  { apply total_lift. cbn [rmap].
    destruct (yields_Ok _ _ (yields_rearrange_split_heads false heads dim_head
                               t1 b h w Hh1 H1)) as (q & -> & Hq1).
    destruct (yields_Ok _ _ (yields_rearrange_split_heads false heads dim_head
                               t2 b h w Hh1 H2)) as (k & -> & Hk1).
    destruct (yields_Ok _ _ (yields_rearrange_split_heads false heads dim_head
                               t3 b h w Hh1 H3)) as (v & -> & Hv1).
    cbn [rbind yields]. exists q, k, v. auto. }
  intros l (q & k & v & -> & Hsq & Hsk & Hsv). cbn [unpack3].
  eapply spec_bind with (P := fun r => r = (q, k, v)); [apply total_lift; reflexivity |].
  intros [[? ?] ?] [= -> -> ->].
  eapply spec_bind.
  { apply (total_Attend_forward _ q k v b heads (h * w) dim_head Hattend Hd1
             Hsq Hsk Hsv). }
  intros out Hout'. rewrite Hout', Nat.eqb_refl.
  eapply spec_bind with (P := fun r => shape r = [b; dim_head * heads; h; w]).
  { apply total_lift. cbn [yields shape apply]. now rewrite Nat.mul_comm. }
  intros out2 Hout2.
  apply (total_Conv2d_forward _ out2 b _ dim 0 h w Hout Hout2 Hh Hw).
Qed.

Lemma total_LinearAttention_forward (self : LinearAttention) (x : Tensor)
  (b dim heads dim_head h w : nat) :
  wf_LinearAttention self dim heads dim_head -> 1 <= heads ->
  shape x = [b; dim; h; w] -> 1 <= h -> 1 <= w ->
  total n0 (LinearAttention_forward self x) (fun y => shape y = [b; dim; h; w]).
Proof.
  intros (Hheads & Hnorm & Hqkv & Hout) Hh1 Hx Hh Hw.
  unfold LinearAttention_forward.
  eapply spec_bind; [apply total_enter | intros _ _].
  unfold unpack_shape4. rewrite Hx.
  eapply spec_bind with (P := fun r => r = (b, dim, h, w)); [apply total_lift; reflexivity |].
  intros [[[? ?] ?] ?] [= -> -> -> ->].
  eapply spec_bind; [apply (total_RMSNorm_forward _ x b dim h w Hnorm Hx) |]. intros y Hy.
  rewrite Hheads.
  eapply spec_bind with
    (P := fun qkv => shape qkv = [b; dim_head * heads * 3; h; w]).
  { apply (total_Conv2d_forward _ y b dim _ 0 h w Hqkv Hy Hh Hw). }
  intros qkv Hq.
  eapply spec_bind; [apply total_lift, (yields_chunk3_channels qkv b _ h w Hq) |].
  intros ts (t1 & t2 & t3 & -> & H1 & H2 & H3).
  eapply spec_bind with
    (P := fun l => exists q k v,
              l = [q; k; v] /\ shape q = [b; heads; dim_head; h * w]
              /\ shape k = [b; heads; dim_head; h * w]
              /\ shape v = [b; heads; dim_head; h * w]).
  { apply total_lift. cbn [rmap].
    destruct (yields_Ok _ _ (yields_rearrange_split_heads true heads dim_head
                               t1 b h w Hh1 H1)) as (q & -> & Hq1).
    destruct (yields_Ok _ _ (yields_rearrange_split_heads true heads dim_head
                               t2 b h w Hh1 H2)) as (k & -> & Hk1).
    destruct (yields_Ok _ _ (yields_rearrange_split_heads true heads dim_head
                               t3 b h w Hh1 H3)) as (v & -> & Hv1).
    cbn [rbind yields]. exists q, k, v. auto. }
  intros l (q & k & v & -> & Hsq & Hsk & Hsv). cbn [unpack3].
  eapply spec_bind with (P := fun r => r = (q, k, v)); [apply total_lift; reflexivity |].
  intros [[? ?] ?] [= -> -> ->].
  eapply spec_bind with (P := fun c => shape c = [b; heads; dim_head; dim_head]).
  { apply total_lift. unfold einsum. cbn [softmax shape apply].
    rewrite Hsk, Hsv, !bdim_same. reflexivity. }
  intros context Hctx.
  eapply spec_bind with (P := fun o => shape o = [b; heads; dim_head; h * w]).
  { apply total_lift. unfold einsum. cbn [softmax shape apply].
    rewrite Hctx, Hsq, !bdim_same. reflexivity. }
  intros out Hout'. rewrite Hout', !Nat.eqb_refl. cbn [andb].
  eapply spec_bind with (P := fun r => shape r = [b; dim_head * heads; h; w]).
  { apply total_lift. cbn [yields shape apply]. now rewrite Nat.mul_comm. }
  intros out2 Hout2.
  destruct (la_to_out self) as [| [| | | | | cv | | |] [| [| | | | | | | | nm] [|]]];
    try contradiction.
  destruct Hout as [Hcv Hnm].
  unfold Sequential_forward. eapply spec_bind; [apply total_enter | intros _ _].
  cbn [Sequential_run Module_forward].
  eapply spec_bind; [apply (total_Conv2d_forward cv out2 b _ dim 0 h w Hcv Hout2 Hh Hw) |].
  intros z Hz.
  eapply spec_bind; [apply (total_RMSNorm_forward nm z b dim h w Hnm Hz) |].
  intros u Hu. apply spec_ret. exact Hu.
Qed.

Lemma total_AttnModule_forward (a : AttnModule) (full_attn : bool) (x : Tensor)
  (b dim heads dim_head h w : nat) :
  wf_AttnModule a full_attn dim heads dim_head -> 1 <= heads -> 1 <= dim_head ->
  shape x = [b; dim; h; w] -> 1 <= h -> 1 <= w ->
  total n0 (AttnModule_forward a x) (fun y => shape y = [b; dim; h; w]).
Proof.
  intros Hwf Hh1 Hd1 Hx Hh Hw. unfold wf_AttnModule in Hwf.
  destruct a as [m | m], full_attn; try contradiction; cbn [AttnModule_forward].
  - apply (total_Attention_forward m x b dim heads dim_head h w Hwf Hh1 Hd1 Hx Hh Hw).
  - apply (total_LinearAttention_forward m x b dim heads dim_head h w Hwf Hh1 Hx Hh Hw).
Qed.

(** [x = attn(x) + x] *)
Lemma total_attend_residual (a : AttnModule) (full_attn : bool) (x : Tensor)
  (b dim heads dim_head h w : nat) :
  wf_AttnModule a full_attn dim heads dim_head -> 1 <= heads -> 1 <= dim_head ->
  shape x = [b; dim; h; w] -> 1 <= h -> 1 <= w ->
  total n0 (y <- AttnModule_forward a x;; lift (binary "add" y x))
    (fun y => shape y = [b; dim; h; w]).
Proof.
  intros Hwf Hh1 Hd1 Hx Hh Hw.
  eapply spec_bind.
  { apply (total_AttnModule_forward a full_attn x b dim heads dim_head h w
             Hwf Hh1 Hd1 Hx Hh Hw). }
  intros y Hy. apply total_lift.
  eapply yields_weaken; [apply yields_binary_same; congruence |].
  intros r Hr. congruence.
Qed.

(** The fourth module of an encoder stage halves the resolution, except in
    the last stage. *)
Lemma total_down_resample (r : Resample) (is_last : bool) (x : Tensor) (b i o h w : nat) :
  wf_down_resample r is_last i o -> 1 <= h -> 1 <= w ->
  shape x = (if is_last then [b; i; h; w] else [b; i; 2 * h; 2 * w]) ->
  total n0 (Resample_forward r x) (fun y => shape y = [b; o; h; w]).
Proof.
  intros Hwf Hh Hw Hx. unfold wf_down_resample in Hwf.
  destruct r as [[| [| | | | | | | |] [| [| | | | | cv | | |] [|]]] | cv], is_last;
    try contradiction; cbn [Resample_forward].
  - unfold Sequential_forward. eapply spec_bind; [apply total_enter | intros _ _].
    cbn [Sequential_run Module_forward].
    eapply spec_bind with (P := fun y => shape y = [b; i * 4; h; w]).
    { unfold Rearrange_forward. eapply spec_bind; [apply total_enter | intros _ _].
      rewrite Hx. rewrite !(Nat.mul_comm 2), !Nat.Div0.mod_mul, !Nat.div_mul by lia.
      cbn [Nat.eqb andb]. apply spec_ret. cbn. f_equal. f_equal. lia. }
    intros y Hy.
    eapply spec_bind; [apply (total_Conv2d_forward cv y b _ o 0 h w Hwf Hy Hh Hw) |].
    intros z Hz. apply spec_ret. exact Hz.
  - apply (total_Conv2d_forward cv x b i o 1 h w Hwf Hx Hh Hw).
Qed.

(** The fourth module of a decoder stage doubles the resolution, except in
    the last stage. *)
Lemma total_up_resample (r : Resample) (is_last : bool) (x : Tensor) (b i o h w : nat) :
  wf_up_resample r is_last i o -> 1 <= h -> 1 <= w ->
  shape x = [b; o; h; w] ->
  total n0 (Resample_forward r x)
    (fun y => shape y = if is_last then [b; i; h; w] else [b; i; 2 * h; 2 * w]).
Proof.
  intros Hwf Hh Hw Hx. unfold wf_up_resample in Hwf.
  destruct r as [[| [| | | | | | | |] [| [| | | | | cv | | |] [|]]] | cv], is_last;
    try contradiction; cbn [Resample_forward].
  - unfold Sequential_forward. eapply spec_bind; [apply total_enter | intros _ _].
    cbn [Sequential_run Module_forward].
    eapply spec_bind with (P := fun y => shape y = [b; o; 2 * h; 2 * w]).
    { unfold Upsample_forward. eapply spec_bind; [apply total_enter | intros _ _].
      rewrite Hx. cbn [length Nat.leb andb]. apply spec_ret. reflexivity. }
    intros y Hy.
    eapply spec_bind.
    { apply (total_Conv2d_forward cv y b o i 1 (2 * h) (2 * w) Hwf Hy); lia. }
    intros z Hz. apply spec_ret. exact Hz.
  - apply (total_Conv2d_forward cv x b o i 1 h w Hwf Hx Hh Hw).
Qed.

End TotalImage.

(** ** What the constructors of the image network establish *)

(** *** The stage list of a configuration *)

Lemma zip4_snoc {A B C D : Type} (la : list A) (lb : list B) (lc : list C) (ld : list D)
  (a : A) (b : B) (c : C) (d : D) :
  length lb = length la -> length lc = length la -> length ld = length la ->
  zip4 (la ++ [a]) (lb ++ [b]) (lc ++ [c]) (ld ++ [d]) = zip4 la lb lc ld ++ [(a, b, c, d)].
Proof.
  revert lb lc ld.
  induction la as [| a' la IH]; intros [| b' lb] [| c' lc] [| d' ld] Hb Hc Hd;
    simpl in *; try discriminate; [reflexivity |].
  f_equal. apply IH; congruence.
Qed.

Lemma zip4_rev {A B C D : Type} (la : list A) (lb : list B) (lc : list C) (ld : list D) :
  length lb = length la -> length lc = length la -> length ld = length la ->
  zip4 (rev la) (rev lb) (rev lc) (rev ld) = rev (zip4 la lb lc ld).
Proof.
  revert lb lc ld.
  induction la as [| a la IH]; intros [| b lb] [| c lc] [| d ld] Hb Hc Hd;
    simpl in *; try discriminate; [reflexivity |].
  rewrite zip4_snoc by (rewrite !length_rev; congruence).
  f_equal. apply IH; congruence.
Qed.

Lemma zip_specs_rev (in_out : list (nat * nat)) (fa : list bool) (hs dhs : list nat) :
  length fa = length in_out -> length hs = length in_out -> length dhs = length in_out ->
  zip_specs (rev in_out) (rev fa) (rev hs) (rev dhs) = rev (zip_specs in_out fa hs dhs).
Proof.
  intros H1 H2 H3. unfold zip_specs. now rewrite zip4_rev, map_rev.
Qed.

(** [zip(dims[:-1], dims[1:])] has one pair per multiplier. *)
Lemma in_out_length (d0 : nat) (ds : list nat) :
  length (combine (removelast (d0 :: ds)) ds) = length ds.
Proof.
  revert d0. induction ds as [| d ds IH]; intros d0; [reflexivity |].
  change (removelast (d0 :: d :: ds)) with (d0 :: removelast (d :: ds)).
  cbn [combine length]. now rewrite IH.
Qed.

Lemma in_out_chained (ds : list nat) (d0 d' : nat) (fa : list bool) (hs dhs : list nat) :
  length fa = length ds -> length hs = length ds -> length dhs = length ds ->
  chained d0 (zip_specs (combine (removelast (d0 :: ds)) ds) fa hs dhs) (last (d0 :: ds) d').
Proof.
  unfold zip_specs. revert d0 d' fa hs dhs.
  induction ds as [| d ds IH]; intros d0 d' [| f fa] [| h hs] [| dh dhs] H1 H2 H3;
    simpl in H1, H2, H3; try discriminate.
  - reflexivity.
  - change (removelast (d0 :: d :: ds)) with (d0 :: removelast (d :: ds)).
    cbn [combine zip4 map chained fst snd]. split; [reflexivity |].
    rewrite last_cons. apply IH; congruence.
Qed.

Lemma rchained_snoc (l : list StageSpec) (o m i : nat) (fa : bool) (hd dh : nat) :
  rchained o l m -> rchained o (l ++ [(i, m, fa, hd, dh)]) i.
Proof.
  revert o. induction l as [| [[[[i' o'] f'] hd'] dh'] l IH]; intros o H; simpl in *.
  - auto.
  - destruct H as [H1 H2]. split; [exact H1 | apply IH, H2].
Qed.

Lemma chained_rev (specs : list StageSpec) (i o : nat) :
  chained i specs o -> rchained o (rev specs) i.
Proof.
  revert i. induction specs as [| [[[[i' o'] f'] hd'] dh'] specs IH]; intros i H; simpl in *.
  - auto.
  - destruct H as [-> H]. apply rchained_snoc, IH, H.
Qed.

Lemma zip_specs_heads_ok (in_out : list (nat * nat)) (fa : list bool) (hs dhs : list nat) :
  Forall (fun hd => 1 <= hd) hs -> Forall (fun dh => 1 <= dh) dhs ->
  heads_ok (zip_specs in_out fa hs dhs).
Proof.
  intros Hh. revert in_out fa dhs.
  induction Hh as [| h hs Hh1 _ IH]; intros in_out fa dhs Hd.
  - destruct in_out, fa; constructor.
  - destruct in_out as [| io in_out], fa as [| f fa]; try constructor;
      destruct Hd as [| dh dhs Hd1 Hd]; try constructor.
    + auto.
    + apply IH, Hd.
Qed.

Section PostImage.
Context {T : Torch} {Net : Type}.

Lemma post_Conv2d_init (i o k pad : nat) (with_bias : bool) :
  post (Conv2d_init (Net := Net) i o k pad with_bias) (fun c => Conv2d_dims c i o k pad).
Proof.
  unfold Conv2d_init. eapply post_bind; [apply post_any |]. intros w _.
  destruct with_bias.
  - eapply post_bind; [apply post_any |]. intros b _. apply post_ret. repeat split.
  - apply post_ret. repeat split.
Qed.

Lemma post_GroupNorm_init (groups channels : nat) :
  post (GroupNorm_init (Net := Net) groups channels)
    (fun gn => num_channels gn = channels /\ num_groups gn <> 0
               /\ channels mod num_groups gn = 0).
Proof.
  unfold GroupNorm_init.
  destruct (groups =? 0) eqn:H0; [apply post_raise |].
  destruct (channels mod groups =? 0) eqn:Hd; [| apply post_raise].
  apply post_ret. cbn. apply Nat.eqb_neq in H0. apply Nat.eqb_eq in Hd. auto.
Qed.

Lemma post_Block_init (i o groups : nat) :
  post (Block_init (Net := Net) i o groups) (fun b => wf_Block b i o).
Proof.
  unfold Block_init. eapply post_bind; [apply post_any |]. intros g' _.
  eapply post_bind; [apply post_Conv2d_init |]. intros proj Hproj.
  eapply post_bind; [apply post_GroupNorm_init |]. intros norm (Hn1 & Hn2 & Hn3).
  apply post_ret. unfold wf_Block. cbn [b_proj b_norm]. auto.
Qed.

Lemma post_block_class (cfg : UnetConfig) (classes_dim : option nat) (i o : nat) :
  post (block_class (Net := Net) cfg classes_dim i o)
    (fun r => wf_ResnetBlock r i o (uc_dim cfg * 4 + default classes_dim 0)).
Proof.
  unfold block_class, ResnetBlock_init. cbn [exists_ orb default].
  eapply post_bind with
    (P := fun m => match m with
                   | Some ms => wf_mlp ms (uc_dim cfg * 4 + default classes_dim 0) (o * 2)
                   | None => False
                   end).
  { eapply post_bind; [apply post_Linear_init |]. intros l Hl. apply post_ret. exact Hl. }
  intros mlp Hmlp.
  eapply post_bind; [apply post_Block_init |]. intros b1 Hb1.
  eapply post_bind; [apply post_Block_init |]. intros b2 Hb2.
  eapply post_bind with
    (P := fun r => match r with Some c => Conv2d_dims c i o 1 0 | None => i = o end).
  { destruct (i =? o) eqn:Hio; cbn [negb].
    - apply post_ret. now apply Nat.eqb_eq.
    - eapply post_bind; [apply post_Conv2d_init |]. intros c Hc. apply post_ret. exact Hc. }
  intros rc Hrc. apply post_ret. unfold wf_ResnetBlock. cbn. auto.
Qed.

(** What [Attend.__init__] stores in [cuda_config], branch by branch. *)
Lemma stored_cuda_config_None (flash : bool) :
  negb (cuda_is_available platform) || negb flash = true -> stored_cuda_config flash None.
Proof.
  intros H. unfold stored_cuda_config.
  destruct (cuda_is_available platform), flash; try discriminate H;
    (split; [reflexivity |]); split; intros F1 F2; discriminate.
Qed.

Lemma stored_cuda_config_A100 (flash : bool) :
  negb (cuda_is_available platform) || negb flash = false ->
  (device_major platform =? 8) && (device_minor platform =? 0) = true ->
  stored_cuda_config flash (Some (mkAttentionConfig true false false)).
Proof.
  intros H Hdev. unfold stored_cuda_config.
  apply andb_true_iff in Hdev. destruct Hdev as [Hmaj Hmin].
  apply Nat.eqb_eq in Hmaj. apply Nat.eqb_eq in Hmin.
  destruct (cuda_is_available platform), flash; try discriminate H.
  split; [intros [F | F]; discriminate F |].
  split; [reflexivity |]. intros _ _ Hn. exfalso. apply Hn. split; assumption.
Qed.

Lemma stored_cuda_config_other (flash : bool) :
  negb (cuda_is_available platform) || negb flash = false ->
  (device_major platform =? 8) && (device_minor platform =? 0) = false ->
  stored_cuda_config flash (Some (mkAttentionConfig false true true)).
Proof.
  intros H Hdev. unfold stored_cuda_config.
  destruct (cuda_is_available platform), flash; try discriminate H.
  split; [intros [F | F]; discriminate F |].
  split; [| reflexivity]. intros _ _ [Hmaj Hmin].
  rewrite Hmaj, Hmin in Hdev. discriminate Hdev.
Qed.

(** [Attend.__init__] stores the flag and the configurations that go with
    it, on every platform on which it returns. *)
Lemma post_Attend_init (dropout : Q) (flash : bool) :
  post (Attend_init (Net := Net) dropout flash)
    (fun a => at_dropout a = dropout /\ p_drop (at_attn_dropout a) = dropout
              /\ attention_selected a flash).
Proof.
  unfold Attend_init.
  eapply post_bind; [apply post_Dropout_init |]. intros d [Hd _].
  eapply post_bind; [apply post_any |]. intros _ _.
  assert (Hsel : forall c, stored_cuda_config flash c ->
            post (ret (Net := Net)
                    (mkAttend dropout d flash (mkAttentionConfig true true true) c))
              (fun a => at_dropout a = dropout /\ p_drop (at_attn_dropout a) = dropout
                        /\ attention_selected a flash)).
  { intros c Hc. apply post_ret. unfold attention_selected.
    cbn [at_dropout at_attn_dropout at_flash at_cpu_config at_cuda_config]. auto. }
  destruct (negb (cuda_is_available platform) || negb flash) eqn:Hc.
  - apply Hsel, stored_cuda_config_None, Hc.
  - destruct ((device_major platform =? 8) && (device_minor platform =? 0)) eqn:Hdev.
    + eapply post_bind; [apply post_any |]. intros _ _.
      apply Hsel, stored_cuda_config_A100; assumption.
    + eapply post_bind; [apply post_any |]. intros _ _.
      apply Hsel, stored_cuda_config_other; assumption.
Qed.

Lemma wf_Attend_of_selected (a : Attend) (flash : bool) :
  at_dropout a = 0%Q -> p_drop (at_attn_dropout a) = 0%Q -> attention_selected a flash ->
  (flash = true -> flash_runs) -> wf_Attend a.
Proof.
  intros H1 H2 (Hf & Hcpu & Hcuda) Hr. split; [exact H1 |]. split; [exact H2 |].
  intros Hfl. rewrite Hf in Hfl. rewrite Hfl in Hcuda.
  unfold config_of_call. rewrite Hcpu. exact (Hr Hfl _ Hcuda).
Qed.

Lemma post_Attention_init (dim heads dim_head : nat) (flash : bool) :
  (flash = true -> flash_runs) ->
  post (Attention_init (Net := Net) dim heads dim_head flash)
    (fun a => wf_Attention a dim heads dim_head).
Proof.
  intros Hr. unfold Attention_init, RMSNorm_init.
  eapply post_bind with (P := fun n => wf_RMSNorm n dim); [apply post_ret; reflexivity |].
  intros norm Hnorm.
  eapply post_bind; [apply post_Attend_init |]. intros a (Hd0 & Hd & Hsel).
  eapply post_bind; [apply post_Conv2d_init |]. intros qkv Hqkv.
  eapply post_bind; [apply post_Conv2d_init |]. intros out Hout.
  apply post_ret. unfold wf_Attention. cbn [a_heads a_norm a_attend a_to_qkv a_to_out].
  pose proof (wf_Attend_of_selected a flash Hd0 Hd Hsel Hr). auto.
Qed.

Lemma post_LinearAttention_init (dim heads dim_head : nat) :
  post (LinearAttention_init (Net := Net) dim heads dim_head)
    (fun a => wf_LinearAttention a dim heads dim_head).
Proof.
  unfold LinearAttention_init, RMSNorm_init.
  eapply post_bind; [apply post_any |]. intros _ _.
  eapply post_bind with (P := fun n => wf_RMSNorm n dim); [apply post_ret; reflexivity |].
  intros norm Hnorm.
  eapply post_bind; [apply post_Conv2d_init |]. intros qkv Hqkv.
  eapply post_bind; [apply post_Conv2d_init |]. intros out Hout.
  eapply post_bind with (P := fun n => wf_RMSNorm n dim); [apply post_ret; reflexivity |].
  intros n Hn.
  apply post_ret. unfold wf_LinearAttention. cbn. auto 10.
Qed.

Lemma post_attn_class (cfg : UnetConfig) (full_attn : bool) (dim dim_head heads : nat) :
  (uc_flash_attn cfg = true -> flash_runs) ->
  post (attn_class (Net := Net) cfg full_attn dim dim_head heads)
    (fun a => wf_AttnModule a full_attn dim heads dim_head).
Proof.
  intros Hflash. unfold attn_class. destruct full_attn.
  - eapply post_bind; [apply (post_Attention_init _ _ _ _ Hflash) |]. intros a Ha.
    apply post_ret. exact Ha.
  - eapply post_bind; [apply post_LinearAttention_init |]. intros a Ha.
    apply post_ret. exact Ha.
Qed.

Lemma post_Unet_init_downs (cfg : UnetConfig) (classes_dim : option nat) (n : nat)
  (zipped : list StageSpec) (i : nat) :
  (uc_flash_attn cfg = true -> flash_runs) -> i + length zipped = n ->
  post (Unet_init_downs (Net := Net) cfg classes_dim n i zipped)
    (fun stages => wf_downs stages zipped (uc_dim cfg * 4 + default classes_dim 0)).
Proof.
  intros Hflash. revert i.
  induction zipped as [| [[[[in_dim out_dim] fa] hd] dh] rest IH]; intros i Hlen.
  - apply post_ret. exact I.
  - cbn [Unet_init_downs]. cbn [length] in Hlen.
    eapply post_bind; [apply post_block_class |]. intros b1 Hb1.
    eapply post_bind; [apply post_block_class |]. intros b2 Hb2.
    eapply post_bind; [apply (post_attn_class cfg fa in_dim dh hd Hflash) |]. intros a Ha.
    eapply post_bind with (P := fun r => wf_down_resample r (is_nil rest) in_dim out_dim).
    { destruct (n - 1 <=? i) eqn:Hlast; cbn [negb].
      - apply Nat.leb_le in Hlast. destruct rest as [| spec' rest']; [| cbn [length] in Hlen; lia].
        eapply post_bind; [apply post_Conv2d_init |]. intros c Hc. apply post_ret. exact Hc.
      - apply Nat.leb_gt in Hlast. destruct rest as [| spec' rest']; [cbn [length] in Hlen; lia |].
        unfold downsample.
        eapply post_bind with (P := fun sq => wf_down_resample (ResampleSeq sq) false in_dim out_dim).
        { eapply post_bind; [apply post_Conv2d_init |]. intros c Hc.
          apply post_ret. exact Hc. }
        intros sq Hsq. apply post_ret. exact Hsq. }
    intros r Hr.
    eapply post_bind; [apply (IH (S i)); lia |]. intros stages Hstages.
    apply post_ret. cbn [wf_downs st_block1 st_block2 st_attn st_resample]. auto.
Qed.

Lemma post_Unet_init_ups (cfg : UnetConfig) (classes_dim : option nat) (n : nat)
  (zipped : list StageSpec) (i : nat) :
  (uc_flash_attn cfg = true -> flash_runs) -> i + length zipped = n ->
  post (Unet_init_ups (Net := Net) cfg classes_dim n i zipped)
    (fun stages => wf_ups stages zipped (uc_dim cfg * 4 + default classes_dim 0)).
Proof.
  intros Hflash. revert i.
  induction zipped as [| [[[[in_dim out_dim] fa] hd] dh] rest IH]; intros i Hlen.
  - apply post_ret. exact I.
  - cbn [Unet_init_ups]. cbn [length] in Hlen.
    eapply post_bind; [apply post_block_class |]. intros b1 Hb1.
    eapply post_bind; [apply post_block_class |]. intros b2 Hb2.
    eapply post_bind; [apply (post_attn_class cfg fa out_dim dh hd Hflash) |]. intros a Ha.
    eapply post_bind with (P := fun r => wf_up_resample r (is_nil rest) in_dim out_dim).
    { destruct (i =? n - 1) eqn:Hlast; cbn [negb].
      - apply Nat.eqb_eq in Hlast. destruct rest as [| spec' rest']; [| cbn [length] in Hlen; lia].
        eapply post_bind; [apply post_Conv2d_init |]. intros c Hc. apply post_ret. exact Hc.
      - apply Nat.eqb_neq in Hlast. destruct rest as [| spec' rest']; [cbn [length] in Hlen; lia |].
        unfold upsample.
        eapply post_bind with (P := fun sq => wf_up_resample (ResampleSeq sq) false in_dim out_dim).
        { eapply post_bind; [apply post_Conv2d_init |]. intros c Hc.
          apply post_ret. exact Hc. }
        intros sq Hsq. apply post_ret. exact Hsq. }
    intros r Hr.
    eapply post_bind; [apply (IH (S i)); lia |]. intros stages Hstages.
    apply post_ret. cbn [wf_ups st_block1 st_block2 st_attn st_resample]. auto.
Qed.

Lemma post_last_item {A : Type} (l : list A) :
  post (last_item (Net := Net) l) (fun a => In a l).
Proof.
  unfold last_item. destruct (rev l) as [| a r] eqn:Hr.
  - apply post_raise.
  - apply post_ret. apply in_rev. rewrite Hr. left. reflexivity.
Qed.

Lemma Unet_specs_length (cfg : UnetConfig) :
  length (cast_tuple (uc_full_attn cfg) (length (uc_dim_mults cfg)))
  = length (uc_dim_mults cfg) ->
  valid_unet_config cfg ->
  length (Unet_specs cfg) = length (uc_dim_mults cfg).
Proof.
  intros Hfa (_ & _ & _ & _ & _ & _ & _ & _ & _ & Hh & Hd & _).
  unfold Unet_specs, Unet_dims. cbv zeta. cbn [tl].
  rewrite zip_specs_length, in_out_length, length_map.
  cbv zeta in Hh, Hd. rewrite Hfa, Hh, Hd. lia.
Qed.

Lemma post_Unet_init (cfg : UnetConfig) :
  valid_unet_config cfg ->
  post (Unet_init (Net := Net) cfg)
    (fun n => wf_Unet n cfg
              /\ length (cast_tuple (uc_full_attn cfg) (length (uc_dim_mults cfg)))
                 = length (uc_dim_mults cfg)).
Proof.
  intros Hvalid.
  pose proof Hvalid as (Hlearned & Hrandom & Hflash & _ & _ & _ & _ & _ & _ & Hh & Hd & _).
  unfold Unet_init. rewrite Hlearned, Hrandom. cbn [orb].
  eapply post_bind; [apply post_Conv2d_init |]. intros init_conv Hinit.
  eapply post_bind with
    (P := fun r => r = (MSinusoidalPosEmb (uc_dim cfg), uc_dim cfg));
    [apply post_ret; reflexivity |].
  intros [sinu fourier_dim] [= -> ->].
  eapply post_bind; [apply post_Linear_init |]. intros l1 Hl1.
  eapply post_bind; [apply post_Linear_init |]. intros l2 Hl2.
  eapply post_bind with
    (P := fun r => wf_optional_Conditioning (fst (fst r)) (uc_num_classes cfg) (uc_dim cfg)
                   /\ snd (fst r) = option_map (fun _ => uc_dim cfg * 4) (uc_num_classes cfg)).
  { destruct (uc_num_classes cfg) as [k |].
    - eapply post_bind; [apply post_Conditioning_init |]. intros cm Hcm.
      apply post_ret. cbn. auto.
    - apply post_ret. cbn. auto. }
  intros [[conditioning classes_dim] cdp] [Hc Hcd]. cbn [fst snd] in Hc, Hcd.
  assert (Hmlp : uc_dim cfg * 4 + default classes_dim 0
                 = uc_dim cfg * 4 + cond_embed_dim (uc_num_classes cfg) (uc_dim cfg)).
  { subst classes_dim. unfold cond_embed_dim. destruct (uc_num_classes cfg); reflexivity. }
  destruct (length (cast_tuple (uc_full_attn cfg) (length (uc_dim_mults cfg)))
            =? length (uc_dim_mults cfg)) eqn:Hfa.
  2: { eapply post_bind with (P := fun _ => False); [apply post_raise | intros _ []]. }
  apply Nat.eqb_eq in Hfa.
  eapply post_bind; [apply post_any |]. intros _ _.
  pose proof (Unet_specs_length cfg Hfa Hvalid) as Hlen.
  assert (Hio : length (combine (removelast (Unet_dims cfg)) (tl (Unet_dims cfg)))
                = length (uc_dim_mults cfg)).
  { unfold Unet_dims. cbn [tl]. now rewrite in_out_length, length_map. }
  eapply post_bind.
  { apply (post_Unet_init_downs cfg classes_dim _ (Unet_specs cfg) 0 Hflash).
    rewrite Hlen. symmetry. exact Hio. }
  intros downs Hdowns.
  eapply post_bind; [apply post_block_class |]. intros mid1 Hmid1.
  eapply post_bind; [apply post_last_item |]. intros mh Hmh.
  eapply post_bind; [apply post_last_item |]. intros mdh Hmdh.
  eapply post_bind; [apply (post_Attention_init _ _ _ _ Hflash) |]. intros mid_attn Hattn.
  eapply post_bind; [apply post_block_class |]. intros mid2 Hmid2.
  unfold Unet_dims in Hio.
  rewrite zip_specs_rev by (rewrite Hio; assumption).
  eapply post_bind.
  { apply (post_Unet_init_ups cfg classes_dim _ (rev (Unet_specs cfg)) 0 Hflash).
    rewrite length_rev, Hlen. symmetry. exact Hio. }
  intros ups Hups.
  eapply post_bind; [apply post_block_class |]. intros final_res Hfinal.
  eapply post_bind; [apply post_Conv2d_init |]. intros final_conv Hfc.
  apply post_ret. split; [| exact Hfa].
  unfold wf_Unet. cbv zeta.
  cbn [u_init_conv u_time_mlp u_conditioning u_downs u_ups u_mid_block1 u_mid_attn
       u_mid_block2 u_final_res_block u_final_conv].
  rewrite <- Hmlp.
  repeat match goal with |- _ /\ _ => split end; try assumption; try reflexivity.
  exists mh, mdh. auto.
Qed.

End PostImage.

(** ** Total correctness of the image network *)

Lemma stack_shapes_snoc (l : list StageSpec) (b h w i o : nat) (fa : bool) (hd dh : nat) :
  stack_shapes b h w (l ++ [(i, o, fa, hd, dh)])
  = stack_shapes b h w l
    ++ [[b; i; h * 2 ^ length l; w * 2 ^ length l];
        [b; i; h * 2 ^ length l; w * 2 ^ length l]].
Proof.
  revert h w. induction l as [| [[[[i' o'] f'] hd'] dh'] l IH]; intros h w.
  - cbn [app stack_shapes length]. rewrite Nat.pow_0_r, !Nat.mul_1_r. reflexivity.
  - cbn [app stack_shapes length]. rewrite IH.
    replace (2 * h * 2 ^ length l) with (h * 2 ^ S (length l))
      by (rewrite Nat.pow_succ_r'; ring).
    replace (2 * w * 2 ^ length l) with (w * 2 ^ S (length l))
      by (rewrite Nat.pow_succ_r'; ring).
    reflexivity.
Qed.

Lemma scaled_positive (h k : nat) : 1 <= h -> 1 <= h * 2 ^ k.
Proof.
  intros Hh. pose proof (Nat.pow_lower_bound 2 k). nia.
Qed.

Lemma scaled_nondegenerate (b h w k : nat) :
  1 < b * (h * w) -> 1 < b * (h * 2 ^ k * (w * 2 ^ k)).
Proof.
  intros H. pose proof (scaled_positive 1 k (le_n 1)) as Hp. rewrite Nat.mul_1_l in Hp.
  generalize dependent (2 ^ k). intros q Hq.
  assert (Hhq : h <= h * q) by nia. assert (Hwq : w <= w * q) by nia.
  pose proof (Nat.mul_le_mono _ _ _ _ Hhq Hwq) as Hm.
  pose proof (Nat.mul_le_mono_l _ _ b Hm). lia.
Qed.

Section TotalUnet.
Context {T : Torch}.
Variable n0 : Unet.

Lemma total_h_append (h : list Tensor) (x : Tensor) :
  total n0 (h_append h x) (fun h' => h' = x :: h).
Proof.
  unfold h_append. eapply spec_bind with (P := fun _ => True); [apply spec_log; exact I |].
  intros _ _. apply spec_ret. reflexivity.
Qed.

Lemma total_h_pop (h : list Tensor) (x : Tensor) (h' : list Tensor) :
  h = x :: h' -> total n0 (h_pop h) (fun r => r = (x, h')).
Proof.
  intros ->. unfold h_pop.
  eapply spec_bind with (P := fun _ => True); [apply spec_log; exact I |].
  intros _ _. apply spec_ret. reflexivity.
Qed.

Variables (time : Tensor) (c : option Tensor) (B td cd : nat).
Hypothesis Htime : shape time = [B; td].
Hypothesis Hcond : has_cond_shape c B cd.

(** The encoder loop: from resolution [h * 2 ^ (stages - 1)] down to [h],
    two feature maps pushed per stage. *)
Lemma total_Unet_downs (stages : list Stage) (specs : list StageSpec) (x : Tensor)
  (h0 : list Tensor) (i o_final h w : nat) :
  wf_downs stages specs (td + cd) -> chained i specs o_final -> heads_ok specs ->
  1 <= h -> 1 <= w -> 1 < B * (h * w) ->
  shape x = [B; i; h * 2 ^ (length specs - 1); w * 2 ^ (length specs - 1)] ->
  total n0 (Unet_downs stages x time c h0)
    (fun r => shape (fst r) = [B; o_final; h; w]
              /\ map shape (snd r) = stack_shapes B h w (rev specs) ++ map shape h0).
Proof.
  intros Hwf Hch Hok Hh Hw Hn. revert specs x h0 i Hwf Hch Hok.
  induction stages as [| stage stages IH];
    intros [| [[[[i' o] fa] hd] dh] specs] x h0 i Hwf Hch Hok Hx;
    cbn [wf_downs] in Hwf; try contradiction.
  - cbn [chained] in Hch. subst o_final.
    cbn [length Nat.sub] in Hx. rewrite Nat.pow_0_r, !Nat.mul_1_r in Hx.
    apply spec_ret. cbn. auto.
  - destruct Hwf as (Hb1 & Hb2 & Hattn & Hres & Hrest).
    destruct Hch as [-> Hch].
    pose proof (Forall_inv Hok) as [Hhd Hdh]. pose proof (Forall_inv_tail Hok) as Hok'.
    cbn [length] in Hx. rewrite Nat.sub_succ, Nat.sub_0_r in Hx.
    set (H := h * 2 ^ length specs) in *. set (W := w * 2 ^ length specs) in *.
    assert (HH : 1 <= H) by (apply scaled_positive; exact Hh).
    assert (HW : 1 <= W) by (apply scaled_positive; exact Hw).
    assert (HN : 1 < B * (H * W)) by (apply scaled_nondegenerate; exact Hn).
    cbn [Unet_downs].
    eapply spec_bind.
    { apply (total_ResnetBlock_forward n0 _ x time c B i i td cd H W Hb1 Hx HH HW HN
               Htime Hcond). }
    intros x1 Hx1.
    eapply spec_bind; [apply total_h_append |]. intros h1 ->.
    eapply spec_bind.
    { apply (total_ResnetBlock_forward n0 _ x1 time c B i i td cd H W Hb2 Hx1 HH HW HN
               Htime Hcond). }
    intros x2 Hx2.
    eapply spec_bind.
    { apply (total_AttnModule_forward n0 _ fa x2 B i hd dh H W Hattn Hhd Hdh Hx2 HH HW). }
    intros a Ha.
    eapply spec_bind with (P := fun y => shape y = [B; i; H; W]).
    { apply total_lift. eapply yields_weaken; [apply yields_binary_same; congruence |].
      intros y Hy. congruence. }
    intros x3 Hx3.
    eapply spec_bind; [apply total_h_append |]. intros h2 ->.
    set (H' := h * 2 ^ (length specs - 1)). set (W' := w * 2 ^ (length specs - 1)).
    eapply spec_bind with (P := fun y => shape y = [B; o; H'; W']).
    { apply (total_down_resample n0 _ (is_nil specs) x3 B i o H' W' Hres).
      - apply scaled_positive; exact Hh.
      - apply scaled_positive; exact Hw.
      - rewrite Hx3. subst H W H' W'. destruct specs as [| spec' specs']; cbn [is_nil length].
        + reflexivity.
        + rewrite Nat.sub_succ, Nat.sub_0_r, Nat.pow_succ_r'.
          f_equal. f_equal. f_equal; [ring | f_equal; ring]. }
    intros x4 Hx4.
    eapply spec_weaken; [apply (IH specs x4 (x3 :: x1 :: h0) o Hrest Hch Hok' Hx4) |].
    intros [y hs] [Hy Hhs]. cbn [fst snd] in *. split; [exact Hy |].
    rewrite Hhs. cbn [rev map]. rewrite stack_shapes_snoc, length_rev, <- app_assoc.
    rewrite Hx3, Hx1. reflexivity.
Qed.

(** The decoder loop: from resolution [h] up to [h * 2 ^ (stages - 1)],
    two feature maps popped per stage. *)
Lemma total_Unet_ups (stages : list Stage) (rspecs : list StageSpec) (x : Tensor)
  (hs : list Tensor) (tail : list (list nat)) (o i_final h w : nat) :
  wf_ups stages rspecs (td + cd) -> rchained o rspecs i_final -> heads_ok rspecs ->
  1 <= h -> 1 <= w -> 1 < B * (h * w) ->
  shape x = [B; o; h; w] ->
  map shape hs = stack_shapes B h w rspecs ++ tail ->
  total n0 (Unet_ups stages x time c hs)
    (fun r => shape (fst r)
              = [B; i_final; h * 2 ^ (length rspecs - 1); w * 2 ^ (length rspecs - 1)]
              /\ map shape (snd r) = tail).
Proof.
  revert rspecs x hs o h w.
  induction stages as [| stage stages IH];
    intros [| [[[[i o'] fa] hd] dh] rspecs] x hs o h w Hwf Hch Hok Hh Hw Hn Hx Hhs;
    cbn [wf_ups] in Hwf; try contradiction.
  - cbn [rchained] in Hch. subst i_final.
    cbn [length Nat.sub]. rewrite Nat.pow_0_r, !Nat.mul_1_r.
    apply spec_ret. cbn. auto.
  - destruct Hwf as (Hb1 & Hb2 & Hattn & Hres & Hrest).
    destruct Hch as [-> Hch].
    pose proof (Forall_inv Hok) as [Hhd Hdh]. pose proof (Forall_inv_tail Hok) as Hok'.
    cbn [stack_shapes app] in Hhs.
    destruct hs as [| s1 [| s2 hs']]; try discriminate.
    cbn [map] in Hhs. injection Hhs as Hs1 Hs2 Hhs'.
    cbn [Unet_ups].
    eapply spec_bind; [apply (total_h_pop (s1 :: s2 :: hs') s1 (s2 :: hs') eq_refl) |].
    intros ? ->.
    eapply spec_bind; [apply total_lift, (yields_cat_channels x s1 B o i h w Hx Hs1) |].
    intros x1 Hx1.
    eapply spec_bind.
    { apply (total_ResnetBlock_forward n0 _ x1 time c B (o + i) o td cd h w Hb1 Hx1 Hh Hw Hn
               Htime Hcond). }
    intros x2 Hx2.
    eapply spec_bind; [apply (total_h_pop (s2 :: hs') s2 hs' eq_refl) |].
    intros ? ->.
    eapply spec_bind; [apply total_lift, (yields_cat_channels x2 s2 B o i h w Hx2 Hs2) |].
    intros x3 Hx3.
    eapply spec_bind.
    { apply (total_ResnetBlock_forward n0 _ x3 time c B (o + i) o td cd h w Hb2 Hx3 Hh Hw Hn
               Htime Hcond). }
    intros x4 Hx4.
    eapply spec_bind.
    { apply (total_AttnModule_forward n0 _ fa x4 B o hd dh h w Hattn Hhd Hdh Hx4 Hh Hw). }
    intros a Ha.
    eapply spec_bind with (P := fun y => shape y = [B; o; h; w]).
    { apply total_lift. eapply yields_weaken; [apply yields_binary_same; congruence |].
      intros y Hy. congruence. }
    intros x5 Hx5.
    eapply spec_bind.
    { apply (total_up_resample n0 _ (is_nil rspecs) x5 B i o h w Hres Hh Hw Hx5). }
    intros x6 Hx6.
    destruct rspecs as [| spec' rspecs']; cbn [is_nil] in Hx6.
    + destruct stages; cbn [wf_ups] in Hrest; [| contradiction].
      cbn [rchained] in Hch. subst i_final.
      cbn [length Nat.sub Unet_ups]. rewrite Nat.pow_0_r, !Nat.mul_1_r.
      apply spec_ret. cbn [fst snd]. split; [exact Hx6 | exact Hhs'].
    + eapply spec_weaken.
      { apply (IH (spec' :: rspecs') x6 hs' i (2 * h) (2 * w) Hrest Hch Hok');
          try lia; try nia; [exact Hx6 | exact Hhs']. }
      intros [y hs2] [Hy Hhs2]. cbn [fst snd] in *. split; [| exact Hhs2].
      rewrite Hy. cbn [length]. rewrite !Nat.sub_succ, !Nat.sub_0_r, Nat.pow_succ_r'.
      f_equal. f_equal. f_equal; [ring | f_equal; ring].
Qed.

End TotalUnet.

Section TotalUnetForward.
Context {T : Torch}.
Variable n0 : Unet.

(** [SinusoidalPosEmb(dim)] on one time per sample. *)
Lemma total_SinusoidalPosEmb_forward (dim : nat) (x : Tensor) (b : nat) :
  dim mod 2 = 0 -> 4 <= dim -> shape x = [b] ->
  total n0 (SinusoidalPosEmb_forward dim x) (fun y => shape y = [b; dim]).
Proof.
  intros Hev Hdim Hx. unfold SinusoidalPosEmb_forward.
  eapply spec_bind; [apply total_enter | intros _ _].
  assert (Hhalf : 2 <= dim / 2) by (apply Nat.div_le_lower_bound; lia).
  destruct (dim / 2 =? 1) eqn:H1; [apply Nat.eqb_eq in H1; lia |].
  eapply spec_bind with (P := fun _ => True); [apply spec_ret; exact I |]. intros _ _.
  eapply spec_bind; [apply total_lift, (yields_unsqueeze1 x b Hx) |]. intros a Ha.
  eapply spec_bind.
  { apply total_lift. apply (yields_unsqueeze0 _ (dim / 2)). reflexivity. }
  intros e He.
  eapply spec_bind; [apply total_lift, (yields_binary_outer "mul" a e b _ Ha He) |].
  intros emb Hemb. apply total_lift.
  eapply yields_weaken.
  { apply (yields_cat_last _ _ b (dim / 2) (dim / 2)); exact Hemb. }
  intros y Hy. rewrite Hy. f_equal. f_equal.
  pose proof (Nat.div_mod_eq dim 2). lia.
Qed.

Variable cfg : UnetConfig.
Hypothesis Hwf : wf_Unet n0 cfg.
Hypothesis Hvalid : valid_unet_config cfg.
Hypothesis Hfa :
  length (cast_tuple (uc_full_attn cfg) (length (uc_dim_mults cfg)))
  = length (uc_dim_mults cfg).

(** The time MLP of [Unet.forward] (line 833). *)
Lemma total_Unet_time (t1 : Tensor) (b : nat) :
  shape t1 = [b] ->
  total n0 (Sequential_forward (u_time_mlp n0) t1)
    (fun t => shape t = [b; uc_dim cfg * 4]).
Proof.
  intros Ht1. destruct Hwf as (_ & Htime & _).
  destruct Hvalid as (_ & _ & _ & Hev & Hdim & _).
  destruct (u_time_mlp n0)
    as [| [| | | d | | | | |] [| [l1 | | | | | | | |] [| [] [| [l2 | | | | | | | |] [|]]]]];
    try contradiction.
  destruct Htime as (-> & H1 & H2).
  unfold Sequential_forward.
  eapply spec_bind; [apply total_enter | intros _ _].
  cbn [Sequential_run Module_forward].
  eapply spec_bind; [apply (total_SinusoidalPosEmb_forward _ t1 b Hev Hdim Ht1) |].
  intros t2 Ht2.
  eapply spec_bind; [apply (total_Linear_forward n0 l1 t2 b _ _ H1 Ht2) |]. intros t3 Ht3.
  eapply spec_bind; [apply total_GELU_forward |]. intros t4 Ht4.
  eapply spec_bind; [apply (total_Linear_forward n0 l2 t4 b _ _ H2); congruence |].
  intros t5 Ht5. apply spec_ret. exact Ht5.
Qed.

Lemma wf_downs_length (stages : list Stage) (specs : list StageSpec) (m : nat) :
  wf_downs stages specs m -> length stages = length specs.
Proof.
  revert specs. induction stages as [| s stages IH];
    intros [| [[[[i o] fa] hd] dh] specs] H; cbn [wf_downs] in H; try contradiction.
  - reflexivity.
  - cbn [length]. f_equal. apply IH. tauto.
Qed.

Lemma Unet_specs_chained :
  chained (uc_dim cfg) (Unet_specs cfg)
    (last (Unet_dims cfg) (default (uc_init_dim cfg) (uc_dim cfg))).
Proof.
  pose proof Hvalid as (_ & _ & _ & _ & _ & Hinit & _ & _ & _ & Hh & Hd & _).
  cbv zeta in Hh, Hd.
  unfold Unet_specs, Unet_dims. cbv zeta. cbn [tl]. rewrite Hinit.
  apply in_out_chained; rewrite length_map; assumption.
Qed.

Lemma Unet_specs_heads_ok : heads_ok (Unet_specs cfg).
Proof.
  pose proof Hvalid as (_ & _ & _ & _ & _ & _ & _ & _ & _ & _ & _ & Hh & Hd).
  unfold Unet_specs. cbv zeta. apply zip_specs_heads_ok; assumption.
Qed.

(** [Unet.forward] on a valid input returns a tensor of the batch size and
    resolution of the input with [out_dim] channels, and leaves the skip
    stack empty. *)
Lemma total_Unet_forward_stack (x time : Tensor) (classes : option LongTensor)
  (p : option Q) (B h w : nat) :
  let k := length (uc_dim_mults cfg) - 1 in
  shape x = [B; uc_channels cfg; 2 ^ k * h; 2 ^ k * w] ->
  1 < B * (h * w) ->
  valid_time B time -> valid_cond (uc_num_classes cfg) B classes ->
  total n0 (Unet_forward_stack x time classes p)
    (fun r => shape (fst r)
              = [B; default (uc_out_dim cfg) (uc_channels cfg); 2 ^ k * h; 2 ^ k * w]
              /\ snd r = []).
Proof.
  intros k Hx Hn Hvt Hvc.
  assert (Hh : 1 <= h) by nia. assert (Hw : 1 <= w) by nia.
  pose proof Hwf as (Hinit & _ & Hcond & Hdowns & Hmid1 & (mh & mdh & Hmh & Hmdh & Hattn)
                     & Hmid2 & Hups & Hfinal & Hfc).
  pose proof Hvalid as (_ & _ & _ & _ & _ & Hinit_dim & _ & _ & _ & _ & _ & Hheads & Hdhs).
  cbv zeta in Hheads, Hdhs. rewrite Hinit_dim in *.
  pose proof (Unet_specs_length cfg Hfa Hvalid) as Hlen.
  pose proof (wf_downs_length _ _ _ Hdowns) as Hdl. rewrite Hlen in Hdl.
  set (H := 2 ^ k * h) in *. set (W := 2 ^ k * w) in *.
  assert (HH : H = h * 2 ^ k) by apply Nat.mul_comm.
  assert (HW : W = w * 2 ^ k) by apply Nat.mul_comm.
  assert (HH1 : 1 <= H) by (rewrite HH; apply scaled_positive; exact Hh).
  assert (HW1 : 1 <= W) by (rewrite HW; apply scaled_positive; exact Hw).
  assert (HN : 1 < B * (H * W)) by (rewrite HH, HW; apply scaled_nondegenerate; exact Hn).
  unfold Unet_forward_stack.
  eapply spec_bind; [apply spec_get_self |]. intros self ->.
  unfold shape0. rewrite Hx.
  eapply spec_bind with (P := fun n => n = B); [apply total_lift; reflexivity |].
  intros ? ->.
  eapply spec_bind with
    (P := fun c => has_cond_shape c B (cond_embed_dim (uc_num_classes cfg) (uc_dim cfg))).
  { unfold Unet_conditioning. unfold wf_optional_Conditioning in Hcond.
    destruct (u_conditioning n0) as [cm |], (uc_num_classes cfg) as [nc |];
      try contradiction.
    - eapply spec_bind.
      { apply (total_class_conditioning n0 cm _ B nc (uc_dim cfg) classes p Hcond Hvc). }
      intros c Hc. apply spec_ret. exact Hc.
    - apply spec_ret. reflexivity. }
  intros c Hc.
  unfold Unet_main.
  assert (Hdiv : forallb (divisible_by_factor (length (u_downs n0))) (last2 (shape x))
                 = true).
  { rewrite Hx, Hdl. change (last2 [B; uc_channels cfg; H; W]) with [H; W].
    subst k. destruct (length (uc_dim_mults cfg)) as [| m]; [reflexivity |].
    cbn [forallb divisible_by_factor]. rewrite Nat.sub_succ, Nat.sub_0_r in HH, HW.
    rewrite HH, HW, !Nat.Div0.mod_mul. reflexivity. }
  rewrite Hdiv.
  eapply spec_bind with (P := fun _ => True); [apply spec_ret; exact I |]. intros _ _.
  eapply spec_bind.
  { apply (total_Conv2d_forward n0 _ x B _ _ 3 H W Hinit Hx HH1 HW1). }
  intros x0 Hx0.
  eapply spec_bind.
  { apply (total_Unet_time _ B). apply expanded_time_shape. exact Hvt. }
  intros t Ht.
  pose proof Unet_specs_chained as Hch.
  unfold Unet_dims in Hch, Hmid1, Hmid2, Hattn.
  rewrite ?Hinit_dim in Hch, Hmid1, Hmid2, Hattn.
  set (mid_dim := last (uc_dim cfg :: map (fun m => uc_dim cfg * m) (uc_dim_mults cfg))
                    (uc_dim cfg)) in *.
  eapply spec_bind.
  { apply (total_Unet_downs n0 t c B _ _ Ht Hc (u_downs n0) (Unet_specs cfg) x0 []
             (uc_dim cfg) mid_dim h w Hdowns Hch Unet_specs_heads_ok Hh Hw Hn).
    rewrite Hlen. fold k. rewrite <- HH, <- HW. exact Hx0. }
  intros [x1 hs] [Hx1 Hhs]. cbn [fst snd map] in Hx1, Hhs. rewrite app_nil_r in Hhs.
  assert (Hmh1 : 1 <= mh) by (eapply Forall_forall in Hheads; eauto).
  assert (Hmdh1 : 1 <= mdh) by (eapply Forall_forall in Hdhs; eauto).
  eapply spec_bind.
  { apply (total_ResnetBlock_forward n0 _ x1 t c B mid_dim mid_dim _ _ h w Hmid1 Hx1 Hh Hw Hn
             Ht Hc). }
  intros x2 Hx2.
  eapply spec_bind.
  { apply (total_Attention_forward n0 _ x2 B mid_dim mh mdh h w Hattn Hmh1 Hmdh1 Hx2 Hh Hw). }
  intros a Ha.
  eapply spec_bind with (P := fun y => shape y = [B; mid_dim; h; w]).
  { apply total_lift. eapply yields_weaken; [apply yields_binary_same; congruence |].
    intros y Hy. congruence. }
  intros x3 Hx3.
  eapply spec_bind.
  { apply (total_ResnetBlock_forward n0 _ x3 t c B mid_dim mid_dim _ _ h w Hmid2 Hx3 Hh Hw Hn
             Ht Hc). }
  intros x4 Hx4.
  eapply spec_bind.
  { apply (total_Unet_ups n0 t c B _ _ Ht Hc (u_ups n0) (rev (Unet_specs cfg)) x4 hs []
             mid_dim (uc_dim cfg) h w Hups).
    - apply chained_rev, Hch.
    - apply Forall_rev, Unet_specs_heads_ok.
    - exact Hh.
    - exact Hw.
    - exact Hn.
    - exact Hx4.
    - rewrite app_nil_r. exact Hhs. }
  intros [x5 hs'] [Hx5 Hhs']. cbn [fst snd] in Hx5, Hhs'.
  rewrite length_rev, Hlen in Hx5. fold k in Hx5. rewrite <- HH, <- HW in Hx5.
  eapply spec_bind.
  { apply total_lift.
    apply (yields_cat_channels x5 (clone x0) B (uc_dim cfg) (uc_dim cfg) H W Hx5).
    exact Hx0. }
  intros x6 Hx6.
  replace (uc_dim cfg + uc_dim cfg) with (uc_dim cfg * 2) in Hx6 by lia.
  eapply spec_bind.
  { apply (total_ResnetBlock_forward n0 _ x6 t c B _ _ _ _ H W Hfinal Hx6 HH1 HW1 HN Ht Hc). }
  intros x7 Hx7.
  eapply spec_bind.
  { apply (total_Conv2d_forward n0 _ x7 B _ _ 0 H W Hfc Hx7 HH1 HW1). }
  intros x8 Hx8. apply spec_ret. cbn [fst snd]. split; [exact Hx8 |].
  destruct hs'; [reflexivity | discriminate].
Qed.

Lemma total_Unet_forward (x time : Tensor) (classes : option LongTensor)
  (p : option Q) (B h w : nat) :
  let k := length (uc_dim_mults cfg) - 1 in
  shape x = [B; uc_channels cfg; 2 ^ k * h; 2 ^ k * w] ->
  1 < B * (h * w) ->
  valid_time B time -> valid_cond (uc_num_classes cfg) B classes ->
  total n0 (Unet_forward x time classes p)
    (fun y => shape y
              = [B; default (uc_out_dim cfg) (uc_channels cfg); 2 ^ k * h; 2 ^ k * w]).
Proof.
  intros k Hx Hn Hvt Hvc. unfold Unet_forward.
  eapply spec_bind.
  { apply (total_Unet_forward_stack x time classes p B h w Hx Hn Hvt Hvc). }
  intros [y hs] [Hy _]. apply spec_ret. exact Hy.
Qed.

End TotalUnetForward.

(** ** Label shapes *)

Section LabelShapes.
Context {T : Torch}.

Lemma conditional_Unet (n : Unet) :
  is_conditional_model n = true -> exists cm, u_conditioning n = Some cm.
Proof.
  unfold is_conditional_model. cbn [cond_dim_of Unet_BFNetwork].
  destruct (u_conditioning n) as [cm |]; [eauto | discriminate].
Qed.

Lemma conditional_LinearNetwork (n : LinearNetwork) :
  is_conditional_model n = true -> exists cm, ln_conditioning n = Some cm.
Proof.
  unfold is_conditional_model. cbn [cond_dim_of LinearNetwork_BFNetwork].
  destruct (ln_conditioning n) as [cm |]; [eauto | discriminate].
Qed.

Lemma Unet_forward_bad_rank (x time : Tensor) (l : LongTensor) (p : option Q)
  (st : State Unet) (B : nat) (rest : list nat) :
  shape x = B :: rest -> is_conditional_model (net st) = true -> bad_label_rank l ->
  Unet_forward x time (Some l) p st
  = (Raise (ValueError (class_shape_message B (lshape l))), st).
Proof.
  intros Hx Hcond Hbad. destruct (conditional_Unet _ Hcond) as [cm Hcm].
  unfold Unet_forward, Unet_forward_stack.
  rewrite bind_assoc, bind_get_self. unfold shape0. rewrite Hx.
  rewrite bind_assoc, bind_lift_Ok, bind_assoc.
  unfold Unet_conditioning. rewrite Hcm. rewrite bind_assoc.
  unfold bind at 1. rewrite class_conditioning_bad_rank by exact Hbad. reflexivity.
Qed.

Lemma LinearNetwork_forward_bad_rank (cfg : LinearNetworkConfig) (x time : Tensor)
  (l : LongTensor) (p : option Q) (st : State LinearNetwork) (B : nat) (rest : list nat) :
  wf_LinearNetwork (net st) cfg ->
  shape x = B :: rest -> valid_time B time ->
  is_conditional_model (net st) = true -> bad_label_rank l ->
  exists st',
    LinearNetwork_forward x time (Some l) p st
    = (Raise (ValueError (class_shape_message B (lshape l))), st').
Proof.
  intros Hwf Hx Hvt Hcond Hbad. destruct (conditional_LinearNetwork _ Hcond) as [cm Hcm].
  unfold LinearNetwork_forward.
  rewrite bind_get_self. unfold shape0. rewrite Hx. rewrite bind_lift_Ok.
  destruct (yields_Ok _ _ (yields_unsqueeze1 _ B (expanded_time_shape time B Hvt)))
    as (t1 & E1 & Ht1).
  rewrite E1, bind_lift_Ok.
  destruct (total_returns _ _ st (total_LinearNetwork_time (net st) cfg t1 B Hwf Ht1))
    as (t & st1 & E & _).
  rewrite (bind_Ok _ E). rewrite Hcm. rewrite bind_assoc.
  unfold bind at 1. rewrite class_conditioning_bad_rank by exact Hbad.
  exists st1. reflexivity.
Qed.

End LabelShapes.

(** ** The claims on shapes *)

(** C1, as amended.  For every configuration [LinearNetwork.__init__]
    accepts and every valid input (data [(B, dim)], one time per sample or
    a single time, valid labels or none), [LinearNetwork.forward] returns a
    tensor of the shape of the data.  For every valid configuration
    [Unet.__init__] accepts and every valid input (data [(B, channels, H,
    W)] with [H] and [W] multiples of [2 ^ (stages - 1)] and more than one
    value per channel at the lowest resolution), [Unet.forward] returns a
    tensor [(B, out_dim, H, W)], where [out_dim] defaults to [channels]:
    the shape of the data exactly when [out_dim] is left at [channels].
    A valid configuration ([valid_unet_config]) has the default sinusoidal
    time embedding, an even [dim] of at least four, [init_dim] unset or
    equal to [dim], at least one input and one output channel, positive
    multipliers, and one head count and one head dimension per stage, each
    at least one; flash attention is covered, on a platform on which
    [F.scaled_dot_product_attention] has a kernel for the device. *)
Theorem forward_keeps_the_shape_of_valid_input :
  forall (T : Torch) (Net : Type),
    (forall (cfg : LinearNetworkConfig) (st0 st1 : State Net) (st : State LinearNetwork)
            (x time : Tensor) (cond : option LongTensor) (p : option Q) (B : nat),
        LinearNetwork_init cfg st0 = (Ok (net st), st1) ->
        shape x = [B; lc_dim cfg] ->
        valid_time B time ->
        valid_cond (lc_cond_dim cfg) B cond ->
        exists y st',
          LinearNetwork_forward x time cond p st = (Ok y, st') /\ shape y = shape x)
    /\ (forall (cfg : UnetConfig) (st0 st1 : State Net) (st : State Unet)
               (x time : Tensor) (classes : option LongTensor) (p : option Q)
               (B h w : nat),
        Unet_init cfg st0 = (Ok (net st), st1) ->
        valid_unet_config cfg ->
        shape x = [B; uc_channels cfg;
                   2 ^ (length (uc_dim_mults cfg) - 1) * h;
                   2 ^ (length (uc_dim_mults cfg) - 1) * w] ->
        1 < B * (h * w) ->
        valid_time B time ->
        valid_cond (uc_num_classes cfg) B classes ->
        exists y st',
          Unet_forward x time classes p st = (Ok y, st')
          /\ shape y = [B; default (uc_out_dim cfg) (uc_channels cfg);
                        2 ^ (length (uc_dim_mults cfg) - 1) * h;
                        2 ^ (length (uc_dim_mults cfg) - 1) * w]
          /\ (default (uc_out_dim cfg) (uc_channels cfg) = uc_channels cfg ->
              shape y = shape x)).
Proof.
  intros T Net. split.
  - intros cfg st0 st1 st x time cond p B Hinit Hx Hvt Hvc.
    pose proof (post_LinearNetwork_init cfg st0 _ st1 Hinit) as Hwf. cbv beta in Hwf.
    destruct (total_returns _ _ st
                (total_LinearNetwork_forward (net st) cfg x time cond p B Hwf Hx Hvt Hvc))
      as (y & st' & E & Hy).
    exists y, st'. split; [exact E | congruence].
  - intros cfg st0 st1 st x time classes p B h w Hinit Hvalid Hx Hn Hvt Hvc.
    pose proof (post_Unet_init cfg Hvalid st0 _ st1 Hinit) as [Hwf Hfa].
    destruct (total_returns _ _ st
                (total_Unet_forward (net st) cfg Hwf Hvalid Hfa x time classes p B h w
                   Hx Hn Hvt Hvc))
      as (y & st' & E & Hy).
    exists y, st'. split; [exact E |]. split; [exact Hy |].
    intros Hout. rewrite Hy, Hx, Hout. reflexivity.
Qed.

(** C6.  For both networks, a label tensor of shape [(n, 1)] is squeezed:
    the call ends as the call on the tensor of shape [(n,)] with the same
    values does, with the same result and the same state.  A label tensor
    of another rank above one makes a conditional network fail with the
    [ValueError] that names the expected shape [(B,)]: the image network at
    once, with the state untouched, the vector network after its time
    MLP. *)
Theorem label_shapes_are_normalised :
  forall (T : Torch) (x time : Tensor) (p : option Q),
    (forall (n : nat) (data : list Z),
        (forall st : State LinearNetwork,
            LinearNetwork_forward x time (Some (mkLong [n; 1] data)) p st
            = LinearNetwork_forward x time (Some (mkLong [n] data)) p st)
        /\ (forall st : State Unet,
            Unet_forward x time (Some (mkLong [n; 1] data)) p st
            = Unet_forward x time (Some (mkLong [n] data)) p st))
    /\ (forall (l : LongTensor) (B : nat) (rest : list nat),
        bad_label_rank l ->
        shape x = B :: rest ->
        (forall st : State Unet,
            is_conditional_model (net st) = true ->
            Unet_forward x time (Some l) p st
            = (Raise (ValueError (class_shape_message B (lshape l))), st))
        /\ (forall (Net : Type) (cfg : LinearNetworkConfig) (st0 st1 : State Net)
                   (st : State LinearNetwork),
            LinearNetwork_init cfg st0 = (Ok (net st), st1) ->
            is_conditional_model (net st) = true ->
            valid_time B time ->
            exists st',
              LinearNetwork_forward x time (Some l) p st
              = (Raise (ValueError (class_shape_message B (lshape l))), st'))).
Proof.
  intros T x time p. split.
  - intros n data. split; intros st; reflexivity.
  - intros l B rest Hbad Hx. split.
    + intros st Hcond. apply (Unet_forward_bad_rank x time l p st B rest Hx Hcond Hbad).
    + intros Net cfg st0 st1 st Hinit Hcond Hvt.
      pose proof (post_LinearNetwork_init cfg st0 _ st1 Hinit) as Hwf. cbv beta in Hwf.
      apply (LinearNetwork_forward_bad_rank cfg x time l p st B rest Hwf Hx Hvt Hcond Hbad).
Qed.

(** C7.  For every stage configuration [Unet.__init__] accepts, the network
    has as many decoder stages as encoder stages.  The encoder pass grows
    the skip stack by two feature maps per stage and the decoder pass
    shrinks it by two per stage, so a forward evaluation never pops from
    an empty stack, and one that returns ends with an empty stack.  On a
    valid input of a valid configuration the evaluation does return, with
    the stack empty. *)
Theorem skip_stack_is_balanced :
  forall (T : Torch) (Net : Type) (cfg : UnetConfig) (st0 st1 : State Net) (n : Unet),
    Unet_init cfg st0 = (Ok n, st1) ->
    length (u_ups n) = length (u_downs n)
    /\ (forall (x time : Tensor) (classes : option LongTensor) (p : option Q)
               (c : option Tensor) (h : list Tensor) (st : State Unet),
        net st = n ->
        (forall y h' st', Unet_downs (u_downs n) x time c h st = (Ok (y, h'), st') ->
                          length h' = 2 * length (u_downs n) + length h)
        /\ (forall y h' st', Unet_ups (u_ups n) x time c h st = (Ok (y, h'), st') ->
                             length h' + 2 * length (u_ups n) = length h)
        /\ (forall st', Unet_forward_stack x time classes p st
                        <> (Raise (IndexError pop_message), st'))
        /\ (forall st', Unet_forward x time classes p st
                        <> (Raise (IndexError pop_message), st'))
        /\ (forall y h' st', Unet_forward_stack x time classes p st = (Ok (y, h'), st') ->
                             h' = []))
    /\ (valid_unet_config cfg ->
        forall (x time : Tensor) (classes : option LongTensor) (p : option Q)
               (B h w : nat) (st : State Unet),
          net st = n ->
          shape x = [B; uc_channels cfg;
                     2 ^ (length (uc_dim_mults cfg) - 1) * h;
                     2 ^ (length (uc_dim_mults cfg) - 1) * w] ->
          1 < B * (h * w) ->
          valid_time B time ->
          valid_cond (uc_num_classes cfg) B classes ->
          exists y st', Unet_forward_stack x time classes p st = (Ok (y, []), st')).
Proof.
  intros T Net cfg st0 st1 n Hinit.
  pose proof (Unet_init_lengths cfg st0 n st1 Hinit) as Hlen. cbv beta in Hlen.
  split; [exact Hlen |]. split.
  - intros x time classes p c h st Hn. subst n.
    destruct (Unet_forward_stack_balanced x time classes p st Hlen) as [Hpop Hempty].
    repeat split.
    + intros y h' st' Hr.
      assert (Hs : spec (fun _ => True) (net st) (Unet_downs (u_downs (net st)) x time c h)
                     (fun r => length (snd r) = 2 * length (u_downs (net st)) + length h))
        by (apply lax_Unet_downs; intros; exact I).
      exact (spec_Ok _ _ _ _ _ _ Hs Hr).
    + intros y h' st' Hr.
      assert (Hs : spec (fun _ => True) (net st) (Unet_ups (u_ups (net st)) x time c h)
                     (fun r => length (snd r) + 2 * length (u_ups (net st)) = length h))
        by (apply lax_Unet_ups; [intros; exact I | left; exact I]).
      exact (spec_Ok _ _ _ _ _ _ Hs Hr).
    + exact Hpop.
    + intros st' Hr. unfold Unet_forward in Hr. unfold bind in Hr.
      destruct (Unet_forward_stack x time classes p st) as [[[y h'] | e] st2] eqn:Hf.
      * discriminate.
      * injection Hr as -> ->. exact (Hpop _ eq_refl).
    + exact Hempty.
  - intros Hvalid x time classes p B h w st Hn Hx HB Hvt Hvc. subst n.
    pose proof (post_Unet_init cfg Hvalid st0 _ st1 Hinit) as [Hwf Hfa].
    destruct (total_returns _ _ st
                (total_Unet_forward_stack (net st) cfg Hwf Hvalid Hfa x time classes p B h w
                   Hx HB Hvt Hvc))
      as ([y hs] & st' & E & _ & Hhs).
    cbn [snd] in Hhs. subst hs. exists y, st'. exact E.
Qed.

(** ** Two passes through the vector network *)

(** Two passes in a row through a well-formed vector network return
    tensors of one rank. *)
Lemma LinearNetwork_passes_agree_on_ndim {T : Torch} (cfg : LinearNetworkConfig)
  (x time : Tensor) (cond : option LongTensor) (b : nat) (p p' : option Q)
  (st : State LinearNetwork) :
  wf_LinearNetwork (net st) cfg ->
  shape x = [b; lc_dim cfg] -> valid_time b time -> valid_cond (lc_cond_dim cfg) b cond ->
  forall lc st1 lu st2,
    forward x time cond p st = (Ok lc, st1) ->
    forward x time cond p' st1 = (Ok lu, st2) ->
    ndim lc = ndim lu.
Proof.
  intros Hwf Hx Hvt Hvc lc st1 lu st2 E1 E2. cbn [forward LinearNetwork_BFNetwork] in E1, E2.
  pose proof (total_LinearNetwork_forward (net st) cfg x time cond p b Hwf Hx Hvt Hvc st
                eq_refl) as H1.
  rewrite E1 in H1. destruct H1 as (Hn1 & _ & Hs1).
  pose proof (total_LinearNetwork_forward (net st) cfg x time cond p' b Hwf Hx Hvt Hvc st1
                Hn1) as H2.
  rewrite E2 in H2. destruct H2 as (_ & _ & Hs2).
  unfold ndim. rewrite Hs1, Hs2. reflexivity.
Qed.

(** ** The constructors return

    Each [__init__] returns an object of the dimensions it was asked for,
    under the conditions its assertions and those of the layers it builds
    impose. *)

Lemma total_spec {T : Torch} {Net A : Type} (E : Exn -> Prop) (n0 : Net) (m : M Net A)
  (P : A -> Prop) :
  total n0 m P -> spec E n0 m P.
Proof.
  intros H st Hst. specialize (H st Hst).
  destruct (m st) as [[a | e] st']; [exact H | tauto].
Qed.

Lemma raises_run {T : Torch} {Net A : Type} (m : M Net A) (e : Exn) (st : State Net) :
  raises (net st) m e ->
  exists st', m st = (Raise e, st') /\ net st' = net st /\ training st' = training st.
Proof.
  intros H. specialize (H st eq_refl). destruct (m st) as [[a | e'] st'].
  - tauto.
  - destruct H as (Hn & Ht & ->). exists st'. auto.
Qed.

Section TotalInit.
Context {T : Torch} {Net : Type}.
Variable n0 : Net.

Lemma total_new_param (init : string) (s : list nat) :
  total n0 (new_param init s) (fun t => shape t = s).
Proof.
  unfold new_param.
  eapply spec_bind with (P := fun _ => True); [apply spec_random; auto |].
  intros v _. apply spec_ret. reflexivity.
Qed.

Lemma total_Linear_init (i o : nat) :
  total n0 (Linear_init i o) (fun l => Linear_dims l i o).
Proof.
  unfold Linear_init.
  eapply spec_bind; [apply total_new_param |]. intros w _.
  eapply spec_bind; [apply total_new_param |]. intros b _.
  apply spec_ret. split; reflexivity.
Qed.

Lemma total_Dropout_init (q : Q) :
  bad_probability q = false ->
  total n0 (Dropout_init q) (fun d => p_drop d = q).
Proof.
  intros Hq. unfold Dropout_init. rewrite Hq. apply spec_ret. reflexivity.
Qed.

Lemma total_LinearBlock_init (i o : nat) (q : Q) :
  bad_probability q = false ->
  total n0 (LinearBlock_init i o q) (fun b => wf_LinearBlock b i o).
Proof.
  intros Hq. unfold LinearBlock_init, LayerNorm_init.
  eapply spec_bind; [apply total_Linear_init |]. intros proj Hproj.
  eapply spec_bind with (P := fun n => normalized_shape n = o); [apply spec_ret; reflexivity |].
  intros norm Hnorm.
  eapply spec_bind; [apply (total_Dropout_init q Hq) |]. intros d Hd.
  apply spec_ret. unfold wf_LinearBlock. cbn. rewrite Hd. auto.
Qed.

Lemma total_LinearResnetBlock_init (i o td : nat) (ced : option nat) (q : Q) :
  bad_probability q = false ->
  total n0 (LinearResnetBlock_init i o td ced q)
    (fun b => wf_LinearResnetBlock b i o (td + default ced 0)).
Proof.
  intros Hq. unfold LinearResnetBlock_init.
  eapply spec_bind; [apply total_Linear_init |]. intros l Hl.
  eapply spec_bind; [apply (total_LinearBlock_init i o q Hq) |]. intros b1 Hb1.
  eapply spec_bind; [apply (total_LinearBlock_init o o q Hq) |]. intros b2 Hb2.
  eapply spec_bind with
    (P := fun r => match r with Some l' => Linear_dims l' i o | None => i = o end).
  { destruct (i =? o) eqn:Hio; cbn [negb].
    - apply spec_ret. now apply Nat.eqb_eq.
    - eapply spec_bind; [apply total_Linear_init |]. intros r Hr. apply spec_ret. exact Hr. }
  intros r Hr. apply spec_ret. unfold wf_LinearResnetBlock. cbn. auto.
Qed.

Lemma total_LinearResnetBlocks_init (hidden : list nat) (i td : nat) (ced : option nat)
  (q : Q) :
  hidden = [] \/ bad_probability q = false ->
  total n0 (LinearResnetBlocks_init (combine (removelast (i :: hidden)) hidden) td ced q)
    (fun bs => wf_LinearResnetBlocks bs i hidden (td + default ced 0)).
Proof.
  intros [-> | Hq]; [apply spec_ret; exact I |].
  revert i. induction hidden as [| o hidden IH]; intros i.
  - apply spec_ret. exact I.
  - change (removelast (i :: o :: hidden)) with (i :: removelast (o :: hidden)).
    cbn [combine LinearResnetBlocks_init].
    eapply spec_bind; [apply (total_LinearResnetBlock_init i o td ced q Hq) |]. intros b Hb.
    eapply spec_bind; [apply IH |]. intros bs Hbs.
    apply spec_ret. cbn [wf_LinearResnetBlocks]. auto.
Qed.

Lemma total_Embedding_init (num dim : nat) :
  total n0 (Embedding_init num dim)
    (fun e => length (emb_rows e) = num /\ embedding_dim e = dim).
Proof.
  unfold Embedding_init.
  eapply spec_bind.
  { apply spec_repeatM with (P := fun _ => True). apply spec_random. auto. }
  intros rows [Hlen _]. apply spec_ret. cbn. auto.
Qed.

Lemma total_Conditioning_init (num_classes dim : nat) :
  total n0 (Conditioning_init num_classes dim)
    (fun cm => wf_Conditioning cm num_classes dim).
Proof.
  unfold Conditioning_init.
  eapply spec_bind; [apply total_Embedding_init |]. intros emb [He1 He2].
  eapply spec_bind with (P := fun _ => True); [apply spec_random; auto |]. intros null _.
  eapply spec_bind; [apply total_Linear_init |]. intros l1 Hl1.
  eapply spec_bind; [apply total_Linear_init |]. intros l2 Hl2.
  apply spec_ret. unfold wf_Conditioning. cbn. auto.
Qed.

Lemma total_RandomOrLearnedSinusoidalPosEmb_init (dim : nat) (is_random : bool) :
  dim mod 2 = 0 ->
  total n0 (RandomOrLearnedSinusoidalPosEmb_init dim is_random)
    (fun pe => shape (weights pe) = [dim / 2] /\ requires_grad pe = negb is_random).
Proof.
  intros Hev. unfold RandomOrLearnedSinusoidalPosEmb_init.
  rewrite Hev. cbn [Nat.eqb].
  eapply spec_bind; [apply total_new_param |]. intros w Hw.
  apply spec_ret. cbn. auto.
Qed.

Lemma total_LinearNetwork_init (cfg : LinearNetworkConfig) :
  lc_sin_dim cfg mod 2 = 0 ->
  lc_hidden_dims cfg = [] \/ bad_probability (lc_dropout_p cfg) = false ->
  total n0 (LinearNetwork_init cfg)
    (fun n => wf_LinearNetwork n cfg
              /\ ln_cond_drop_prob n
                 = (if exists_ (lc_cond_dim cfg) then lc_cond_drop_prob cfg else 1%Q)).
Proof.
  intros Hev Hdrop. unfold LinearNetwork_init.
  eapply spec_bind; [apply (total_RandomOrLearnedSinusoidalPosEmb_init _ _ Hev) |].
  intros pe [Hpe _].
  eapply spec_bind; [apply total_Linear_init |]. intros l1 Hl1.
  eapply spec_bind; [apply total_Linear_init |]. intros l2 Hl2.
  eapply spec_bind with
    (P := fun r => wf_optional_Conditioning (fst (fst r)) (lc_cond_dim cfg) (lc_dim cfg)
                   /\ snd (fst r) = option_map (fun _ => lc_dim cfg * 4) (lc_cond_dim cfg)
                   /\ snd r = (if exists_ (lc_cond_dim cfg) then lc_cond_drop_prob cfg
                               else 1%Q)).
  { destruct (lc_cond_dim cfg) as [k |].
    - eapply spec_bind; [apply total_Conditioning_init |]. intros cm Hcm.
      apply spec_ret. cbn. auto.
    - apply spec_ret. cbn. auto. }
  intros [[conditioning ced] cdp] (Hc & Hced & Hcdp). cbn [fst snd] in Hc, Hced, Hcdp.
  cbn [tl].
  eapply spec_bind.
  { apply (total_LinearResnetBlocks_init (lc_hidden_dims cfg) (lc_dim cfg) (lc_time_dim cfg)
             ced (lc_dropout_p cfg) Hdrop). }
  intros blocks Hblocks.
  eapply spec_bind; [apply total_Linear_init |]. intros fp Hfp.
  apply spec_ret. split; [| exact Hcdp].
  unfold wf_LinearNetwork. cbn [ln_time_mlp ln_conditioning ln_blocks ln_final_proj].
  assert (Hmlp : default ced 0 = cond_embed_dim (lc_cond_dim cfg) (lc_dim cfg)).
  { subst ced. unfold cond_embed_dim. destruct (lc_cond_dim cfg); reflexivity. }
  rewrite <- Hmlp. rewrite last_cons in Hfp. auto 10.
Qed.

Lemma total_Conv2d_init (i o k pad : nat) (with_bias : bool) :
  total n0 (Conv2d_init i o k pad with_bias) (fun c => Conv2d_dims c i o k pad).
Proof.
  unfold Conv2d_init.
  eapply spec_bind; [apply total_new_param |]. intros w _.
  destruct with_bias.
  - eapply spec_bind; [apply total_new_param |]. intros b _.
    apply spec_ret. repeat split.
  - apply spec_ret. repeat split.
Qed.

Lemma total_Block_init (i o groups : nat) :
  groups <> 0 ->
  total n0 (Block_init i o groups) (fun b => wf_Block b i o).
Proof.
  intros Hg. unfold Block_init, Block_groups.
  destruct (groups =? 0) eqn:H0; [apply Nat.eqb_eq in H0; contradiction |].
  eapply spec_bind
    with (P := fun g' => g' = (if negb (o mod groups =? 0) then 1 else groups));
    [apply spec_lift; reflexivity |].
  intros g' ->.
  eapply spec_bind; [apply total_Conv2d_init |]. intros proj Hproj.
  unfold GroupNorm_init.
  destruct (o mod groups =? 0) eqn:Hd; cbn [negb].
  - rewrite H0, Hd.
    eapply spec_bind
      with (P := fun gn => num_channels gn = o /\ num_groups gn = groups);
      [apply spec_ret; cbn; auto |].
    intros gn [Hc Hgn]. apply spec_ret. unfold wf_Block. cbn. rewrite Hc, Hgn.
    apply Nat.eqb_eq in Hd. auto.
  - cbn [Nat.eqb]. rewrite Nat.mod_1_r. cbn [Nat.eqb].
    eapply spec_bind
      with (P := fun gn => num_channels gn = o /\ num_groups gn = 1);
      [apply spec_ret; cbn; auto |].
    intros gn [Hc Hgn]. apply spec_ret. unfold wf_Block. cbn. rewrite Hc, Hgn.
    rewrite Nat.mod_1_r. auto.
Qed.

Lemma total_ResnetBlock_init (i o td : nat) (cd : option nat) (groups : nat) :
  groups <> 0 ->
  total n0 (ResnetBlock_init i o (Some td) cd groups)
    (fun r => wf_ResnetBlock r i o (td + default cd 0)).
Proof.
  intros Hg. unfold ResnetBlock_init. cbn [exists_ orb default].
  eapply spec_bind with
    (P := fun m => match m with
                   | Some ms => wf_mlp ms (td + default cd 0) (o * 2)
                   | None => False
                   end).
  { eapply spec_bind; [apply total_Linear_init |]. intros l Hl. apply spec_ret. exact Hl. }
  intros mlp Hmlp.
  eapply spec_bind; [apply (total_Block_init i o groups Hg) |]. intros b1 Hb1.
  eapply spec_bind; [apply (total_Block_init o o groups Hg) |]. intros b2 Hb2.
  eapply spec_bind with
    (P := fun r => match r with Some c => Conv2d_dims c i o 1 0 | None => i = o end).
  { destruct (i =? o) eqn:Hio; cbn [negb].
    - apply spec_ret. now apply Nat.eqb_eq.
    - eapply spec_bind; [apply total_Conv2d_init |]. intros c Hc. apply spec_ret. exact Hc. }
  intros rc Hrc. apply spec_ret. unfold wf_ResnetBlock. cbn. auto.
Qed.

(** With torch 2.0, or without the flag, [Attend.__init__] returns. *)
Lemma total_Attend_init (dropout : Q) (flash : bool) :
  bad_probability dropout = false ->
  flash && torch_older_than_2 = false ->
  total n0 (Attend_init dropout flash)
    (fun a => at_dropout a = dropout /\ p_drop (at_attn_dropout a) = dropout
              /\ attention_selected a flash).
Proof.
  intros Hp Hcap. unfold Attend_init.
  eapply spec_bind; [apply (total_Dropout_init dropout Hp) |]. intros d Hd.
  unfold torch_older_than_2 in Hcap. rewrite Hcap.
  eapply spec_bind with (P := fun _ => True); [apply spec_ret; exact I |]. intros _ _.
  assert (Hsel : forall c, stored_cuda_config flash c ->
            total n0 (ret (mkAttend dropout d flash (mkAttentionConfig true true true) c))
              (fun a => at_dropout a = dropout /\ p_drop (at_attn_dropout a) = dropout
                        /\ attention_selected a flash)).
  { intros c Hc. apply spec_ret. unfold attention_selected.
    cbn [at_dropout at_attn_dropout at_flash at_cpu_config at_cuda_config]. auto. }
  destruct (negb (cuda_is_available platform) || negb flash) eqn:Hc.
  - apply Hsel, stored_cuda_config_None, Hc.
  - destruct ((device_major platform =? 8) && (device_minor platform =? 0)) eqn:Hdev.
    + eapply spec_bind with (P := fun _ => True); [apply spec_print_once; exact I |].
      intros _ _. apply Hsel, stored_cuda_config_A100; assumption.
    + eapply spec_bind with (P := fun _ => True); [apply spec_print_once; exact I |].
      intros _ _. apply Hsel, stored_cuda_config_other; assumption.
Qed.

(** So does [Attention.__init__], with the attention selected for the
    flag. *)
Lemma total_Attention_init_selected (dim heads dim_head : nat) (flash : bool) :
  flash && torch_older_than_2 = false ->
  total n0 (Attention_init dim heads dim_head flash)
    (fun a => a_heads a = heads
              /\ wf_RMSNorm (a_norm a) dim
              /\ Conv2d_dims (a_to_qkv a) dim (dim_head * heads * 3) 1 0
              /\ Conv2d_dims (a_to_out a) (dim_head * heads) dim 1 0
              /\ at_dropout (a_attend a) = 0%Q
              /\ p_drop (at_attn_dropout (a_attend a)) = 0%Q
              /\ attention_selected (a_attend a) flash).
Proof.
  intros Hcap. unfold Attention_init, RMSNorm_init.
  eapply spec_bind with (P := fun n => wf_RMSNorm n dim); [apply spec_ret; reflexivity |].
  intros norm Hnorm.
  eapply spec_bind; [apply (total_Attend_init 0 flash eq_refl Hcap) |].
  intros a (Hd0 & Hd & Hsel).
  eapply spec_bind; [apply total_Conv2d_init |]. intros qkv Hqkv.
  eapply spec_bind; [apply total_Conv2d_init |]. intros out Hout.
  apply spec_ret. cbn [a_heads a_norm a_attend a_to_qkv a_to_out]. auto 10.
Qed.

Lemma total_Attention_init (dim heads dim_head : nat) (flash : bool) :
  flash && torch_older_than_2 = false ->
  (flash = true -> flash_runs) ->
  total n0 (Attention_init dim heads dim_head flash)
    (fun a => wf_Attention a dim heads dim_head).
Proof.
  intros Hcap Hr.
  eapply spec_weaken; [apply (total_Attention_init_selected dim heads dim_head flash Hcap) |].
  intros a (H1 & H2 & H3 & H4 & H5 & H6 & H7). unfold wf_Attention.
  pose proof (wf_Attend_of_selected _ flash H5 H6 H7 Hr). auto.
Qed.

Lemma total_LinearAttention_init (dim heads dim_head : nat) :
  dim_head <> 0 ->
  total n0 (LinearAttention_init dim heads dim_head)
    (fun a => wf_LinearAttention a dim heads dim_head).
Proof.
  intros Hdh. unfold LinearAttention_init, RMSNorm_init.
  destruct (dim_head =? 0) eqn:H0; [apply Nat.eqb_eq in H0; contradiction |].
  eapply spec_bind with (P := fun _ => True); [apply spec_ret; exact I |]. intros _ _.
  eapply spec_bind with (P := fun n => wf_RMSNorm n dim); [apply spec_ret; reflexivity |].
  intros norm Hnorm.
  eapply spec_bind; [apply total_Conv2d_init |]. intros qkv Hqkv.
  eapply spec_bind; [apply total_Conv2d_init |]. intros out Hout.
  eapply spec_bind with (P := fun n => wf_RMSNorm n dim); [apply spec_ret; reflexivity |].
  intros n Hn.
  apply spec_ret. unfold wf_LinearAttention. cbn. auto 10.
Qed.

Lemma total_downsample (dim : nat) (out_dim : option nat) :
  total n0 (downsample dim out_dim)
    (fun s => wf_down_resample (ResampleSeq s) false dim (default out_dim dim)).
Proof.
  unfold downsample.
  eapply spec_bind; [apply total_Conv2d_init |]. intros c Hc. apply spec_ret. exact Hc.
Qed.

Lemma total_upsample (dim : nat) (out_dim : option nat) :
  total n0 (upsample dim out_dim)
    (fun s => wf_up_resample (ResampleSeq s) false (default out_dim dim) dim).
Proof.
  unfold upsample.
  eapply spec_bind; [apply total_Conv2d_init |]. intros c Hc. apply spec_ret. exact Hc.
Qed.

End TotalInit.

(** ** The layers, from construction to [forward] *)

Section LayerFacts.
Context {T : Torch} {Net : Type}.
Variable n0 : Net.

(** [SinusoidalPosEmb(dim)] on one time per sample, for every [dim] whose
    half is not one. *)
Lemma total_SinusoidalPosEmb_forward_any (dim : nat) (x : Tensor) (b : nat) :
  dim / 2 <> 1 -> shape x = [b] ->
  total n0 (SinusoidalPosEmb_forward dim x) (fun y => shape y = [b; 2 * (dim / 2)]).
Proof.
  intros Hhalf Hx. unfold SinusoidalPosEmb_forward.
  eapply spec_bind; [apply total_enter | intros _ _].
  destruct (dim / 2 =? 1) eqn:H1; [apply Nat.eqb_eq in H1; contradiction |].
  eapply spec_bind with (P := fun _ => True); [apply spec_ret; exact I |]. intros _ _.
  eapply spec_bind; [apply total_lift, (yields_unsqueeze1 x b Hx) |]. intros a Ha.
  eapply spec_bind.
  { apply total_lift. apply (yields_unsqueeze0 _ (dim / 2)). reflexivity. }
  intros e He.
  eapply spec_bind; [apply total_lift, (yields_binary_outer "mul" a e b _ Ha He) |].
  intros emb Hemb. apply total_lift.
  eapply yields_weaken.
  { apply (yields_cat_last _ _ b (dim / 2) (dim / 2)); exact Hemb. }
  intros y Hy. rewrite Hy. f_equal. f_equal. lia.
Qed.

(** [LinearResnetBlock.forward] without any embedding: no scale and shift. *)
Lemma total_LinearResnetBlock_forward_plain (self : LinearResnetBlock) (x : Tensor)
  (b i o m : nat) :
  wf_LinearResnetBlock self i o m -> shape x = [b; i] ->
  total n0 (LinearResnetBlock_forward self x None None) (fun y => shape y = [b; o]).
Proof.
  intros (Hmlp & Hb1 & Hb2 & Hres) Hx. unfold LinearResnetBlock_forward.
  eapply spec_bind; [apply total_enter | intros _ _].
  cbn [exists_ orb].
  eapply spec_bind with (P := fun ss => ss = None); [apply spec_ret; reflexivity |].
  intros ss ->.
  eapply spec_bind; [apply (total_LinearBlock_forward n0 _ x None b i o Hb1 Hx I) |].
  intros h Hh.
  eapply spec_bind; [apply (total_LinearBlock_forward n0 _ h None b o o Hb2 Hh I) |].
  intros h2 Hh2.
  eapply spec_bind with (P := fun r => shape r = [b; o]).
  { destruct (lrb_res_proj self) as [l |].
    - apply (total_Linear_forward n0 l x b i o Hres Hx).
    - subst o. eapply spec_weaken; [apply total_Identity_forward |].
      intros a Ha. congruence. }
  intros r Hr. apply total_lift.
  eapply yields_weaken; [apply yields_binary_same; congruence |].
  intros a Ha. congruence.
Qed.

(** The sequence [downsample] returns halves an even resolution. *)
Lemma total_downsample_forward (s : Sequential) (x : Tensor) (b i o h w : nat) :
  wf_down_resample (ResampleSeq s) false i o -> 1 <= h -> 1 <= w ->
  shape x = [b; i; 2 * h; 2 * w] ->
  total n0 (Sequential_forward s x) (fun y => shape y = [b; o; h; w]).
Proof.
  intros Hwf Hh Hw Hx.
  exact (total_down_resample n0 (ResampleSeq s) false x b i o h w Hwf Hh Hw Hx).
Qed.

(** The sequence [upsample] returns doubles the resolution. *)
Lemma total_upsample_forward (s : Sequential) (x : Tensor) (b i o h w : nat) :
  wf_up_resample (ResampleSeq s) false i o -> 1 <= h -> 1 <= w ->
  shape x = [b; o; h; w] ->
  total n0 (Sequential_forward s x) (fun y => shape y = [b; i; 2 * h; 2 * w]).
Proof.
  intros Hwf Hh Hw Hx.
  exact (total_up_resample n0 (ResampleSeq s) false x b i o h w Hwf Hh Hw Hx).
Qed.

(** [Rearrange] refuses an odd height or width. *)
Lemma raises_downsample_forward (s : Sequential) (x : Tensor) (b c h w i o : nat) :
  wf_down_resample (ResampleSeq s) false i o ->
  shape x = [b; c; h; w] -> h mod 2 <> 0 \/ w mod 2 <> 0 ->
  raises n0 (Sequential_forward s x)
    (EinopsError "Shape mismatch, can't divide axis of length by 2").
Proof.
  intros Hwf Hx Hodd. unfold wf_down_resample in Hwf.
  destruct s as [| [| | | | | | | |] [| [| | | | | cv | | |] [|]]]; try contradiction.
  unfold raises, Sequential_forward.
  eapply spec_bind with (P := fun _ => True); [apply spec_enter; exact I | intros _ _].
  cbn [Sequential_run Module_forward].
  eapply spec_bind with (P := fun _ => False); [| intros ? []].
  unfold Rearrange_forward.
  eapply spec_bind with (P := fun _ => True); [apply spec_enter; exact I | intros _ _].
  rewrite Hx.
  assert (Hb : (h mod 2 =? 0) && (w mod 2 =? 0) = false).
  { apply andb_false_iff. destruct Hodd as [H | H]; [left | right];
      apply Nat.eqb_neq; exact H. }
  rewrite Hb. apply spec_raise. reflexivity.
Qed.

End LayerFacts.

(** X1. [RandomOrLearnedSinusoidalPosEmb(dim)] raises its assertion error
    for an odd [dim] and touches nothing; for an even [dim] it returns a
    module, trainable unless [is_random], whose [forward] maps a column of
    [b] times to a matrix of [b] rows and [dim + 1] columns. *)
Theorem RandomOrLearnedSinusoidalPosEmb_widens_to_dim_plus_one :
  forall (T : Torch) (Net : Type) (dim : nat) (is_random : bool) (st0 : State Net),
    (dim mod 2 <> 0 ->
       RandomOrLearnedSinusoidalPosEmb_init dim is_random st0
       = (Raise (AssertionError "Sinusoidal positional embedding dim must be even"), st0))
    /\ (dim mod 2 = 0 ->
        exists pe st1,
          RandomOrLearnedSinusoidalPosEmb_init dim is_random st0 = (Ok pe, st1)
          /\ requires_grad pe = negb is_random
          /\ forall (x : Tensor) (b : nat) (st : State Net),
               shape x = [b; 1] ->
               exists y st',
                 RandomOrLearnedSinusoidalPosEmb_forward pe x st = (Ok y, st')
                 /\ shape y = [b; dim + 1]).
Proof.
  intros T Net dim is_random st0. split.
  - intros Hodd. unfold RandomOrLearnedSinusoidalPosEmb_init.
    destruct (dim mod 2 =? 0) eqn:H; [apply Nat.eqb_eq in H; contradiction | reflexivity].
  - intros Hev.
    destruct (total_returns _ _ st0
                (total_RandomOrLearnedSinusoidalPosEmb_init (net st0) dim is_random Hev))
      as (pe & st1 & E & Hw & Hg).
    exists pe, st1. split; [exact E |]. split; [exact Hg |].
    intros x b st Hx.
    exact (total_returns _ _ st
             (total_RandomOrLearnedSinusoidalPosEmb_forward (net st) pe x b dim Hw Hev Hx)).
Qed.

(** X2. [SinusoidalPosEmb(dim).forward] on [b] times returns [b] rows of
    [2 * (dim // 2)] columns: [dim] columns for an even [dim], one less for
    an odd one.  When [dim // 2] is one ([dim] is 2 or 3) the division by
    [half_dim - 1] raises [ZeroDivisionError]. *)
Theorem SinusoidalPosEmb_forward_width :
  forall (T : Torch) (Net : Type) (dim : nat) (x : Tensor) (b : nat) (st : State Net),
    shape x = [b] ->
    (dim / 2 = 1 ->
       exists msg st',
         SinusoidalPosEmb_forward dim x st = (Raise (ZeroDivisionError msg), st'))
    /\ (dim / 2 <> 1 ->
        exists y st',
          SinusoidalPosEmb_forward dim x st = (Ok y, st')
          /\ shape y = [b; 2 * (dim / 2)]
          /\ (dim mod 2 = 0 -> shape y = [b; dim])).
Proof.
  intros T Net dim x b st Hx. split.
  - intros H1. unfold SinusoidalPosEmb_forward, bind, enter, log. cbn [fst snd].
    rewrite H1. cbn [Nat.eqb]. eexists _, _. reflexivity.
  - intros Hhalf.
    destruct (total_returns _ _ st
                (total_SinusoidalPosEmb_forward_any (net st) dim x b Hhalf Hx))
      as (y & st' & E & Hy).
    exists y, st'. split; [exact E |]. split; [exact Hy |].
    intros Hev. rewrite Hy. f_equal. f_equal.
    pose proof (Nat.div_mod_eq dim 2). lia.
Qed.

(** X3. [LinearResnetBlock(in_dim, out_dim, time_emb_dim, cond_emb_dim,
    dropout_p)] with a dropout probability in [[0, 1]] returns a block whose
    [forward] maps [b] rows of [in_dim] features to [b] rows of [out_dim]
    features: with a time embedding of [time_emb_dim] columns and a
    conditioning embedding of [cond_emb_dim] columns (none when
    [cond_emb_dim] is [None]), and also without any embedding. *)
Theorem LinearResnetBlock_maps_in_dim_to_out_dim :
  forall (T : Torch) (Net : Type) (in_dim out_dim time_emb_dim : nat)
         (cond_emb_dim : option nat) (dropout_p : Q) (st0 : State Net),
    bad_probability dropout_p = false ->
    exists blk st1,
      LinearResnetBlock_init in_dim out_dim time_emb_dim cond_emb_dim dropout_p st0
      = (Ok blk, st1)
      /\ (forall (x time_emb : Tensor) (cond_emb : option Tensor) (b : nat)
                 (st : State Net),
             shape x = [b; in_dim] ->
             shape time_emb = [b; time_emb_dim] ->
             has_cond_shape cond_emb b (default cond_emb_dim 0) ->
             exists y st',
               LinearResnetBlock_forward blk x (Some time_emb) cond_emb st = (Ok y, st')
               /\ shape y = [b; out_dim])
      /\ (forall (x : Tensor) (b : nat) (st : State Net),
             shape x = [b; in_dim] ->
             exists y st',
               LinearResnetBlock_forward blk x None None st = (Ok y, st')
               /\ shape y = [b; out_dim]).
Proof.
  intros T Net in_dim out_dim td ced q st0 Hq.
  destruct (total_returns _ _ st0
              (total_LinearResnetBlock_init (net st0) in_dim out_dim td ced q Hq))
    as (blk & st1 & E & Hwf).
  exists blk, st1. split; [exact E |]. split.
  - intros x time_emb cond_emb b st Hx Ht Hc.
    exact (total_returns _ _ st
             (total_LinearResnetBlock_forward (net st) blk x time_emb cond_emb b in_dim
                out_dim td (default ced 0) Hwf Hx Ht Hc)).
  - intros x b st Hx.
    exact (total_returns _ _ st
             (total_LinearResnetBlock_forward_plain (net st) blk x b in_dim out_dim _
                Hwf Hx)).
Qed.

(** X4. [ResnetBlock(in_dim, out_dim, time_emb_dim=td, class_emb_dim=cd,
    groups=g)] with a group count other than zero returns a block whose
    [forward] maps a batch of [in_dim]-channel feature maps, of more than
    one value per channel, to [out_dim]-channel maps of the same batch size
    and resolution. *)
Theorem ResnetBlock_maps_in_dim_to_out_dim :
  forall (T : Torch) (Net : Type) (in_dim out_dim td : nat) (cd : option nat)
         (groups : nat) (st0 : State Net),
    groups <> 0 ->
    exists blk st1,
      ResnetBlock_init in_dim out_dim (Some td) cd groups st0 = (Ok blk, st1)
      /\ forall (x time_emb : Tensor) (class_emb : option Tensor) (b h w : nat)
                (st : State Net),
           shape x = [b; in_dim; h; w] -> 1 <= h -> 1 <= w -> 1 < b * (h * w) ->
           shape time_emb = [b; td] ->
           has_cond_shape class_emb b (default cd 0) ->
           exists y st',
             ResnetBlock_forward blk x (Some time_emb) class_emb st = (Ok y, st')
             /\ shape y = [b; out_dim; h; w].
Proof.
  intros T Net in_dim out_dim td cd groups st0 Hg.
  destruct (total_returns _ _ st0
              (total_ResnetBlock_init (net st0) in_dim out_dim td cd groups Hg))
    as (blk & st1 & E & Hwf).
  exists blk, st1. split; [exact E |].
  intros x time_emb class_emb b h w st Hx Hh Hw Hn Ht Hc.
  exact (total_returns _ _ st
           (total_ResnetBlock_forward (net st) blk x time_emb class_emb b in_dim out_dim td
              (default cd 0) h w Hwf Hx Hh Hw Hn Ht Hc)).
Qed.

(** X5. [Attention(dim, heads, dim_head, flash)] with at least one head of
    at least one dimension returns a module whose [forward] returns a
    tensor of the shape of its input, for every batch of [dim]-channel
    feature maps of at least one pixel: without flash attention on every
    platform, and with it on torch 2.0 or later when
    [F.scaled_dot_product_attention] has a kernel for the device. *)
Theorem Attention_forward_keeps_the_shape :
  forall (T : Torch) (Net : Type) (dim heads dim_head : nat) (flash : bool)
         (st0 : State Net),
    1 <= heads -> 1 <= dim_head ->
    flash && torch_older_than_2 = false ->
    (flash = true -> flash_runs) ->
    exists a st1,
      Attention_init dim heads dim_head flash st0 = (Ok a, st1)
      /\ forall (x : Tensor) (b h w : nat) (st : State Net),
           shape x = [b; dim; h; w] -> 1 <= h -> 1 <= w ->
           exists y st', Attention_forward a x st = (Ok y, st') /\ shape y = shape x.
Proof.
  intros T Net dim heads dim_head flash st0 Hh Hd Hcap Hr.
  destruct (total_returns _ _ st0
              (total_Attention_init (net st0) dim heads dim_head flash Hcap Hr))
    as (a & st1 & E & Hwf).
  exists a, st1. split; [exact E |].
  intros x b h w st Hx H1 H2.
  destruct (total_returns _ _ st
              (total_Attention_forward (net st) a x b dim heads dim_head h w Hwf Hh Hd Hx
                 H1 H2))
    as (y & st' & Ey & Hy).
  exists y, st'. split; [exact Ey | congruence].
Qed.

(** X6. [LinearAttention(dim, heads, dim_head)] raises [ZeroDivisionError]
    at construction when [dim_head] is zero ([dim_head ** -0.5]) and
    touches nothing; with at least one head of at least one dimension it
    returns a module whose [forward] returns a tensor of the shape of its
    input, for every batch of [dim]-channel feature maps of at least one
    pixel. *)
Theorem LinearAttention_forward_keeps_the_shape :
  forall (T : Torch) (Net : Type) (dim heads dim_head : nat) (st0 : State Net),
    (dim_head = 0 ->
       exists msg,
         LinearAttention_init dim heads dim_head st0 = (Raise (ZeroDivisionError msg), st0))
    /\ (1 <= heads -> 1 <= dim_head ->
        exists a st1,
          LinearAttention_init dim heads dim_head st0 = (Ok a, st1)
          /\ forall (x : Tensor) (b h w : nat) (st : State Net),
               shape x = [b; dim; h; w] -> 1 <= h -> 1 <= w ->
               exists y st',
                 LinearAttention_forward a x st = (Ok y, st') /\ shape y = shape x).
Proof.
  intros T Net dim heads dim_head st0. split.
  - intros ->. eexists. reflexivity.
  - intros Hh Hd.
    destruct (total_returns _ _ st0
                (total_LinearAttention_init (net st0) dim heads dim_head ltac:(lia)))
      as (a & st1 & E & Hwf).
    exists a, st1. split; [exact E |].
    intros x b h w st Hx H1 H2.
    destruct (total_returns _ _ st
                (total_LinearAttention_forward (net st) a x b dim heads dim_head h w Hwf Hh
                   Hx H1 H2))
      as (y & st' & Ey & Hy).
    exists y, st'. split; [exact Ey | congruence].
Qed.

(** X7. [downsample(dim, out_dim)] returns a sequence that maps a batch of
    [dim]-channel maps of even height and width to maps of [out_dim]
    channels ([dim] when [out_dim] is [None]) at half the resolution, and
    that raises the error of [Rearrange] on a four-dimensional input of an
    odd height or width. *)
Theorem downsample_halves_the_resolution :
  forall (T : Torch) (Net : Type) (dim : nat) (out_dim : option nat) (st0 : State Net),
    exists s st1,
      downsample dim out_dim st0 = (Ok s, st1)
      /\ (forall (x : Tensor) (b h w : nat) (st : State Net),
             shape x = [b; dim; 2 * h; 2 * w] -> 1 <= h -> 1 <= w ->
             exists y st',
               Sequential_forward s x st = (Ok y, st')
               /\ shape y = [b; default out_dim dim; h; w])
      /\ (forall (x : Tensor) (b c h w : nat) (st : State Net),
             shape x = [b; c; h; w] -> h mod 2 <> 0 \/ w mod 2 <> 0 ->
             exists msg st',
               Sequential_forward s x st = (Raise (EinopsError msg), st')).
Proof.
  intros T Net dim out_dim st0.
  destruct (total_returns _ _ st0 (total_downsample (net st0) dim out_dim))
    as (s & st1 & E & Hwf).
  exists s, st1. split; [exact E |]. split.
  - intros x b h w st Hx Hh Hw.
    exact (total_returns _ _ st
             (total_downsample_forward (net st) s x b dim _ h w Hwf Hh Hw Hx)).
  - intros x b c h w st Hx Hodd.
    destruct (raises_run _ _ st
                (raises_downsample_forward (net st) s x b c h w dim _ Hwf Hx Hodd))
      as (st' & Er & _).
    eexists _, st'. exact Er.
Qed.

(** X8. [upsample(dim, out_dim)] returns a sequence that maps a batch of
    [dim]-channel maps to maps of [out_dim] channels ([dim] when [out_dim]
    is [None]) at twice the resolution; applied to what
    [downsample(out_dim, dim)] returns on an input of even height and
    width, it restores the shape of that input. *)
Theorem upsample_doubles_the_resolution :
  forall (T : Torch) (Net : Type) (dim : nat) (out_dim : option nat) (st0 : State Net),
    exists up st1,
      upsample dim out_dim st0 = (Ok up, st1)
      /\ (forall (x : Tensor) (b h w : nat) (st : State Net),
             shape x = [b; dim; h; w] -> 1 <= h -> 1 <= w ->
             exists y st',
               Sequential_forward up x st = (Ok y, st')
               /\ shape y = [b; default out_dim dim; 2 * h; 2 * w])
      /\ exists down st2,
           downsample (default out_dim dim) (Some dim) st1 = (Ok down, st2)
           /\ forall (x : Tensor) (b h w : nat) (st : State Net),
                shape x = [b; default out_dim dim; 2 * h; 2 * w] -> 1 <= h -> 1 <= w ->
                exists y st' z st'',
                  Sequential_forward down x st = (Ok y, st')
                  /\ Sequential_forward up y st' = (Ok z, st'')
                  /\ shape z = shape x.
Proof.
  intros T Net dim out_dim st0.
  destruct (total_returns _ _ st0 (total_upsample (net st0) dim out_dim))
    as (up & st1 & E & Hwf).
  exists up, st1. split; [exact E |]. split.
  - intros x b h w st Hx Hh Hw.
    exact (total_returns _ _ st
             (total_upsample_forward (net st) up x b _ dim h w Hwf Hh Hw Hx)).
  - destruct (total_returns _ _ st1
                (total_downsample (net st1) (default out_dim dim) (Some dim)))
      as (down & st2 & Ed & Hd).
    exists down, st2. split; [exact Ed |].
    intros x b h w st Hx Hh Hw.
    destruct (total_returns _ _ st
                (total_downsample_forward (net st) down x b _ _ h w Hd Hh Hw Hx))
      as (y & st' & Ey & Hy).
    destruct (total_returns _ _ st'
                (total_upsample_forward (net st') up y b _ dim h w Hwf Hh Hw Hy))
      as (z & st'' & Ez & Hz).
    exists y, st', z, st''. split; [exact Ey |]. split; [exact Ez |]. congruence.
Qed.

(** ** What the constructors of the vector network refuse *)

Section RaiseRules.
Context {T : Torch} {Net : Type}.
Variable n0 : Net.

Lemma raises_raise {A : Type} (e : Exn) : raises n0 (raise (A := A) e) e.
Proof. apply spec_raise. reflexivity. Qed.

Lemma raises_bind_l {A B : Type} (m : M Net A) (k : A -> M Net B) (e : Exn) :
  raises n0 m e -> raises n0 (bind m k) e.
Proof. intros H. eapply spec_bind; [exact H | intros a []]. Qed.

Lemma raises_bind_r {A B : Type} (m : M Net A) (k : A -> M Net B) (P : A -> Prop)
  (e : Exn) :
  total n0 m P -> (forall a, P a -> raises n0 (k a) e) -> raises n0 (bind m k) e.
Proof.
  intros Hm Hk. eapply spec_bind; [apply total_spec, Hm | exact Hk].
Qed.

Lemma raises_lift {A : Type} (e : Exn) : raises n0 (lift (A := A) (Raise e)) e.
Proof. apply spec_lift. reflexivity. Qed.

Lemma raises_LinearBlock_init (i o : nat) (q : Q) :
  bad_probability q = true ->
  raises n0 (LinearBlock_init i o q)
    (ValueError "dropout probability has to be between 0 and 1").
Proof.
  intros Hq. unfold LinearBlock_init, LayerNorm_init.
  eapply raises_bind_r; [apply total_Linear_init |]. intros proj _.
  eapply raises_bind_r with (P := fun _ => True); [apply spec_ret; exact I |]. intros norm _.
  apply raises_bind_l. unfold Dropout_init. rewrite Hq. apply raises_raise.
Qed.

Lemma raises_LinearResnetBlock_init (i o td : nat) (ced : option nat) (q : Q) :
  bad_probability q = true ->
  raises n0 (LinearResnetBlock_init i o td ced q)
    (ValueError "dropout probability has to be between 0 and 1").
Proof.
  intros Hq. unfold LinearResnetBlock_init.
  eapply raises_bind_r; [apply total_Linear_init |]. intros l _.
  apply raises_bind_l, raises_LinearBlock_init, Hq.
Qed.

End RaiseRules.

Lemma wf_LinearResnetBlocks_length {T : Torch} (bs : list LinearResnetBlock) (i : nat)
  (hidden : list nat) (m : nat) :
  wf_LinearResnetBlocks bs i hidden m -> length bs = length hidden.
Proof.
  revert i hidden. induction bs as [| b bs IH]; intros i [| o hidden] H;
    cbn [wf_LinearResnetBlocks] in H; try contradiction.
  - reflexivity.
  - cbn [length]. f_equal. apply (IH o). tauto.
Qed.

(** X9. What [LinearNetwork.__init__] does with its arguments: an odd
    [sin_dim] raises the assertion error of the time embedding before
    anything is created; an even [sin_dim] with a dropout probability
    outside [[0, 1]] and at least one hidden layer raises the [ValueError]
    of [nn.Dropout]; every other configuration returns a network with one
    residual block per hidden width, conditional exactly when [cond_dim] is
    given, and with a dropout default of one when it is not. *)
Theorem LinearNetwork_init_outcome :
  forall (T : Torch) (Net : Type) (cfg : LinearNetworkConfig) (st0 : State Net),
    (lc_sin_dim cfg mod 2 <> 0 ->
       LinearNetwork_init cfg st0
       = (Raise (AssertionError "Sinusoidal positional embedding dim must be even"), st0))
    /\ (lc_sin_dim cfg mod 2 = 0 ->
        lc_hidden_dims cfg <> [] ->
        bad_probability (lc_dropout_p cfg) = true ->
        exists msg st1, LinearNetwork_init cfg st0 = (Raise (ValueError msg), st1))
    /\ (lc_sin_dim cfg mod 2 = 0 ->
        lc_hidden_dims cfg = [] \/ bad_probability (lc_dropout_p cfg) = false ->
        exists n st1,
          LinearNetwork_init cfg st0 = (Ok n, st1)
          /\ length (ln_blocks n) = length (lc_hidden_dims cfg)
          /\ is_conditional_model n = exists_ (lc_cond_dim cfg)
          /\ ln_cond_drop_prob n
             = (if exists_ (lc_cond_dim cfg) then lc_cond_drop_prob cfg else 1%Q)).
Proof.
  intros T Net cfg st0. split; [| split].
  - intros Hodd. unfold LinearNetwork_init, bind, RandomOrLearnedSinusoidalPosEmb_init.
    destruct (lc_sin_dim cfg mod 2 =? 0) eqn:H; [apply Nat.eqb_eq in H; contradiction |].
    reflexivity.
  - intros Hev Hhidden Hbad.
    assert (Hr : raises (net st0) (LinearNetwork_init (Net := Net) cfg)
                   (ValueError "dropout probability has to be between 0 and 1")).
    { unfold LinearNetwork_init.
      eapply raises_bind_r;
        [apply (total_RandomOrLearnedSinusoidalPosEmb_init _ _ _ Hev) |]. intros pe _.
      eapply raises_bind_r; [apply total_Linear_init |]. intros l1 _.
      eapply raises_bind_r; [apply total_Linear_init |]. intros l2 _.
      eapply raises_bind_r with (P := fun _ => True).
      { destruct (lc_cond_dim cfg) as [k |].
        - eapply spec_bind; [apply total_Conditioning_init |]. intros cm _.
          apply spec_ret. exact I.
        - apply spec_ret. exact I. }
      intros [[conditioning ced] cdp] _. apply raises_bind_l.
      destruct (lc_hidden_dims cfg) as [| o hidden]; [contradiction |].
      cbn [tl].
      change (removelast (lc_dim cfg :: o :: hidden))
        with (lc_dim cfg :: removelast (o :: hidden)).
      cbn [combine LinearResnetBlocks_init].
      apply raises_bind_l, raises_LinearResnetBlock_init, Hbad. }
    destruct (raises_run _ _ st0 Hr) as (st1 & E & _). eexists _, st1. exact E.
  - intros Hev Hdrop.
    destruct (total_returns _ _ st0 (total_LinearNetwork_init (net st0) cfg Hev Hdrop))
      as (n & st1 & E & Hwf & Hcdp).
    exists n, st1. split; [exact E |].
    destruct Hwf as (_ & Hcond & Hblocks & _).
    split; [exact (wf_LinearResnetBlocks_length _ _ _ _ Hblocks) |].
    split; [| exact Hcdp].
    unfold is_conditional_model. cbn [cond_dim_of LinearNetwork_BFNetwork].
    unfold wf_optional_Conditioning in Hcond.
    destruct (ln_conditioning n), (lc_cond_dim cfg); try contradiction; reflexivity.
Qed.

(** ** What [forward] does with its arguments *)

Section ForwardArguments.
Context {T : Torch}.

Lemma lookup_Ok_in_range (rows : list V) (l : Z) (r : V) :
  lookup rows l = Ok r -> (0 <= l < Z.of_nat (length rows))%Z.
Proof.
  unfold lookup. destruct (l <? 0)%Z eqn:Hneg; [discriminate |].
  apply Z.ltb_ge in Hneg.
  destruct (nth_error rows (Z.to_nat l)) as [r' |] eqn:Hnth; [| discriminate].
  intros _. assert (Hlt : Z.to_nat l < length rows) by (apply nth_error_Some; congruence).
  lia.
Qed.

Lemma lookup_Raise (rows : list V) (l : Z) (e : Exn) :
  lookup rows l = Raise e -> e = IndexError "index out of range in self".
Proof.
  unfold lookup. destruct (l <? 0)%Z; [congruence |].
  destruct (nth_error rows (Z.to_nat l)); congruence.
Qed.

(** The embedding lookup refuses a batch that holds a label outside the
    table. *)
Lemma lookup_all_out_of_range (rows : list V) (ls : list Z) :
  Exists (fun v => (v < 0 \/ Z.of_nat (length rows) <= v)%Z) ls ->
  lookup_all rows ls = Raise (IndexError "index out of range in self").
Proof.
  induction ls as [| l ls IH]; intros H; [inversion H |].
  cbn [lookup_all]. destruct (lookup rows l) as [r | e] eqn:El; cbn [rbind].
  - inversion H as [? ? Hl | ? ? Hls]; subst.
    + apply lookup_Ok_in_range in El. lia.
    + rewrite (IH Hls). reflexivity.
  - apply lookup_Raise in El. congruence.
Qed.

Lemma class_conditioning_out_of_range {Net : Type} (cm : Conditioning) (d : Q) (batch : nat)
  (l : LongTensor) (p : option Q) (st : State Net) :
  label_out_of_range (num_embeddings (cond_emb cm)) batch l ->
  exists st',
    class_conditioning cm d batch (Some l) p st
    = (Raise (IndexError "index out of range in self"), st')
    /\ rng st' = rng st.
Proof.
  intros [Hshape Hex]. destruct l as [s data]. cbn [lshape ldata] in Hshape, Hex.
  assert (E : class_conditioning cm d batch (Some (mkLong s data)) p st
              = class_conditioning cm d batch (Some (mkLong [batch] data)) p st).
  { destruct Hshape as [-> | ->]; [reflexivity | apply class_conditioning_squeeze]. }
  rewrite E. unfold class_conditioning, Embedding_forward, bind, ret, enter, log, lift.
  cbn [lshape ldata length Nat.ltb Nat.leb fst snd].
  rewrite (lookup_all_out_of_range _ _ Hex). eexists. split; reflexivity.
Qed.

Lemma raises_Linear_forward {Net : Type} (n0 : Net) (l : Linear) (x : Tensor)
  (b i o d : nat) :
  Linear_dims l i o -> shape x = [b; d] -> d <> i ->
  raises n0 (Linear_forward l x) (RuntimeError "mat1 and mat2 shapes cannot be multiplied").
Proof.
  intros [Hi Ho] Hx Hd. unfold Linear_forward.
  eapply raises_bind_r; [apply total_enter | intros _ _].
  rewrite Hx. cbn [rev app]. rewrite Hi.
  destruct (d =? i) eqn:E; [apply Nat.eqb_eq in E; contradiction |].
  apply raises_raise.
Qed.

Lemma raises_LinearResnetBlock_forward {Net : Type} (n0 : Net) (self : LinearResnetBlock)
  (x time : Tensor) (c : option Tensor) (b i o td cd d : nat) :
  wf_LinearResnetBlock self i o (td + cd) ->
  shape x = [b; d] -> d <> i -> shape time = [b; td] -> has_cond_shape c b cd ->
  raises n0 (LinearResnetBlock_forward self x (Some time) c)
    (RuntimeError "mat1 and mat2 shapes cannot be multiplied").
Proof.
  intros (Hmlp & Hb1 & Hb2 & Hres) Hx Hd Ht Hc. unfold LinearResnetBlock_forward.
  eapply raises_bind_r; [apply total_enter | intros _ _].
  cbn [exists_ orb].
  eapply raises_bind_r with (P := fun _ => True).
  { eapply spec_bind; [apply total_lift, (yields_cat_embeddings time c b td cd Ht Hc) |].
    intros e He.
    eapply spec_bind; [apply (total_mlp n0 _ e b _ _ Hmlp He) |]. intros e2 He2.
    eapply spec_bind; [apply total_lift, (yields_chunk2_last e2 b o He2) |].
    intros ss _. apply spec_ret. exact I. }
  intros ss _. apply raises_bind_l.
  unfold LinearBlock_forward.
  eapply raises_bind_r; [apply total_enter | intros _ _].
  apply raises_bind_l. destruct Hb1 as (Hp & _).
  exact (raises_Linear_forward n0 _ x b i o d Hp Hx Hd).
Qed.

Lemma raises_LinearNetwork_forward (n0 : LinearNetwork) (cfg : LinearNetworkConfig)
  (x time : Tensor) (cond : option LongTensor) (p : option Q) (b d : nat) :
  wf_LinearNetwork n0 cfg ->
  shape x = [b; d] -> d <> lc_dim cfg ->
  valid_time b time -> valid_cond (lc_cond_dim cfg) b cond ->
  raises n0 (LinearNetwork_forward x time cond p)
    (RuntimeError "mat1 and mat2 shapes cannot be multiplied").
Proof.
  intros Hwf Hx Hd Hvt Hvc. pose proof Hwf as (_ & Hcond & Hblocks & Hfinal).
  unfold LinearNetwork_forward.
  eapply spec_bind; [apply spec_get_self |]. intros self ->.
  unfold shape0. rewrite Hx.
  eapply raises_bind_r with (P := fun n => n = b); [apply total_lift; reflexivity |].
  intros ? ->.
  eapply raises_bind_r.
  { apply total_lift, (yields_unsqueeze1 _ b), expanded_time_shape, Hvt. }
  intros t1 Ht1.
  eapply raises_bind_r; [apply (total_LinearNetwork_time n0 cfg t1 b Hwf Ht1) |].
  intros t Ht. cbv beta in Ht.
  eapply raises_bind_r with
    (P := fun c => has_cond_shape c b (cond_embed_dim (lc_cond_dim cfg) (lc_dim cfg))).
  { unfold wf_optional_Conditioning in Hcond.
    destruct (ln_conditioning n0) as [cm |], (lc_cond_dim cfg) as [k |];
      try contradiction.
    - eapply spec_bind.
      { apply (total_class_conditioning n0 cm _ b k (lc_dim cfg) cond p Hcond Hvc). }
      intros c Hc. apply spec_ret. exact Hc.
    - apply spec_ret. reflexivity. }
  intros c Hc.
  destruct (ln_blocks n0) as [| blk blocks], (lc_hidden_dims cfg) as [| o hidden];
    cbn [wf_LinearResnetBlocks] in Hblocks; try contradiction.
  - cbn [LinearNetwork_blocks last] in *.
    eapply raises_bind_r with (P := fun y => y = x); [apply spec_ret; reflexivity |].
    intros ? ->. apply raises_bind_l.
    exact (raises_Linear_forward n0 _ x b _ _ d Hfinal Hx Hd).
  - destruct Hblocks as [Hblk _]. cbn [LinearNetwork_blocks].
    apply raises_bind_l, raises_bind_l.
    exact (raises_LinearResnetBlock_forward n0 blk x t c b _ o _ _ d Hblk Hx Hd Ht Hc).
Qed.

End ForwardArguments.

(** X10. The arguments [forward] ignores.  Called without labels, both
    networks ignore [cond_drop_prob]: a conditional network draws random
    labels and forces the probability to one (lines 294-296, 794-796).  A
    network built without class conditioning ignores both the labels and
    [cond_drop_prob]. *)
Theorem forward_ignores_unused_arguments :
  forall (T : Torch) (x time : Tensor),
    (forall (p p' : option Q),
        (forall st : State LinearNetwork,
            LinearNetwork_forward x time None p st
            = LinearNetwork_forward x time None p' st)
        /\ (forall st : State Unet,
            Unet_forward x time None p st = Unet_forward x time None p' st))
    /\ (forall (cond : option LongTensor) (p : option Q),
        (forall st : State LinearNetwork,
            is_conditional_model (net st) = false ->
            LinearNetwork_forward x time cond p st
            = LinearNetwork_forward x time None None st)
        /\ (forall st : State Unet,
            is_conditional_model (net st) = false ->
            Unet_forward x time cond p st = Unet_forward x time None None st)).
Proof.
  intros T x time. split.
  - intros p p'. split; intros st; reflexivity.
  - intros cond p. split; intros st Hc.
    + unfold is_conditional_model in Hc. cbn [cond_dim_of LinearNetwork_BFNetwork] in Hc.
      destruct (ln_conditioning (net st)) as [cm |] eqn:Hcm; [discriminate |].
      unfold LinearNetwork_forward. rewrite !bind_get_self. rewrite Hcm. reflexivity.
    + unfold is_conditional_model in Hc. cbn [cond_dim_of Unet_BFNetwork] in Hc.
      destruct (u_conditioning (net st)) as [cm |] eqn:Hcm; [discriminate |].
      unfold Unet_forward, Unet_forward_stack.
      rewrite !bind_assoc, !bind_get_self. unfold Unet_conditioning. rewrite Hcm.
      reflexivity.
Qed.

(** X11. A batch of labels of an admissible shape that holds a label below
    zero or not below the number of classes makes [forward] of a
    conditional network raise the [IndexError] of the embedding lookup:
    [Unet.forward] in its first step, with the random generator untouched;
    [LinearNetwork.forward] after its time MLP has run. *)
Theorem out_of_range_label_raises_IndexError :
  forall (T : Torch) (x time : Tensor) (l : LongTensor) (p : option Q) (B : nat)
         (rest : list nat) (cm : Conditioning),
    shape x = B :: rest ->
    label_out_of_range (num_embeddings (cond_emb cm)) B l ->
    (forall st : State Unet,
        u_conditioning (net st) = Some cm ->
        exists st',
          Unet_forward x time (Some l) p st
          = (Raise (IndexError "index out of range in self"), st')
          /\ rng st' = rng st)
    /\ (forall (Net : Type) (cfg : LinearNetworkConfig) (st0 st1 : State Net)
               (st : State LinearNetwork),
        LinearNetwork_init cfg st0 = (Ok (net st), st1) ->
        ln_conditioning (net st) = Some cm ->
        valid_time B time ->
        exists st',
          LinearNetwork_forward x time (Some l) p st
          = (Raise (IndexError "index out of range in self"), st')).
Proof.
  intros T x time l p B rest cm Hx Hl. split.
  - intros st Hcm.
    unfold Unet_forward, Unet_forward_stack.
    rewrite bind_assoc, bind_get_self. unfold shape0. rewrite Hx.
    rewrite bind_assoc, bind_lift_Ok, bind_assoc.
    unfold Unet_conditioning. rewrite Hcm. rewrite bind_assoc.
    destruct (class_conditioning_out_of_range cm (u_cond_drop_prob (net st)) B l p st Hl)
      as (st' & E & Hrng).
    exists st'. split; [| exact Hrng]. unfold bind at 1. rewrite E. reflexivity.
  - intros Net cfg st0 st1 st Hinit Hcm Hvt.
    pose proof (post_LinearNetwork_init cfg st0 _ st1 Hinit) as Hwf. cbv beta in Hwf.
    unfold LinearNetwork_forward.
    rewrite bind_get_self. unfold shape0. rewrite Hx. rewrite bind_lift_Ok.
    destruct (yields_Ok _ _ (yields_unsqueeze1 _ B (expanded_time_shape time B Hvt)))
      as (t1 & E1 & Ht1).
    rewrite E1, bind_lift_Ok.
    destruct (total_returns _ _ st (total_LinearNetwork_time (net st) cfg t1 B Hwf Ht1))
      as (t & st2 & E & _).
    rewrite (bind_Ok _ E). rewrite Hcm. rewrite bind_assoc.
    destruct (class_conditioning_out_of_range cm (ln_cond_drop_prob (net st)) B l p st2 Hl)
      as (st' & E' & _).
    exists st'. unfold bind at 1. rewrite E'. reflexivity.
Qed.

(** X12. Data of a width other than the [dim] the network was built with
    makes [LinearNetwork.forward] raise the [RuntimeError] of the first
    linear layer that meets it, for every valid time and conditioning. *)
Theorem LinearNetwork_forward_refuses_another_width :
  forall (T : Torch) (Net : Type) (cfg : LinearNetworkConfig) (st0 st1 : State Net)
         (st : State LinearNetwork) (x time : Tensor) (cond : option LongTensor)
         (p : option Q) (B d : nat),
    LinearNetwork_init cfg st0 = (Ok (net st), st1) ->
    shape x = [B; d] ->
    d <> lc_dim cfg ->
    valid_time B time ->
    valid_cond (lc_cond_dim cfg) B cond ->
    exists msg st',
      LinearNetwork_forward x time cond p st = (Raise (RuntimeError msg), st')
      /\ net st' = net st.
Proof.
  intros T Net cfg st0 st1 st x time cond p B d Hinit Hx Hd Hvt Hvc.
  pose proof (post_LinearNetwork_init cfg st0 _ st1 Hinit) as Hwf. cbv beta in Hwf.
  destruct (raises_run _ _ st
              (raises_LinearNetwork_forward (net st) cfg x time cond p B d Hwf Hx Hd Hvt
                 Hvc))
    as (st' & E & Hn & _).
  eexists _, st'. split; [exact E | exact Hn].
Qed.

(** X13. [DiscreteLinearNet.forward] flattens the data from its second
    dimension on, runs [LinearNetwork.forward] and views the result in the
    shape of the data.  On a network built for [dim] variables of [K]
    classes it returns a tensor of the shape of the data for every input
    of at least two dimensions with [dim * K] values per sample (such as
    [(B, dim, K)] and [(B, dim * K)]); data of fewer than two dimensions
    raises the [IndexError] of [flatten] before anything runs. *)
Theorem DiscreteLinearNet_forward_keeps_the_shape :
  forall (T : Torch) (x time : Tensor) (cond : option LongTensor) (p : option Q),
    (forall (Net : Type) (K : nat) (cfg : LinearNetworkConfig) (st0 st1 : State Net)
            (st : State LinearNetwork) (B d : nat) (rest : list nat),
        DiscreteLinearNet_init K cfg st0 = (Ok (net st), st1) ->
        shape x = B :: d :: rest ->
        list_prod (d :: rest) = lc_dim cfg * K ->
        valid_time B time ->
        valid_cond (lc_cond_dim cfg) B cond ->
        exists y st',
          DiscreteLinearNet_forward x time cond p st = (Ok y, st')
          /\ shape y = shape x)
    /\ (forall st : State LinearNetwork,
        length (shape x) <= 1 ->
        DiscreteLinearNet_forward x time cond p st
        = (Raise (IndexError
                    "Dimension out of range (expected to be in range of [-1, 0], but got 1)"),
           st)).
Proof.
  intros T x time cond p. split.
  - intros Net K cfg st0 st1 st B d rest Hinit Hx Hprod Hvt Hvc.
    unfold DiscreteLinearNet_init in Hinit.
    pose proof (post_LinearNetwork_init (discrete_config K cfg) st0 _ st1 Hinit) as Hwf.
    cbv beta in Hwf.
    assert (Hflat : exists flat, flatten1 x = Ok flat /\ shape flat = [B; lc_dim cfg * K]).
    { unfold flatten1. rewrite Hx. destruct rest as [| d' rest'].
      - exists x. split; [reflexivity |]. rewrite Hx. cbn [list_prod fold_right] in Hprod.
        f_equal. f_equal. lia.
      - eexists. split; [reflexivity |]. cbn [shape apply]. rewrite Hprod. reflexivity. }
    destruct Hflat as (flat & Ef & Hf).
    unfold DiscreteLinearNet_forward. rewrite Ef, bind_lift_Ok.
    destruct (total_returns _ _ st
                (total_LinearNetwork_forward (net st) (discrete_config K cfg) flat time cond
                   p B Hwf Hf Hvt Hvc))
      as (y & st' & Ey & Hy).
    rewrite (bind_Ok _ Ey). cbn [lc_dim discrete_config] in Hy.
    unfold view, lift. rewrite Hy, Hx.
    assert (Hnumel : list_prod [B; lc_dim cfg * K] = list_prod (B :: d :: rest)).
    { change (list_prod (B :: d :: rest)) with (B * list_prod (d :: rest)).
      rewrite Hprod. cbn [list_prod fold_right]. lia. }
    rewrite Hnumel, Nat.eqb_refl. eexists _, _. split; reflexivity.
  - intros st Hrank. unfold DiscreteLinearNet_forward, flatten1.
    destruct (shape x) as [| a [| a' s]]; [reflexivity | reflexivity |].
    cbn [length] in Hrank. lia.
Qed.

(** ** The shape of the guided output *)

Lemma Forall2_snoc {A B : Type} (R : A -> B -> Prop) (l : list A) (l' : list B) (a : A)
  (b : B) :
  Forall2 R l l' -> R a b -> Forall2 R (l ++ [a]) (l' ++ [b]).
Proof. intros H Hab. apply Forall2_app; [exact H | constructor; [exact Hab | constructor]]. Qed.

Lemma Forall2_reversed {A B : Type} (R : A -> B -> Prop) (l : list A) (l' : list B) :
  Forall2 R l l' -> Forall2 R (rev l) (rev l').
Proof.
  induction 1 as [| a b l l' Hab _ IH]; [constructor |].
  cbn [rev]. apply Forall2_snoc; assumption.
Qed.

(** A shape broadcasts with what a [keepdim] reduction makes of it, to
    itself. *)
Lemma broadcast_rev_reduced (a r : list nat) :
  Forall2 (fun x y => y = x \/ y = 1) a r -> broadcast_rev a r = Ok a.
Proof.
  induction 1 as [| x y a r Hxy _ IH]; [reflexivity |].
  cbn [broadcast_rev]. destruct Hxy as [-> | ->].
  - rewrite bdim_same. cbn [rbind]. rewrite IH. reflexivity.
  - rewrite bdim_one_r. cbn [rbind]. rewrite IH. reflexivity.
Qed.

Lemma reduce_keepdim_from_related (i : nat) (dims s : list nat) :
  Forall2 (fun x y => y = x \/ y = 1) s (reduce_keepdim_from i dims s).
Proof.
  revert i. induction s as [| d s IH]; intros i; cbn [reduce_keepdim_from]; constructor.
  - destruct (existsb (Nat.eqb i) dims); auto.
  - apply IH.
Qed.

Lemma reduce_keepdim_related (dims s : list nat) :
  Forall2 (fun x y => y = x \/ y = 1) s (reduce_keepdim dims s).
Proof.
  unfold reduce_keepdim. destruct dims as [| d dims].
  - induction s as [| x s IH]; cbn [map]; constructor; auto.
  - apply reduce_keepdim_from_related.
Qed.

Lemma broadcast_shapes_reduced (dims s : list nat) :
  broadcast_shapes s (reduce_keepdim dims s) = Ok s.
Proof.
  unfold broadcast_shapes.
  rewrite (broadcast_rev_reduced _ _ (Forall2_reversed _ _ _ (reduce_keepdim_related dims s))).
  cbn [rbind]. rewrite rev_involutive. reflexivity.
Qed.

Lemma non_batch_axes_in_range (n : nat) : forallb (fun d => d <? n) (seq 1 (n - 1)) = true.
Proof.
  apply forallb_forall. intros d Hd. apply in_seq in Hd. apply Nat.ltb_lt. lia.
Qed.

Section GuidedShape.
Context {T : Torch} {Net : Type} {B : BFNetwork Net}.
Variable n0 : Net.

(** If both passes return a tensor of shape [s], so does the guided
    combination, for every guidance scale and rescale factor. *)
Lemma total_forward_with_cond_scale (x time : Tensor) (cond : option LongTensor)
  (cond_scale rescaled_phi : Q) (s : list nat) :
  (forall p, total n0 (forward x time cond p) (fun y => shape y = s)) ->
  total n0 (forward_with_cond_scale x time cond cond_scale rescaled_phi)
    (fun y => shape y = s).
Proof.
  intros Hf. unfold forward_with_cond_scale.
  eapply spec_bind; [apply Hf |]. intros logits Hl.
  destruct (Qeq_bool cond_scale 1); [apply spec_ret; exact Hl |].
  eapply spec_bind; [apply Hf |]. intros null Hnull.
  eapply spec_bind with (P := fun d => shape d = s).
  { apply total_lift. eapply yields_weaken; [apply yields_binary_same; congruence |].
    intros d Hd. congruence. }
  intros d Hd.
  eapply spec_bind with (P := fun y => shape y = s).
  { apply total_lift. eapply yields_weaken.
    - apply yields_binary_same. unfold scalar_op. cbn [shape apply]. congruence.
    - intros y Hy. congruence. }
  intros scaled Hs.
  destruct (Qeq_bool rescaled_phi 0); [apply spec_ret; exact Hs |].
  set (dims := seq 1 (ndim scaled - 1)).
  assert (Hin : forall t, shape t = s -> forallb (fun d => d <? ndim t) dims = true).
  { intros t Ht. unfold dims, ndim. rewrite Hs, Ht. apply non_batch_axes_in_range. }
  eapply spec_bind with (P := fun y => shape y = reduce_keepdim dims s).
  { apply total_lift. unfold std_keepdim. rewrite (Hin logits Hl). cbn. congruence. }
  intros std_logits Hsl.
  eapply spec_bind with (P := fun y => shape y = reduce_keepdim dims s).
  { apply total_lift. unfold std_keepdim. rewrite (Hin scaled Hs). cbn. congruence. }
  intros std_scaled Hss.
  eapply spec_bind with (P := fun y => shape y = reduce_keepdim dims s).
  { apply total_lift. eapply yields_weaken; [apply yields_binary_same; congruence |].
    intros y Hy. congruence. }
  intros ratio Hr.
  eapply spec_bind with (P := fun y => shape y = s).
  { apply total_lift. unfold binary. rewrite Hs, Hr, broadcast_shapes_reduced.
    cbn. reflexivity. }
  intros rescaled Hres.
  apply total_lift. eapply yields_weaken.
  - apply yields_binary_same. unfold scalar_op. cbn [shape apply]. congruence.
  - intros y Hy. rewrite Hy. unfold scalar_op. cbn [shape apply]. exact Hres.
Qed.

End GuidedShape.

(** X14. [forward_with_cond_scale] returns a tensor of the shape of the
    data, for every guidance scale and every rescale factor: on a vector
    network and a valid input, and on an image network built from a valid
    configuration with [out_dim] left at [channels] and a valid input. *)
Theorem forward_with_cond_scale_keeps_the_shape :
  forall (T : Torch) (Net : Type) (x time : Tensor) (cond : option LongTensor)
         (cond_scale rescaled_phi : Q) (B : nat),
    valid_time B time ->
    (forall (cfg : LinearNetworkConfig) (st0 st1 : State Net) (st : State LinearNetwork),
        LinearNetwork_init cfg st0 = (Ok (net st), st1) ->
        shape x = [B; lc_dim cfg] ->
        valid_cond (lc_cond_dim cfg) B cond ->
        exists y st',
          forward_with_cond_scale x time cond cond_scale rescaled_phi st = (Ok y, st')
          /\ shape y = shape x)
    /\ (forall (cfg : UnetConfig) (st0 st1 : State Net) (st : State Unet) (h w : nat),
        Unet_init cfg st0 = (Ok (net st), st1) ->
        valid_unet_config cfg ->
        default (uc_out_dim cfg) (uc_channels cfg) = uc_channels cfg ->
        shape x = [B; uc_channels cfg;
                   2 ^ (length (uc_dim_mults cfg) - 1) * h;
                   2 ^ (length (uc_dim_mults cfg) - 1) * w] ->
        1 < B * (h * w) ->
        valid_cond (uc_num_classes cfg) B cond ->
        exists y st',
          forward_with_cond_scale x time cond cond_scale rescaled_phi st = (Ok y, st')
          /\ shape y = shape x).
Proof.
  intros T Net x time cond cond_scale rescaled_phi B Hvt. split.
  - intros cfg st0 st1 st Hinit Hx Hvc.
    pose proof (post_LinearNetwork_init cfg st0 _ st1 Hinit) as Hwf. cbv beta in Hwf.
    apply (total_returns _ _ st).
    apply total_forward_with_cond_scale. intros p. rewrite Hx.
    exact (total_LinearNetwork_forward (net st) cfg x time cond p B Hwf Hx Hvt Hvc).
  - intros cfg st0 st1 st h w Hinit Hvalid Hout Hx Hn Hvc.
    pose proof (post_Unet_init cfg Hvalid st0 _ st1 Hinit) as [Hwf Hfa].
    apply (total_returns _ _ st).
    apply total_forward_with_cond_scale. intros p. rewrite Hx, <- Hout.
    exact (total_Unet_forward (net st) cfg Hwf Hvalid Hfa x time cond p B h w Hx Hn Hvt
             Hvc).
Qed.

(** ** Evaluation draws nothing from the random generator *)

Section GeneratorRules.
Context {T : Torch} {Net : Type}.

Lemma kg_ret {A : Type} (a : A) : keeps_generator (Net := Net) (ret a).
Proof. intros st Htr. cbn. auto. Qed.

Lemma kg_raise {A : Type} (e : Exn) : keeps_generator (Net := Net) (raise (A := A) e).
Proof. intros st Htr. cbn. auto. Qed.

Lemma kg_lift {A : Type} (r : Result A) : keeps_generator (Net := Net) (lift r).
Proof. intros st Htr. cbn. auto. Qed.

Lemma kg_log (ev : Event) : keeps_generator (Net := Net) (log ev).
Proof. intros st Htr. cbn. auto. Qed.

Lemma kg_enter (cls : string) : keeps_generator (Net := Net) (enter cls).
Proof. apply kg_log. Qed.

Lemma kg_bind {A B : Type} (m : M Net A) (k : A -> M Net B) :
  keeps_generator m -> (forall a, keeps_generator (k a)) -> keeps_generator (bind m k).
Proof.
  intros Hm Hk st Htr. unfold bind. specialize (Hm st Htr).
  destruct (m st) as [[a | e] st1]; cbn [snd] in Hm |- *.
  - destruct Hm as [Hr Ht]. destruct (Hk a st1 Ht) as [Hr' Ht']. split; congruence.
  - exact Hm.
Qed.

Lemma kg_bind_ret {A B : Type} (a : A) (k : A -> M Net B) :
  keeps_generator (k a) -> keeps_generator (bind (ret a) k).
Proof. intros H st Htr. exact (H st Htr). Qed.

(** In evaluation mode [self.training] is false. *)
Lemma kg_is_training {B : Type} (k : bool -> M Net B) :
  keeps_generator (k false) -> keeps_generator (bind is_training k).
Proof.
  intros H st Htr. unfold bind, is_training. rewrite Htr. exact (H st Htr).
Qed.

Lemma kg_get_self {B : Type} (k : Net -> M Net B) (st : State Net) :
  training st = false -> keeps_generator (k (net st)) ->
  rng (snd (bind get_self k st)) = rng st.
Proof. intros Htr H. exact (proj1 (H st Htr)). Qed.

End GeneratorRules.

Create HintDb kg.

Ltac kg_step :=
  lazymatch goal with
  | |- keeps_generator (bind is_training _) => apply kg_is_training; cbv beta; cbn [andb]
  | |- keeps_generator (bind (ret _) _) => apply kg_bind_ret; cbv beta
  | |- keeps_generator (bind _ _) => apply kg_bind; [| intros ?]
  | |- keeps_generator (ret _) => apply kg_ret
  | |- keeps_generator (raise _) => apply kg_raise
  | |- keeps_generator (lift _) => apply kg_lift
  | |- keeps_generator (enter _) => apply kg_enter
  | |- keeps_generator (log _) => apply kg_log
  | |- keeps_generator (match ?x with _ => _ end) => destruct x
  end.

Ltac kg := repeat first [kg_step | solve [eauto with kg]].

Section GeneratorLayers.
Context {T : Torch} {Net : Type}.

Notation "'quiet' m" := (keeps_generator (Net := Net) m) (at level 10, m at level 9).

Lemma kg_Linear_forward (l : Linear) (x : Tensor) : quiet (Linear_forward l x).
Proof. unfold Linear_forward. kg. Qed.

Lemma kg_LayerNorm_forward (l : LayerNorm) (x : Tensor) : quiet (LayerNorm_forward l x).
Proof. unfold LayerNorm_forward. kg. Qed.

Lemma kg_SiLU_forward (x : Tensor) : quiet (SiLU_forward x).
Proof. unfold SiLU_forward. kg. Qed.

Lemma kg_GELU_forward (x : Tensor) : quiet (GELU_forward x).
Proof. unfold GELU_forward. kg. Qed.

Lemma kg_Identity_forward (x : Tensor) : quiet (Identity_forward x).
Proof. unfold Identity_forward. kg. Qed.

(** [nn.Dropout] is the identity in evaluation mode. *)
Lemma kg_Dropout_forward (d : Dropout) (x : Tensor) : quiet (Dropout_forward d x).
Proof. unfold Dropout_forward. kg. Qed.

Lemma kg_Embedding_forward (e : Embedding) (idx : LongTensor) :
  quiet (Embedding_forward e idx).
Proof. unfold Embedding_forward. kg. Qed.

Lemma kg_SinusoidalPosEmb_forward (dim : nat) (x : Tensor) :
  quiet (SinusoidalPosEmb_forward dim x).
Proof. unfold SinusoidalPosEmb_forward. kg. Qed.

Lemma kg_RandomOrLearnedSinusoidalPosEmb_forward
  (e : RandomOrLearnedSinusoidalPosEmb) (x : Tensor) :
  quiet (RandomOrLearnedSinusoidalPosEmb_forward e x).
Proof. unfold RandomOrLearnedSinusoidalPosEmb_forward. kg. Qed.

Lemma kg_Conv2d_forward (c : Conv2d) (x : Tensor) : quiet (Conv2d_forward c x).
Proof. unfold Conv2d_forward. kg. Qed.

Lemma kg_GroupNorm_forward (g : GroupNorm) (x : Tensor) : quiet (GroupNorm_forward g x).
Proof. unfold GroupNorm_forward. kg. Qed.

Lemma kg_Upsample_forward (x : Tensor) : quiet (Upsample_forward x).
Proof. unfold Upsample_forward. kg. Qed.

Lemma kg_Rearrange_forward (x : Tensor) : quiet (Rearrange_forward x).
Proof. unfold Rearrange_forward. kg. Qed.

Lemma kg_RMSNorm_forward (n : RMSNorm) (x : Tensor) : quiet (RMSNorm_forward n x).
Proof. unfold RMSNorm_forward. kg. Qed.

Hint Resolve kg_Linear_forward kg_LayerNorm_forward kg_SiLU_forward kg_GELU_forward
  kg_Identity_forward kg_Dropout_forward kg_Embedding_forward kg_SinusoidalPosEmb_forward
  kg_RandomOrLearnedSinusoidalPosEmb_forward kg_Conv2d_forward kg_GroupNorm_forward
  kg_Upsample_forward kg_Rearrange_forward kg_RMSNorm_forward : kg.

Lemma kg_Module_forward (m : Module) (x : Tensor) : quiet (Module_forward m x).
Proof. unfold Module_forward. kg. Qed.
Hint Resolve kg_Module_forward : kg.

Lemma kg_Sequential_run (ms : Sequential) (x : Tensor) : quiet (Sequential_run ms x).
Proof. revert x. induction ms as [| m ms IH]; intros x; cbn [Sequential_run]; kg. Qed.
Hint Resolve kg_Sequential_run : kg.

Lemma kg_Sequential_forward (ms : Sequential) (x : Tensor) :
  quiet (Sequential_forward ms x).
Proof. unfold Sequential_forward. kg. Qed.
Hint Resolve kg_Sequential_forward : kg.

Lemma kg_modulate (x : Tensor) (ss : option (list Tensor)) : quiet (modulate x ss).
Proof. unfold modulate. kg. Qed.
Hint Resolve kg_modulate : kg.

Lemma kg_LinearBlock_forward (b : LinearBlock) (x : Tensor) (ss : option (list Tensor)) :
  quiet (LinearBlock_forward b x ss).
Proof. unfold LinearBlock_forward. kg. Qed.
Hint Resolve kg_LinearBlock_forward : kg.

Lemma kg_LinearResnetBlock_forward (b : LinearResnetBlock) (x : Tensor)
  (time_emb cond_emb : option Tensor) :
  quiet (LinearResnetBlock_forward b x time_emb cond_emb).
Proof. unfold LinearResnetBlock_forward. kg. Qed.
Hint Resolve kg_LinearResnetBlock_forward : kg.


Lemma kg_Block_forward (b : Block) (x : Tensor) (ss : option (list Tensor)) :
  quiet (Block_forward b x ss).
Proof. unfold Block_forward. kg. Qed.
Hint Resolve kg_Block_forward : kg.

Lemma kg_ResnetBlock_forward (b : ResnetBlock) (x : Tensor)
  (time_emb class_emb : option Tensor) :
  quiet (ResnetBlock_forward b x time_emb class_emb).
Proof. unfold ResnetBlock_forward. kg. Qed.
Hint Resolve kg_ResnetBlock_forward : kg.

(** [F.scaled_dot_product_attention] with [dropout_p = 0]. *)
Lemma kg_scaled_dot_product_attention (cfg : AttentionConfig) (q k v : Tensor) :
  quiet (scaled_dot_product_attention cfg 0 q k v).
Proof.
  unfold scaled_dot_product_attention. change (Qltb 0 0) with false. kg.
Qed.
Hint Resolve kg_scaled_dot_product_attention : kg.

Lemma kg_Attend_flash_attn (a : Attend) (q k v : Tensor) :
  quiet (Attend_flash_attn a q k v).
Proof. unfold Attend_flash_attn. kg. Qed.
Hint Resolve kg_Attend_flash_attn : kg.

Lemma kg_Attend_forward (a : Attend) (q k v : Tensor) : quiet (Attend_forward a q k v).
Proof. unfold Attend_forward. kg. Qed.
Hint Resolve kg_Attend_forward : kg.

Lemma kg_LinearAttention_forward (a : LinearAttention) (x : Tensor) :
  quiet (LinearAttention_forward a x).
Proof. unfold LinearAttention_forward. kg. Qed.

Lemma kg_Attention_forward (a : Attention) (x : Tensor) : quiet (Attention_forward a x).
Proof. unfold Attention_forward. kg. Qed.
Hint Resolve kg_LinearAttention_forward kg_Attention_forward : kg.

Lemma kg_AttnModule_forward (a : AttnModule) (x : Tensor) : quiet (AttnModule_forward a x).
Proof. unfold AttnModule_forward. kg. Qed.

Lemma kg_Resample_forward (r : Resample) (x : Tensor) : quiet (Resample_forward r x).
Proof. unfold Resample_forward. kg. Qed.

Lemma kg_h_append (h : list Tensor) (x : Tensor) : quiet (h_append h x).
Proof. unfold h_append. kg. Qed.

Lemma kg_h_pop (h : list Tensor) : quiet (h_pop h).
Proof. unfold h_pop. kg. Qed.
Hint Resolve kg_AttnModule_forward kg_Resample_forward kg_h_append kg_h_pop : kg.

End GeneratorLayers.

#[export] Hint Resolve kg_Linear_forward kg_Sequential_forward kg_LinearResnetBlock_forward
  kg_ResnetBlock_forward kg_Attention_forward kg_AttnModule_forward kg_Resample_forward
  kg_Conv2d_forward kg_h_append kg_h_pop : kg.

Section GeneratorNetworks.
Context {T : Torch}.





End GeneratorNetworks.


(** ** Construction of the image network, and its initial width *)

Lemma valid_without_init_dim {T : Torch} (cfg : UnetConfig) :
  valid_unet_config cfg -> valid_unet_config (with_init_dim cfg None).
Proof.
  unfold valid_unet_config, with_init_dim. cbn. intros H.
  repeat match goal with |- _ /\ _ => split end; try apply H; reflexivity.
Qed.

(** What the validity of a configuration says of the settings other than
    [init_dim]. *)
Lemma valid_settings {T : Torch} (cfg : UnetConfig) :
  valid_unet_config (with_init_dim cfg None) ->
  let n := length (uc_dim_mults cfg) in
  uc_learned_sinusoidal_cond cfg = false
  /\ uc_random_fourier_features cfg = false
  /\ (uc_flash_attn cfg = true -> flash_runs)
  /\ uc_dim cfg mod 2 = 0
  /\ 4 <= uc_dim cfg
  /\ length (cast_tuple (uc_attn_heads cfg) n) = n
  /\ length (cast_tuple (uc_attn_dim_head cfg) n) = n
  /\ Forall (fun hd => 1 <= hd) (cast_tuple (uc_attn_heads cfg) n)
  /\ Forall (fun dh => 1 <= dh) (cast_tuple (uc_attn_dim_head cfg) n).
Proof.
  unfold valid_unet_config, with_init_dim. cbn. intros H. tauto.
Qed.

Lemma Unet_specs_length_any (cfg : UnetConfig) :
  let n := length (uc_dim_mults cfg) in
  length (cast_tuple (uc_full_attn cfg) n) = n ->
  length (cast_tuple (uc_attn_heads cfg) n) = n ->
  length (cast_tuple (uc_attn_dim_head cfg) n) = n ->
  length (Unet_specs cfg) = n.
Proof.
  intros n Hfa Hh Hd. unfold Unet_specs, Unet_dims. cbv zeta. cbn [tl].
  rewrite zip_specs_length, in_out_length, length_map.
  fold n. rewrite Hfa, Hh, Hd. lia.
Qed.

Lemma wf_ups_length {T : Torch} (stages : list Stage) (specs : list StageSpec) (m : nat) :
  wf_ups stages specs m -> length stages = length specs.
Proof.
  revert specs. induction stages as [| s stages IH];
    intros [| [[[[i o] fa] hd] dh] specs] H; cbn [wf_ups] in H; try contradiction.
  - reflexivity.
  - cbn [length]. f_equal. apply IH. tauto.
Qed.

Section TotalUnetInit.
Context {T : Torch} {Net : Type}.
Variable n0 : Net.

Lemma total_block_class (cfg : UnetConfig) (classes_dim : option nat) (i o : nat) :
  uc_resnet_block_groups cfg <> 0 ->
  total n0 (block_class cfg classes_dim i o)
    (fun r => wf_ResnetBlock r i o (uc_dim cfg * 4 + default classes_dim 0)).
Proof.
  intros Hg. unfold block_class.
  exact (total_ResnetBlock_init n0 i o (uc_dim cfg * 4) classes_dim _ Hg).
Qed.

Lemma total_attn_class (cfg : UnetConfig) (full_attn : bool) (dim dim_head heads : nat) :
  (uc_flash_attn cfg = true -> flash_runs) ->
  uc_flash_attn cfg && torch_older_than_2 = false -> 1 <= dim_head ->
  total n0 (attn_class cfg full_attn dim dim_head heads)
    (fun a => wf_AttnModule a full_attn dim heads dim_head).
Proof.
  intros Hflash Hcap Hdh. unfold attn_class. destruct full_attn.
  - eapply spec_bind; [apply (total_Attention_init _ _ _ _ _ Hcap Hflash) |]. intros a Ha.
    apply spec_ret. exact Ha.
  - eapply spec_bind; [apply total_LinearAttention_init; lia |]. intros a Ha.
    apply spec_ret. exact Ha.
Qed.

Lemma total_Unet_init_downs (cfg : UnetConfig) (classes_dim : option nat) (n : nat)
  (zipped : list StageSpec) (i : nat) :
  (uc_flash_attn cfg = true -> flash_runs) ->
  uc_flash_attn cfg && torch_older_than_2 = false -> uc_resnet_block_groups cfg <> 0 ->
  heads_ok zipped -> i + length zipped = n ->
  total n0 (Unet_init_downs cfg classes_dim n i zipped)
    (fun stages => wf_downs stages zipped (uc_dim cfg * 4 + default classes_dim 0)).
Proof.
  intros Hflash Hcap Hg. revert i.
  induction zipped as [| [[[[in_dim out_dim] fa] hd] dh] rest IH]; intros i Hok Hlen.
  - apply spec_ret. exact I.
  - cbn [Unet_init_downs]. cbn [length] in Hlen.
    pose proof (Forall_inv Hok) as [Hhd Hdh]. pose proof (Forall_inv_tail Hok) as Hok'.
    eapply spec_bind; [apply (total_block_class cfg classes_dim in_dim in_dim Hg) |].
    intros b1 Hb1.
    eapply spec_bind; [apply (total_block_class cfg classes_dim in_dim in_dim Hg) |].
    intros b2 Hb2.
    eapply spec_bind; [apply (total_attn_class cfg fa in_dim dh hd Hflash Hcap Hdh) |].
    intros a Ha.
    eapply spec_bind with (P := fun r => wf_down_resample r (is_nil rest) in_dim out_dim).
    { destruct (n - 1 <=? i) eqn:Hlast; cbn [negb].
      - apply Nat.leb_le in Hlast.
        destruct rest as [| spec' rest']; [| cbn [length] in Hlen; lia].
        eapply spec_bind; [apply total_Conv2d_init |]. intros c Hc. apply spec_ret. exact Hc.
      - apply Nat.leb_gt in Hlast.
        destruct rest as [| spec' rest']; [cbn [length] in Hlen; lia |].
        eapply spec_bind; [apply (total_downsample n0 in_dim (Some out_dim)) |].
        intros sq Hsq. apply spec_ret. exact Hsq. }
    intros r Hr.
    eapply spec_bind; [apply (IH (S i) Hok'); lia |]. intros stages Hstages.
    apply spec_ret. cbn [wf_downs st_block1 st_block2 st_attn st_resample]. auto.
Qed.

Lemma total_Unet_init_ups (cfg : UnetConfig) (classes_dim : option nat) (n : nat)
  (zipped : list StageSpec) (i : nat) :
  (uc_flash_attn cfg = true -> flash_runs) ->
  uc_flash_attn cfg && torch_older_than_2 = false -> uc_resnet_block_groups cfg <> 0 ->
  heads_ok zipped -> i + length zipped = n ->
  total n0 (Unet_init_ups cfg classes_dim n i zipped)
    (fun stages => wf_ups stages zipped (uc_dim cfg * 4 + default classes_dim 0)).
Proof.
  intros Hflash Hcap Hg. revert i.
  induction zipped as [| [[[[in_dim out_dim] fa] hd] dh] rest IH]; intros i Hok Hlen.
  - apply spec_ret. exact I.
  - cbn [Unet_init_ups]. cbn [length] in Hlen.
    pose proof (Forall_inv Hok) as [Hhd Hdh]. pose proof (Forall_inv_tail Hok) as Hok'.
    eapply spec_bind;
      [apply (total_block_class cfg classes_dim (out_dim + in_dim) out_dim Hg) |].
    intros b1 Hb1.
    eapply spec_bind;
      [apply (total_block_class cfg classes_dim (out_dim + in_dim) out_dim Hg) |].
    intros b2 Hb2.
    eapply spec_bind; [apply (total_attn_class cfg fa out_dim dh hd Hflash Hcap Hdh) |].
    intros a Ha.
    eapply spec_bind with (P := fun r => wf_up_resample r (is_nil rest) in_dim out_dim).
    { destruct (i =? n - 1) eqn:Hlast; cbn [negb].
      - apply Nat.eqb_eq in Hlast.
        destruct rest as [| spec' rest']; [| cbn [length] in Hlen; lia].
        eapply spec_bind; [apply total_Conv2d_init |]. intros c Hc. apply spec_ret. exact Hc.
      - apply Nat.eqb_neq in Hlast.
        destruct rest as [| spec' rest']; [cbn [length] in Hlen; lia |].
        eapply spec_bind; [apply (total_upsample n0 out_dim (Some in_dim)) |].
        intros sq Hsq. apply spec_ret. exact Hsq. }
    intros r Hr.
    eapply spec_bind; [apply (IH (S i) Hok'); lia |]. intros stages Hstages.
    apply spec_ret. cbn [wf_ups st_block1 st_block2 st_attn st_resample]. auto.
Qed.

Lemma total_last_item {A : Type} (l : list A) :
  l <> [] -> total n0 (last_item l) (fun a => In a l).
Proof.
  intros Hl. unfold last_item. destruct (rev l) as [| a r] eqn:Hr.
  - exfalso. apply Hl. rewrite <- (rev_involutive l), Hr. reflexivity.
  - apply spec_ret. apply in_rev. rewrite Hr. left. reflexivity.
Qed.

(** [Unet.__init__] returns, for every buildable configuration. *)
Lemma total_Unet_init (cfg : UnetConfig) :
  buildable_unet_config cfg ->
  total n0 (Unet_init cfg)
    (fun n => wf_Unet n cfg
              /\ u_cond_drop_prob n
                 = (if exists_ (uc_num_classes cfg) then uc_cond_drop_prob cfg else 1%Q)).
Proof.
  intros (Hvalid & Hne & Hg & Hfa & Hcap & _).
  pose proof (valid_settings cfg Hvalid)
    as (Hlearned & Hrandom & Hflash & _ & _ & Hh & Hd & Hheads & Hdhs).
  cbv zeta in Hh, Hd, Hheads, Hdhs.
  unfold Unet_init. rewrite Hlearned, Hrandom. cbn [orb].
  eapply spec_bind; [apply total_Conv2d_init |]. intros init_conv Hinit.
  eapply spec_bind with
    (P := fun r => r = (MSinusoidalPosEmb (uc_dim cfg), uc_dim cfg));
    [apply spec_ret; reflexivity |].
  intros [sinu fourier_dim] [= -> ->].
  eapply spec_bind; [apply total_Linear_init |]. intros l1 Hl1.
  eapply spec_bind; [apply total_Linear_init |]. intros l2 Hl2.
  eapply spec_bind with
    (P := fun r => wf_optional_Conditioning (fst (fst r)) (uc_num_classes cfg) (uc_dim cfg)
                   /\ snd (fst r) = option_map (fun _ => uc_dim cfg * 4) (uc_num_classes cfg)
                   /\ snd r = (if exists_ (uc_num_classes cfg) then uc_cond_drop_prob cfg
                               else 1%Q)).
  { destruct (uc_num_classes cfg) as [k |].
    - eapply spec_bind; [apply total_Conditioning_init |]. intros cm Hcm.
      apply spec_ret. cbn. auto.
    - apply spec_ret. cbn. auto. }
  intros [[conditioning classes_dim] cdp] (Hc & Hcd & Hcdp). cbn [fst snd] in Hc, Hcd, Hcdp.
  assert (Hmlp : uc_dim cfg * 4 + default classes_dim 0
                 = uc_dim cfg * 4 + cond_embed_dim (uc_num_classes cfg) (uc_dim cfg)).
  { subst classes_dim. unfold cond_embed_dim. destruct (uc_num_classes cfg); reflexivity. }
  rewrite Hfa, Nat.eqb_refl.
  eapply spec_bind with (P := fun _ => True); [apply spec_ret; exact I |]. intros _ _.
  pose proof (Unet_specs_length_any cfg Hfa Hh Hd) as Hlen.
  assert (Hio : length (combine (removelast (Unet_dims cfg)) (tl (Unet_dims cfg)))
                = length (uc_dim_mults cfg)).
  { unfold Unet_dims. cbn [tl]. now rewrite in_out_length, length_map. }
  assert (Hok : heads_ok (Unet_specs cfg)).
  { unfold Unet_specs. cbv zeta. apply zip_specs_heads_ok; assumption. }
  eapply spec_bind.
  { apply (total_Unet_init_downs cfg classes_dim _ (Unet_specs cfg) 0 Hflash Hcap Hg Hok).
    rewrite Hlen. symmetry. exact Hio. }
  intros downs Hdowns.
  eapply spec_bind; [apply (total_block_class cfg classes_dim _ _ Hg) |]. intros mid1 Hmid1.
  eapply spec_bind.
  { apply total_last_item. intros E. rewrite E in Hh. cbn [length] in Hh.
    destruct (uc_dim_mults cfg); [contradiction | discriminate]. }
  intros mh Hmh.
  eapply spec_bind.
  { apply total_last_item. intros E. rewrite E in Hd. cbn [length] in Hd.
    destruct (uc_dim_mults cfg); [contradiction | discriminate]. }
  intros mdh Hmdh.
  eapply spec_bind; [apply (total_Attention_init _ _ _ _ _ Hcap Hflash) |].
  intros mid_attn Hattn.
  eapply spec_bind; [apply (total_block_class cfg classes_dim _ _ Hg) |]. intros mid2 Hmid2.
  unfold Unet_dims in Hio.
  rewrite zip_specs_rev by (rewrite Hio; assumption).
  eapply spec_bind.
  { apply (total_Unet_init_ups cfg classes_dim _ (rev (Unet_specs cfg)) 0 Hflash Hcap Hg).
    - apply Forall_rev, Hok.
    - rewrite length_rev, Hlen. symmetry. exact Hio. }
  intros ups Hups.
  eapply spec_bind; [apply (total_block_class cfg classes_dim _ _ Hg) |].
  intros final_res Hfinal.
  eapply spec_bind; [apply total_Conv2d_init |]. intros final_conv Hfc.
  apply spec_ret. split; [| exact Hcdp].
  unfold wf_Unet. cbv zeta.
  cbn [u_init_conv u_time_mlp u_conditioning u_downs u_ups u_mid_block1 u_mid_attn
       u_mid_block2 u_final_res_block u_final_conv].
  rewrite <- Hmlp.
  repeat match goal with |- _ /\ _ => split end; try assumption; try reflexivity.
  exists mh, mdh. auto.
Qed.

End TotalUnetInit.

(** X16. [Unet.__init__] returns a network for every configuration that is
    valid but for its [init_dim], has at least one stage, one [full_attn]
    setting per stage and a group count other than zero.  The network has
    one encoder and one decoder stage per entry of [dim_mults], is
    conditional exactly when [num_classes] is given, and has a dropout
    default of one when it is not. *)
Theorem Unet_init_builds_one_stage_per_multiplier :
  forall (T : Torch) (Net : Type) (cfg : UnetConfig) (st0 : State Net),
    buildable_unet_config cfg ->
    exists n st1,
      Unet_init cfg st0 = (Ok n, st1)
      /\ length (u_downs n) = length (uc_dim_mults cfg)
      /\ length (u_ups n) = length (uc_dim_mults cfg)
      /\ is_conditional_model n = exists_ (uc_num_classes cfg)
      /\ u_cond_drop_prob n
         = (if exists_ (uc_num_classes cfg) then uc_cond_drop_prob cfg else 1%Q).
Proof.
  intros T Net cfg st0 Hb.
  destruct (total_returns _ _ st0 (total_Unet_init (net st0) cfg Hb))
    as (n & st1 & E & Hwf & Hcdp).
  exists n, st1. split; [exact E |].
  destruct Hb as (Hvalid & _ & _ & Hfa & _).
  pose proof (valid_settings cfg Hvalid) as (_ & _ & _ & _ & _ & Hh & Hd & _).
  cbv zeta in Hh, Hd.
  pose proof (Unet_specs_length_any cfg Hfa Hh Hd) as Hlen.
  destruct Hwf as (_ & _ & Hcond & Hdowns & _ & _ & _ & Hups & _).
  split; [rewrite (wf_downs_length _ _ _ Hdowns); exact Hlen |].
  split; [rewrite (wf_ups_length _ _ _ Hups), length_rev; exact Hlen |].
  split; [| exact Hcdp].
  unfold is_conditional_model. cbn [cond_dim_of Unet_BFNetwork].
  unfold wf_optional_Conditioning in Hcond.
  destruct (u_conditioning n), (uc_num_classes cfg); try contradiction; reflexivity.
Qed.

(** *** An initial width other than [dim]

    [final_res_block] is built for [dim * 2] input channels (line 774),
    and receives the [init_dim * 2] channels of the decoder output and the
    skip of [init_conv]. *)

Section InitDim.
Context {T : Torch} {Net : Type}.
Variable n0 : Net.

Lemma raises_Conv2d_forward (c : Conv2d) (x : Tensor) (b ch h w : nat) :
  shape x = [b; ch; h; w] -> ch <> in_channels c ->
  raises n0 (Conv2d_forward c x) (RuntimeError "expected input to have in_channels channels").
Proof.
  intros Hx Hch. unfold Conv2d_forward.
  eapply raises_bind_r; [apply total_enter | intros _ _].
  rewrite Hx. destruct (ch =? in_channels c) eqn:E; [apply Nat.eqb_eq in E; contradiction |].
  apply raises_raise.
Qed.

Lemma raises_ResnetBlock_forward (self : ResnetBlock) (x time : Tensor) (c : option Tensor)
  (b i o td cd ch h w : nat) :
  wf_ResnetBlock self i o (td + cd) ->
  shape x = [b; ch; h; w] -> ch <> i ->
  shape time = [b; td] -> has_cond_shape c b cd ->
  raises n0 (ResnetBlock_forward self x (Some time) c)
    (RuntimeError "expected input to have in_channels channels").
Proof.
  intros (Hmlp & Hb1 & Hb2 & Hres) Hx Hch Ht Hc. unfold ResnetBlock_forward.
  eapply raises_bind_r; [apply total_enter | intros _ _].
  destruct (rb_mlp self) as [mlp |]; [| contradiction].
  cbn [exists_ orb].
  eapply raises_bind_r with (P := fun _ => True).
  { eapply spec_bind; [apply total_lift, (yields_cat_embeddings time c b td cd Ht Hc) |].
    intros e He.
    eapply spec_bind; [apply (total_mlp n0 mlp e b _ _ Hmlp He) |]. intros e2 He2.
    eapply spec_bind.
    { apply total_lift. apply (yields_chunk2_channels (unsqueeze_last2 e2) b o 1 1).
      unfold unsqueeze_last2. cbn [shape apply]. rewrite He2. reflexivity. }
    intros ss _. apply spec_ret. exact I. }
  intros ss _. apply raises_bind_l. unfold Block_forward.
  eapply raises_bind_r; [apply total_enter | intros _ _].
  apply raises_bind_l. destruct Hb1 as ((Hi & _) & _).
  apply (raises_Conv2d_forward _ x b ch h w Hx). rewrite Hi. exact Hch.
Qed.

End InitDim.

Section InitDimUnet.
Context {T : Torch}.
Variable n0 : Unet.
Variable cfg : UnetConfig.
Hypothesis Hwf : wf_Unet n0 cfg.
Hypothesis Hvalid : valid_unet_config (with_init_dim cfg None).
Hypothesis Hfa :
  length (cast_tuple (uc_full_attn cfg) (length (uc_dim_mults cfg)))
  = length (uc_dim_mults cfg).

Lemma total_Unet_time_any (t1 : Tensor) (b : nat) :
  shape t1 = [b] ->
  total n0 (Sequential_forward (u_time_mlp n0) t1)
    (fun t => shape t = [b; uc_dim cfg * 4]).
Proof.
  intros Ht1. destruct Hwf as (_ & Htime & _).
  pose proof (valid_settings cfg Hvalid) as (_ & _ & _ & Hev & Hdim & _).
  destruct (u_time_mlp n0)
    as [| [| | | d | | | | |] [| [l1 | | | | | | | |] [| [] [| [l2 | | | | | | | |] [|]]]]];
    try contradiction.
  destruct Htime as (-> & H1 & H2).
  unfold Sequential_forward.
  eapply spec_bind; [apply total_enter | intros _ _].
  cbn [Sequential_run Module_forward].
  eapply spec_bind; [apply (total_SinusoidalPosEmb_forward n0 _ t1 b Hev Hdim Ht1) |].
  intros t2 Ht2.
  eapply spec_bind; [apply (total_Linear_forward n0 l1 t2 b _ _ H1 Ht2) |]. intros t3 Ht3.
  eapply spec_bind; [apply total_GELU_forward |]. intros t4 Ht4.
  eapply spec_bind; [apply (total_Linear_forward n0 l2 t4 b _ _ H2); congruence |].
  intros t5 Ht5. apply spec_ret. exact Ht5.
Qed.

(** On a valid input the network runs up to [final_res_block], which
    refuses what it receives. *)
Lemma raises_Unet_forward_stack (x time : Tensor) (classes : option LongTensor)
  (p : option Q) (B h w : nat) :
  let k := length (uc_dim_mults cfg) - 1 in
  default (uc_init_dim cfg) (uc_dim cfg) <> uc_dim cfg ->
  shape x = [B; uc_channels cfg; 2 ^ k * h; 2 ^ k * w] ->
  1 < B * (h * w) ->
  valid_time B time -> valid_cond (uc_num_classes cfg) B classes ->
  raises n0 (Unet_forward_stack x time classes p)
    (RuntimeError "expected input to have in_channels channels").
Proof.
  intros k Hd0 Hx Hn Hvt Hvc.
  assert (Hh : 1 <= h) by nia. assert (Hw : 1 <= w) by nia.
  pose proof Hwf as (Hinit & _ & Hcond & Hdowns & Hmid1 & (mh & mdh & Hmh & Hmdh & Hattn)
                     & Hmid2 & Hups & Hfinal & Hfc).
  pose proof (valid_settings cfg Hvalid) as (_ & _ & _ & _ & _ & Hhl & Hdl' & Hheads & Hdhs).
  cbv zeta in Hhl, Hdl', Hheads, Hdhs.
  set (d0 := default (uc_init_dim cfg) (uc_dim cfg)) in *.
  pose proof (Unet_specs_length_any cfg Hfa Hhl Hdl') as Hlen.
  pose proof (wf_downs_length _ _ _ Hdowns) as Hdl. rewrite Hlen in Hdl.
  set (H := 2 ^ k * h) in *. set (W := 2 ^ k * w) in *.
  assert (HH : H = h * 2 ^ k) by apply Nat.mul_comm.
  assert (HW : W = w * 2 ^ k) by apply Nat.mul_comm.
  assert (HH1 : 1 <= H) by (rewrite HH; apply scaled_positive; exact Hh).
  assert (HW1 : 1 <= W) by (rewrite HW; apply scaled_positive; exact Hw).
  assert (HN : 1 < B * (H * W)) by (rewrite HH, HW; apply scaled_nondegenerate; exact Hn).
  assert (Hok : heads_ok (Unet_specs cfg)).
  { unfold Unet_specs. cbv zeta. apply zip_specs_heads_ok; assumption. }
  assert (Hch : chained d0 (Unet_specs cfg) (last (Unet_dims cfg) d0)).
  { unfold Unet_specs, Unet_dims. cbv zeta. cbn [tl]. fold d0.
    apply in_out_chained; rewrite length_map; assumption. }
  unfold Unet_forward_stack.
  eapply spec_bind; [apply spec_get_self |]. intros self ->.
  unfold shape0. rewrite Hx.
  eapply raises_bind_r with (P := fun n => n = B); [apply total_lift; reflexivity |].
  intros ? ->.
  eapply raises_bind_r with
    (P := fun c => has_cond_shape c B (cond_embed_dim (uc_num_classes cfg) (uc_dim cfg))).
  { unfold Unet_conditioning. unfold wf_optional_Conditioning in Hcond.
    destruct (u_conditioning n0) as [cm |], (uc_num_classes cfg) as [nc |];
      try contradiction.
    - eapply spec_bind.
      { apply (total_class_conditioning n0 cm _ B nc (uc_dim cfg) classes p Hcond Hvc). }
      intros c Hc. apply spec_ret. exact Hc.
    - apply spec_ret. reflexivity. }
  intros c Hc.
  unfold Unet_main.
  assert (Hdiv : forallb (divisible_by_factor (length (u_downs n0))) (last2 (shape x))
                 = true).
  { rewrite Hx, Hdl. change (last2 [B; uc_channels cfg; H; W]) with [H; W].
    subst k. destruct (length (uc_dim_mults cfg)) as [| m]; [reflexivity |].
    cbn [forallb divisible_by_factor]. rewrite Nat.sub_succ, Nat.sub_0_r in HH, HW.
    rewrite HH, HW, !Nat.Div0.mod_mul. reflexivity. }
  rewrite Hdiv.
  eapply raises_bind_r with (P := fun _ => True); [apply spec_ret; exact I |]. intros _ _.
  eapply raises_bind_r.
  { apply (total_Conv2d_forward n0 _ x B _ _ 3 H W Hinit Hx HH1 HW1). }
  intros x0 Hx0. fold d0 in Hx0.
  eapply raises_bind_r.
  { apply (total_Unet_time_any _ B). apply expanded_time_shape. exact Hvt. }
  intros t Ht.
  set (mid_dim := last (Unet_dims cfg) d0) in *.
  eapply raises_bind_r.
  { apply (total_Unet_downs n0 t c B _ _ Ht Hc (u_downs n0) (Unet_specs cfg) x0 []
             d0 mid_dim h w Hdowns Hch Hok Hh Hw Hn).
    rewrite Hlen. fold k. rewrite <- HH, <- HW. exact Hx0. }
  intros [x1 hs] [Hx1 Hhs]. cbn [fst snd map] in Hx1, Hhs. rewrite app_nil_r in Hhs.
  assert (Hmh1 : 1 <= mh) by (eapply Forall_forall in Hheads; eauto).
  assert (Hmdh1 : 1 <= mdh) by (eapply Forall_forall in Hdhs; eauto).
  eapply raises_bind_r.
  { apply (total_ResnetBlock_forward n0 _ x1 t c B mid_dim mid_dim _ _ h w Hmid1 Hx1 Hh Hw Hn
             Ht Hc). }
  intros x2 Hx2.
  eapply raises_bind_r.
  { apply (total_Attention_forward n0 _ x2 B mid_dim mh mdh h w Hattn Hmh1 Hmdh1 Hx2 Hh Hw). }
  intros a Ha.
  eapply raises_bind_r with (P := fun y => shape y = [B; mid_dim; h; w]).
  { apply total_lift. eapply yields_weaken; [apply yields_binary_same; congruence |].
    intros y Hy. congruence. }
  intros x3 Hx3.
  eapply raises_bind_r.
  { apply (total_ResnetBlock_forward n0 _ x3 t c B mid_dim mid_dim _ _ h w Hmid2 Hx3 Hh Hw Hn
             Ht Hc). }
  intros x4 Hx4.
  eapply raises_bind_r.
  { apply (total_Unet_ups n0 t c B _ _ Ht Hc (u_ups n0) (rev (Unet_specs cfg)) x4 hs []
             mid_dim d0 h w Hups).
    - apply chained_rev, Hch.
    - apply Forall_rev, Hok.
    - exact Hh.
    - exact Hw.
    - exact Hn.
    - exact Hx4.
    - rewrite app_nil_r. exact Hhs. }
  intros [x5 hs'] [Hx5 Hhs']. cbn [fst snd] in Hx5, Hhs'.
  rewrite length_rev, Hlen in Hx5. fold k in Hx5. rewrite <- HH, <- HW in Hx5.
  eapply raises_bind_r.
  { apply total_lift.
    apply (yields_cat_channels x5 (clone x0) B d0 d0 H W Hx5).
    exact Hx0. }
  intros x6 Hx6. apply raises_bind_l.
  apply (raises_ResnetBlock_forward n0 _ x6 t c B (uc_dim cfg * 2) (uc_dim cfg) _ _
           (d0 + d0) H W Hfinal Hx6); [lia | exact Ht | exact Hc].
Qed.

End InitDimUnet.

(** X17. A network built with an [init_dim] other than [dim], from a
    configuration that is valid otherwise, cannot run: on every valid
    input [Unet.forward] raises the [RuntimeError] of a convolution that
    receives another number of channels than it was built for, in
    [final_res_block]. *)
Theorem Unet_with_another_init_dim_cannot_run :
  forall (T : Torch) (Net : Type) (cfg : UnetConfig) (d : nat) (st0 st1 : State Net)
         (st : State Unet) (x time : Tensor) (classes : option LongTensor) (p : option Q)
         (B h w : nat),
    buildable_unet_config cfg ->
    uc_init_dim cfg = Some d ->
    d <> uc_dim cfg ->
    Unet_init cfg st0 = (Ok (net st), st1) ->
    shape x = [B; uc_channels cfg;
               2 ^ (length (uc_dim_mults cfg) - 1) * h;
               2 ^ (length (uc_dim_mults cfg) - 1) * w] ->
    1 < B * (h * w) ->
    valid_time B time ->
    valid_cond (uc_num_classes cfg) B classes ->
    exists msg st', Unet_forward x time classes p st = (Raise (RuntimeError msg), st').
Proof.
  intros T Net cfg d st0 st1 st x time classes p B h w Hb Hd Hne Hinit Hx Hn Hvt Hvc.
  pose proof (total_Unet_init (net st0) cfg Hb st0 eq_refl) as Ht.
  rewrite Hinit in Ht. destruct Ht as (_ & _ & Hwf & _).
  destruct Hb as (Hvalid & _ & _ & Hfa & _).
  assert (Hd0 : default (uc_init_dim cfg) (uc_dim cfg) <> uc_dim cfg).
  { rewrite Hd. exact Hne. }
  destruct (raises_run _ _ st
              (raises_Unet_forward_stack (net st) cfg Hwf Hvalid Hfa x time classes p B h w
                 Hd0 Hx Hn Hvt Hvc))
    as (st' & E & _).
  eexists _, st'. unfold Unet_forward. rewrite (bind_Raise _ E). reflexivity.
Qed.

(** ** Group normalisation of a block, at construction and in forward *)

Section BlockGroups.
Context {T : Torch} {Net : Type}.
Variable n0 : Net.

Lemma list_prod_2 (h w : nat) : list_prod [h; w] = h * w.
Proof. cbn. lia. Qed.

(** [nn.GroupNorm] returns unless a group holds a single value. *)
Lemma total_GroupNorm_forward_values (self : GroupNorm) (x : Tensor) (b c h w : nat) :
  num_channels self = c -> num_groups self <> 0 -> c mod num_groups self = 0 ->
  shape x = [b; c; h; w] -> b * c / num_groups self * (h * w) <> 1 ->
  total n0 (GroupNorm_forward self x) (fun y => shape y = [b; c; h; w]).
Proof.
  intros Hc Hg Hdiv Hx Hn. unfold GroupNorm_forward.
  eapply spec_bind; [apply total_enter | intros _ _].
  rewrite Hx, list_prod_2.
  destruct (num_groups self =? 0) eqn:H0; [apply Nat.eqb_eq in H0; contradiction |].
  destruct (b * c / num_groups self * (h * w) =? 1) eqn:H1;
    [apply Nat.eqb_eq in H1; contradiction |].
  apply Nat.eqb_eq in Hdiv. rewrite Hdiv, Hc, Nat.eqb_refl. cbn [negb].
  apply spec_ret. reflexivity.
Qed.

Lemma raises_GroupNorm_forward (self : GroupNorm) (x : Tensor) (b c h w : nat) :
  num_groups self <> 0 ->
  shape x = [b; c; h; w] -> b * c / num_groups self * (h * w) = 1 ->
  raises n0 (GroupNorm_forward self x)
    (ValueError (one_value_message [b * c / num_groups self; num_groups self; h; w])).
Proof.
  intros Hg Hx Hn. unfold GroupNorm_forward.
  eapply raises_bind_r; [apply total_enter | intros _ _].
  rewrite Hx, list_prod_2.
  destruct (num_groups self =? 0) eqn:H0; [apply Nat.eqb_eq in H0; contradiction |].
  apply Nat.eqb_eq in Hn. rewrite Hn. apply raises_raise.
Qed.

(** [Block.forward] on an input of the width the block was built for:
    it returns a tensor of the output width, unless the normalisation
    would see a single value per group, which [nn.GroupNorm] refuses. *)
Lemma total_Block_forward_values (self : Block) (x : Tensor)
  (scale_shift : option (list Tensor)) (b i o h w : nat) :
  wf_Block self i o ->
  shape x = [b; i; h; w] -> 1 <= h -> 1 <= w ->
  b * o / num_groups (b_norm self) * (h * w) <> 1 ->
  valid_scale_shift scale_shift b o ->
  total n0 (Block_forward self x scale_shift) (fun y => shape y = [b; o; h; w]).
Proof.
  intros (Hproj & Hnc & Hng & Hdiv) Hx Hh Hw Hn Hss. unfold Block_forward.
  eapply spec_bind; [apply total_enter | intros _ _].
  eapply spec_bind; [apply (total_Conv2d_forward _ _ x b i o 1 h w Hproj Hx Hh Hw) |].
  intros y Hy.
  eapply spec_bind;
    [apply (total_GroupNorm_forward_values _ y b o h w Hnc Hng Hdiv Hy Hn) |].
  intros z Hz.
  eapply spec_bind with (P := fun u => shape u = [b; o; h; w]).
  { destruct scale_shift as [ss |].
    - destruct Hss as (s1 & s2 & -> & Hs1 & Hs2).
      apply (total_modulate_channelwise _ z s1 s2 b o h w Hz Hs1 Hs2).
    - apply spec_ret. exact Hz. }
  intros u Hu. eapply spec_weaken; [apply total_SiLU_forward |].
  intros a Ha. congruence.
Qed.

Lemma raises_Block_forward (self : Block) (x : Tensor) (scale_shift : option (list Tensor))
  (b i o h w : nat) :
  wf_Block self i o ->
  shape x = [b; i; h; w] -> 1 <= h -> 1 <= w ->
  b * o / num_groups (b_norm self) * (h * w) = 1 ->
  raises n0 (Block_forward self x scale_shift)
    (ValueError (one_value_message
                   [b * o / num_groups (b_norm self); num_groups (b_norm self); h; w])).
Proof.
  intros (Hproj & Hnc & Hng & Hdiv) Hx Hh Hw Hn. unfold Block_forward.
  eapply raises_bind_r; [apply total_enter | intros _ _].
  eapply raises_bind_r;
    [apply (total_Conv2d_forward _ _ x b i o 1 h w Hproj Hx Hh Hw) |].
  intros y Hy. apply raises_bind_l.
  apply (raises_GroupNorm_forward _ y b o h w Hng Hy Hn).
Qed.

End BlockGroups.

(** C10, as amended.  A group count of zero makes [Block.__init__] raise
    [ZeroDivisionError] ([out_dim % groups]), for every width.  For every
    other group count and at least one input and one output channel,
    construction returns a block: its group normalisation uses a single
    group when the configured count does not divide the output width, and
    the configured count when it does; no error is raised for the
    mismatch, at construction or in [forward].  [forward] of the block, on
    every input [(B, in_dim, H, W)] of at least one sample and one pixel,
    returns a tensor [(B, out_dim, H, W)], unless the normalisation would
    see a single value per group ([B * out_dim // groups_used * H * W =
    1]), which [nn.GroupNorm] refuses with a [ValueError] for every group
    count.  The same holds of the residual blocks the network builds
    through [block_class]: both their blocks fall back alike, and their
    [forward] returns on every input of more than one value per channel. *)
Theorem Block_groups_fall_back_to_one :
  forall (T : Torch) (Net : Type) (in_dim out_dim groups : nat) (st : State Net),
    (groups = 0 ->
       Block_init in_dim out_dim groups st
       = (Raise (ZeroDivisionError modulo_message), st))
    /\ (groups <> 0 -> 0 < in_dim -> 0 < out_dim ->
        exists b st',
          Block_init in_dim out_dim groups st = (Ok b, st')
          /\ num_channels (b_norm b) = out_dim
          /\ (out_dim mod groups <> 0 -> num_groups (b_norm b) = 1)
          /\ (out_dim mod groups = 0 -> num_groups (b_norm b) = groups)
          /\ (forall (x : Tensor) (scale_shift : option (list Tensor)) (B h w : nat)
                     (s : State Net),
                shape x = [B; in_dim; h; w] -> 1 <= B -> 1 <= h -> 1 <= w ->
                valid_scale_shift scale_shift B out_dim ->
                (B * out_dim / num_groups (b_norm b) * (h * w) <> 1 ->
                 exists y s',
                   Block_forward b x scale_shift s = (Ok y, s')
                   /\ shape y = [B; out_dim; h; w])
                /\ (B * out_dim / num_groups (b_norm b) * (h * w) = 1 ->
                    exists s',
                      Block_forward b x scale_shift s
                      = (Raise (ValueError
                                  (one_value_message
                                     [B * out_dim / num_groups (b_norm b);
                                      num_groups (b_norm b); h; w])), s'))))
    /\ (groups <> 0 -> 0 < in_dim -> 0 < out_dim ->
        forall (cfg : UnetConfig) (classes_dim : option nat),
          uc_resnet_block_groups cfg = groups -> 0 < uc_dim cfg ->
          exists rb st',
            block_class cfg classes_dim in_dim out_dim st = (Ok rb, st')
            /\ num_groups (b_norm (rb_block1 rb))
               = (if out_dim mod groups =? 0 then groups else 1)
            /\ num_groups (b_norm (rb_block2 rb))
               = (if out_dim mod groups =? 0 then groups else 1)
            /\ (forall (x time : Tensor) (c : option Tensor) (B h w : nat) (s : State Net),
                  shape x = [B; in_dim; h; w] -> 1 < B * (h * w) ->
                  shape time = [B; uc_dim cfg * 4] ->
                  has_cond_shape c B (default classes_dim 0) ->
                  exists y s',
                    ResnetBlock_forward rb x (Some time) c s = (Ok y, s')
                    /\ shape y = [B; out_dim; h; w])).
Proof.
  intros T Net in_dim out_dim groups st. split; [| split].
  - intros ->. reflexivity.
  - intros Hg _ _.
    destruct (Block_init_run in_dim out_dim _ st Hg) as (b & st' & E & Hng & Hnc & _).
    pose proof (total_Block_init (net st) in_dim out_dim groups Hg st eq_refl) as Hwf.
    rewrite E in Hwf. destruct Hwf as (_ & _ & Hwf).
    exists b, st'. split; [exact E |]. split; [exact Hnc |]. split; [| split].
    + intros H. apply Nat.eqb_neq in H. rewrite H in Hng. exact Hng.
    + intros H. apply Nat.eqb_eq in H. rewrite H in Hng. exact Hng.
    + intros x scale_shift B h w s Hx _ Hh Hw Hss. split.
      * intros Hn.
        exact (total_returns _ _ s
                 (total_Block_forward_values (net s) b x scale_shift B in_dim out_dim h w
                    Hwf Hx Hh Hw Hn Hss)).
      * intros Hn.
        destruct (raises_run _ _ s
                    (raises_Block_forward (net s) b x scale_shift B in_dim out_dim h w
                       Hwf Hx Hh Hw Hn))
          as (s' & Es & _).
        exists s'. exact Es.
  - intros Hg _ _ cfg classes_dim Hcfg _.
    pose proof (total_ResnetBlock_init (net st) in_dim out_dim (uc_dim cfg * 4) classes_dim
                  groups Hg st eq_refl) as Hwf.
    unfold block_class. rewrite Hcfg. unfold ResnetBlock_init in *. cbn [exists_ orb] in *.
    match goal with |- context [Linear_init ?i ?o] =>
      destruct (Linear_init_run (Net := Net) i o st) as (l & st0 & El & _ & _ & _ & _) end.
    rewrite bind_assoc, (bind_Ok _ El), bind_ret in Hwf |- *.
    destruct (Block_init_run in_dim out_dim _ st0 Hg) as (b1 & st1 & E1 & Hg1 & _).
    rewrite (bind_Ok _ E1) in Hwf |- *.
    destruct (Block_init_run out_dim out_dim _ st1 Hg) as (b2 & st2 & E2 & Hg2 & _).
    rewrite (bind_Ok _ E2) in Hwf |- *.
    assert (Hfw : forall rb : ResnetBlock,
               wf_ResnetBlock rb in_dim out_dim (uc_dim cfg * 4 + default classes_dim 0) ->
               forall (x time : Tensor) (c : option Tensor) (B h w : nat) (s : State Net),
                 shape x = [B; in_dim; h; w] -> 1 < B * (h * w) ->
                 shape time = [B; uc_dim cfg * 4] ->
                 has_cond_shape c B (default classes_dim 0) ->
                 exists y s',
                   ResnetBlock_forward rb x (Some time) c s = (Ok y, s')
                   /\ shape y = [B; out_dim; h; w]).
    { intros rb Hrb x time c B h w s Hx Hn Ht Hc.
      assert (Hh : 1 <= h) by nia. assert (Hw : 1 <= w) by nia.
      exact (total_returns _ _ s
               (total_ResnetBlock_forward (net s) rb x time c B in_dim out_dim _ _ h w
                  Hrb Hx Hh Hw Hn Ht Hc)). }
    destruct (negb (in_dim =? out_dim)).
    + destruct (Conv2d_init_run in_dim out_dim 1 0 true st2) as (c & st3 & Ec & _).
      rewrite bind_assoc, (bind_Ok _ Ec), !bind_ret in Hwf |- *.
      unfold ret in Hwf. destruct Hwf as (_ & _ & Hwf).
      eexists _, _. split; [reflexivity |]. cbn [rb_block1 rb_block2].
      split; [exact Hg1 |]. split; [exact Hg2 |]. exact (Hfw _ Hwf).
    + rewrite !bind_ret in Hwf |- *.
      unfold ret in Hwf. destruct Hwf as (_ & _ & Hwf).
      eexists _, _. split; [reflexivity |]. cbn [rb_block1 rb_block2].
      split; [exact Hg1 |]. split; [exact Hg2 |]. exact (Hfw _ Hwf).
Qed.

(** ** Flash attention, at construction *)

Lemma zip_specs_dim_heads_ok (in_out : list (nat * nat)) (fa : list bool) (hs dhs : list nat) :
  Forall (fun dh => 1 <= dh) dhs -> dim_heads_ok (zip_specs in_out fa hs dhs).
Proof.
  intros Hd. unfold dim_heads_ok, zip_specs. revert in_out fa hs.
  induction Hd as [| dh dhs Hdh _ IH]; intros in_out fa hs.
  - destruct in_out, fa, hs; constructor.
  - destruct in_out as [| io in_out], fa as [| f fa], hs as [| h hs]; try constructor.
    + lia.
    + apply IH.
Qed.

Lemma cast_tuple_not_nil {A : Type} (t : TupleOr A) (l : list nat) :
  l <> [] -> length (cast_tuple t (length l)) = length l -> cast_tuple t (length l) <> [].
Proof.
  intros Hl Hlen E. rewrite E in Hlen. destruct l; [contradiction | discriminate].
Qed.

Section FlashConstruction.
Context {T : Torch} {Net : Type}.
Variable n0 : Net.

Lemma raises_Attention_init_flash (dim heads dim_head : nat) :
  torch_older_than_2 = true ->
  raises n0 (Attention_init dim heads dim_head true) (AssertionError flash_message).
Proof.
  intros Hold st Hst. rewrite (Attention_init_old_torch dim heads dim_head st Hold). auto.
Qed.

(** On a torch older than 2.0 the first loop of [Unet.__init__] either
    meets a stage with full attention, and raises, or returns. *)
Lemma flash_Unet_init_downs (cfg : UnetConfig) (classes_dim : option nat) (n : nat)
  (zipped : list StageSpec) (i : nat) :
  torch_older_than_2 = true -> uc_flash_attn cfg = true ->
  uc_resnet_block_groups cfg <> 0 -> dim_heads_ok zipped ->
  spec (fun e => e = AssertionError flash_message) n0
    (Unet_init_downs cfg classes_dim n i zipped) (fun _ => True).
Proof.
  intros Hold Hflash Hg. revert i.
  induction zipped as [| [[[[in_dim out_dim] fa] hd] dh] rest IH]; intros i Hok.
  - apply spec_ret. exact I.
  - cbn [Unet_init_downs].
    pose proof (Forall_inv Hok) as Hdh. pose proof (Forall_inv_tail Hok) as Hok'.
    cbv beta iota in Hdh.
    eapply spec_bind;
      [apply total_spec, (total_block_class n0 cfg classes_dim in_dim in_dim Hg) |].
    intros b1 _.
    eapply spec_bind;
      [apply total_spec, (total_block_class n0 cfg classes_dim in_dim in_dim Hg) |].
    intros b2 _.
    eapply spec_bind with (P := fun _ => True).
    { unfold attn_class. rewrite Hflash. destruct fa.
      - eapply spec_bind; [apply raises_Attention_init_flash, Hold | intros a []].
      - eapply spec_bind; [apply total_spec, total_LinearAttention_init, Hdh |].
        intros a _. apply spec_ret. exact I. }
    intros a _.
    eapply spec_bind with (P := fun _ => True).
    { destruct (negb (n - 1 <=? i)).
      - eapply spec_bind; [apply total_spec, total_downsample |]. intros s _.
        apply spec_ret. exact I.
      - eapply spec_bind; [apply total_spec, total_Conv2d_init |]. intros c _.
        apply spec_ret. exact I. }
    intros r _.
    eapply spec_bind; [apply (IH (S i) Hok') |]. intros stages _. apply spec_ret. exact I.
Qed.

(** What [Unet.__init__] builds before the first loop. *)
Lemma total_Unet_init_time (cfg : UnetConfig) :
  (uc_learned_sinusoidal_cond cfg || uc_random_fourier_features cfg = true ->
   0 < uc_learned_sinusoidal_dim cfg /\ uc_learned_sinusoidal_dim cfg mod 2 = 0) ->
  total n0
    (if uc_learned_sinusoidal_cond cfg || uc_random_fourier_features cfg
     then
       e <- RandomOrLearnedSinusoidalPosEmb_init (uc_learned_sinusoidal_dim cfg)
              (uc_random_fourier_features cfg);;
       ret (MRandomOrLearnedSinusoidalPosEmb e, uc_learned_sinusoidal_dim cfg + 1)
     else ret (MSinusoidalPosEmb (uc_dim cfg), uc_dim cfg))
    (fun _ => True).
Proof.
  intros Hlearned.
  destruct (uc_learned_sinusoidal_cond cfg || uc_random_fourier_features cfg).
  - eapply spec_bind;
      [apply (total_RandomOrLearnedSinusoidalPosEmb_init n0 _ _ (proj2 (Hlearned eq_refl))) |].
    intros e _. apply spec_ret. exact I.
  - apply spec_ret. exact I.
Qed.

Lemma total_Unet_init_conditioning (cfg : UnetConfig) :
  total n0
    match uc_num_classes cfg with
    | Some n =>
        cm <- Conditioning_init n (uc_dim cfg);;
        ret (Some cm, Some (uc_dim cfg * 4), uc_cond_drop_prob cfg)
    | None => ret (None, None, 1%Q)
    end
    (fun _ => True).
Proof.
  destruct (uc_num_classes cfg) as [k |].
  - eapply spec_bind; [apply total_Conditioning_init |]. intros cm _.
    apply spec_ret. exact I.
  - apply spec_ret. exact I.
Qed.

(** With flash attention asked for on a torch older than 2.0,
    [Unet.__init__] raises the assertion error of [Attend.__init__]: in
    the first stage with full attention, or in the middle attention. *)
Lemma raises_Unet_init_flash (cfg : UnetConfig) :
  torch_older_than_2 = true -> uc_flash_attn cfg = true -> constructible_unet_config cfg ->
  raises n0 (Unet_init cfg) (AssertionError flash_message).
Proof.
  intros Hold Hflash (_ & _ & _ & _ & _ & Hne & _ & Hlearned & Hg & Hfa & Hh & Hd & _ & Hdh).
  cbv zeta in Hfa, Hh, Hd, Hdh.
  unfold Unet_init.
  eapply raises_bind_r; [apply total_Conv2d_init |]. intros init_conv _.
  eapply raises_bind_r; [apply (total_Unet_init_time cfg Hlearned) |].
  intros [sinu fourier_dim] _.
  eapply raises_bind_r; [apply total_Linear_init |]. intros l1 _.
  eapply raises_bind_r; [apply total_Linear_init |]. intros l2 _.
  eapply raises_bind_r; [apply total_Unet_init_conditioning |].
  intros [[conditioning classes_dim] cdp] _.
  rewrite Hfa, Nat.eqb_refl.
  eapply raises_bind_r with (P := fun _ => True); [apply spec_ret; exact I |]. intros _ _.
  unfold raises. eapply spec_bind.
  { apply flash_Unet_init_downs; try assumption. apply zip_specs_dim_heads_ok, Hdh. }
  intros downs _.
  eapply raises_bind_r; [apply (total_block_class n0 cfg classes_dim _ _ Hg) |].
  intros mid1 _.
  eapply raises_bind_r; [apply total_last_item, cast_tuple_not_nil; assumption |].
  intros mh _.
  eapply raises_bind_r; [apply total_last_item, cast_tuple_not_nil; assumption |].
  intros mdh _.
  apply raises_bind_l. rewrite Hflash. apply raises_Attention_init_flash, Hold.
Qed.

(** With torch 2.0, or without the flag, the attention class of a stage
    returns a module, with the attention selected for the flag when it is
    full attention. *)
Lemma total_attn_class_selected (cfg : UnetConfig) (full_attn : bool)
  (dim dim_head heads : nat) :
  uc_flash_attn cfg && torch_older_than_2 = false -> dim_head <> 0 ->
  total n0 (attn_class cfg full_attn dim dim_head heads)
    (fun a => match a with
              | FullAttention m => attention_selected (a_attend m) (uc_flash_attn cfg)
              | LinAttention _ => True
              end).
Proof.
  intros Hcap Hdh. unfold attn_class. destruct full_attn.
  - eapply spec_bind; [apply (total_Attention_init_selected n0 _ _ _ _ Hcap) |].
    intros a Ha. apply spec_ret. apply Ha.
  - eapply spec_bind; [apply total_LinearAttention_init, Hdh |]. intros a _.
    apply spec_ret. exact I.
Qed.

Lemma selected_Unet_init_downs (cfg : UnetConfig) (classes_dim : option nat) (n : nat)
  (zipped : list StageSpec) (i : nat) :
  uc_flash_attn cfg && torch_older_than_2 = false ->
  uc_resnet_block_groups cfg <> 0 -> dim_heads_ok zipped ->
  total n0 (Unet_init_downs cfg classes_dim n i zipped)
    (fun stages => Forall (stage_attention_selected (uc_flash_attn cfg)) stages).
Proof.
  intros Hcap Hg. revert i.
  induction zipped as [| [[[[in_dim out_dim] fa] hd] dh] rest IH]; intros i Hok.
  - apply spec_ret. constructor.
  - cbn [Unet_init_downs].
    pose proof (Forall_inv Hok) as Hdh. pose proof (Forall_inv_tail Hok) as Hok'.
    cbv beta iota in Hdh.
    eapply spec_bind; [apply (total_block_class n0 cfg classes_dim in_dim in_dim Hg) |].
    intros b1 _.
    eapply spec_bind; [apply (total_block_class n0 cfg classes_dim in_dim in_dim Hg) |].
    intros b2 _.
    eapply spec_bind; [apply (total_attn_class_selected cfg fa in_dim dh hd Hcap Hdh) |].
    intros a Ha.
    eapply spec_bind with (P := fun _ => True).
    { destruct (negb (n - 1 <=? i)).
      - eapply spec_bind; [apply total_downsample |]. intros s _. apply spec_ret. exact I.
      - eapply spec_bind; [apply total_Conv2d_init |]. intros c _. apply spec_ret. exact I. }
    intros r _.
    eapply spec_bind; [apply (IH (S i) Hok') |]. intros stages Hstages.
    apply spec_ret. constructor; [exact Ha | exact Hstages].
Qed.

Lemma selected_Unet_init_ups (cfg : UnetConfig) (classes_dim : option nat) (n : nat)
  (zipped : list StageSpec) (i : nat) :
  uc_flash_attn cfg && torch_older_than_2 = false ->
  uc_resnet_block_groups cfg <> 0 -> dim_heads_ok zipped ->
  total n0 (Unet_init_ups cfg classes_dim n i zipped)
    (fun stages => Forall (stage_attention_selected (uc_flash_attn cfg)) stages).
Proof.
  intros Hcap Hg. revert i.
  induction zipped as [| [[[[in_dim out_dim] fa] hd] dh] rest IH]; intros i Hok.
  - apply spec_ret. constructor.
  - cbn [Unet_init_ups].
    pose proof (Forall_inv Hok) as Hdh. pose proof (Forall_inv_tail Hok) as Hok'.
    cbv beta iota in Hdh.
    eapply spec_bind;
      [apply (total_block_class n0 cfg classes_dim (out_dim + in_dim) out_dim Hg) |].
    intros b1 _.
    eapply spec_bind;
      [apply (total_block_class n0 cfg classes_dim (out_dim + in_dim) out_dim Hg) |].
    intros b2 _.
    eapply spec_bind; [apply (total_attn_class_selected cfg fa out_dim dh hd Hcap Hdh) |].
    intros a Ha.
    eapply spec_bind with (P := fun _ => True).
    { destruct (negb (i =? n - 1)).
      - eapply spec_bind; [apply total_upsample |]. intros s _. apply spec_ret. exact I.
      - eapply spec_bind; [apply total_Conv2d_init |]. intros c _. apply spec_ret. exact I. }
    intros r _.
    eapply spec_bind; [apply (IH (S i) Hok') |]. intros stages Hstages.
    apply spec_ret. constructor; [exact Ha | exact Hstages].
Qed.

(** With torch 2.0, or without the flag, [Unet.__init__] returns a
    network, and every full attention of the network uses the attention
    selected for the flag. *)
Lemma total_Unet_init_selected (cfg : UnetConfig) :
  uc_flash_attn cfg && torch_older_than_2 = false -> constructible_unet_config cfg ->
  total n0 (Unet_init cfg)
    (fun n => attention_selected (a_attend (u_mid_attn n)) (uc_flash_attn cfg)
              /\ Forall (stage_attention_selected (uc_flash_attn cfg)) (u_downs n)
              /\ Forall (stage_attention_selected (uc_flash_attn cfg)) (u_ups n)).
Proof.
  intros Hcap (_ & _ & _ & _ & _ & Hne & _ & Hlearned & Hg & Hfa & Hh & Hd & _ & Hdh).
  cbv zeta in Hfa, Hh, Hd, Hdh.
  unfold Unet_init.
  eapply spec_bind; [apply total_Conv2d_init |]. intros init_conv _.
  eapply spec_bind; [apply (total_Unet_init_time cfg Hlearned) |].
  intros [sinu fourier_dim] _.
  eapply spec_bind; [apply total_Linear_init |]. intros l1 _.
  eapply spec_bind; [apply total_Linear_init |]. intros l2 _.
  eapply spec_bind; [apply total_Unet_init_conditioning |].
  intros [[conditioning classes_dim] cdp] _.
  rewrite Hfa, Nat.eqb_refl.
  eapply spec_bind with (P := fun _ => True); [apply spec_ret; exact I |]. intros _ _.
  eapply spec_bind.
  { apply selected_Unet_init_downs; try assumption. apply zip_specs_dim_heads_ok, Hdh. }
  intros downs Hdowns.
  eapply spec_bind; [apply (total_block_class n0 cfg classes_dim _ _ Hg) |].
  intros mid1 _.
  eapply spec_bind; [apply total_last_item, cast_tuple_not_nil; assumption |].
  intros mh _.
  eapply spec_bind; [apply total_last_item, cast_tuple_not_nil; assumption |].
  intros mdh _.
  eapply spec_bind; [apply (total_Attention_init_selected n0 _ _ _ _ Hcap) |].
  intros mid_attn Hattn.
  eapply spec_bind; [apply (total_block_class n0 cfg classes_dim _ _ Hg) |].
  intros mid2 _.
  eapply spec_bind.
  { apply selected_Unet_init_ups; try assumption.
    apply zip_specs_dim_heads_ok, Forall_rev, Hdh. }
  intros ups Hups.
  eapply spec_bind; [apply (total_block_class n0 cfg classes_dim _ _ Hg) |].
  intros final_res _.
  eapply spec_bind; [apply total_Conv2d_init |]. intros final_conv _.
  apply spec_ret. cbn [u_mid_attn u_downs u_ups].
  split; [apply Hattn |]. split; assumption.
Qed.

End FlashConstruction.

(** C8.  On a torch older than 2.0.0, constructing with flash attention
    fails at construction with the assertion error ["Flash Attention
    requires torch>=2.0"]: [Attend.__init__] and [Attention.__init__]
    raise it and leave the state as it was, and [Unet.__init__] returns no
    network and, for every configuration it would build otherwise, raises
    it; so no forward evaluation meets the missing capability.  With torch
    2.0.0 or later, or without the flag, [Attend.__init__],
    [Attention.__init__] and [Unet.__init__] return, and the attention is
    selected then: the module records the flag, allows every kernel on the
    CPU, and holds for CUDA tensors the configuration of the device (none
    without flash or without CUDA, flash only on compute capability 8.0,
    math and memory-efficient otherwise), in the middle attention and in
    every stage with full attention.  A forward evaluation of [Attend] or
    of the network leaves the module object, and with it the selection,
    as it was, whether it returns or raises. *)
Theorem flash_attention_is_checked_at_construction :
  forall (T : Torch) (Net : Type) (st : State Net),
    (torch_older_than_2 = true ->
       (forall dropout, bad_probability dropout = false ->
          Attend_init dropout true st = (Raise (AssertionError flash_message), st))
       /\ (forall dim heads dim_head,
          Attention_init dim heads dim_head true st
          = (Raise (AssertionError flash_message), st))
       /\ (forall cfg, uc_flash_attn cfg = true ->
             (forall n st', Unet_init cfg st <> (Ok n, st'))
             /\ (constructible_unet_config cfg ->
                 exists st',
                   Unet_init cfg st = (Raise (AssertionError flash_message), st'))))
    /\ (forall flash, flash && torch_older_than_2 = false ->
          (forall dropout, bad_probability dropout = false ->
             exists a st',
               Attend_init dropout flash st = (Ok a, st') /\ attention_selected a flash)
          /\ (forall dim heads dim_head,
             1 <= dim -> 1 <= heads -> 1 <= dim_head ->
             exists a st',
               Attention_init dim heads dim_head flash st = (Ok a, st')
               /\ attention_selected (a_attend a) flash)
          /\ (forall cfg, uc_flash_attn cfg = flash -> constructible_unet_config cfg ->
             exists n st',
               Unet_init cfg st = (Ok n, st')
               /\ attention_selected (a_attend (u_mid_attn n)) flash
               /\ Forall (stage_attention_selected flash) (u_downs n)
               /\ Forall (stage_attention_selected flash) (u_ups n)))
    /\ (forall (a : Attend) (q k v : Tensor) (s : State Attend),
          net s = a -> net (snd (Attend_forward a q k v s)) = a)
    /\ (forall (x time : Tensor) (classes : option LongTensor) (p : option Q)
               (s : State Unet),
          net (snd (Unet_forward x time classes p s)) = net s).
Proof.
  intros T Net st. split; [| split; [| split]].
  - intros Hold. split; [| split].
    + intros dropout Hp. apply Attend_init_old_torch; assumption.
    + intros. apply Attention_init_old_torch. exact Hold.
    + intros cfg Hflash. split.
      * intros n st' E. exact (Unet_init_never_returns cfg Hold Hflash _ _ _ E).
      * intros Hc.
        destruct (raises_run _ _ st (raises_Unet_init_flash (net st) cfg Hold Hflash Hc))
          as (st' & E & _).
        exists st'. exact E.
  - intros flash Hcap. split; [| split].
    + intros dropout Hp.
      destruct (total_returns _ _ st (total_Attend_init (net st) dropout flash Hp Hcap))
        as (a & st' & E & _ & _ & Hsel).
      exists a, st'. auto.
    + intros dim heads dim_head _ _ _.
      destruct (total_returns _ _ st
                  (total_Attention_init_selected (net st) dim heads dim_head flash Hcap))
        as (a & st' & E & Ha).
      exists a, st'. split; [exact E | apply Ha].
    + intros cfg <- Hc.
      exact (total_returns _ _ st (total_Unet_init_selected (net st) cfg Hcap Hc)).
  - intros a q k v s <-.
    apply (spec_frame (fun _ => True) (Attend_forward (net s) q k v) (fun _ => True) s).
    apply lax_Attend_forward. auto.
  - intros x time classes p s.
    apply (spec_frame (fun _ => True) (Unet_forward x time classes p) (fun _ => True) s).
    apply lax_Unet_forward; auto.
Qed.

(** ** The claims on concrete networks

    The networks [demo_linear_net], [demo_unet], [demo_unet_out5] and
    [demo_unet_flash] are what the constructors return on [fresh_state]. *)

Lemma demo_linear_net_built :
  @LinearNetwork_init demo_torch unit demo_linear_config fresh_state
  = (Ok demo_linear_net, demo_linear_built_state).
Proof. reflexivity. Defined.

Lemma demo_unet_built :
  @Unet_init demo_torch unit demo_unet_config fresh_state
  = (Ok demo_unet, demo_unet_built_state).
Proof. reflexivity. Defined.

Lemma demo_unet_out5_built :
  @Unet_init demo_torch unit demo_unet_config_out5 fresh_state
  = (Ok demo_unet_out5, demo_unet_out5_built_state).
Proof. reflexivity. Defined.

Lemma demo_unet_flash_built :
  @Unet_init demo_torch unit demo_unet_config_flash fresh_state
  = (Ok demo_unet_flash, demo_unet_flash_built_state).
Proof. reflexivity. Defined.

Lemma demo_labels_valid : valid_labels 10 2 demo_labels.
Proof.
  unfold valid_labels, demo_labels. cbn [lshape ldata length].
  repeat split; [left; reflexivity | repeat constructor; lia].
Defined.

Lemma demo_labels'_valid : valid_labels 10 2 demo_labels'.
Proof.
  unfold valid_labels, demo_labels'. cbn [lshape ldata length].
  repeat split; [left; reflexivity | repeat constructor; lia].
Defined.

Lemma demo_unet_config_valid : @valid_unet_config demo_torch demo_unet_config.
Proof.
  unfold valid_unet_config, demo_unet_config. cbn.
  repeat split; try reflexivity; try lia; try discriminate; repeat constructor; lia.
Defined.

Lemma demo_unet_config_out5_valid : @valid_unet_config demo_torch demo_unet_config_out5.
Proof.
  unfold valid_unet_config, demo_unet_config_out5. cbn.
  repeat split; try reflexivity; try lia; try discriminate; repeat constructor; lia.
Defined.

(** The demo platform has no CUDA device, and a kernel for every
    configuration. *)
Lemma demo_torch_runs_flash : @flash_runs demo_torch.
Proof.
  intros c _. exists (mkAttentionConfig true true true). split; reflexivity.
Defined.

Lemma demo_unet_config_flash_valid : @valid_unet_config demo_torch demo_unet_config_flash.
Proof.
  unfold valid_unet_config, demo_unet_config_flash, with_flash_attn, demo_unet_config. cbn.
  repeat match goal with |- _ /\ _ => split end;
    try reflexivity; try lia; try (intros _; exact demo_torch_runs_flash);
    repeat constructor; lia.
Defined.

(** C1 on the demo networks: the vector network, the image network, and
    the image network with flash attention return a tensor of the shape of
    the data. *)
Lemma forward_keeps_the_shape_of_valid_input_witness :
  (exists y st',
      LinearNetwork_forward demo_vector demo_times (Some demo_labels) None demo_linear_state
      = (Ok y, st')
      /\ shape y = shape demo_vector)
  /\ (exists y st',
      Unet_forward demo_image demo_times (Some demo_labels) None demo_unet_state
      = (Ok y, st')
      /\ shape y = shape demo_image)
  /\ (exists y st',
      Unet_forward demo_image demo_times (Some demo_labels) None demo_unet_flash_state
      = (Ok y, st')
      /\ shape y = shape demo_image).
Proof.
  split; [| split].
  - apply (proj1 (forward_keeps_the_shape_of_valid_input demo_torch unit)
             demo_linear_config fresh_state _ demo_linear_state demo_vector demo_times
             (Some demo_labels) None 2 demo_linear_net_built eq_refl
             (or_introl eq_refl) demo_labels_valid).
  - destruct (proj2 (forward_keeps_the_shape_of_valid_input demo_torch unit)
                demo_unet_config fresh_state _ demo_unet_state demo_image demo_times
                (Some demo_labels) None 2 2 2 demo_unet_built demo_unet_config_valid
                eq_refl ltac:(cbn; lia) (or_introl eq_refl) demo_labels_valid)
      as (y & st' & E & _ & Hy).
    exists y, st'. split; [exact E | exact (Hy eq_refl)].
  - destruct (proj2 (forward_keeps_the_shape_of_valid_input demo_torch unit)
                demo_unet_config_flash fresh_state _ demo_unet_flash_state demo_image
                demo_times (Some demo_labels) None 2 2 2 demo_unet_flash_built
                demo_unet_config_flash_valid
                eq_refl ltac:(cbn; lia) (or_introl eq_refl) demo_labels_valid)
      as (y & st' & E & _ & Hy).
    exists y, st'. split; [exact E | exact (Hy eq_refl)].
Defined.

(** C1 as stated fails on a network built with [out_dim=5]: on a valid
    input of three channels [forward] returns five channels. *)
Lemma Unet_out_dim_changes_the_shape :
  @Unet_init demo_torch unit demo_unet_config_out5 fresh_state
  = (Ok demo_unet_out5, demo_unet_out5_built_state)
  /\ shape demo_image = [2; 3; 8; 8]
  /\ valid_time 2 demo_times
  /\ valid_labels 10 2 demo_labels
  /\ outcome (Unet_forward demo_image demo_times (Some demo_labels) None demo_unet_out5_state)
     = Ok [2; 5; 8; 8].
Proof.
  split; [exact demo_unet_out5_built |]. split; [reflexivity |].
  split; [left; reflexivity |]. split; [exact demo_labels_valid |].
  reflexivity.
Defined.

(** Outside the valid configurations [forward] need not return.  With the
    learned time embedding the time MLP refuses a time tensor of one
    dimension; with two head counts for three stages [zip] builds two
    stages, each with its downsampling and its upsampling, and the decoder
    concatenates a map with a skip connection of another resolution. *)
Lemma Unet_forward_raises_outside_valid_configurations :
  (fst (@Unet_init demo_torch unit demo_unet_config_learned fresh_state)
   = Ok demo_unet_learned
   /\ exists e,
       outcome (Unet_forward demo_image demo_times (Some demo_labels) None
                  demo_unet_learned_state)
       = Raise e)
  /\ (fst (@Unet_init demo_torch unit demo_unet_config_two_heads fresh_state)
      = Ok demo_unet_two_heads
      /\ length (u_downs demo_unet_two_heads) = 2
      /\ exists e,
          outcome (Unet_forward demo_image demo_times (Some demo_labels) None
                     demo_unet_two_heads_state)
          = Raise e).
Proof.
  split; [split; [reflexivity | eexists; reflexivity] |].
  split; [reflexivity |]. split; [reflexivity | eexists; reflexivity].
Qed.

(** C3 on the vector demo network, guidance scale 2 and rescale factor
    1/2. *)
Lemma guidance_scale_not_one_matches_spec_witness :
  forward_with_cond_scale (Net := LinearNetwork) demo_vector demo_times (Some demo_labels)
    2 (1 # 2) demo_linear_state
  = guidance_spec (Net := LinearNetwork) demo_vector demo_times (Some demo_labels)
      2 (1 # 2) demo_linear_state.
Proof.
  apply (guidance_scale_not_one_matches_spec LinearNetwork LinearNetwork_BFNetwork
           demo_vector demo_times (Some demo_labels) 2 (1 # 2) demo_linear_state eq_refl).
  exact (LinearNetwork_passes_agree_on_ndim demo_linear_config demo_vector demo_times
           (Some demo_labels) 2 (Some 0%Q) (Some 1%Q) demo_linear_state
           (post_LinearNetwork_init demo_linear_config fresh_state _ _ demo_linear_net_built)
           eq_refl (or_introl eq_refl) demo_labels_valid).
Defined.

(** C4 on the image demo network and a six by eight input. *)
Lemma Unet_divisibility_check_follows_conditioning_witness :
  ((6 mod 2 ^ 2 <> 0 \/ 8 mod 2 ^ 2 <> 0) ->
     Unet_forward demo_bad_image demo_times (Some demo_labels) None demo_unet_state
     = match Unet_conditioning (net demo_unet_state) 2 (Some demo_labels) None
               demo_unet_state with
       | (Ok _, st') => (Raise (AssertionError (dimension_message [2; 3; 6; 8] 3)), st')
       | (Raise e, st') => (Raise e, st')
       end
     /\ (u_conditioning (net demo_unet_state) = None ->
         Unet_forward demo_bad_image demo_times (Some demo_labels) None demo_unet_state
         = (Raise (AssertionError (dimension_message [2; 3; 6; 8] 3)), demo_unet_state)))
  /\ (6 mod 2 ^ 2 = 0 -> 8 mod 2 ^ 2 = 0 ->
      forall msg st',
        Unet_forward demo_bad_image demo_times (Some demo_labels) None demo_unet_state
        <> (Raise (AssertionError msg), st')).
Proof.
  apply (Unet_divisibility_check_follows_conditioning demo_torch demo_bad_image demo_times
           (Some demo_labels) None demo_unet_state 2 3 6 8 2);
    reflexivity.
Defined.

(** C4 as stated fails on a conditional network: the class embedding and
    the conditioning MLP (two linear layers around a GELU) have run when
    the assertion fails. *)
Lemma Unet_conditioning_runs_before_the_divisibility_check :
  is_conditional_model (H := @Unet_BFNetwork demo_torch) demo_unet = true
  /\ shape demo_bad_image = [2; 3; 6; 8]
  /\ length (u_downs demo_unet) = 3
  /\ fst (Unet_forward demo_bad_image demo_times (Some demo_labels) None demo_unet_state)
     = Raise (AssertionError "input dim torch.Size([6, 8]) must be divisible by 4 for Unet")
  /\ trace (snd (Unet_forward demo_bad_image demo_times (Some demo_labels) None
                   demo_unet_state))
     = [EvModule "Embedding"; EvModule "Sequential"; EvModule "Linear"; EvModule "GELU";
        EvModule "Linear"].
Proof. repeat split; reflexivity. Defined.

(** C5 on the demo networks and two batches of labels: at dropout
    probability one both calls end alike, in the vector network and in
    the image network, where they return. *)
Lemma full_dropout_ignores_labels_witness :
  LinearNetwork_forward demo_vector demo_times (Some demo_labels) (Some 1%Q)
    demo_linear_state
  = LinearNetwork_forward demo_vector demo_times (Some demo_labels') (Some 1%Q)
      demo_linear_state
  /\ Unet_forward demo_image demo_times (Some demo_labels) (Some 1%Q) demo_unet_state
     = Unet_forward demo_image demo_times (Some demo_labels') (Some 1%Q) demo_unet_state
  /\ outcome (Unet_forward demo_image demo_times (Some demo_labels) (Some 1%Q)
                demo_unet_state)
     = Ok [2; 3; 8; 8].
Proof.
  split; [| split].
  - exact (proj1 (full_dropout_ignores_labels demo_torch demo_vector demo_times
                    demo_labels demo_labels' 2 [2] demo_linear_conditioning eq_refl
                    demo_labels_valid demo_labels'_valid)
             demo_linear_state eq_refl).
  - exact (proj2 (full_dropout_ignores_labels demo_torch demo_image demo_times
                    demo_labels demo_labels' 2 [3; 8; 8] demo_unet_conditioning eq_refl
                    demo_labels_valid demo_labels'_valid)
             demo_unet_state eq_refl).
  - reflexivity.
Defined.

(** C6 on the demo networks: a column of labels is squeezed, a matrix of
    labels is refused. *)
Lemma label_shapes_are_normalised_witness :
  LinearNetwork_forward demo_vector demo_times (Some demo_column_labels) None
    demo_linear_state
  = LinearNetwork_forward demo_vector demo_times (Some demo_labels) None demo_linear_state
  /\ Unet_forward demo_image demo_times (Some demo_matrix_labels) None demo_unet_state
     = (Raise (ValueError (class_shape_message 2 [2; 2])), demo_unet_state)
  /\ exists st',
      LinearNetwork_forward demo_vector demo_times (Some demo_matrix_labels) None
        demo_linear_state
      = (Raise (ValueError (class_shape_message 2 [2; 2])), st').
Proof.
  pose proof (label_shapes_are_normalised demo_torch demo_vector demo_times None)
    as [Hsq Hbad].
  pose proof (label_shapes_are_normalised demo_torch demo_image demo_times None)
    as [_ Hbad'].
  assert (Hrank : bad_label_rank demo_matrix_labels).
  { split; [cbn; lia |]. intros [_ H]. discriminate H. }
  split; [exact (proj1 (Hsq 2 [3%Z; 7%Z]) demo_linear_state) |]. split.
  - exact (proj1 (Hbad' demo_matrix_labels 2 [3; 8; 8] Hrank eq_refl)
             demo_unet_state eq_refl).
  - exact (proj2 (Hbad demo_matrix_labels 2 [2] Hrank eq_refl)
             unit demo_linear_config fresh_state _ demo_linear_state
             demo_linear_net_built eq_refl (or_introl eq_refl)).
Defined.

(** C7 on the image demo network. *)
Lemma skip_stack_is_balanced_witness :
  length (u_ups demo_unet) = length (u_downs demo_unet)
  /\ exists y st',
      Unet_forward_stack demo_image demo_times (Some demo_labels) None demo_unet_state
      = (Ok (y, []), st').
Proof.
  destruct (skip_stack_is_balanced demo_torch unit demo_unet_config fresh_state _ demo_unet
              demo_unet_built) as (Hlen & _ & Hruns).
  split; [exact Hlen |].
  apply (Hruns demo_unet_config_valid demo_image demo_times (Some demo_labels) None 2 2 2
           demo_unet_state eq_refl eq_refl ltac:(cbn; lia) (or_introl eq_refl)
           demo_labels_valid).
Defined.

(** Torch 1.13.1 is older than 2.0.0, and so is a release candidate of
    2.0.0; torch 2.1.0 is not. *)
Lemma old_torch_is_old : @torch_older_than_2 old_torch = true.
Proof. reflexivity. Defined.

Lemma rc_torch_is_old : @torch_older_than_2 rc_torch = true.
Proof. reflexivity. Defined.

Lemma demo_torch_is_recent : @torch_older_than_2 demo_torch = false.
Proof. reflexivity. Defined.

Lemma demo_unet_config_flash_constructible :
  constructible_unet_config demo_unet_config_flash.
Proof.
  unfold constructible_unet_config, demo_unet_config_flash, with_flash_attn,
    demo_unet_config. cbn.
  repeat match goal with |- _ /\ _ => split end;
    try reflexivity; try discriminate; try lia; repeat constructor; lia.
Defined.

(** C8 on torch 1.13.1 and on a release candidate of torch 2.0.0: the
    constructors refuse flash attention.  On torch 2.1.0 the image network
    is built, with flash attention selected. *)
Lemma flash_attention_is_checked_at_construction_witness :
  @Attention_init old_torch unit 8 4 32 true (@demo_state old_torch unit 42%N tt)
  = (Raise (AssertionError flash_message), @demo_state old_torch unit 42%N tt)
  /\ (exists st',
      @Unet_init old_torch unit demo_unet_config_flash (@demo_state old_torch unit 42%N tt)
      = (Raise (AssertionError flash_message), st'))
  /\ (exists st',
      @Unet_init rc_torch unit demo_unet_config_flash (@demo_state rc_torch unit 42%N tt)
      = (Raise (AssertionError flash_message), st'))
  /\ (exists n st',
      @Unet_init demo_torch unit demo_unet_config_flash fresh_state = (Ok n, st')
      /\ attention_selected (T := demo_torch) (a_attend (u_mid_attn n)) true
      /\ Forall (stage_attention_selected (T := demo_torch) true) (u_downs n)
      /\ Forall (stage_attention_selected (T := demo_torch) true) (u_ups n)).
Proof.
  split; [| split; [| split]].
  - exact (proj1 (proj2 (proj1 (flash_attention_is_checked_at_construction old_torch unit
                                  (@demo_state old_torch unit 42%N tt)) old_torch_is_old))
             8 4 32).
  - exact (proj2 (proj2 (proj2 (proj1 (flash_attention_is_checked_at_construction
                                         old_torch unit
                                         (@demo_state old_torch unit 42%N tt))
                                  old_torch_is_old))
                    demo_unet_config_flash eq_refl)
             demo_unet_config_flash_constructible).
  - exact (proj2 (proj2 (proj2 (proj1 (flash_attention_is_checked_at_construction
                                         rc_torch unit
                                         (@demo_state rc_torch unit 42%N tt))
                                  rc_torch_is_old))
                    demo_unet_config_flash eq_refl)
             demo_unet_config_flash_constructible).
  - exact (proj2 (proj2 (proj1 (proj2 (flash_attention_is_checked_at_construction
                                         demo_torch unit fresh_state))
                           true demo_torch_is_recent))
             demo_unet_config_flash eq_refl demo_unet_config_flash_constructible).
Defined.

(** C10 on a block of ten output channels and eight groups: one group is
    used, and [forward] returns on a batch of two eight by eight images. *)
Lemma Block_groups_fall_back_to_one_witness :
  exists b st',
    @Block_init demo_torch unit 3 10 8 fresh_state = (Ok b, st')
    /\ num_channels (b_norm b) = 10
    /\ num_groups (b_norm b) = 1
    /\ exists y s',
        Block_forward b demo_image None fresh_state = (Ok y, s')
        /\ shape y = [2; 10; 8; 8].
Proof.
  destruct (proj1 (proj2 (Block_groups_fall_back_to_one demo_torch unit 3 10 8 fresh_state))
              ltac:(discriminate) ltac:(lia) ltac:(lia))
    as (b & st' & E & Hc & Hfall & _ & Hfw).
  assert (Hg : num_groups (b_norm b) = 1) by (apply Hfall; discriminate).
  exists b, st'. split; [exact E |]. split; [exact Hc |]. split; [exact Hg |].
  apply (proj1 (Hfw demo_image None 2 8 8 fresh_state eq_refl ltac:(lia) ltac:(lia)
                  ltac:(lia) I)).
  rewrite Hg. discriminate.
Defined.

(** C10 as stated fails in two ways.  A group count of zero divides no
    positive width, and the constructor raises.  A block of one output
    channel built with eight groups falls back to one group, and its
    [forward] raises on a batch of one image of one pixel, the single
    value [nn.GroupNorm] refuses. *)
Lemma Block_can_raise_despite_the_fallback :
  (~ Nat.divide 0 8
   /\ @Block_init demo_torch unit 3 8 0 fresh_state
      = (Raise (ZeroDivisionError "integer modulo by zero"), fresh_state))
  /\ (~ Nat.divide 8 1
      /\ fst (@Block_init demo_torch unit 3 1 8 fresh_state) = Ok demo_fallback_block
      /\ num_groups (b_norm demo_fallback_block) = 1
      /\ shape demo_pixel = [1; 3; 1; 1]
      /\ fst (Block_forward demo_fallback_block demo_pixel None fresh_state)
         = Raise (ValueError
                    "Expected more than 1 value per channel when training, got input size [1, 1, 1, 1]")).
Proof.
  split.
  - split; [| reflexivity].
    intros [q Hq]. rewrite Nat.mul_0_r in Hq. discriminate Hq.
  - split; [intros [q Hq]; lia |]. repeat split; reflexivity.
Defined.

(** ** The layers and constructors on concrete inputs *)

Lemma demo_unet_init16_built :
  @Unet_init demo_torch unit demo_unet_config_init16 fresh_state
  = (Ok demo_unet_init16, demo_unet_init16_built_state).
Proof. reflexivity. Defined.

Lemma demo_bad_labels_out_of_range : label_out_of_range 10 2 demo_bad_labels.
Proof.
  split; [left; reflexivity |].
  apply Exists_cons_tl, Exists_cons_hd. right. cbn. lia.
Defined.

Lemma demo_unet_config_buildable : @buildable_unet_config demo_torch demo_unet_config.
Proof.
  unfold buildable_unet_config, valid_unet_config, with_init_dim, demo_unet_config. cbn.
  repeat match goal with |- _ /\ _ => split end;
    try reflexivity; try lia; try discriminate; repeat constructor; lia.
Defined.

Lemma demo_unet_config_init16_buildable :
  @buildable_unet_config demo_torch demo_unet_config_init16.
Proof.
  unfold buildable_unet_config, valid_unet_config, demo_unet_config_init16, with_init_dim,
    demo_unet_config. cbn.
  repeat match goal with |- _ /\ _ => split end;
    try reflexivity; try lia; try discriminate; repeat constructor; lia.
Defined.

(** X2 on eight columns and two times. *)
Lemma SinusoidalPosEmb_forward_width_witness :
  (8 / 2 = 1 ->
     exists msg st',
       SinusoidalPosEmb_forward 8 demo_times fresh_state
       = (Raise (ZeroDivisionError msg), st'))
  /\ (8 / 2 <> 1 ->
      exists y st',
        SinusoidalPosEmb_forward 8 demo_times fresh_state = (Ok y, st')
        /\ shape y = [2; 2 * (8 / 2)]
        /\ (8 mod 2 = 0 -> shape y = [2; 8])).
Proof.
  exact (SinusoidalPosEmb_forward_width demo_torch unit 8 demo_times 2 fresh_state eq_refl).
Defined.

(** X3 on a block from two to eight features, without dropout. *)
Lemma LinearResnetBlock_maps_in_dim_to_out_dim_witness :
  exists blk st1,
    @LinearResnetBlock_init demo_torch unit 2 8 16 (Some 8) 0 fresh_state = (Ok blk, st1)
    /\ exists y st',
        LinearResnetBlock_forward blk demo_vector None None fresh_state = (Ok y, st')
        /\ shape y = [2; 8].
Proof.
  destruct (LinearResnetBlock_maps_in_dim_to_out_dim demo_torch unit 2 8 16 (Some 8) 0
              fresh_state eq_refl)
    as (blk & st1 & E & _ & Hplain).
  exists blk, st1. split; [exact E |].
  exact (Hplain demo_vector 2 fresh_state eq_refl).
Defined.

(** X4 on a block from three to ten channels with eight groups. *)
Lemma ResnetBlock_maps_in_dim_to_out_dim_witness :
  exists blk st1,
    @ResnetBlock_init demo_torch unit 3 10 (Some 32) None 8 fresh_state = (Ok blk, st1)
    /\ exists y st',
        ResnetBlock_forward blk demo_image (Some (demo_time [2; 32])) None fresh_state
        = (Ok y, st')
        /\ shape y = [2; 10; 8; 8].
Proof.
  destruct (ResnetBlock_maps_in_dim_to_out_dim demo_torch unit 3 10 32 None 8 fresh_state
              ltac:(discriminate))
    as (blk & st1 & E & Hfw).
  exists blk, st1. split; [exact E |].
  exact (Hfw demo_image (demo_time [2; 32]) None 2 8 8 fresh_state eq_refl ltac:(lia)
           ltac:(lia) ltac:(lia) eq_refl eq_refl).
Defined.

(** X5 on an attention of four heads of 32 dimensions with flash
    attention, on torch 2.1.0. *)
Lemma Attention_forward_keeps_the_shape_witness :
  exists a st1,
    @Attention_init demo_torch unit 3 4 32 true fresh_state = (Ok a, st1)
    /\ exists y st',
        Attention_forward a demo_image fresh_state = (Ok y, st')
        /\ shape y = shape demo_image.
Proof.
  destruct (Attention_forward_keeps_the_shape demo_torch unit 3 4 32 true fresh_state
              ltac:(lia) ltac:(lia) eq_refl (fun _ => demo_torch_runs_flash))
    as (a & st1 & E & Hfw).
  exists a, st1. split; [exact E |].
  exact (Hfw demo_image 2 8 8 fresh_state eq_refl ltac:(lia) ltac:(lia)).
Defined.

(** X11 on the image demo network and a label of 10 for 10 classes. *)
Lemma out_of_range_label_raises_IndexError_witness :
  exists st',
    Unet_forward demo_image demo_times (Some demo_bad_labels) None demo_unet_state
    = (Raise (IndexError "index out of range in self"), st')
    /\ rng st' = rng demo_unet_state.
Proof.
  exact (proj1 (out_of_range_label_raises_IndexError demo_torch demo_image demo_times
                  demo_bad_labels None 2 [3; 8; 8] demo_unet_conditioning eq_refl
                  demo_bad_labels_out_of_range)
           demo_unet_state eq_refl).
Defined.

(** X12 on the vector demo network, built for two columns, and data of
    three. *)
Lemma LinearNetwork_forward_refuses_another_width_witness :
  exists msg st',
    LinearNetwork_forward demo_wide_vector demo_times (Some demo_labels) None
      demo_linear_state
    = (Raise (RuntimeError msg), st')
    /\ net st' = net demo_linear_state.
Proof.
  exact (LinearNetwork_forward_refuses_another_width demo_torch unit demo_linear_config
           fresh_state _ demo_linear_state demo_wide_vector demo_times (Some demo_labels)
           None 2 3 demo_linear_net_built eq_refl ltac:(discriminate) (or_introl eq_refl)
           demo_labels_valid).
Defined.

(** X14 on the demo networks, guidance scale 2 and rescale factor 1/2. *)
Lemma forward_with_cond_scale_keeps_the_shape_witness :
  (exists y st',
      forward_with_cond_scale (Net := LinearNetwork) demo_vector demo_times
        (Some demo_labels) 2 (1 # 2) demo_linear_state
      = (Ok y, st')
      /\ shape y = shape demo_vector)
  /\ (exists y st',
      forward_with_cond_scale (Net := Unet) demo_image demo_times (Some demo_labels)
        2 (1 # 2) demo_unet_state
      = (Ok y, st')
      /\ shape y = shape demo_image).
Proof.
  split.
  - exact (proj1 (forward_with_cond_scale_keeps_the_shape demo_torch unit demo_vector
                    demo_times (Some demo_labels) 2 (1 # 2) 2 (or_introl eq_refl))
             demo_linear_config fresh_state _ demo_linear_state demo_linear_net_built
             eq_refl demo_labels_valid).
  - exact (proj2 (forward_with_cond_scale_keeps_the_shape demo_torch unit demo_image
                    demo_times (Some demo_labels) 2 (1 # 2) 2 (or_introl eq_refl))
             demo_unet_config fresh_state _ demo_unet_state 2 2 demo_unet_built
             demo_unet_config_valid eq_refl eq_refl ltac:(cbn; lia) demo_labels_valid).
Defined.

(** X16 on the demo configuration: three stages each way. *)
Lemma Unet_init_builds_one_stage_per_multiplier_witness :
  exists n st1,
    @Unet_init demo_torch unit demo_unet_config fresh_state = (Ok n, st1)
    /\ length (u_downs n) = 3
    /\ length (u_ups n) = 3
    /\ is_conditional_model (H := @Unet_BFNetwork demo_torch) n = true.
Proof.
  destruct (Unet_init_builds_one_stage_per_multiplier demo_torch unit demo_unet_config
              fresh_state demo_unet_config_buildable)
    as (n & st1 & E & Hd & Hu & Hc & _).
  exists n, st1. auto.
Defined.

(** X17 on the demo configuration with an initial width of 16. *)
Lemma Unet_with_another_init_dim_cannot_run_witness :
  exists msg st',
    Unet_forward demo_image demo_times (Some demo_labels) None demo_unet_init16_state
    = (Raise (RuntimeError msg), st').
Proof.
  exact (Unet_with_another_init_dim_cannot_run demo_torch unit demo_unet_config_init16 16
           fresh_state _ demo_unet_init16_state demo_image demo_times (Some demo_labels)
           None 2 2 2 demo_unet_config_init16_buildable eq_refl ltac:(discriminate)
           demo_unet_init16_built eq_refl ltac:(cbn; lia) (or_introl eq_refl)
           demo_labels_valid).
Defined.
